(** * Overwitch engine (src/engine.c): a shallow embedding and its properties

    The development follows the C source function by function.  Machine
    integers are [Z] with their wrap-around written out, [float] values
    are IEEE-754 binary32 numbers ([spec_float] at precision 24), C arrays
    are lists accessed by index, structs are records, and the host
    callbacks reached through [engine->context] are functions on an
    abstract host state whose invocations are logged. *)

From Stdlib Require Import ZArith Lia QArith Qabs.
From stdpp Require Import base list strings.
From Stdlib Require Import Floats.SpecFloat.

Local Open Scope Z_scope.

(** ** Fixed-width integers and <endian.h> *)

Definition to_uint16 (x : Z) : Z := x mod 2 ^ 16.
Definition to_uint32 (x : Z) : Z := x mod 2 ^ 32.

(** Conversion of a 32-bit pattern to [int32_t] (two's complement). *)
Definition to_int32 (x : Z) : Z :=
  let u := to_uint32 x in if u <? 2 ^ 31 then u else u - 2 ^ 32.

Definition INT_MAX : Z := 2147483647.
Definition INT_MIN : Z := -2147483648.

(** Conversion to [size_t], which is 64 bits wide on the LP64 hosts
    (x86-64, AArch64). *)
Definition to_size_t (x : Z) : Z := x mod 2 ^ 64.

Definition int32_range (x : Z) : Prop := INT_MIN <= x <= INT_MAX.

(** The [k]-th byte of a word, counted from the least significant one. *)
Definition byte_of (k x : Z) : Z := Z.land (Z.shiftr x (8 * k)) 255.

Definition bswap_16 (x : Z) : Z :=
  Z.lor (Z.shiftl (byte_of 0 x) 8) (byte_of 1 x).

Definition bswap_32 (x : Z) : Z :=
  Z.lor (Z.shiftl (byte_of 0 x) 24)
    (Z.lor (Z.shiftl (byte_of 1 x) 16)
       (Z.lor (Z.shiftl (byte_of 2 x) 8) (byte_of 3 x))).

(** glibc's <endian.h> on a little-endian host (x86-64, AArch64): the
    conversions to and from big-endian are byte swaps.  The argument is
    converted to the unsigned parameter type first. *)
Definition htobe16 (x : Z) : Z := bswap_16 (to_uint16 x).
Definition be16toh (x : Z) : Z := bswap_16 (to_uint16 x).
Definition htobe32 (x : Z) : Z := bswap_32 (to_uint32 x).
Definition be32toh (x : Z) : Z := bswap_32 (to_uint32 x).

(** ** The C type [float] *)

Module F32.

Definition prec : Z := 24.
Definition emax : Z := 128.

Definition mul (x y : spec_float) : spec_float := SFmul prec emax x y.

(** Conversion of an [int] to [float]: round to nearest, ties to even. *)
Definition of_int (z : Z) : spec_float := binary_normalize prec emax z 0 false.

(** The magnitude of a finite number truncated to an integer. *)
Definition trunc_mag (m : positive) (e : Z) : Z :=
  if 0 <=? e then Z.pos m * 2 ^ e else Z.pos m / 2 ^ (- e).

(** The integer part of a number (rounding toward zero); infinities and
    NaN have none. *)
Definition trunc (x : spec_float) : option Z :=
  match x with
  | S754_zero _ => Some 0
  | S754_finite s m e => Some (cond_Zopp s (trunc_mag m e))
  | S754_infinity _ | S754_nan => None
  end.

(** The cast [(int32_t) x].  C leaves the conversion undefined when the
    integer part does not fit; the x86-64 instruction (cvttss2si) then
    yields the pattern 0x80000000, which is what is modelled here. *)
Definition to_int32 (x : spec_float) : Z :=
  match trunc x with
  | Some z => if (INT_MIN <=? z) && (z <=? INT_MAX) then z else INT_MIN
  | None => INT_MIN
  end.

(** The cast is defined by the C standard exactly on these arguments. *)
Definition cast_defined (x : spec_float) : Prop :=
  exists z, trunc x = Some z /\ int32_range z.

Definition zero : spec_float := S754_zero false.
Definition one : spec_float := S754_finite false 8388608 (-23).
Definition half : spec_float := S754_finite false 8388608 (-24).

(** The exact value of a number, when it is finite. *)
Definition to_Q (x : spec_float) : option Q :=
  match x with
  | S754_zero _ => Some 0%Q
  | S754_finite s m e =>
      Some (if 0 <=? e then inject_Z (cond_Zopp s (Z.pos m * 2 ^ e))
            else Qmake (cond_Zopp s (Z.pos m)) (Z.to_pos (2 ^ (- e))))
  | S754_infinity _ | S754_nan => None
  end.

Definition valid (x : spec_float) : bool := valid_binary prec emax x.

End F32.

#[global] Instance spec_float_inhabited : Inhabited spec_float :=
  populate F32.zero.

(** ** Constants of the headers

    Modelled from the spec: the headers engine.h and overwitch.h are not
    among the sources.  The spec fixes seven frames per block (four blocks
    make 28 frames), four bytes per sample, four-byte MIDI events, a block
    header of two 16-bit words before the samples, a 16-bit running frame
    counter and the order of the states.  The bits of the options and the
    numbering of the errors, which the spec does not give, are distinct
    single bits and the order of the string table. *)

Definition OB_FRAMES_PER_BLOCK : Z := 7.
Definition OB_BYTES_PER_SAMPLE : Z := 4.
Definition OB_MIDI_EVENT_SIZE : Z := 4.
Definition USB_BULK_MIDI_SIZE : Z := 512.

(** [sizeof (struct ow_engine_usb_blk)]: [header] and [frames], the sample
    array being a flexible member. *)
Definition sizeof_usb_blk : Z := 4.

(** [sizeof (int32_t)]. *)
Definition sizeof_int32 : Z := 4.

(** [sizeof (struct ow_midi_event)]: a [double] and four bytes, padded to
    the alignment of the [double]. *)
Definition sizeof_midi_event : Z := 16.

(** [ow_engine_status_t], with the values of the enumeration: the spec
    orders the states ERROR < STOP < READY < BOOT < WAIT < RUN. *)
Inductive ow_engine_status_t :=
| OW_ENGINE_STATUS_ERROR
| OW_ENGINE_STATUS_STOP
| OW_ENGINE_STATUS_READY
| OW_ENGINE_STATUS_BOOT
| OW_ENGINE_STATUS_WAIT
| OW_ENGINE_STATUS_RUN.

Definition status_val (s : ow_engine_status_t) : Z :=
  match s with
  | OW_ENGINE_STATUS_ERROR => -1
  | OW_ENGINE_STATUS_STOP => 0
  | OW_ENGINE_STATUS_READY => 1
  | OW_ENGINE_STATUS_BOOT => 2
  | OW_ENGINE_STATUS_WAIT => 3
  | OW_ENGINE_STATUS_RUN => 4
  end.

Definition status_eqb (a b : ow_engine_status_t) : bool :=
  status_val a =? status_val b.

(** The bits of [context->options]. *)
Definition OW_ENGINE_OPTION_O2P_AUDIO : Z := 1.
Definition OW_ENGINE_OPTION_P2O_AUDIO : Z := 2.
Definition OW_ENGINE_OPTION_O2P_MIDI : Z := 4.
Definition OW_ENGINE_OPTION_P2O_MIDI : Z := 8.
Definition OW_ENGINE_OPTION_DLL : Z := 16.

(** ** Data model *)

(** [struct ow_device_desc], without the display names. *)
Record ow_device_desc := {
  inputs : Z;
  outputs : Z;
  output_track_scales : list spec_float
}.

(** [struct ow_engine_usb_blk]: the fields hold the words as the host reads
    them from memory; the device reads the same bytes as big-endian. *)
Record ow_engine_usb_blk := {
  header : Z;
  frames : Z;
  data : list Z
}.

#[global] Instance usb_blk_inhabited : Inhabited ow_engine_usb_blk :=
  populate {| header := 0; frames := 0; data := [] |}.

(** [struct ow_midi_event]. *)
Record ow_midi_event := {
  time : spec_float;
  bytes : list Z
}.

(** The member [usb] of [struct ow_engine]; the libusb handles are left
    to the environment.  [usb_frames] is the counter [usb.frames], an
    unsigned 16-bit integer. *)
Record ow_engine_usb := {
  usb_frames : Z;
  data_in : list ow_engine_usb_blk;
  data_out : list ow_engine_usb_blk;
  data_in_blk_len : Z;
  data_out_blk_len : Z;
  data_in_len : Z;
  data_out_len : Z
}.

(** The member [options] of [struct ow_engine]. *)
Record ow_engine_options := {
  o2p_audio : Z;
  p2o_audio : Z;
  o2p_midi : Z;
  p2o_midi : Z;
  dll : Z
}.

(** [struct ow_engine].  The pointer [context] is represented by the
    context object itself, which the functions that dereference it take
    as an argument. *)
Record ow_engine := {
  device_desc : ow_device_desc;
  usb : ow_engine_usb;
  blocks_per_transfer : Z;
  frames_per_transfer : Z;
  p2o_frame_size : Z;
  o2p_frame_size : Z;
  p2o_transfer_size : Z;
  o2p_transfer_size : Z;
  p2o_transfer_buf : list spec_float;
  o2p_transfer_buf : list spec_float;
  p2o_resampler_buf : list spec_float;
  p2o_midi_data : list Z;
  o2p_midi_data : list Z;
  status : ow_engine_status_t;
  options : ow_engine_options;
  p2o_latency : Z;
  p2o_max_latency : Z;
  o2p_latency : Z;
  o2p_max_latency : Z;
  reading_at_p2o_end : Z;
  p2o_midi_ready : Z
}.

Definition set_usb (u : ow_engine_usb) (e : ow_engine) : ow_engine :=
  {| device_desc := device_desc e; usb := u;
     blocks_per_transfer := blocks_per_transfer e;
     frames_per_transfer := frames_per_transfer e;
     p2o_frame_size := p2o_frame_size e; o2p_frame_size := o2p_frame_size e;
     p2o_transfer_size := p2o_transfer_size e;
     o2p_transfer_size := o2p_transfer_size e;
     p2o_transfer_buf := p2o_transfer_buf e;
     o2p_transfer_buf := o2p_transfer_buf e;
     p2o_resampler_buf := p2o_resampler_buf e;
     p2o_midi_data := p2o_midi_data e; o2p_midi_data := o2p_midi_data e;
     status := status e; options := options e;
     p2o_latency := p2o_latency e; p2o_max_latency := p2o_max_latency e;
     o2p_latency := o2p_latency e; o2p_max_latency := o2p_max_latency e;
     reading_at_p2o_end := reading_at_p2o_end e;
     p2o_midi_ready := p2o_midi_ready e |}.

Definition set_o2p_transfer_buf (b : list spec_float) (e : ow_engine)
  : ow_engine :=
  {| device_desc := device_desc e; usb := usb e;
     blocks_per_transfer := blocks_per_transfer e;
     frames_per_transfer := frames_per_transfer e;
     p2o_frame_size := p2o_frame_size e; o2p_frame_size := o2p_frame_size e;
     p2o_transfer_size := p2o_transfer_size e;
     o2p_transfer_size := o2p_transfer_size e;
     p2o_transfer_buf := p2o_transfer_buf e;
     o2p_transfer_buf := b;
     p2o_resampler_buf := p2o_resampler_buf e;
     p2o_midi_data := p2o_midi_data e; o2p_midi_data := o2p_midi_data e;
     status := status e; options := options e;
     p2o_latency := p2o_latency e; p2o_max_latency := p2o_max_latency e;
     o2p_latency := o2p_latency e; o2p_max_latency := o2p_max_latency e;
     reading_at_p2o_end := reading_at_p2o_end e;
     p2o_midi_ready := p2o_midi_ready e |}.

Definition set_p2o_transfer_buf (b : list spec_float) (e : ow_engine)
  : ow_engine :=
  {| device_desc := device_desc e; usb := usb e;
     blocks_per_transfer := blocks_per_transfer e;
     frames_per_transfer := frames_per_transfer e;
     p2o_frame_size := p2o_frame_size e; o2p_frame_size := o2p_frame_size e;
     p2o_transfer_size := p2o_transfer_size e;
     o2p_transfer_size := o2p_transfer_size e;
     p2o_transfer_buf := b;
     o2p_transfer_buf := o2p_transfer_buf e;
     p2o_resampler_buf := p2o_resampler_buf e;
     p2o_midi_data := p2o_midi_data e; o2p_midi_data := o2p_midi_data e;
     status := status e; options := options e;
     p2o_latency := p2o_latency e; p2o_max_latency := p2o_max_latency e;
     o2p_latency := o2p_latency e; o2p_max_latency := o2p_max_latency e;
     reading_at_p2o_end := reading_at_p2o_end e;
     p2o_midi_ready := p2o_midi_ready e |}.

Definition set_status (s : ow_engine_status_t) (e : ow_engine) : ow_engine :=
  {| device_desc := device_desc e; usb := usb e;
     blocks_per_transfer := blocks_per_transfer e;
     frames_per_transfer := frames_per_transfer e;
     p2o_frame_size := p2o_frame_size e; o2p_frame_size := o2p_frame_size e;
     p2o_transfer_size := p2o_transfer_size e;
     o2p_transfer_size := o2p_transfer_size e;
     p2o_transfer_buf := p2o_transfer_buf e;
     o2p_transfer_buf := o2p_transfer_buf e;
     p2o_resampler_buf := p2o_resampler_buf e;
     p2o_midi_data := p2o_midi_data e; o2p_midi_data := o2p_midi_data e;
     status := s; options := options e;
     p2o_latency := p2o_latency e; p2o_max_latency := p2o_max_latency e;
     o2p_latency := o2p_latency e; o2p_max_latency := o2p_max_latency e;
     reading_at_p2o_end := reading_at_p2o_end e;
     p2o_midi_ready := p2o_midi_ready e |}.

Definition set_options (o : ow_engine_options) (e : ow_engine) : ow_engine :=
  {| device_desc := device_desc e; usb := usb e;
     blocks_per_transfer := blocks_per_transfer e;
     frames_per_transfer := frames_per_transfer e;
     p2o_frame_size := p2o_frame_size e; o2p_frame_size := o2p_frame_size e;
     p2o_transfer_size := p2o_transfer_size e;
     o2p_transfer_size := o2p_transfer_size e;
     p2o_transfer_buf := p2o_transfer_buf e;
     o2p_transfer_buf := o2p_transfer_buf e;
     p2o_resampler_buf := p2o_resampler_buf e;
     p2o_midi_data := p2o_midi_data e; o2p_midi_data := o2p_midi_data e;
     status := status e; options := o;
     p2o_latency := p2o_latency e; p2o_max_latency := p2o_max_latency e;
     o2p_latency := o2p_latency e; o2p_max_latency := o2p_max_latency e;
     reading_at_p2o_end := reading_at_p2o_end e;
     p2o_midi_ready := p2o_midi_ready e |}.

(** [engine->o2p_latency = l], followed by the update of the maximum. *)
Definition set_o2p_latencies (l m : Z) (e : ow_engine) : ow_engine :=
  {| device_desc := device_desc e; usb := usb e;
     blocks_per_transfer := blocks_per_transfer e;
     frames_per_transfer := frames_per_transfer e;
     p2o_frame_size := p2o_frame_size e; o2p_frame_size := o2p_frame_size e;
     p2o_transfer_size := p2o_transfer_size e;
     o2p_transfer_size := o2p_transfer_size e;
     p2o_transfer_buf := p2o_transfer_buf e;
     o2p_transfer_buf := o2p_transfer_buf e;
     p2o_resampler_buf := p2o_resampler_buf e;
     p2o_midi_data := p2o_midi_data e; o2p_midi_data := o2p_midi_data e;
     status := status e; options := options e;
     p2o_latency := p2o_latency e; p2o_max_latency := p2o_max_latency e;
     o2p_latency := l; o2p_max_latency := m;
     reading_at_p2o_end := reading_at_p2o_end e;
     p2o_midi_ready := p2o_midi_ready e |}.

(** The resets at the head of the audio worker's outer loop. *)
Definition reset_counters (e : ow_engine) : ow_engine :=
  {| device_desc := device_desc e; usb := usb e;
     blocks_per_transfer := blocks_per_transfer e;
     frames_per_transfer := frames_per_transfer e;
     p2o_frame_size := p2o_frame_size e; o2p_frame_size := o2p_frame_size e;
     p2o_transfer_size := p2o_transfer_size e;
     o2p_transfer_size := o2p_transfer_size e;
     p2o_transfer_buf := p2o_transfer_buf e;
     o2p_transfer_buf := o2p_transfer_buf e;
     p2o_resampler_buf := p2o_resampler_buf e;
     p2o_midi_data := p2o_midi_data e; o2p_midi_data := o2p_midi_data e;
     status := status e; options := options e;
     p2o_latency := 0; p2o_max_latency := 0;
     o2p_latency := 0; o2p_max_latency := 0;
     reading_at_p2o_end := 0;
     p2o_midi_ready := p2o_midi_ready e |}.

Definition set_o2p_midi_data (d : list Z) (e : ow_engine) : ow_engine :=
  {| device_desc := device_desc e; usb := usb e;
     blocks_per_transfer := blocks_per_transfer e;
     frames_per_transfer := frames_per_transfer e;
     p2o_frame_size := p2o_frame_size e; o2p_frame_size := o2p_frame_size e;
     p2o_transfer_size := p2o_transfer_size e;
     o2p_transfer_size := o2p_transfer_size e;
     p2o_transfer_buf := p2o_transfer_buf e;
     o2p_transfer_buf := o2p_transfer_buf e;
     p2o_resampler_buf := p2o_resampler_buf e;
     p2o_midi_data := p2o_midi_data e; o2p_midi_data := d;
     status := status e; options := options e;
     p2o_latency := p2o_latency e; p2o_max_latency := p2o_max_latency e;
     o2p_latency := o2p_latency e; o2p_max_latency := o2p_max_latency e;
     reading_at_p2o_end := reading_at_p2o_end e;
     p2o_midi_ready := p2o_midi_ready e |}.

Definition set_usb_frames (f : Z) (u : ow_engine_usb) : ow_engine_usb :=
  {| usb_frames := f; data_in := data_in u; data_out := data_out u;
     data_in_blk_len := data_in_blk_len u;
     data_out_blk_len := data_out_blk_len u;
     data_in_len := data_in_len u; data_out_len := data_out_len u |}.

Definition set_data_out (d : list ow_engine_usb_blk) (u : ow_engine_usb)
  : ow_engine_usb :=
  {| usb_frames := usb_frames u; data_in := data_in u; data_out := d;
     data_in_blk_len := data_in_blk_len u;
     data_out_blk_len := data_out_blk_len u;
     data_in_len := data_in_len u; data_out_len := data_out_len u |}.

Definition set_data_in (d : list ow_engine_usb_blk) (u : ow_engine_usb)
  : ow_engine_usb :=
  {| usb_frames := usb_frames u; data_in := d; data_out := data_out u;
     data_in_blk_len := data_in_blk_len u;
     data_out_blk_len := data_out_blk_len u;
     data_in_len := data_in_len u; data_out_len := data_out_len u |}.

Definition set_blk_frames (f : Z) (b : ow_engine_usb_blk) : ow_engine_usb_blk :=
  {| header := header b; frames := f; data := data b |}.

Definition set_blk_header (h : Z) (b : ow_engine_usb_blk) : ow_engine_usb_blk :=
  {| header := h; frames := frames b; data := data b |}.

Definition set_blk_data (d : list Z) (b : ow_engine_usb_blk) : ow_engine_usb_blk :=
  {| header := header b; frames := frames b; data := d |}.

(** ** Control structure *)

(** [for (int i = 0; i < n; i++) body]: [for_loop n 0 body]. *)
Fixpoint for_loop {St : Type} (n i : nat) (body : nat -> St -> St) (st : St) : St :=
  match n with
  | O => st
  | S n' => for_loop n' (S i) body (body i st)
  end.

(** ** Packet codec *)

(** The pointers [s] (into the samples of a block) and [f] (into a float
    buffer) are offsets from the start of the array they walk. *)
Record cursor (A : Type) := {
  cur_s : nat;
  cur_f : nat;
  cur_mem : A
}.
Arguments cur_s {A} _.
Arguments cur_f {A} _.
Arguments cur_mem {A} _.

(** Body of the loop over [k] in [ow_engine_read_usb_input_blocks]:
    [hv = be32toh (s[0]); f[0] = hv * scale[0]; f++; s++]. *)
Definition read_sample (scales : list spec_float) (d : list Z) (k : nat)
    (c : cursor (list spec_float)) : cursor (list spec_float) :=
  let hv := to_int32 (be32toh (d !!! cur_s c)) in
  {| cur_s := S (cur_s c);
     cur_f := S (cur_f c);
     cur_mem := <[cur_f c := F32.mul (F32.of_int hv) (scales !!! k)]> (cur_mem c) |}.

Definition read_frame (desc : ow_device_desc) (d : list Z) (j : nat)
    (c : cursor (list spec_float)) : cursor (list spec_float) :=
  for_loop (Z.to_nat (outputs desc)) 0
    (read_sample (output_track_scales desc) d) c.

(** Body of the loop over the blocks: [s] restarts at [blk->data], [f]
    carries on. *)
Definition read_block (e : ow_engine) (i : nat)
    (c : cursor (list spec_float)) : cursor (list spec_float) :=
  let blk := data_in (usb e) !!! i in
  for_loop (Z.to_nat OB_FRAMES_PER_BLOCK) 0
    (read_frame (device_desc e) (data blk))
    {| cur_s := 0; cur_f := cur_f c; cur_mem := cur_mem c |}.

Definition ow_engine_read_usb_input_blocks (e : ow_engine) : ow_engine :=
  let c := for_loop (Z.to_nat (blocks_per_transfer e)) 0 (read_block e)
             {| cur_s := 0; cur_f := 0; cur_mem := o2p_transfer_buf e |} in
  set_o2p_transfer_buf (cur_mem c) e.

(** Body of the loop over [k] in [ow_engine_write_usb_output_blocks]:
    [ov = htobe32 ((int32_t) (f[0] * INT_MAX)); s[0] = ov; f++; s++].  The
    product is a [float] product, [INT_MAX] being converted first. *)
Definition write_sample (buf : list spec_float) (k : nat)
    (c : cursor (list Z)) : cursor (list Z) :=
  let ov :=
    to_int32
      (htobe32 (F32.to_int32 (F32.mul (buf !!! cur_f c) (F32.of_int INT_MAX)))) in
  {| cur_s := S (cur_s c);
     cur_f := S (cur_f c);
     cur_mem := <[cur_s c := ov]> (cur_mem c) |}.

Definition write_frame (desc : ow_device_desc) (buf : list spec_float)
    (j : nat) (c : cursor (list Z)) : cursor (list Z) :=
  for_loop (Z.to_nat (inputs desc)) 0 (write_sample buf) c.

(** State of the loop over the blocks: the engine (for [usb.frames] and
    [usb.data_out]) and the pointer [f]. *)
Definition write_block (i : nat) (st : nat * ow_engine) : nat * ow_engine :=
  let '(f, e) := st in
  let blk := data_out (usb e) !!! i in
  let blk := set_blk_frames (htobe16 (usb_frames (usb e))) blk in
  let frames' := to_uint16 (usb_frames (usb e) + OB_FRAMES_PER_BLOCK) in
  let c := for_loop (Z.to_nat OB_FRAMES_PER_BLOCK) 0
             (write_frame (device_desc e) (p2o_transfer_buf e))
             {| cur_s := 0; cur_f := f; cur_mem := data blk |} in
  let blk := set_blk_data (cur_mem c) blk in
  (cur_f c,
   set_usb (set_usb_frames frames' (set_data_out (<[i := blk]> (data_out (usb e))) (usb e))) e).

Definition ow_engine_write_usb_output_blocks (e : ow_engine) : ow_engine :=
  snd (for_loop (Z.to_nat (blocks_per_transfer e)) 0 write_block (0%nat, e)).

(** ** Memory initialisation *)

(** [malloc] followed by [memset (.., 0, ..)] of [n] blocks of [samples]
    samples each. *)
Definition zero_blocks (n samples : Z) : list ow_engine_usb_blk :=
  replicate (Z.to_nat n)
    {| header := 0; frames := 0; data := replicate (Z.to_nat samples) 0 |}.

(** A zeroed buffer of [size] bytes seen as an array of [float]. *)
Definition zero_floats (size : Z) : list spec_float :=
  replicate (Z.to_nat (size / 4)) F32.zero.

(** [blk = GET_NTH_OUTPUT_USB_BLK (engine, i); blk->header = htobe16 (0x07ff)]. *)
Definition stamp_header (i : nat) (d : list ow_engine_usb_blk)
  : list ow_engine_usb_blk :=
  <[i := set_blk_header (htobe16 2047) (d !!! i)]> d.

Definition ow_engine_init_mem (e : ow_engine) (blocks : Z) : ow_engine :=
  let desc := device_desc e in
  let fpt := OB_FRAMES_PER_BLOCK * blocks in
  let in_blk_len := sizeof_usb_blk + sizeof_int32 * OB_FRAMES_PER_BLOCK * outputs desc in
  let out_blk_len := sizeof_usb_blk + sizeof_int32 * OB_FRAMES_PER_BLOCK * inputs desc in
  let din := zero_blocks blocks ((in_blk_len - sizeof_usb_blk) / sizeof_int32) in
  let dout := zero_blocks blocks ((out_blk_len - sizeof_usb_blk) / sizeof_int32) in
  let dout := for_loop (Z.to_nat blocks) 0 stamp_header dout in
  let p2o_fs := OB_BYTES_PER_SAMPLE * inputs desc in
  let o2p_fs := OB_BYTES_PER_SAMPLE * outputs desc in
  let p2o_ts := fpt * p2o_fs in
  let o2p_ts := fpt * o2p_fs in
  {| device_desc := desc;
     usb := {| usb_frames := 0; data_in := din; data_out := dout;
               data_in_blk_len := in_blk_len; data_out_blk_len := out_blk_len;
               data_in_len := in_blk_len * blocks;
               data_out_len := out_blk_len * blocks |};
     blocks_per_transfer := blocks;
     frames_per_transfer := fpt;
     p2o_frame_size := p2o_fs; o2p_frame_size := o2p_fs;
     p2o_transfer_size := p2o_ts; o2p_transfer_size := o2p_ts;
     p2o_transfer_buf := zero_floats p2o_ts;
     o2p_transfer_buf := zero_floats o2p_ts;
     p2o_resampler_buf := zero_floats p2o_ts;
     p2o_midi_data := replicate (Z.to_nat USB_BULK_MIDI_SIZE) 0;
     o2p_midi_data := replicate (Z.to_nat USB_BULK_MIDI_SIZE) 0;
     status := status e; options := options e;
     p2o_latency := p2o_latency e; p2o_max_latency := p2o_max_latency e;
     o2p_latency := o2p_latency e; o2p_max_latency := o2p_max_latency e;
     reading_at_p2o_end := reading_at_p2o_end e;
     p2o_midi_ready := p2o_midi_ready e |}.

(** An engine as it is before [ow_engine_init_mem]: only the device
    descriptor is set.  The members that the initialisation leaves alone
    are taken to be zero, the status being STOP as the specification has it
    for a constructed engine. *)
Definition blank_engine (desc : ow_device_desc) : ow_engine :=
  {| device_desc := desc;
     usb := {| usb_frames := 0; data_in := []; data_out := [];
               data_in_blk_len := 0; data_out_blk_len := 0;
               data_in_len := 0; data_out_len := 0 |};
     blocks_per_transfer := 0; frames_per_transfer := 0;
     p2o_frame_size := 0; o2p_frame_size := 0;
     p2o_transfer_size := 0; o2p_transfer_size := 0;
     p2o_transfer_buf := []; o2p_transfer_buf := []; p2o_resampler_buf := [];
     p2o_midi_data := []; o2p_midi_data := [];
     status := OW_ENGINE_STATUS_STOP;
     options := {| o2p_audio := 0; p2o_audio := 0; o2p_midi := 0;
                   p2o_midi := 0; dll := 0 |};
     p2o_latency := 0; p2o_max_latency := 0;
     o2p_latency := 0; o2p_max_latency := 0;
     reading_at_p2o_end := 0; p2o_midi_ready := 0 |}.

(** ** The host context and the environment *)

(** What a [void *] handed to the ring's [write] points to. *)
Inductive payload :=
| Audio (buf : list spec_float)
| Midi (ev : ow_midi_event).

Inductive thread_id := p2o_midi_thread | audio_o2p_midi_thread.

(** Calls that leave the engine, in the order in which they happen. *)
Inductive call :=
| call_get_time (t : spec_float)
| call_dll_inc (dll_ptr frames_n : Z) (t : spec_float)
| call_dll_init (dll_ptr rate frames_n : Z) (t : spec_float)
| call_read (ring len : Z)
| call_read_space (ring ret : Z)
| call_write_space (ring ret : Z)
| call_write (ring : Z) (src : payload) (len : Z)
| call_submit_transfer (endpoint ret : Z)
| call_pthread_create (t : thread_id) (ret : Z)
| call_set_rt_priority (t : thread_id) (prio : Z)
| call_pthread_join (t : thread_id).

(** [enum libusb_transfer_status]. *)
Inductive libusb_transfer_status :=
| LIBUSB_TRANSFER_COMPLETED
| LIBUSB_TRANSFER_ERROR
| LIBUSB_TRANSFER_TIMED_OUT
| LIBUSB_TRANSFER_CANCELLED
| LIBUSB_TRANSFER_STALL
| LIBUSB_TRANSFER_NO_DEVICE
| LIBUSB_TRANSFER_OVERFLOW.

(** The members of [struct libusb_transfer] the callbacks read. *)
Record libusb_transfer := {
  xfr_status : libusb_transfer_status;
  actual_length : Z
}.

Definition AUDIO_IN_EP : Z := 131.
Definition AUDIO_OUT_EP : Z := 3.
Definition MIDI_IN_EP : Z := 129.
Definition MIDI_OUT_EP : Z := 1.

Definition OW_DEFAULT_RT_PROPERTY : Z := 20.
Definition OB_SAMPLE_RATE : Z := 48000.

(** [ow_err_t]: the numeric tag of an error indexes the string table. *)
Inductive ow_err_t :=
| OW_OK
| OW_GENERIC_ERROR
| OW_USB_ERROR_LIBUSB_INIT_FAILED
| OW_USB_ERROR_CANT_OPEN_DEV
| OW_USB_ERROR_CANT_SET_USB_CONFIG
| OW_USB_ERROR_CANT_CLAIM_IF
| OW_USB_ERROR_CANT_SET_ALT_SETTING
| OW_USB_ERROR_CANT_CLEAR_EP
| OW_USB_ERROR_CANT_PREPARE_TRANSFER
| OW_USB_ERROR_CANT_FIND_DEV
| OW_INIT_ERROR_NO_READ_SPACE
| OW_INIT_ERROR_NO_WRITE_SPACE
| OW_INIT_ERROR_NO_READ
| OW_INIT_ERROR_NO_WRITE
| OW_INIT_ERROR_NO_P2O_AUDIO_BUF
| OW_INIT_ERROR_NO_O2P_AUDIO_BUF
| OW_INIT_ERROR_NO_P2O_MIDI_BUF
| OW_INIT_ERROR_NO_O2P_MIDI_BUF
| OW_INIT_ERROR_NO_GET_TIME
| OW_INIT_ERROR_NO_DLL.

Definition err_tag (e : ow_err_t) : Z :=
  match e with
  | OW_OK => 0
  | OW_GENERIC_ERROR => 1
  | OW_USB_ERROR_LIBUSB_INIT_FAILED => 2
  | OW_USB_ERROR_CANT_OPEN_DEV => 3
  | OW_USB_ERROR_CANT_SET_USB_CONFIG => 4
  | OW_USB_ERROR_CANT_CLAIM_IF => 5
  | OW_USB_ERROR_CANT_SET_ALT_SETTING => 6
  | OW_USB_ERROR_CANT_CLEAR_EP => 7
  | OW_USB_ERROR_CANT_PREPARE_TRANSFER => 8
  | OW_USB_ERROR_CANT_FIND_DEV => 9
  | OW_INIT_ERROR_NO_READ_SPACE => 10
  | OW_INIT_ERROR_NO_WRITE_SPACE => 11
  | OW_INIT_ERROR_NO_READ => 12
  | OW_INIT_ERROR_NO_WRITE => 13
  | OW_INIT_ERROR_NO_P2O_AUDIO_BUF => 14
  | OW_INIT_ERROR_NO_O2P_AUDIO_BUF => 15
  | OW_INIT_ERROR_NO_P2O_MIDI_BUF => 16
  | OW_INIT_ERROR_NO_O2P_MIDI_BUF => 17
  | OW_INIT_ERROR_NO_GET_TIME => 18
  | OW_INIT_ERROR_NO_DLL => 19
  end.

Section Host.

(** The state of everything outside the engine: the host's rings, its
    clock and its DLL, the USB library and the thread library. *)
Context {H : Type}.

(** [struct ow_context].  A function pointer is [None] when it is NULL;
    the rings and the DLL are opaque addresses, 0 being NULL. *)
Record ow_context := {
  ctx_read_space : option (Z -> H -> Z * H);
  ctx_write_space : option (Z -> H -> Z * H);
  ctx_read : option (Z -> Z -> H -> Z * H);
  ctx_write : option (Z -> payload -> Z -> H -> Z * H);
  ctx_get_time : option (H -> spec_float * H);
  ctx_dll : Z;
  ctx_p2o_audio : Z;
  ctx_o2p_audio : Z;
  ctx_p2o_midi : Z;
  ctx_o2p_midi : Z;
  ctx_set_rt_priority : option (thread_id -> Z -> H -> H);
  ctx_priority : Z;
  ctx_options : Z
}.

(** Functions of libusb, of the DLL module and of the thread library. *)
Record environment := {
  libusb_submit_transfer : Z -> H -> Z * H;
  ow_dll_overwitch_inc : Z -> Z -> spec_float -> H -> H;
  ow_dll_overwitch_init : Z -> Z -> Z -> spec_float -> H -> H;
  pthread_create : thread_id -> H -> Z * H;
  pthread_join : thread_id -> H -> H;
  ow_set_thread_rt_priority : thread_id -> Z -> H -> H
}.

Record world := {
  host : H;
  log : list call
}.

(** Computations that call out of the engine; [None] is a call through
    a NULL function pointer. *)
Definition M (A : Type) : Type := world -> option (A * world).

Definition ret {A} (a : A) : M A := fun w => Some (a, w).

Definition bind {A B} (m : M A) (k : A -> M B) : M B :=
  fun w => match m w with
           | Some (a, w') => k a w'
           | None => None
           end.

Definition null_call {A} : M A := fun _ => None.

Definition emit (c : call) (h : H) (w : world) : world :=
  {| host := h; log := log w ++ [c] |}.

End Host.

Arguments ow_context : clear implicits.
Arguments environment : clear implicits.
Arguments world : clear implicits.
Arguments M : clear implicits.

Declare Scope engine_scope.
Delimit Scope engine_scope with engine.
Notation "x <- m ;; k" := (bind m (fun x => k))
  (at level 100, m at next level, right associativity) : engine_scope.
Notation "m ;;; k" := (bind m (fun _ => k))
  (at level 100, right associativity) : engine_scope.

Section Engine.

Context {H : Type}.
Variable env : environment H.

Local Open Scope engine_scope.

(** *** Calls through the context *)

Definition get_time (ctx : ow_context H) : M H spec_float :=
  match ctx_get_time ctx with
  | None => null_call
  | Some g => fun w =>
      let '(t, h) := g (host w) in Some (t, emit (call_get_time t) h w)
  end.

Definition read_space (ctx : ow_context H) (ring : Z) : M H Z :=
  match ctx_read_space ctx with
  | None => null_call
  | Some g => fun w =>
      let '(n, h) := g ring (host w) in Some (n, emit (call_read_space ring n) h w)
  end.

Definition write_space (ctx : ow_context H) (ring : Z) : M H Z :=
  match ctx_write_space ctx with
  | None => null_call
  | Some g => fun w =>
      let '(n, h) := g ring (host w) in Some (n, emit (call_write_space ring n) h w)
  end.

Definition write (ctx : ow_context H) (ring : Z) (src : payload) (len : Z)
  : M H Z :=
  match ctx_write ctx with
  | None => null_call
  | Some g => fun w =>
      let '(n, h) := g ring src len (host w) in
      Some (n, emit (call_write ring src len) h w)
  end.

(** [context->read (ring, NULL, len)]: the bytes are discarded. *)
Definition read_discard (ctx : ow_context H) (ring len : Z) : M H Z :=
  match ctx_read ctx with
  | None => null_call
  | Some g => fun w =>
      let '(n, h) := g ring len (host w) in Some (n, emit (call_read ring len) h w)
  end.

Definition set_rt_priority (ctx : ow_context H) (t : thread_id) (prio : Z)
  : M H unit :=
  match ctx_set_rt_priority ctx with
  | None => null_call
  | Some g => fun w =>
      Some (tt, emit (call_set_rt_priority t prio) (g t prio (host w)) w)
  end.

(** *** Calls into the libraries *)

Definition dll_inc (dll_ptr frames_n : Z) (t : spec_float) : M H unit :=
  fun w => Some (tt, emit (call_dll_inc dll_ptr frames_n t)
                       (ow_dll_overwitch_inc env dll_ptr frames_n t (host w)) w).

Definition dll_init (dll_ptr rate frames_n : Z) (t : spec_float) : M H unit :=
  fun w => Some (tt, emit (call_dll_init dll_ptr rate frames_n t)
                       (ow_dll_overwitch_init env dll_ptr rate frames_n t (host w)) w).

Definition submit_transfer (endpoint : Z) : M H Z :=
  fun w => let '(r, h) := libusb_submit_transfer env endpoint (host w) in
           Some (r, emit (call_submit_transfer endpoint r) h w).

Definition create_thread (t : thread_id) : M H Z :=
  fun w => let '(r, h) := pthread_create env t (host w) in
           Some (r, emit (call_pthread_create t r) h w).

Definition join_thread (t : thread_id) : M H unit :=
  fun w => Some (tt, emit (call_pthread_join t) (pthread_join env t (host w)) w).

(** *** Status accessors (the spin lock protects a single access) *)

Definition ow_engine_get_status (e : ow_engine) : ow_engine_status_t :=
  status e.

Definition ow_engine_set_status (e : ow_engine) (s : ow_engine_status_t)
  : ow_engine :=
  set_status s e.

Definition ow_engine_stop (e : ow_engine) : ow_engine :=
  ow_engine_set_status e OW_ENGINE_STATUS_STOP.

(** *** The audio input handler *)

Definition set_usb_input_data_blks (ctx : ow_context H) (e : ow_engine)
  : M H ow_engine :=
  (if ctx_dll ctx =? 0 then ret tt
   else t <- get_time ctx ;; dll_inc (ctx_dll ctx) (frames_per_transfer e) t) ;;;
  let st := status e in
  let e := ow_engine_read_usb_input_blocks e in
  if status_val st <? status_val OW_ENGINE_STATUS_RUN then ret e
  else
    l <- read_space ctx (ctx_o2p_audio ctx) ;;
    let e := set_o2p_latencies l
               (if o2p_max_latency e <? l then l else o2p_max_latency e) e in
    wso2p <- write_space ctx (ctx_o2p_audio ctx) ;;
    if o2p_transfer_size e <=? wso2p
    then write ctx (ctx_o2p_audio ctx) (Audio (o2p_transfer_buf e))
           (o2p_transfer_size e) ;;; ret e
    else ret e.

(** *** Submission of the next transfer *)

Definition prepare_cycle (endpoint : Z) (e : ow_engine) : M H ow_engine :=
  err <- submit_transfer endpoint ;;
  if err =? 0 then ret e
  else ret (ow_engine_set_status e OW_ENGINE_STATUS_ERROR).

Definition prepare_cycle_in_audio := prepare_cycle AUDIO_IN_EP.
Definition prepare_cycle_out_audio := prepare_cycle AUDIO_OUT_EP.
Definition prepare_cycle_in_midi := prepare_cycle MIDI_IN_EP.
Definition prepare_cycle_out_midi := prepare_cycle MIDI_OUT_EP.

Definition cb_xfr_in (ctx : ow_context H) (xfr : libusb_transfer)
    (e : ow_engine) : M H ow_engine :=
  e <- (match xfr_status xfr with
        | LIBUSB_TRANSFER_COMPLETED => set_usb_input_data_blks ctx e
        | _ => ret e
        end) ;;
  prepare_cycle_in_audio e.

(** *** The MIDI input callback *)

(** [memcpy (event.bytes, &engine->o2p_midi_data[length], OB_MIDI_EVENT_SIZE)]. *)
Definition midi_chunk (e : ow_engine) (length : Z) : list Z :=
  take (Z.to_nat OB_MIDI_EVENT_SIZE) (drop (Z.to_nat length) (o2p_midi_data e)).

(** The test on the first byte of an event. *)
Definition midi_event_accepted (chunk : list Z) : bool :=
  let b0 := chunk !!! 0%nat in (8 <=? b0) && (b0 <=? 15).

(** One iteration of [while (length < xfr->actual_length)]. *)
Definition midi_in_event (ctx : ow_context H) (e : ow_engine)
    (t : spec_float) (length : Z) : M H unit :=
  let event := {| time := t; bytes := midi_chunk e length |} in
  if midi_event_accepted (bytes event) then
    ws <- write_space ctx (ctx_o2p_midi ctx) ;;
    if sizeof_midi_event <=? ws
    then write ctx (ctx_o2p_midi ctx) (Midi event) sizeof_midi_event ;;; ret tt
    else ret tt
  else ret tt.

(** The loop, with [fuel] bounding the number of iterations. *)
Fixpoint midi_in_loop (fuel : nat) (ctx : ow_context H) (e : ow_engine)
    (t : spec_float) (actual length : Z) : M H unit :=
  match fuel with
  | O => ret tt
  | S fuel' =>
      if length <? actual then
        midi_in_event ctx e t length ;;;
        midi_in_loop fuel' ctx e t actual (length + OB_MIDI_EVENT_SIZE)
      else ret tt
  end.

Definition cb_xfr_in_midi (ctx : ow_context H) (xfr : libusb_transfer)
    (e : ow_engine) : M H ow_engine :=
  (if status_val (ow_engine_get_status e) <? status_val OW_ENGINE_STATUS_RUN
   then ret tt
   else
     match xfr_status xfr with
     | LIBUSB_TRANSFER_COMPLETED =>
         t <- get_time ctx ;;
         midi_in_loop (Z.to_nat (actual_length xfr)) ctx e t
           (actual_length xfr) 0
     | _ => ret tt
     end) ;;;
  prepare_cycle_in_midi e.

(** *** Activation *)

Definition is_null {A} (p : option A) : bool :=
  match p with None => true | Some _ => false end.

(** An activation step either goes on ([OW_OK]) or returns its error;
    the engine keeps the assignments made so far. *)
Definition activation_step := ow_engine -> ow_err_t * ow_engine.

Definition and_then (a b : activation_step) : activation_step :=
  fun e => match a e with
           | (OW_OK, e') => b e'
           | r => r
           end.

Definition activate_o2p_audio (ctx : ow_context H) : activation_step :=
  fun e =>
  let o := options e in
  let e := set_options
             {| o2p_audio := Z.land (ctx_options ctx) OW_ENGINE_OPTION_O2P_AUDIO;
                p2o_audio := p2o_audio o; o2p_midi := o2p_midi o;
                p2o_midi := p2o_midi o; dll := dll o |} e in
  if o2p_audio (options e) =? 0 then (OW_OK, e)
  else if is_null (ctx_write_space ctx) then (OW_INIT_ERROR_NO_WRITE_SPACE, e)
  else if is_null (ctx_write ctx) then (OW_INIT_ERROR_NO_WRITE, e)
  else if ctx_o2p_audio ctx =? 0 then (OW_INIT_ERROR_NO_O2P_AUDIO_BUF, e)
  else (OW_OK, e).

Definition activate_p2o_audio (ctx : ow_context H) : activation_step :=
  fun e =>
  let o := options e in
  let e := set_options
             {| o2p_audio := o2p_audio o;
                p2o_audio := Z.land (ctx_options ctx) OW_ENGINE_OPTION_P2O_AUDIO;
                o2p_midi := o2p_midi o;
                p2o_midi := p2o_midi o; dll := dll o |} e in
  if p2o_audio (options e) =? 0 then (OW_OK, e)
  else if is_null (ctx_read_space ctx) then (OW_INIT_ERROR_NO_READ_SPACE, e)
  else if is_null (ctx_read ctx) then (OW_INIT_ERROR_NO_READ, e)
  else if ctx_p2o_audio ctx =? 0 then (OW_INIT_ERROR_NO_P2O_AUDIO_BUF, e)
  else (OW_OK, e).

Definition activate_o2p_midi (ctx : ow_context H) : activation_step :=
  fun e =>
  let o := options e in
  let e := set_options
             {| o2p_audio := o2p_audio o; p2o_audio := p2o_audio o;
                o2p_midi := Z.land (ctx_options ctx) OW_ENGINE_OPTION_O2P_MIDI;
                p2o_midi := p2o_midi o; dll := dll o |} e in
  if o2p_midi (options e) =? 0 then (OW_OK, e)
  else if is_null (ctx_get_time ctx) then (OW_INIT_ERROR_NO_GET_TIME, e)
  else if ctx_o2p_midi ctx =? 0 then (OW_INIT_ERROR_NO_O2P_MIDI_BUF, e)
  else (OW_OK, e).

Definition activate_p2o_midi (ctx : ow_context H) : activation_step :=
  fun e =>
  let o := options e in
  let e := set_options
             {| o2p_audio := o2p_audio o; p2o_audio := p2o_audio o;
                o2p_midi := o2p_midi o;
                p2o_midi := Z.land (ctx_options ctx) OW_ENGINE_OPTION_P2O_MIDI;
                dll := dll o |} e in
  if p2o_midi (options e) =? 0 then (OW_OK, e)
  else if is_null (ctx_get_time ctx) then (OW_INIT_ERROR_NO_GET_TIME, e)
  else if ctx_p2o_midi ctx =? 0 then (OW_INIT_ERROR_NO_P2O_MIDI_BUF, e)
  else (OW_OK, e).

Definition activate_dll (ctx : ow_context H) : activation_step :=
  fun e =>
  let o := options e in
  let e := set_options
             {| o2p_audio := o2p_audio o; p2o_audio := p2o_audio o;
                o2p_midi := o2p_midi o; p2o_midi := p2o_midi o;
                dll := Z.land (ctx_options ctx) OW_ENGINE_OPTION_DLL |} e in
  if dll (options e) =? 0 then (OW_OK, e)
  else if is_null (ctx_get_time ctx) then (OW_INIT_ERROR_NO_GET_TIME, e)
  else if ctx_dll ctx =? 0 then (OW_INIT_ERROR_NO_DLL, e)
  else (OW_OK, set_status OW_ENGINE_STATUS_READY e).

(** The checks of [ow_engine_activate], in the order of the source. *)
Definition activate_checks (ctx : ow_context H) : activation_step :=
  fun e =>
  if ctx_options ctx =? 0 then (OW_GENERIC_ERROR, e)
  else
    and_then (activate_o2p_audio ctx)
      (and_then (activate_p2o_audio ctx)
         (and_then (activate_o2p_midi ctx)
            (and_then (activate_p2o_midi ctx) (activate_dll ctx)))) e.

(** [if (!context->set_rt_priority) ...]: the default is installed. *)
Definition default_rt_priority (ctx : ow_context H) : ow_context H :=
  match ctx_set_rt_priority ctx with
  | Some _ => ctx
  | None =>
      {| ctx_read_space := ctx_read_space ctx;
         ctx_write_space := ctx_write_space ctx;
         ctx_read := ctx_read ctx; ctx_write := ctx_write ctx;
         ctx_get_time := ctx_get_time ctx; ctx_dll := ctx_dll ctx;
         ctx_p2o_audio := ctx_p2o_audio ctx; ctx_o2p_audio := ctx_o2p_audio ctx;
         ctx_p2o_midi := ctx_p2o_midi ctx; ctx_o2p_midi := ctx_o2p_midi ctx;
         ctx_set_rt_priority := Some (ow_set_thread_rt_priority env);
         ctx_priority := OW_DEFAULT_RT_PROPERTY;
         ctx_options := ctx_options ctx |}
  end.

(** Start of one worker: [pthread_create], then the priority. *)
Definition start_thread (ctx : ow_context H) (t : thread_id) : M H bool :=
  r <- create_thread t ;;
  if r =? 0 then set_rt_priority ctx t (ctx_priority ctx) ;;; ret true
  else ret false.

Definition ow_engine_activate (ctx : ow_context H) (e : ow_engine)
  : M H (ow_err_t * ow_engine * ow_context H) :=
  match activate_checks ctx e with
  | (OW_OK, e) =>
      let ctx := default_rt_priority ctx in
      ok <- (if p2o_midi (options e) =? 0 then ret true
             else start_thread ctx p2o_midi_thread) ;;
      if negb ok then ret (OW_GENERIC_ERROR, e, ctx)
      else
        ok <- (if (o2p_midi (options e) =? 0) && (o2p_audio (options e) =? 0)
                  && (p2o_audio (options e) =? 0)
               then ret true
               else start_thread ctx audio_o2p_midi_thread) ;;
        if negb ok then ret (OW_GENERIC_ERROR, e, ctx)
        else ret (OW_OK, e, ctx)
  | (err, e) => ret (err, e, ctx)
  end.

Definition ow_engine_wait (e : ow_engine) : M H unit :=
  join_thread audio_o2p_midi_thread ;;;
  if o2p_midi (options e) =? 0 then ret tt
  else join_thread p2o_midi_thread.

(** *** The audio and o2p-MIDI worker, one step at a time *)

(** [ow_bytes_to_frame_bytes] on its [int] parameters; [int] division
    truncates towards zero.  C leaves the division by a zero
    [bytes_per_frame] undefined, where [Z.quot] gives 0.

    Both callers hold the fill and the frame size as [size_t] values and
    store the result in a [size_t]: the arguments are converted to [int]
    ([to_int32], the value modulo 2^32 as gcc and clang define the
    conversion) and the [int] result is converted back ([to_size_t]). *)
Definition ow_bytes_to_frame_bytes (nbytes bytes_per_frame : Z) : Z :=
  Z.quot nbytes bytes_per_frame * bytes_per_frame.

(** Program points of [run_audio_o2p_midi]. *)
Inductive audio_pc :=
| at_spin_ready
| at_first_submit
| at_reset
| at_set_status
| at_inner_loop
| at_stop_check
| at_drain
| at_return.

(** A completion that [libusb_handle_events_completed] delivers. *)
Inductive completion :=
| audio_in_done (xfr : libusb_transfer) (blks : list ow_engine_usb_blk)
| midi_in_done (xfr : libusb_transfer) (buf : list Z).

Definition deliver (ctx : ow_context H) (c : completion) (e : ow_engine)
  : M H ow_engine :=
  match c with
  | audio_in_done xfr blks =>
      cb_xfr_in ctx xfr (set_usb (set_data_in blks (usb e)) e)
  | midi_in_done xfr buf =>
      cb_xfr_in_midi ctx xfr (set_o2p_midi_data buf e)
  end.

Fixpoint handle_events (ctx : ow_context H) (cs : list completion)
    (e : ow_engine) : M H ow_engine :=
  match cs with
  | [] => ret e
  | c :: cs' => e' <- deliver ctx c e ;; handle_events ctx cs' e'
  end.

(** One step of the worker from program point [pc]; [cs] are the
    completions delivered if the step is a call of
    [libusb_handle_events_completed]. *)
Definition run_audio_o2p_midi_step (ctx : ow_context H) (cs : list completion)
    (pc : audio_pc) (e : ow_engine) : M H (audio_pc * ow_engine) :=
  match pc with
  | at_spin_ready =>
      if status_eqb (ow_engine_get_status e) OW_ENGINE_STATUS_READY
      then ret (at_spin_ready, e)
      else ret (at_first_submit, e)
  | at_first_submit =>
      e <- prepare_cycle_in_audio e ;;
      e <- prepare_cycle_out_audio e ;;
      e <- (if o2p_midi (options e) =? 0 then ret e
            else prepare_cycle_in_midi e) ;;
      ret (at_reset, e)
  | at_reset => ret (at_set_status, reset_counters e)
  | at_set_status =>
      if ctx_dll ctx =? 0
      then ret (at_inner_loop, set_status OW_ENGINE_STATUS_RUN e)
      else
        t <- get_time ctx ;;
        dll_init (ctx_dll ctx) OB_SAMPLE_RATE (frames_per_transfer e) t ;;;
        ret (at_inner_loop, set_status OW_ENGINE_STATUS_WAIT e)
  | at_inner_loop =>
      if status_val OW_ENGINE_STATUS_WAIT <=? status_val (ow_engine_get_status e)
      then e <- handle_events ctx cs e ;; ret (at_inner_loop, e)
      else ret (at_stop_check, e)
  | at_stop_check =>
      if status_val (ow_engine_get_status e) <=? status_val OW_ENGINE_STATUS_STOP
      then ret (at_return, e)
      else ret (at_drain, e)
  | at_drain =>
      rsp2o <- read_space ctx (ctx_p2o_audio ctx) ;;
      let nbytes :=
        to_size_t (ow_bytes_to_frame_bytes (to_int32 rsp2o)
                     (to_int32 (p2o_frame_size e))) in
      read_discard ctx (ctx_p2o_audio ctx) nbytes ;;;
      ret (at_reset, set_p2o_transfer_buf (zero_floats (p2o_transfer_size e)) e)
  | at_return => ret (at_return, e)
  end.

(** What may happen next: the worker takes a step, or another thread
    calls [ow_engine_stop] or [ow_engine_set_status]. *)
Inductive action :=
| worker_step (cs : list completion)
| api_stop
| api_set_status (s : ow_engine_status_t).

Definition perform (ctx : ow_context H) (a : action)
    (st : audio_pc * ow_engine) : M H (audio_pc * ow_engine) :=
  match a with
  | worker_step cs => run_audio_o2p_midi_step ctx cs (fst st) (snd st)
  | api_stop => ret (fst st, ow_engine_stop (snd st))
  | api_set_status s => ret (fst st, ow_engine_set_status (snd st) s)
  end.

Fixpoint run_schedule (ctx : ow_context H) (sched : list action)
    (st : audio_pc * ow_engine) : M H (audio_pc * ow_engine) :=
  match sched with
  | [] => ret st
  | a :: sched' => st' <- perform ctx a st ;; run_schedule ctx sched' st'
  end.

End Engine.

(** ** The error strings *)

Definition ob_err_strgs : list string := [
  "ok";
  "generic error";
  "libusb init failed";
  "can't open device";
  "can't set usb config";
  "can't claim usb interface";
  "can't set usb alt setting";
  "can't cleat endpoint";
  "can't prepare transfer";
  "can't find a matching device";
  "'read_space' not set in context";
  "'write_space' not set in context";
  "'read' not set in context";
  "'write' not set in context";
  "'p2o_audio_buf' not set in context";
  "'o2p_audio_buf' not set in context";
  "'p2o_midi_buf' not set in context";
  "'o2p_midi_buf' not set in context";
  "'get_time' not set in context";
  "'dll' not set in context"
]%string.

(** [ob_err_strgs[errcode]]: an index outside the array has no value. *)
Definition ow_get_err_str (errcode : Z) : option string :=
  if errcode <? 0 then None else ob_err_strgs !! Z.to_nat errcode.

(** ** Observations on the call log *)

Definition is_write (c : call) : bool :=
  match c with call_write _ _ _ => true | _ => false end.

Definition is_get_time (c : call) : bool :=
  match c with call_get_time _ => true | _ => false end.

Definition is_join (c : call) : bool :=
  match c with call_pthread_join _ => true | _ => false end.

Definition is_create (c : call) : bool :=
  match c with call_pthread_create _ _ => true | _ => false end.

(** The calls of the ring's [write], of [get_time], ... in a log. *)
Definition writes (l : list call) : list call := List.filter is_write l.
Definition get_times (l : list call) : list call := List.filter is_get_time l.
Definition joins (l : list call) : list call := List.filter is_join l.
Definition creates (l : list call) : list call := List.filter is_create l.

(** ** A small host to run the engine on

    One clock that stands still and rings that all report the same free
    space, which a write consumes. *)

Record sim_host := {
  sim_clock : spec_float;
  sim_free : Z
}.

Definition sim_write (ring : Z) (src : payload) (len : Z) (h : sim_host)
  : Z * sim_host :=
  (len, {| sim_clock := sim_clock h; sim_free := sim_free h - len |}).

Definition sim_get_time (h : sim_host) : spec_float * sim_host :=
  (sim_clock h, h).

Definition sim_context_with (ws : Z -> sim_host -> Z * sim_host)
    (opts dll_ptr : Z) : ow_context sim_host := {|
  ctx_read_space := Some (fun _ h => (0, h));
  ctx_write_space := Some ws;
  ctx_read := Some (fun _ len h => (len, h));
  ctx_write := Some sim_write;
  ctx_get_time := Some sim_get_time;
  ctx_dll := dll_ptr;
  ctx_p2o_audio := 4096;
  ctx_o2p_audio := 8192;
  ctx_p2o_midi := 12288;
  ctx_o2p_midi := 16384;
  ctx_set_rt_priority := None;
  ctx_priority := 0;
  ctx_options := opts
|}.

Definition sim_write_space (ring : Z) (h : sim_host) : Z * sim_host :=
  (sim_free h, h).

(** Rings that always report room. *)
Definition roomy_write_space (ring : Z) (h : sim_host) : Z * sim_host :=
  (65536, h).

Definition sim_context := sim_context_with sim_write_space.
Definition roomy_context := sim_context_with roomy_write_space.

Definition sim_env : environment sim_host := {|
  libusb_submit_transfer := fun _ h => (0, h);
  ow_dll_overwitch_inc := fun _ _ _ h => h;
  ow_dll_overwitch_init := fun _ _ _ _ h => h;
  pthread_create := fun _ h => (0, h);
  pthread_join := fun _ h => h;
  ow_set_thread_rt_priority := fun _ _ h => h
|}.

Definition sim_world (t : spec_float) (free : Z) : world sim_host :=
  {| host := {| sim_clock := t; sim_free := free |}; log := [] |}.

(** A device with two inputs and two outputs whose scales are all 1.0. *)
Definition sim_desc : ow_device_desc :=
  {| inputs := 2; outputs := 2; output_track_scales := replicate 12 F32.one |}.

Definition sim_engine (blocks : Z) : ow_engine :=
  ow_engine_init_mem (blank_engine sim_desc) blocks.

(** ** Reference definitions for the MIDI input path *)

(** The offsets visited by [while (length < actual)] with a stride of
    [OB_MIDI_EVENT_SIZE], computed like the loop itself. *)
Fixpoint midi_offsets (fuel : nat) (actual length : Z) : list Z :=
  match fuel with
  | O => []
  | S fuel' =>
      if length <? actual
      then length :: midi_offsets fuel' actual (length + OB_MIDI_EVENT_SIZE)
      else []
  end.

(** The call that enqueues the event found at offset [off]. *)
Definition enqueue_call {H} (ctx : ow_context H) (e : ow_engine)
    (t : spec_float) (off : Z) : call :=
  call_write (ctx_o2p_midi ctx) (Midi {| time := t; bytes := midi_chunk e off |})
    sizeof_midi_event.

(** The code's test applied to the event at offset [off]. *)
Definition accepted_at (e : ow_engine) (off : Z) : bool :=
  midi_event_accepted (midi_chunk e off).

(** The offsets 0, 4, 8, ... below [actual]: the strides of four bytes
    over the payload of a transfer. *)
Definition midi_strides (actual : Z) : list Z :=
  map (fun k => 4 * Z.of_nat k) (seq 0 (Z.to_nat ((actual + 3) / 4))).

(** The calls that the event at offset [off] gives rise to when the ring
    reports [space] bytes of room for it: none when its first byte lies
    outside 0x08..0x0F; the ring's [write_space] alone when the room is
    less than an event; [write_space] and the [write] of the event
    otherwise. *)
Definition event_calls {H} (ctx : ow_context H) (e : ow_engine)
    (t : spec_float) (off space : Z) : list call :=
  let b0 := midi_chunk e off !!! 0%nat in
  if (8 <=? b0) && (b0 <=? 15) then
    call_write_space (ctx_o2p_midi ctx) space
    :: (if sizeof_midi_event <=? space then [enqueue_call ctx e t off] else [])
  else [].

(** The filter as the specification words it: the high nibble of the
    first byte lies in 0x8..0xF. *)
Definition high_nibble_filter (chunk : list Z) : bool :=
  let n := Z.shiftr (chunk !!! 0%nat) 4 in (8 <=? n) && (n <=? 15).

(** The buffer of the specification's MIDI scenario. *)
Definition scenario_midi_buffer : list Z :=
  [9; 144; 64; 127; 5; 0; 0; 0; 8; 128; 64; 0].

(** Engines of the small host in given states. *)
Definition sim_waiting : ow_engine :=
  set_status OW_ENGINE_STATUS_WAIT (sim_engine 2).

Definition sim_running : ow_engine :=
  set_status OW_ENGINE_STATUS_RUN (sim_engine 2).

(** A running engine whose MIDI input buffer starts with the scenario's
    twelve bytes. *)
Definition sim_midi_engine : ow_engine :=
  set_o2p_midi_data (scenario_midi_buffer ++ replicate 500 0) sim_running.

Definition scenario_transfer : libusb_transfer :=
  {| xfr_status := LIBUSB_TRANSFER_COMPLETED; actual_length := 12 |}.

(** The calls logged by a computation started in [w]. *)
Definition calls_of {H A} (m : M H A) (w : world H) : list call :=
  match m w with
  | Some (_, w') => log w'
  | None => []
  end.

(** ** Reference definitions for activation *)

Definition option_enabled {H} (ctx : ow_context H) (bit : Z) : bool :=
  negb (Z.land (ctx_options ctx) bit =? 0).

(** What activation needs according to the specification: for an audio
    direction the ring and the four ring operations, for a MIDI direction
    [get_time] and its ring, for the DLL [get_time] and the DLL object. *)
Definition missing_per_spec {H} (ctx : ow_context H) : bool :=
  (ctx_options ctx =? 0)
  || option_enabled ctx OW_ENGINE_OPTION_O2P_AUDIO
     && ((ctx_o2p_audio ctx =? 0) || is_null (ctx_read ctx)
         || is_null (ctx_write ctx) || is_null (ctx_read_space ctx)
         || is_null (ctx_write_space ctx))
  || option_enabled ctx OW_ENGINE_OPTION_P2O_AUDIO
     && ((ctx_p2o_audio ctx =? 0) || is_null (ctx_read ctx)
         || is_null (ctx_write ctx) || is_null (ctx_read_space ctx)
         || is_null (ctx_write_space ctx))
  || option_enabled ctx OW_ENGINE_OPTION_O2P_MIDI
     && (is_null (ctx_get_time ctx) || (ctx_o2p_midi ctx =? 0))
  || option_enabled ctx OW_ENGINE_OPTION_P2O_MIDI
     && (is_null (ctx_get_time ctx) || (ctx_p2o_midi ctx =? 0))
  || option_enabled ctx OW_ENGINE_OPTION_DLL
     && (is_null (ctx_get_time ctx) || (ctx_dll ctx =? 0)).

(** What the checks of [ow_engine_activate] ask for, option by option:
    each audio direction needs its ring and the two ring operations of
    its own direction. *)
Definition o2p_audio_missing {H} (ctx : ow_context H) : bool :=
  option_enabled ctx OW_ENGINE_OPTION_O2P_AUDIO
  && (is_null (ctx_write_space ctx) || is_null (ctx_write ctx)
      || (ctx_o2p_audio ctx =? 0)).

Definition p2o_audio_missing {H} (ctx : ow_context H) : bool :=
  option_enabled ctx OW_ENGINE_OPTION_P2O_AUDIO
  && (is_null (ctx_read_space ctx) || is_null (ctx_read ctx)
      || (ctx_p2o_audio ctx =? 0)).

Definition o2p_midi_missing {H} (ctx : ow_context H) : bool :=
  option_enabled ctx OW_ENGINE_OPTION_O2P_MIDI
  && (is_null (ctx_get_time ctx) || (ctx_o2p_midi ctx =? 0)).

Definition p2o_midi_missing {H} (ctx : ow_context H) : bool :=
  option_enabled ctx OW_ENGINE_OPTION_P2O_MIDI
  && (is_null (ctx_get_time ctx) || (ctx_p2o_midi ctx =? 0)).

Definition dll_missing {H} (ctx : ow_context H) : bool :=
  option_enabled ctx OW_ENGINE_OPTION_DLL
  && (is_null (ctx_get_time ctx) || (ctx_dll ctx =? 0)).

Definition missing_per_code {H} (ctx : ow_context H) : bool :=
  (ctx_options ctx =? 0)
  || o2p_audio_missing ctx || p2o_audio_missing ctx
  || o2p_midi_missing ctx || p2o_midi_missing ctx || dll_missing ctx.

(** The error code of a finished activation. *)
Definition activation_error {H}
    (r : option (ow_err_t * ow_engine * ow_context H * world H))
  : option ow_err_t :=
  match r with
  | Some (err, _, _, _) => Some err
  | None => None
  end.

(** A context that enables the device-to-host audio only and provides
    what that direction uses for writing, but neither [read] nor
    [read_space]. *)
Definition o2p_only_context : ow_context sim_host := {|
  ctx_read_space := None;
  ctx_write_space := Some sim_write_space;
  ctx_read := None;
  ctx_write := Some sim_write;
  ctx_get_time := None;
  ctx_dll := 0;
  ctx_p2o_audio := 0;
  ctx_o2p_audio := 8192;
  ctx_p2o_midi := 0;
  ctx_o2p_midi := 0;
  ctx_set_rt_priority := None;
  ctx_priority := 0;
  ctx_options := OW_ENGINE_OPTION_O2P_AUDIO
|}.

(** A session: activation and, when it succeeds, the wait for the
    workers. *)
Definition activate_then_wait {H} (env : environment H) (ctx : ow_context H)
    (e : ow_engine) : M H ow_err_t :=
  bind (ow_engine_activate env ctx e)
    (fun r => match r with
              | (OW_OK, e', _) => bind (ow_engine_wait env e') (fun _ => ret OW_OK)
              | (err, _, _) => ret err
              end).

(** A session on a context: activation and, when it succeeds, the audio
    worker from its start, one action of [sched] after the other. *)
Definition activate_then_run {H} (env : environment H) (ctx : ow_context H)
    (e : ow_engine) (sched : list action) : M H (audio_pc * ow_engine) :=
  bind (ow_engine_activate env ctx e)
    (fun r => match r with
              | (OW_OK, e', ctx') =>
                  run_schedule env ctx' sched (at_spin_ready, e')
              | (_, e', _) => ret (at_return, e')
              end).

(** The worker's way into its inner loop (out of the spin, the first
    submissions, the reset of the counters, the status), and the completion
    of the first audio input transfer after it. *)
Definition worker_start : list action := replicate 4 (worker_step []).

Definition first_audio_in : action :=
  worker_step [audio_in_done scenario_transfer (data_in (usb (sim_engine 2)))].

(** Where a session has come to: the program point of the worker and the
    status of the engine. *)
Definition session_state {H} (r : option (audio_pc * ow_engine * world H))
  : option (audio_pc * ow_engine_status_t) :=
  match r with
  | Some ((pc, e), _) => Some (pc, status e)
  | None => None
  end.

(** The options of the failing input of the join contract: audio from the
    device and MIDI to the device. *)
Definition o2p_audio_and_p2o_midi : Z :=
  Z.lor OW_ENGINE_OPTION_O2P_AUDIO OW_ENGINE_OPTION_P2O_MIDI.

(** ** Reference definitions for the codec *)

(** The output side of an engine is ready when [usb.data_out] holds the
    blocks of one transfer, each with the header stamped at
    initialisation, and [usb.frames] is a 16-bit value. *)
Definition output_ready (e : ow_engine) : Prop :=
  0 <= blocks_per_transfer e
  /\ length (data_out (usb e)) = Z.to_nat (blocks_per_transfer e)
  /\ 0 <= usb_frames (usb e) < 2 ^ 16
  /\ Forall (fun b => header b = htobe16 2047) (data_out (usb e)).

(** What the loop over the blocks has done after [k] blocks. *)
Definition counter_invariant (e : ow_engine) (k : nat) (st : nat * ow_engine)
  : Prop :=
  let e' := snd st in
  device_desc e' = device_desc e
  /\ blocks_per_transfer e' = blocks_per_transfer e
  /\ p2o_transfer_buf e' = p2o_transfer_buf e
  /\ length (data_out (usb e')) = length (data_out (usb e))
  /\ usb_frames (usb e') =
     to_uint16 (usb_frames (usb e) + OB_FRAMES_PER_BLOCK * Z.of_nat k)
  /\ (forall n, header (data_out (usb e') !!! n) = header (data_out (usb e) !!! n))
  /\ (forall n, (n < k)%nat -> (n < length (data_out (usb e)))%nat ->
        frames (data_out (usb e') !!! n) =
        htobe16 (usb_frames (usb e) + Z.of_nat n * OB_FRAMES_PER_BLOCK)).

(** The engine after [n] output transfers. *)
Definition after_transfers (n : nat) (e : ow_engine) : ow_engine :=
  Nat.iter n ow_engine_write_usb_output_blocks e.

(** ** A session with the DLL *)

(** Audio from the device with the DLL: activation leaves the status at
    READY and the audio worker waits for it to change. *)
Definition dll_context : ow_context sim_host :=
  sim_context (Z.lor OW_ENGINE_OPTION_O2P_AUDIO OW_ENGINE_OPTION_DLL) 20480.

(** [ow_engine_stop] arrives while the worker still spins on READY; the
    worker then takes [n] steps, libusb delivering nothing. *)
Definition stop_then_steps (n : nat) : list action :=
  api_stop :: replicate n (worker_step []).

(** The program point and the status after activation and a schedule. *)
Definition session_outcome {H} (env : environment H) (ctx : ow_context H)
    (e : ow_engine) (sched : list action) (w : world H)
  : option (audio_pc * ow_engine_status_t) :=
  match ow_engine_activate env ctx e w with
  | Some (OW_OK, e1, ctx1, w1) =>
      match run_schedule env ctx1 sched (at_spin_ready, e1) w1 with
      | Some ((pc, e2), _) => Some (pc, ow_engine_get_status e2)
      | None => None
      end
  | _ => None
  end.

(** The conversion of one sample on the way out and on the way in. *)
Definition encode_sample (x : spec_float) : Z :=
  to_int32 (htobe32 (F32.to_int32 (F32.mul x (F32.of_int INT_MAX)))).

Definition decode_sample (scale : spec_float) (s : Z) : spec_float :=
  F32.mul (F32.of_int (to_int32 (be32toh s))) scale.

(** The device echoing the blocks it received: the outgoing transfer is
    presented as the incoming one. *)
Definition loop_back (e : ow_engine) : ow_engine :=
  set_usb (set_data_in (data_out (usb e)) (usb e)) e.

(** [decode (encode v)] on a freshly initialised engine of [blocks] blocks
    per transfer. *)
Definition round_trip (desc : ow_device_desc) (blocks : Z)
    (v : list spec_float) : list spec_float :=
  let e := set_p2o_transfer_buf v (ow_engine_init_mem (blank_engine desc) blocks) in
  o2p_transfer_buf
    (ow_engine_read_usb_input_blocks
       (loop_back (ow_engine_write_usb_output_blocks e))).

(** The cursor [c'] is [c] after [n] samples were encoded from [buf]. *)
Definition wrote (buf : list spec_float) (n : nat) (c c' : cursor (list Z))
  : Prop :=
  cur_s c' = (cur_s c + n)%nat
  /\ cur_f c' = (cur_f c + n)%nat
  /\ length (cur_mem c') = length (cur_mem c)
  /\ forall p,
      cur_mem c' !! p =
      if decide ((cur_s c <= p < cur_s c + n)%nat /\ (p < length (cur_mem c))%nat)
      then Some (encode_sample (buf !!! (cur_f c + (p - cur_s c))%nat))
      else cur_mem c !! p.

(** Samples per block on the way out. *)
Definition out_block_samples (e : ow_engine) : nat :=
  (7 * (Z.to_nat (inputs (device_desc e)) * 1))%nat.

(** What the encoder has stored after [k] blocks. *)
Definition encoded_blocks (e : ow_engine) (k : nat) (st : nat * ow_engine)
  : Prop :=
  let e' := snd st in
  fst st = (k * out_block_samples e)%nat
  /\ device_desc e' = device_desc e
  /\ p2o_transfer_buf e' = p2o_transfer_buf e
  /\ (blocks_per_transfer e' = blocks_per_transfer e
      /\ o2p_transfer_buf e' = o2p_transfer_buf e)
  /\ length (data_out (usb e')) = length (data_out (usb e))
  /\ (forall i, (k <= i)%nat ->
        data_out (usb e') !!! i = data_out (usb e) !!! i)
  /\ (forall i, (i < k)%nat -> (i < length (data_out (usb e)))%nat ->
        length (data (data_out (usb e') !!! i))
        = length (data (data_out (usb e) !!! i))
        /\ forall q, (q < out_block_samples e)%nat ->
             (q < length (data (data_out (usb e) !!! i)))%nat ->
             data (data_out (usb e') !!! i) !! q
             = Some (encode_sample
                       (p2o_transfer_buf e !!! (i * out_block_samples e + q)%nat))).

(** The cursor [c'] is [c] after [n] floats were stored, the one at
    distance [r] from the start being [val r]. *)
Definition filled (val : nat -> spec_float) (n : nat)
    (c c' : cursor (list spec_float)) : Prop :=
  cur_s c' = (cur_s c + n)%nat
  /\ cur_f c' = (cur_f c + n)%nat
  /\ length (cur_mem c') = length (cur_mem c)
  /\ forall p,
      cur_mem c' !! p =
      if decide ((cur_f c <= p < cur_f c + n)%nat /\ (p < length (cur_mem c))%nat)
      then Some (val (p - cur_f c)%nat)
      else cur_mem c !! p.

(** Samples per block on the way in. *)
Definition in_block_samples (e : ow_engine) : nat :=
  (7 * Z.to_nat (outputs (device_desc e)))%nat.

(** The float that the decoder stores at position [p] of the transfer
    buffer. *)
Definition decoded_at (e : ow_engine) (p : nat) : spec_float :=
  decode_sample
    (output_track_scales (device_desc e)
       !!! (p mod Z.to_nat (outputs (device_desc e)))%nat)
    (data (data_in (usb e) !!! (p / in_block_samples e)%nat)
       !!! (p mod in_block_samples e)%nat).

(** What the decoder has stored after [i] blocks. *)
Definition decoded_blocks (e : ow_engine) (i : nat)
    (c : cursor (list spec_float)) : Prop :=
  cur_f c = (i * in_block_samples e)%nat
  /\ length (cur_mem c) = length (o2p_transfer_buf e)
  /\ forall p,
      cur_mem c !! p =
      if decide ((p < i * in_block_samples e)%nat
                 /\ (p < length (o2p_transfer_buf e))%nat)
      then Some (decoded_at e p)
      else o2p_transfer_buf e !! p.

(** ** Reference definitions for binary32 arithmetic *)

(** A mantissa with no bits shifted out yet. *)
Definition exact_record (m : Z) : shr_record :=
  {| shr_m := m; shr_r := false; shr_s := false |}.

(** The exponent of the canonical form of a number of [d + e] digits. *)
Definition fexp32 (e : Z) : Z := Z.max (e - 24) (-149).

(** A mantissa and exponent in canonical form. *)
Definition canonical32 (a : positive) (e : Z) : Prop :=
  fexp32 (Z.log2 (Z.pos a) + 1 + e) = e.

(** An integer is representable when, some power of two apart, it has at
    most 24 significant bits. *)
Definition representable (z : Z) : Prop :=
  exists k, 0 <= k /\ (2 ^ k | z) /\ Z.abs z < 2 ^ (24 + k) /\ k <= 104.

(** The number [y] is exactly the integer [z]. *)
Definition int_value (y : spec_float) (z : Z) : Prop :=
  match y with
  | S754_zero _ => z = 0
  | S754_finite s a e =>
      if 0 <=? e then z = cond_Zopp s (Z.pos a * 2 ^ e)
      else cond_Zopp s (Z.pos a) = z * 2 ^ (- e)
  | _ => False
  end.

(** The scale 2^-31, which undoes the encoder's factor. *)
Definition pow2_m31 : spec_float := S754_finite false 8388608 (-54).

(** The scale of the channel that position [p] of a transfer belongs to. *)
Definition scale_at (desc : ow_device_desc) (p : nat) : spec_float :=
  output_track_scales desc !!! (p mod Z.to_nat (inputs desc))%nat.

(** A descriptor like [sim_desc] with the scales 2^-31. *)
Definition normalised_desc : ow_device_desc :=
  {| inputs := 2; outputs := 2; output_track_scales := replicate 12 pow2_m31 |}.

(** Two numbers are within [eps] of each other. *)
Definition close_enough (eps : Q) (a b : spec_float) : Prop :=
  exists qa qb,
    F32.to_Q a = Some qa /\ F32.to_Q b = Some qb /\ (Qabs (qa - qb) <= eps)%Q.

(** ** The host-to-device side: data *)

Definition set_p2o_audio (v : Z) (o : ow_engine_options) : ow_engine_options :=
  {| o2p_audio := o2p_audio o; p2o_audio := v; o2p_midi := o2p_midi o;
     p2o_midi := p2o_midi o; dll := dll o |}.

(** [engine->p2o_latency = l], followed by the update of the maximum. *)
Definition set_p2o_latencies (l m : Z) (e : ow_engine) : ow_engine :=
  {| device_desc := device_desc e; usb := usb e;
     blocks_per_transfer := blocks_per_transfer e;
     frames_per_transfer := frames_per_transfer e;
     p2o_frame_size := p2o_frame_size e; o2p_frame_size := o2p_frame_size e;
     p2o_transfer_size := p2o_transfer_size e;
     o2p_transfer_size := o2p_transfer_size e;
     p2o_transfer_buf := p2o_transfer_buf e;
     o2p_transfer_buf := o2p_transfer_buf e;
     p2o_resampler_buf := p2o_resampler_buf e;
     p2o_midi_data := p2o_midi_data e; o2p_midi_data := o2p_midi_data e;
     status := status e; options := options e;
     p2o_latency := l; p2o_max_latency := m;
     o2p_latency := o2p_latency e; o2p_max_latency := o2p_max_latency e;
     reading_at_p2o_end := reading_at_p2o_end e;
     p2o_midi_ready := p2o_midi_ready e |}.

Definition set_reading_at_p2o_end (v : Z) (e : ow_engine) : ow_engine :=
  {| device_desc := device_desc e; usb := usb e;
     blocks_per_transfer := blocks_per_transfer e;
     frames_per_transfer := frames_per_transfer e;
     p2o_frame_size := p2o_frame_size e; o2p_frame_size := o2p_frame_size e;
     p2o_transfer_size := p2o_transfer_size e;
     o2p_transfer_size := o2p_transfer_size e;
     p2o_transfer_buf := p2o_transfer_buf e;
     o2p_transfer_buf := o2p_transfer_buf e;
     p2o_resampler_buf := p2o_resampler_buf e;
     p2o_midi_data := p2o_midi_data e; o2p_midi_data := o2p_midi_data e;
     status := status e; options := options e;
     p2o_latency := p2o_latency e; p2o_max_latency := p2o_max_latency e;
     o2p_latency := o2p_latency e; o2p_max_latency := o2p_max_latency e;
     reading_at_p2o_end := v;
     p2o_midi_ready := p2o_midi_ready e |}.

Definition set_p2o_resampler_buf (b : list spec_float) (e : ow_engine)
  : ow_engine :=
  {| device_desc := device_desc e; usb := usb e;
     blocks_per_transfer := blocks_per_transfer e;
     frames_per_transfer := frames_per_transfer e;
     p2o_frame_size := p2o_frame_size e; o2p_frame_size := o2p_frame_size e;
     p2o_transfer_size := p2o_transfer_size e;
     o2p_transfer_size := o2p_transfer_size e;
     p2o_transfer_buf := p2o_transfer_buf e;
     o2p_transfer_buf := o2p_transfer_buf e;
     p2o_resampler_buf := b;
     p2o_midi_data := p2o_midi_data e; o2p_midi_data := o2p_midi_data e;
     status := status e; options := options e;
     p2o_latency := p2o_latency e; p2o_max_latency := p2o_max_latency e;
     o2p_latency := o2p_latency e; o2p_max_latency := o2p_max_latency e;
     reading_at_p2o_end := reading_at_p2o_end e;
     p2o_midi_ready := p2o_midi_ready e |}.

Definition set_p2o_midi_data (d : list Z) (e : ow_engine) : ow_engine :=
  {| device_desc := device_desc e; usb := usb e;
     blocks_per_transfer := blocks_per_transfer e;
     frames_per_transfer := frames_per_transfer e;
     p2o_frame_size := p2o_frame_size e; o2p_frame_size := o2p_frame_size e;
     p2o_transfer_size := p2o_transfer_size e;
     o2p_transfer_size := o2p_transfer_size e;
     p2o_transfer_buf := p2o_transfer_buf e;
     o2p_transfer_buf := o2p_transfer_buf e;
     p2o_resampler_buf := p2o_resampler_buf e;
     p2o_midi_data := d; o2p_midi_data := o2p_midi_data e;
     status := status e; options := options e;
     p2o_latency := p2o_latency e; p2o_max_latency := p2o_max_latency e;
     o2p_latency := o2p_latency e; o2p_max_latency := o2p_max_latency e;
     reading_at_p2o_end := reading_at_p2o_end e;
     p2o_midi_ready := p2o_midi_ready e |}.

Definition set_p2o_midi_ready (v : Z) (e : ow_engine) : ow_engine :=
  {| device_desc := device_desc e; usb := usb e;
     blocks_per_transfer := blocks_per_transfer e;
     frames_per_transfer := frames_per_transfer e;
     p2o_frame_size := p2o_frame_size e; o2p_frame_size := o2p_frame_size e;
     p2o_transfer_size := p2o_transfer_size e;
     o2p_transfer_size := o2p_transfer_size e;
     p2o_transfer_buf := p2o_transfer_buf e;
     o2p_transfer_buf := o2p_transfer_buf e;
     p2o_resampler_buf := p2o_resampler_buf e;
     p2o_midi_data := p2o_midi_data e; o2p_midi_data := o2p_midi_data e;
     status := status e; options := options e;
     p2o_latency := p2o_latency e; p2o_max_latency := p2o_max_latency e;
     o2p_latency := o2p_latency e; o2p_max_latency := o2p_max_latency e;
     reading_at_p2o_end := reading_at_p2o_end e;
     p2o_midi_ready := v |}.

Definition set_device_desc (d : ow_device_desc) (e : ow_engine) : ow_engine :=
  {| device_desc := d; usb := usb e;
     blocks_per_transfer := blocks_per_transfer e;
     frames_per_transfer := frames_per_transfer e;
     p2o_frame_size := p2o_frame_size e; o2p_frame_size := o2p_frame_size e;
     p2o_transfer_size := p2o_transfer_size e;
     o2p_transfer_size := o2p_transfer_size e;
     p2o_transfer_buf := p2o_transfer_buf e;
     o2p_transfer_buf := o2p_transfer_buf e;
     p2o_resampler_buf := p2o_resampler_buf e;
     p2o_midi_data := p2o_midi_data e; o2p_midi_data := o2p_midi_data e;
     status := status e; options := options e;
     p2o_latency := p2o_latency e; p2o_max_latency := p2o_max_latency e;
     o2p_latency := o2p_latency e; o2p_max_latency := o2p_max_latency e;
     reading_at_p2o_end := reading_at_p2o_end e;
     p2o_midi_ready := p2o_midi_ready e |}.

(** The C type [double]: IEEE-754 binary64. *)
Module F64.

Definition prec : Z := 53.
Definition emax : Z := 1024.

Definition of_int (z : Z) : spec_float := binary_normalize prec emax z 0 false.
Definition div (x y : spec_float) : spec_float := SFdiv prec emax x y.
Definition sub (x y : spec_float) : spec_float := SFsub prec emax x y.

(** [x > y]; false when either is NaN. *)
Definition gt (x y : spec_float) : bool := SFltb y x.

Definition zero : spec_float := S754_zero false.

End F64.

(** *** The switch of the host-to-device audio *)

Definition ow_engine_is_p2o_audio_enabled (e : ow_engine) : Z :=
  p2o_audio (options e).

Definition ow_engine_set_p2o_audio_enabled (e : ow_engine) (enabled : Z)
  : ow_engine :=
  let last := ow_engine_is_p2o_audio_enabled e in
  if last =? enabled then e
  else set_options (set_p2o_audio enabled (options e)) e.

(** *** The resampler of libsamplerate *)

(** [SRC_DATA]. *)
Record SRC_DATA := {
  src_data_in : list spec_float;
  src_data_out : list spec_float;
  input_frames : Z;
  output_frames : Z;
  input_frames_used : Z;
  output_frames_gen : Z;
  end_of_input : Z;
  src_ratio : spec_float
}.

Definition SRC_SINC_FASTEST : Z := 2.

(** What the ring's [read] stores at its destination.  The type of
    [ctx_read] gives the count that the call returns and the host state
    it leaves; these functions give, for the same call in the same host
    state, the content of the destination afterwards. *)
Record ring_data (H : Type) := {
  read_floats : Z -> Z -> H -> list spec_float -> list spec_float;
  read_event : Z -> Z -> H -> ow_midi_event -> ow_midi_event
}.
Arguments read_floats {H} _ _ _ _ _.
Arguments read_event {H} _ _ _ _ _.

Section OutputSide.

Context {H : Type}.
Variable env : environment H.
Variable rd : ring_data H.

(** [int src_simple (SRC_DATA *data, int converter_type, int channels)]:
    the result and the structure as the call leaves it. *)
Variable src_simple : SRC_DATA -> Z -> Z -> Z * SRC_DATA.

Local Open Scope engine_scope.

(** [context->read (ring, dst, len)] with a destination array. *)
Definition read_into (ctx : ow_context H) (ring len : Z)
    (dst : list spec_float) : M H (list spec_float) :=
  match ctx_read ctx with
  | None => null_call
  | Some g => fun w =>
      let '(n, h) := g ring len (host w) in
      Some (read_floats rd ring len (host w) dst, emit (call_read ring len) h w)
  end.

(** [engine->p2o_data] at the call of the resampler: the pointers, the
    end-of-input flag and [output_frames] are those set by
    [ow_engine_init_mem] ([output_frames] is [frames_per_transfer]), the
    other two inputs are assigned just before the call. *)
Definition p2o_data (e : ow_engine) (frames_n : Z) (ratio : spec_float)
  : SRC_DATA :=
  {| src_data_in := p2o_resampler_buf e;
     src_data_out := p2o_transfer_buf e;
     input_frames := frames_n;
     output_frames := frames_per_transfer e;
     input_frames_used := 0;
     output_frames_gen := 0;
     end_of_input := 1;
     src_ratio := ratio |}.

(** *** The audio output handler *)

Definition set_usb_output_data_blks (ctx : ow_context H) (e : ow_engine)
  : M H ow_engine :=
  let p2o_enabled := ow_engine_is_p2o_audio_enabled e in
  if p2o_enabled =? 0 then
    let e := set_reading_at_p2o_end 0 e in
    let e := set_p2o_transfer_buf (zero_floats (p2o_transfer_size e)) e in
    ret (ow_engine_write_usb_output_blocks e)
  else
    rsp2o <- read_space ctx (ctx_p2o_audio ctx) ;;
    if reading_at_p2o_end e =? 0 then
      if p2o_transfer_size e <=? rsp2o then
        let nbytes :=
          to_size_t (ow_bytes_to_frame_bytes (to_int32 rsp2o)
                       (to_int32 (p2o_frame_size e))) in
        read_discard ctx (ctx_p2o_audio ctx) nbytes ;;;
        ret (ow_engine_write_usb_output_blocks (set_reading_at_p2o_end 1 e))
      else ret (ow_engine_write_usb_output_blocks e)
    else
      let e := set_p2o_latencies rsp2o
                 (if p2o_max_latency e <? rsp2o then rsp2o
                  else p2o_max_latency e) e in
      if p2o_transfer_size e <=? rsp2o then
        buf <- read_into ctx (ctx_p2o_audio ctx) (p2o_transfer_size e)
                 (p2o_transfer_buf e) ;;
        ret (ow_engine_write_usb_output_blocks (set_p2o_transfer_buf buf e))
      else
        let frames_n := Z.quot rsp2o (p2o_frame_size e) in
        let nbytes := frames_n * p2o_frame_size e in
        rbuf <- read_into ctx (ctx_p2o_audio ctx) nbytes (p2o_resampler_buf e) ;;
        let e := set_p2o_resampler_buf rbuf e in
        let ratio :=
          F64.div (F64.of_int (frames_per_transfer e)) (F64.of_int frames_n) in
        let '(res, d) :=
          src_simple (p2o_data e frames_n ratio) SRC_SINC_FASTEST
            (inputs (device_desc e)) in
        ret (ow_engine_write_usb_output_blocks
               (set_p2o_transfer_buf (src_data_out d) e)).

Definition cb_xfr_out (ctx : ow_context H) (xfr : libusb_transfer)
    (e : ow_engine) : M H ow_engine :=
  e <- set_usb_output_data_blks ctx e ;;
  prepare_cycle_out_audio env e.

Definition cb_xfr_out_midi (xfr : libusb_transfer) (e : ow_engine)
  : ow_engine :=
  set_p2o_midi_ready 1 e.

(** *** The host-to-device MIDI worker, one step at a time *)

(** The local variables of [run_p2o_midi]. *)
Record p2o_midi_locals := {
  pos : Z;
  diff : spec_float;
  last_time : spec_float;
  event_read : Z;
  event : ow_midi_event
}.

Definition set_pos (p : Z) (l : p2o_midi_locals) : p2o_midi_locals :=
  {| pos := p; diff := diff l; last_time := last_time l;
     event_read := event_read l; event := event l |}.

(** Program points of [run_p2o_midi]. *)
Inductive p2o_midi_pc :=
| pm_start
| pm_fill
| pm_flush
| pm_sleep
| pm_wait_ready
| pm_stop_check
| pm_return.

(** [context->read (ring, &event, sizeof (struct ow_midi_event))]. *)
Definition read_event_into (ctx : ow_context H) (ring : Z)
    (dst : ow_midi_event) : M H ow_midi_event :=
  match ctx_read ctx with
  | None => null_call
  | Some g => fun w =>
      let '(n, h) := g ring sizeof_midi_event (host w) in
      Some (read_event rd ring sizeof_midi_event (host w) dst,
            emit (call_read ring sizeof_midi_event) h w)
  end.

(** [memcpy (&engine->p2o_midi_data[pos], event.bytes, OB_MIDI_EVENT_SIZE)]. *)
Definition memcpy_event (p : Z) (src dst : list Z) : list Z :=
  for_loop (Z.to_nat OB_MIDI_EVENT_SIZE) 0
    (fun i d => <[(Z.to_nat p + i)%nat := src !!! i]> d) dst.

(** One step of the worker: [pm_fill] is the test of the inner loop and,
    if it holds, one pass through its body; [pm_sleep] is the [nanosleep]
    after the flush, during which nothing of the engine changes;
    [pm_wait_ready] is one reading of [p2o_midi_ready]. *)
Definition run_p2o_midi_step (ctx : ow_context H) (pc : p2o_midi_pc)
    (l : p2o_midi_locals) (e : ow_engine)
  : M H (p2o_midi_pc * p2o_midi_locals * ow_engine) :=
  match pc with
  | pm_start =>
      t <- get_time ctx ;;
      ret (pm_fill,
           {| pos := 0; diff := F64.zero; last_time := t;
              event_read := 0; event := event l |},
           set_p2o_midi_ready 1 e)
  | pm_fill =>
      rs <- read_space ctx (ctx_p2o_midi ctx) ;;
      if (sizeof_midi_event <=? rs) && (pos l <? USB_BULK_MIDI_SIZE) then
        let e1 := if pos l =? 0
                  then set_p2o_midi_data
                         (replicate (Z.to_nat USB_BULK_MIDI_SIZE) 0) e
                  else e in
        let diff1 := if pos l =? 0 then F64.zero else diff l in
        ev <- (if event_read l =? 0
               then read_event_into ctx (ctx_p2o_midi ctx) (event l)
               else ret (event l)) ;;
        if F64.gt (time ev) (last_time l) then
          ret (pm_flush,
               {| pos := pos l; diff := F64.sub (time ev) (last_time l);
                  last_time := time ev; event_read := 1; event := ev |},
               e1)
        else
          ret (pm_fill,
               {| pos := pos l + OB_MIDI_EVENT_SIZE; diff := diff1;
                  last_time := last_time l; event_read := 0; event := ev |},
               set_p2o_midi_data
                 (memcpy_event (pos l) (bytes ev) (p2o_midi_data e1)) e1)
      else ret (pm_flush, l, e)
  | pm_flush =>
      if pos l =? 0 then ret (pm_sleep, l, e)
      else
        e <- prepare_cycle_out_midi env (set_p2o_midi_ready 0 e) ;;
        ret (pm_sleep, set_pos 0 l, e)
  | pm_sleep => ret (pm_wait_ready, l, e)
  | pm_wait_ready =>
      if p2o_midi_ready e =? 0 then ret (pm_wait_ready, l, e)
      else ret (pm_stop_check, l, e)
  | pm_stop_check =>
      if status_val (ow_engine_get_status e) <=? status_val OW_ENGINE_STATUS_STOP
      then ret (pm_return, l, e)
      else ret (pm_fill, l, e)
  | pm_return => ret (pm_return, l, e)
  end.

End OutputSide.

(** What may happen next to the MIDI worker: it takes a step, libusb
    delivers the completion of the MIDI out transfer (in the thread that
    handles the events), or another thread sets the status. *)
Inductive p2o_action :=
| p2o_worker_step
| p2o_completion (xfr : libusb_transfer)
| p2o_set_status (s : ow_engine_status_t).

(** An accepted submission on the MIDI out endpoint. *)
Definition is_midi_out_submitted (c : call) : bool :=
  match c with
  | call_submit_transfer endpoint r => (endpoint =? MIDI_OUT_EP) && (r =? 0)
  | _ => false
  end.

Definition midi_out_submits (l : list call) : Z :=
  Z.of_nat (length (List.filter is_midi_out_submitted l)).

(** The worker and its engine, with the number of MIDI out transfers
    that were accepted and whose callback has not run yet. *)
Record p2o_midi_state := {
  pm_pc : p2o_midi_pc;
  pm_locals : p2o_midi_locals;
  pm_engine : ow_engine;
  pm_in_flight : Z
}.

(** libusb runs the callback of a transfer that is in flight only; a
    completion with nothing in flight does not happen and is skipped. *)
Definition p2o_perform {H} (env : environment H) (rd : ring_data H)
    (ctx : ow_context H) (a : p2o_action) (st : p2o_midi_state)
  : M H p2o_midi_state :=
  match a with
  | p2o_worker_step => fun w =>
      match run_p2o_midi_step env rd ctx (pm_pc st) (pm_locals st)
              (pm_engine st) w with
      | Some ((pc, l, e), w') =>
          Some ({| pm_pc := pc; pm_locals := l; pm_engine := e;
                   pm_in_flight :=
                     pm_in_flight st
                     + midi_out_submits (drop (length (log w)) (log w')) |},
                w')
      | None => None
      end
  | p2o_completion xfr =>
      if 0 <? pm_in_flight st
      then ret {| pm_pc := pm_pc st; pm_locals := pm_locals st;
                  pm_engine := cb_xfr_out_midi xfr (pm_engine st);
                  pm_in_flight := pm_in_flight st - 1 |}
      else ret st
  | p2o_set_status s =>
      ret {| pm_pc := pm_pc st; pm_locals := pm_locals st;
             pm_engine := ow_engine_set_status (pm_engine st) s;
             pm_in_flight := pm_in_flight st |}
  end.

Fixpoint p2o_run_schedule {H} (env : environment H) (rd : ring_data H)
    (ctx : ow_context H) (sched : list p2o_action) (st : p2o_midi_state)
  : M H p2o_midi_state :=
  match sched with
  | [] => ret st
  | a :: sched' =>
      bind (p2o_perform env rd ctx a st) (p2o_run_schedule env rd ctx sched')
  end.

(** ** Opening and configuring the device *)

Definition LIBUSB_SUCCESS : Z := 0.
Definition ENOMEM : Z := 12.

(** Calls into libusb and the allocator, in the order in which they
    happen. *)
Inductive usb_call :=
| usb_malloc
| usb_free
| usb_set_option (r : Z)
| usb_init (r : Z)
| usb_wrap_sys_device (fd r : Z)
| usb_get_device_list (total : Z)
| usb_free_device_list
| usb_get_device_descriptor (dev r : Z)
| usb_open (dev r : Z)
| usb_set_configuration (config r : Z)
| usb_claim_interface (iface r : Z)
| usb_set_interface_alt_setting (iface alt r : Z)
| usb_clear_halt (endpoint r : Z)
| usb_alloc_transfer (ptr : Z)
| usb_close
| usb_exit.

(** libusb, [malloc] and the device table as functions of a state [H].
    Handles, devices and transfers are opaque addresses, 0 being NULL.
    [malloc_engine] gives the memory as the allocator returns it, with
    whatever content; [libusb_wrap_sys_device] and [libusb_open] give the
    result and the handle they store when they succeed;
    [libusb_get_device_descriptor] gives the result, [idVendor] and
    [idProduct]; [ow_get_device_desc_from_vid_pid] is the lookup of the
    device table, [None] when it returns 0. *)
Record usb_library (H : Type) := {
  malloc_engine : H -> ow_engine * H;
  free_engine : H -> H;
  libusb_set_option : H -> Z * H;
  libusb_init : H -> Z * H;
  libusb_wrap_sys_device : Z -> H -> (Z * Z) * H;
  libusb_get_device : Z -> Z;
  libusb_get_device_list : H -> (Z * list Z) * H;
  libusb_free_device_list : H -> H;
  libusb_get_device_descriptor : Z -> H -> (Z * (Z * Z)) * H;
  libusb_get_bus_number : Z -> Z;
  libusb_get_device_address : Z -> Z;
  libusb_open : Z -> H -> (Z * Z) * H;
  libusb_set_configuration : Z -> Z -> H -> Z * H;
  libusb_claim_interface : Z -> Z -> H -> Z * H;
  libusb_set_interface_alt_setting : Z -> Z -> Z -> H -> Z * H;
  libusb_clear_halt : Z -> Z -> H -> Z * H;
  libusb_alloc_transfer : H -> Z * H;
  libusb_close : Z -> H -> H;
  libusb_exit : H -> H;
  ow_get_device_desc_from_vid_pid : Z -> Z -> option ow_device_desc
}.
Arguments malloc_engine {H} _ _.
Arguments free_engine {H} _ _.
Arguments libusb_set_option {H} _ _.
Arguments libusb_init {H} _ _.
Arguments libusb_wrap_sys_device {H} _ _ _.
Arguments libusb_get_device {H} _ _.
Arguments libusb_get_device_list {H} _ _.
Arguments libusb_free_device_list {H} _ _.
Arguments libusb_get_device_descriptor {H} _ _ _.
Arguments libusb_get_bus_number {H} _ _.
Arguments libusb_get_device_address {H} _ _.
Arguments libusb_open {H} _ _ _.
Arguments libusb_set_configuration {H} _ _ _ _.
Arguments libusb_claim_interface {H} _ _ _ _.
Arguments libusb_set_interface_alt_setting {H} _ _ _ _ _.
Arguments libusb_clear_halt {H} _ _ _ _.
Arguments libusb_alloc_transfer {H} _ _.
Arguments libusb_close {H} _ _ _.
Arguments libusb_exit {H} _ _.
Arguments ow_get_device_desc_from_vid_pid {H} _ _ _.

Declare Scope usb_scope.
Delimit Scope usb_scope with usb.

Section UsbInit.

Context {H : Type}.
Variable lib : usb_library H.

(** Computations that call into libusb: they thread the state of the
    library and the calls made so far. *)
Definition U (A : Type) : Type := H * list usb_call -> A * (H * list usb_call).

Definition uret {A} (a : A) : U A := fun s => (a, s).

Definition ubind {A B} (m : U A) (k : A -> U B) : U B :=
  fun s => let '(a, s') := m s in k a s'.

(** A call that returns a value, and a call of a [void] function. *)
Definition ucall {A} (f : H -> A * H) (c : A -> usb_call) : U A :=
  fun s => let '(a, h) := f (fst s) in (a, (h, snd s ++ [c a])).

Definition ucall_void (f : H -> H) (c : usb_call) : U unit :=
  fun s => (tt, (f (fst s), snd s ++ [c])).

Notation "x <- m ;; k" := (ubind m (fun x => k))
  (at level 100, m at next level, right associativity) : usb_scope.
Notation "m ;;; k" := (ubind m (fun _ => k))
  (at level 100, right associativity) : usb_scope.

Local Open Scope usb_scope.

Definition alloc_transfer : U Z :=
  ucall (libusb_alloc_transfer lib) usb_alloc_transfer.

Definition prepare_transfers : U Z :=
  xfr_in <- alloc_transfer ;;
  if xfr_in =? 0 then uret (- ENOMEM)
  else
    xfr_out <- alloc_transfer ;;
    if xfr_out =? 0 then uret (- ENOMEM)
    else
      xfr_in_midi <- alloc_transfer ;;
      if xfr_in_midi =? 0 then uret (- ENOMEM)
      else
        xfr_out_midi <- alloc_transfer ;;
        if xfr_out_midi =? 0 then uret (- ENOMEM)
        else uret LIBUSB_SUCCESS.

Definition usb_shutdown (handle : Z) : U unit :=
  ucall_void (libusb_close lib handle) usb_close ;;;
  ucall_void (libusb_exit lib) usb_exit.

(** [err = call; if (LIBUSB_SUCCESS != err) { ret = code; goto end; }]
    followed by the rest of the function. *)
Definition or_goto_end (call : U Z) (code : ow_err_t) (rest : U ow_err_t)
  : U ow_err_t :=
  err <- call ;;
  if err =? LIBUSB_SUCCESS then rest else uret code.

Definition set_configuration (handle config : Z) : U Z :=
  ucall (libusb_set_configuration lib handle config)
    (usb_set_configuration config).

Definition claim_interface (handle iface : Z) : U Z :=
  ucall (libusb_claim_interface lib handle iface) (usb_claim_interface iface).

Definition set_interface_alt_setting (handle iface alt : Z) : U Z :=
  ucall (libusb_set_interface_alt_setting lib handle iface alt)
    (usb_set_interface_alt_setting iface alt).

Definition clear_halt (handle endpoint : Z) : U Z :=
  ucall (libusb_clear_halt lib handle endpoint) (usb_clear_halt endpoint).

(** [ow_engine_init] up to the label [end]: the value of [ret] there.
    [handle] is [engine->usb.device_handle]. *)
Definition configure (handle : Z) : U ow_err_t :=
  or_goto_end (set_configuration handle 1) OW_USB_ERROR_CANT_SET_USB_CONFIG
  (or_goto_end (claim_interface handle 1) OW_USB_ERROR_CANT_CLAIM_IF
  (or_goto_end (set_interface_alt_setting handle 1 3)
     OW_USB_ERROR_CANT_SET_ALT_SETTING
  (or_goto_end (claim_interface handle 2) OW_USB_ERROR_CANT_CLAIM_IF
  (or_goto_end (set_interface_alt_setting handle 2 2)
     OW_USB_ERROR_CANT_SET_ALT_SETTING
  (or_goto_end (claim_interface handle 3) OW_USB_ERROR_CANT_CLAIM_IF
  (or_goto_end (set_interface_alt_setting handle 3 0)
     OW_USB_ERROR_CANT_SET_ALT_SETTING
  (or_goto_end (clear_halt handle AUDIO_IN_EP) OW_USB_ERROR_CANT_CLEAR_EP
  (or_goto_end (clear_halt handle AUDIO_OUT_EP) OW_USB_ERROR_CANT_CLEAR_EP
  (or_goto_end (clear_halt handle MIDI_IN_EP) OW_USB_ERROR_CANT_CLEAR_EP
  (or_goto_end (clear_halt handle MIDI_OUT_EP) OW_USB_ERROR_CANT_CLEAR_EP
  (or_goto_end prepare_transfers OW_USB_ERROR_CANT_PREPARE_TRANSFER
     (uret OW_OK)))))))))))).

(** The engine that is returned is [None] once it has been freed. *)
Definition ow_engine_init (handle : Z) (e : ow_engine) (blocks : Z)
  : U (ow_err_t * option ow_engine) :=
  r <- configure handle ;;
  match r with
  | OW_OK => uret (OW_OK, Some (ow_engine_init_mem e blocks))
  | _ =>
      usb_shutdown handle ;;;
      ucall_void (free_engine lib) usb_free ;;;
      uret (r, None)
  end.

(** The loop over the devices in [ow_engine_init_from_bus_address]: the
    handle it leaves in [engine->usb.device_handle] and the engine. *)
Fixpoint find_device (bus address : Z) (devices : list Z) (e : ow_engine)
  : U (Z * ow_engine) :=
  match devices with
  | [] => uret (0, e)
  | device :: rest =>
      d <- ucall (libusb_get_device_descriptor lib device)
             (fun d => usb_get_device_descriptor device (fst d)) ;;
      if negb (fst d =? 0) then find_device bus address rest e
      else
        match ow_get_device_desc_from_vid_pid lib (fst (snd d)) (snd (snd d)) with
        | Some desc =>
            let e := set_device_desc desc e in
            if (libusb_get_bus_number lib device =? bus)
               && (libusb_get_device_address lib device =? address)
            then
              o <- ucall (libusb_open lib device)
                     (fun o => usb_open device (fst o)) ;;
              uret (if fst o =? 0 then snd o else 0, e)
            else find_device bus address rest e
        | None => find_device bus address rest e
        end
  end.

Definition ow_engine_init_from_bus_address (bus address blocks : Z)
  : U (ow_err_t * option ow_engine) :=
  e <- ucall (malloc_engine lib) (fun _ => usb_malloc) ;;
  r <- ucall (libusb_init lib) usb_init ;;
  if negb (r =? LIBUSB_SUCCESS) then
    ucall_void (free_engine lib) usb_free ;;;
    uret (OW_USB_ERROR_LIBUSB_INIT_FAILED, None)
  else
    l <- ucall (libusb_get_device_list lib)
           (fun l => usb_get_device_list (fst l)) ;;
    f <- find_device bus address (take (Z.to_nat (fst l)) (snd l)) e ;;
    ucall_void (libusb_free_device_list lib) usb_free_device_list ;;;
    if fst f =? 0 then
      ucall_void (free_engine lib) usb_free ;;;
      uret (OW_USB_ERROR_CANT_FIND_DEV, None)
    else ow_engine_init (fst f) (snd f) blocks.

Definition ow_engine_init_from_libusb_device_descriptor
    (libusb_device_descriptor blocks : Z) : U (ow_err_t * option ow_engine) :=
  r <- ucall (libusb_set_option lib) usb_set_option ;;
  if negb (r =? LIBUSB_SUCCESS)
  then uret (OW_USB_ERROR_LIBUSB_INIT_FAILED, None)
  else
    e <- ucall (malloc_engine lib) (fun _ => usb_malloc) ;;
    r <- ucall (libusb_init lib) usb_init ;;
    if negb (r =? LIBUSB_SUCCESS) then
      ucall_void (free_engine lib) usb_free ;;;
      uret (OW_USB_ERROR_LIBUSB_INIT_FAILED, None)
    else
      o <- ucall (libusb_wrap_sys_device lib libusb_device_descriptor)
             (fun o => usb_wrap_sys_device libusb_device_descriptor (fst o)) ;;
      if negb (fst o =? 0) then
        ucall_void (free_engine lib) usb_free ;;;
        uret (OW_USB_ERROR_LIBUSB_INIT_FAILED, None)
      else
        let device := libusb_get_device lib (snd o) in
        d <- ucall (libusb_get_device_descriptor lib device)
               (fun d => usb_get_device_descriptor device (fst d)) ;;
        let e :=
          match ow_get_device_desc_from_vid_pid lib (fst (snd d)) (snd (snd d)) with
          | Some desc => set_device_desc desc e
          | None => e
          end in
        i <- ow_engine_init (snd o) e blocks ;;
        match fst i with
        | OW_OK => uret i
        | _ =>
            ucall_void (free_engine lib) usb_free ;;;
            uret i
        end.

End UsbInit.

(** The calls of [free] and of [libusb_open] in a log. *)
Definition is_free (c : usb_call) : bool :=
  match c with usb_free => true | _ => false end.

Definition is_open (c : usb_call) : bool :=
  match c with usb_open _ _ => true | _ => false end.

Definition frees (l : list usb_call) : list usb_call := List.filter is_free l.
Definition opens (l : list usb_call) : list usb_call := List.filter is_open l.

(** ** More observations on the call log *)

Definition is_submit (c : call) : bool :=
  match c with call_submit_transfer _ _ => true | _ => false end.

Definition is_read (c : call) : bool :=
  match c with call_read _ _ => true | _ => false end.

Definition submits (l : list call) : list call := List.filter is_submit l.
Definition reads (l : list call) : list call := List.filter is_read l.

Definition is_dll_inc (c : call) : bool :=
  match c with call_dll_inc _ _ _ => true | _ => false end.

Definition dll_incs (l : list call) : list call := List.filter is_dll_inc l.

(** ** More of the small host *)

(** Rings that never report room. *)
Definition full_write_space (ring : Z) (h : sim_host) : Z * sim_host := (0, h).

Definition full_context := sim_context_with full_write_space.

(** A libusb that refuses every submission (LIBUSB_ERROR_IO). *)
Definition refusing_env : environment sim_host := {|
  libusb_submit_transfer := fun _ h => (-1, h);
  ow_dll_overwitch_inc := fun _ _ _ h => h;
  ow_dll_overwitch_init := fun _ _ _ _ h => h;
  pthread_create := fun _ h => (0, h);
  pthread_join := fun _ h => h;
  ow_set_thread_rt_priority := fun _ _ h => h
|}.

(** A ring whose fill is the number kept in [sim_free], a read that
    leaves its destination alone and a resampler that does nothing. *)
Definition sim_read_space (ring : Z) (h : sim_host) : Z * sim_host :=
  (sim_free h, h).

Definition p2o_context (opts : Z) : ow_context sim_host := {|
  ctx_read_space := Some sim_read_space;
  ctx_write_space := Some sim_write_space;
  ctx_read := Some (fun _ len h => (len, h));
  ctx_write := Some sim_write;
  ctx_get_time := Some sim_get_time;
  ctx_dll := 0;
  ctx_p2o_audio := 4096;
  ctx_o2p_audio := 8192;
  ctx_p2o_midi := 12288;
  ctx_o2p_midi := 16384;
  ctx_set_rt_priority := None;
  ctx_priority := 0;
  ctx_options := opts
|}.

Definition sim_ring_data : ring_data sim_host := {|
  read_floats := fun _ _ _ dst => dst;
  read_event := fun _ _ _ ev => ev
|}.

Definition sim_src_simple (d : SRC_DATA) (converter channels : Z)
  : Z * SRC_DATA := (0, d).

(** An engine with the host-to-device audio enabled, before and after
    the latch is set. *)
Definition sim_p2o_engine : ow_engine :=
  ow_engine_set_p2o_audio_enabled sim_running OW_ENGINE_OPTION_P2O_AUDIO.

Definition sim_latched_engine : ow_engine :=
  set_reading_at_p2o_end 1 sim_p2o_engine.

(** ** Reference definitions for the MIDI worker *)

(** At most one MIDI out transfer is in flight, and while one is, the
    worker has cleared [p2o_midi_ready] and sleeps or waits for it. *)
Definition one_in_flight (st : p2o_midi_state) : Prop :=
  pm_in_flight st = 0
  \/ (pm_in_flight st = 1
      /\ p2o_midi_ready (pm_engine st) = 0
      /\ (pm_pc st = pm_sleep \/ pm_pc st = pm_wait_ready)).

(** The MIDI out buffer holds [pos] bytes of events followed by zeros up
    to its 512 bytes. *)
Definition zero_padded (p : Z) (d : list Z) : Prop :=
  length d = Z.to_nat USB_BULK_MIDI_SIZE
  /\ forall i : nat,
       (Z.to_nat p <= i < Z.to_nat USB_BULK_MIDI_SIZE)%nat -> d !!! i = 0.

(** What holds of [pos] and of the buffer at each program point: while
    the buffer is filled and flushed, [pos] is a multiple of the event size
    within the buffer and, once an event is in, the rest is zero; at the
    other points [pos] is zero. *)
Definition filling (st : p2o_midi_state) : Prop :=
  match pm_pc st with
  | pm_start => True
  | pm_fill | pm_flush =>
      0 <= pos (pm_locals st) <= USB_BULK_MIDI_SIZE
      /\ pos (pm_locals st) mod OB_MIDI_EVENT_SIZE = 0
      /\ (0 < pos (pm_locals st) ->
          zero_padded (pos (pm_locals st)) (p2o_midi_data (pm_engine st)))
  | pm_sleep | pm_wait_ready | pm_stop_check | pm_return =>
      pos (pm_locals st) = 0
  end.

(** The worker waits for a callback that no transfer in flight will
    bring. *)
Definition waiting_in_vain (st : p2o_midi_state) : Prop :=
  pm_in_flight st = 0
  /\ p2o_midi_ready (pm_engine st) = 0
  /\ (pm_pc st = pm_sleep \/ pm_pc st = pm_wait_ready).

(** Local variables of the MIDI worker holding one note-on event, with
    [p] bytes in the buffer. *)
Definition sim_locals (p : Z) : p2o_midi_locals :=
  {| pos := p; diff := F64.zero; last_time := F64.zero; event_read := 1;
     event := {| time := F64.zero; bytes := [9; 144; 64; 127] |} |}.

(** A schedule in which the worker runs, a completion arrives and
    another thread stops the engine. *)
Definition sim_midi_schedule : list p2o_action :=
  replicate 8 p2o_worker_step
  ++ [p2o_completion scenario_transfer; p2o_set_status OW_ENGINE_STATUS_STOP]
  ++ replicate 4 p2o_worker_step.

(** ** Reference definitions for the configuration of the device *)

(** A call with its result replaced by the one of a success. *)
Definition call_shape (c : usb_call) : usb_call :=
  match c with
  | usb_set_configuration config _ => usb_set_configuration config 0
  | usb_claim_interface iface _ => usb_claim_interface iface 0
  | usb_set_interface_alt_setting iface alt _ =>
      usb_set_interface_alt_setting iface alt 0
  | usb_clear_halt endpoint _ => usb_clear_halt endpoint 0
  | usb_alloc_transfer _ => usb_alloc_transfer 1
  | c => c
  end.

Definition call_succeeded (c : usb_call) : bool :=
  match c with
  | usb_set_configuration _ r | usb_claim_interface _ r
  | usb_set_interface_alt_setting _ _ r | usb_clear_halt _ r => r =? 0
  | usb_alloc_transfer ptr => negb (ptr =? 0)
  | _ => true
  end.

(** The error that [ow_engine_init] returns when a call of this kind
    fails. *)
Definition error_of_call (c : usb_call) : ow_err_t :=
  match c with
  | usb_set_configuration _ _ => OW_USB_ERROR_CANT_SET_USB_CONFIG
  | usb_claim_interface _ _ => OW_USB_ERROR_CANT_CLAIM_IF
  | usb_set_interface_alt_setting _ _ _ => OW_USB_ERROR_CANT_SET_ALT_SETTING
  | usb_clear_halt _ _ => OW_USB_ERROR_CANT_CLEAR_EP
  | usb_alloc_transfer _ => OW_USB_ERROR_CANT_PREPARE_TRANSFER
  | _ => OW_OK
  end.

(** The calls of a configuration in which nothing fails. *)
Definition init_sequence : list usb_call := [
  usb_set_configuration 1 0;
  usb_claim_interface 1 0;
  usb_set_interface_alt_setting 1 3 0;
  usb_claim_interface 2 0;
  usb_set_interface_alt_setting 2 2 0;
  usb_claim_interface 3 0;
  usb_set_interface_alt_setting 3 0 0;
  usb_clear_halt AUDIO_IN_EP 0;
  usb_clear_halt AUDIO_OUT_EP 0;
  usb_clear_halt MIDI_IN_EP 0;
  usb_clear_halt MIDI_OUT_EP 0;
  usb_alloc_transfer 1;
  usb_alloc_transfer 1;
  usb_alloc_transfer 1;
  usb_alloc_transfer 1
].

(** The calls [cfg] follow the sequence [rest] and either all succeed,
    with the result [OW_OK], or stop at the first one that fails, with the
    error of its kind. *)
Definition stops_at_first_failure (rest cfg : list usb_call) (r : ow_err_t)
  : Prop :=
  map call_shape cfg = take (length cfg) rest
  /\ (r = OW_OK /\ length cfg = length rest
      /\ forallb call_succeeded cfg = true
      \/ exists ok bad,
           cfg = ok ++ [bad]
           /\ forallb call_succeeded ok = true
           /\ call_succeeded bad = false
           /\ r = error_of_call bad
           /\ r <> OW_OK).

Definition is_malloc (c : usb_call) : bool :=
  match c with usb_malloc => true | _ => false end.

Definition is_configuring (c : usb_call) : bool :=
  match error_of_call c with OW_OK => false | _ => true end.

Definition mallocs (l : list usb_call) : list usb_call :=
  List.filter is_malloc l.

(** ** Reference definitions for the start of the workers *)

(** The options as activation stores them in the engine: the bits of
    [context->options], each masked on its own. *)
Definition masked_options {H} (ctx : ow_context H) : ow_engine_options :=
  {| o2p_audio := Z.land (ctx_options ctx) OW_ENGINE_OPTION_O2P_AUDIO;
     p2o_audio := Z.land (ctx_options ctx) OW_ENGINE_OPTION_P2O_AUDIO;
     o2p_midi := Z.land (ctx_options ctx) OW_ENGINE_OPTION_O2P_MIDI;
     p2o_midi := Z.land (ctx_options ctx) OW_ENGINE_OPTION_P2O_MIDI;
     dll := Z.land (ctx_options ctx) OW_ENGINE_OPTION_DLL |}.

(** The calls that start one worker. *)
Definition start_calls (t : thread_id) (prio : Z) : list call :=
  [call_pthread_create t 0; call_set_rt_priority t prio].

(** The audio worker is wanted by three of the options. *)
Definition audio_worker_wanted {H} (ctx : ow_context H) : bool :=
  option_enabled ctx OW_ENGINE_OPTION_O2P_MIDI
  || option_enabled ctx OW_ENGINE_OPTION_O2P_AUDIO
  || option_enabled ctx OW_ENGINE_OPTION_P2O_AUDIO.

(** A thread library in which the MIDI worker starts and the audio worker
    does not (EAGAIN). *)
Definition half_started_env : environment sim_host := {|
  libusb_submit_transfer := fun _ h => (0, h);
  ow_dll_overwitch_inc := fun _ _ _ h => h;
  ow_dll_overwitch_init := fun _ _ _ _ h => h;
  pthread_create := fun t h =>
    (match t with p2o_midi_thread => 0 | audio_o2p_midi_thread => 11 end, h);
  pthread_join := fun _ h => h;
  ow_set_thread_rt_priority := fun _ _ h => h
|}.

(** * Properties *)

(** ** Error strings *)

(** C10: the string table has twenty entries; every error of the taxonomy
    (tags 0 to 19) is mapped to the entry at its tag, and the tags 0 to 19
    are exactly the codes for which the lookup has a value. *)
Theorem ow_get_err_str_bounds :
  length ob_err_strgs = 20%nat /\
  (forall e : ow_err_t,
      0 <= err_tag e <= 19 /\
      exists s, ow_get_err_str (err_tag e) = Some s /\
                ob_err_strgs !! Z.to_nat (err_tag e) = Some s) /\
  (forall errcode : Z,
      (exists s, ow_get_err_str errcode = Some s) <-> 0 <= errcode <= 19).
Proof.
  split; [reflexivity|]. split.
  - intros e. split; [destruct e; simpl; lia|].
    destruct e; simpl; eexists; split; reflexivity.
  - intros errcode. unfold ow_get_err_str. split.
    + intros [s Hs]. destruct (Z.ltb_spec errcode 0) as [|Hge]; [discriminate|].
      apply lookup_lt_Some in Hs. change (length ob_err_strgs) with 20%nat in Hs.
      lia.
    + intros [Hlo Hhi]. destruct (Z.ltb_spec errcode 0) as [|_]; [lia|].
      apply lookup_lt_is_Some_2. change (length ob_err_strgs) with 20%nat. lia.
Qed.

(** ** The audio input handler *)

Section InputHandler.

Context {H : Type}.
Variable env : environment H.

Lemma emit_log (c : call) (h : H) (w : world H) :
  log (emit c h w) = log w ++ [c].
Proof. reflexivity. Qed.

(** The prologue under the lock: the DLL tick, if there is a DLL. *)
Lemma dll_tick_runs (ctx : ow_context H) (n : Z) (w : world H) :
  (ctx_dll ctx <> 0 -> ctx_get_time ctx <> None) ->
  exists w' new,
    (if ctx_dll ctx =? 0 then ret tt
     else bind (get_time ctx) (fun t => dll_inc env (ctx_dll ctx) n t)) w
    = Some (tt, w')
    /\ log w' = log w ++ new /\ writes new = [].
Proof.
  intros Hdll. destruct (Z.eqb_spec (ctx_dll ctx) 0) as [|Hnz].
  - exists w, []. rewrite app_nil_r. auto.
  - specialize (Hdll Hnz). unfold bind, get_time, dll_inc.
    destruct (ctx_get_time ctx) as [g|]; [|congruence].
    destruct (g (host w)) as [t h].
    eexists _, [_; _]. split; [reflexivity|]. split.
    + simpl. rewrite <- app_assoc. reflexivity.
    + reflexivity.
Qed.

(** C6: when the status read under the lock is below RUN, the handler
    returns the engine as the decoder left it: the ring's write is not
    called and the latency counters keep their values. *)
Theorem input_handler_gated_below_run (ctx : ow_context H) (e : ow_engine)
    (w : world H) :
  status_val (status e) < status_val OW_ENGINE_STATUS_RUN ->
  (ctx_dll ctx <> 0 -> ctx_get_time ctx <> None) ->
  exists w' new,
    set_usb_input_data_blks env ctx e w
    = Some (ow_engine_read_usb_input_blocks e, w')
    /\ log w' = log w ++ new
    /\ writes new = []
    /\ o2p_latency (ow_engine_read_usb_input_blocks e) = o2p_latency e
    /\ o2p_max_latency (ow_engine_read_usb_input_blocks e) = o2p_max_latency e.
Proof.
  intros Hst Hdll.
  destruct (dll_tick_runs ctx (frames_per_transfer e) w Hdll)
    as (w' & new & Hrun & Hlog & Hw).
  exists w', new. unfold set_usb_input_data_blks, bind at 1.
  rewrite Hrun.
  destruct (Z.ltb_spec (status_val (status e)) (status_val OW_ENGINE_STATUS_RUN));
    [|lia].
  repeat split; auto.
Qed.

Lemma writes_app (l1 l2 : list call) : writes (l1 ++ l2) = writes l1 ++ writes l2.
Proof. apply List.filter_app. Qed.

(** C5: a call of the handler either finds [write_space (o2p_audio)] at
    least [o2p_transfer_size] and calls the ring's write exactly once,
    with the transfer buffer and exactly [o2p_transfer_size] bytes, or
    does not call the write at all. *)
Theorem input_handler_writes_whole_transfer_or_nothing (ctx : ow_context H)
    (e : ow_engine) (w : world H) :
  ctx_read_space ctx <> None ->
  ctx_write_space ctx <> None ->
  ctx_write ctx <> None ->
  (ctx_dll ctx <> 0 -> ctx_get_time ctx <> None) ->
  exists e' w' new,
    set_usb_input_data_blks env ctx e w = Some (e', w')
    /\ log w' = log w ++ new
    /\ ((exists space,
            In (call_write_space (ctx_o2p_audio ctx) space) new
            /\ o2p_transfer_size e <= space
            /\ writes new =
               [call_write (ctx_o2p_audio ctx) (Audio (o2p_transfer_buf e'))
                  (o2p_transfer_size e)])
        \/ writes new = []).
Proof.
  intros Hrs Hws Hwr Hdll.
  destruct (dll_tick_runs ctx (frames_per_transfer e) w Hdll)
    as (w1 & new1 & Hrun & Hlog1 & Hw1).
  unfold set_usb_input_data_blks, bind at 1. rewrite Hrun.
  destruct (Z.ltb_spec (status_val (status e)) (status_val OW_ENGINE_STATUS_RUN)).
  { exists (ow_engine_read_usb_input_blocks e), w1, new1. auto. }
  unfold bind, read_space, write_space, write.
  destruct (ctx_read_space ctx) as [rs|]; [|congruence].
  destruct (ctx_write_space ctx) as [ws|]; [|congruence].
  destruct (ctx_write ctx) as [wr|]; [|congruence].
  destruct (rs (ctx_o2p_audio ctx) (host w1)) as [l h2] eqn:Ers.
  cbn [host emit log].
  destruct (ws (ctx_o2p_audio ctx) h2) as [space h3] eqn:Ews.
  cbn [o2p_transfer_size set_o2p_latencies o2p_transfer_buf].
  change (o2p_transfer_size (ow_engine_read_usb_input_blocks e))
    with (o2p_transfer_size e).
  destruct (Z.leb_spec (o2p_transfer_size e) space) as [Hfit|Hover].
  - cbn [host emit log].
    destruct (wr _ _ _ h3) as [n h4].
    eexists _, _, (new1 ++ [_; _; _]). split; [reflexivity|]. split.
    + cbn [log emit]. rewrite Hlog1, <- !app_assoc. reflexivity.
    + left. exists space. split; [|split; [assumption|]].
      * apply in_or_app. right. right. left. reflexivity.
      * rewrite writes_app, Hw1. reflexivity.
  - eexists _, _, (new1 ++ [_; _]). split; [reflexivity|]. split.
    + cbn [log emit]. rewrite Hlog1, <- !app_assoc. reflexivity.
    + right. rewrite writes_app, Hw1. reflexivity.
Qed.

End InputHandler.

(** ** The MIDI input callback *)

Section MidiIn.

Context {H : Type}.
Variable env : environment H.

Lemma get_times_app (l1 l2 : list call) :
  get_times (l1 ++ l2) = get_times l1 ++ get_times l2.
Proof. apply List.filter_app. Qed.

(** The loop terminates by its own test before the fuel is used up:
    it visits every multiple of the event size below [actual]. *)
Lemma midi_offsets_complete (actual : Z) (fuel : nat) (length : Z) :
  0 <= length -> (actual - length <= Z.of_nat fuel) ->
  forall off, In off (midi_offsets fuel actual length) <->
              length <= off < actual /\ (off - length) mod 4 = 0.
Proof.
  revert length. induction fuel as [|fuel IH]; intros length Hlen Hfuel off.
  - simpl. split; [tauto|]. lia.
  - simpl. destruct (Z.ltb_spec length actual) as [Hlt|Hge].
    + simpl. rewrite IH by (unfold OB_MIDI_EVENT_SIZE; lia).
      unfold OB_MIDI_EVENT_SIZE. split.
      * intros [<-|[Hr Hm]].
        -- split; [lia|]. replace (length - length) with 0 by lia. reflexivity.
        -- split; [lia|]. replace (off - length) with (off - (length + 4) + 1 * 4) by lia.
           rewrite Z.mod_add by lia. assumption.
      * intros [Hr Hm].
        destruct (Z.eq_dec off length) as [->|Hne]; [left; reflexivity|right].
        assert (4 <= off - length).
        { destruct (Z.le_gt_cases 4 (off - length)) as [|Hsmall]; [assumption|].
          rewrite Z.mod_small in Hm by lia. lia. }
        split; [lia|].
        replace (off - (length + 4)) with (off - length + (-1) * 4) by lia.
        rewrite Z.mod_add by lia. assumption.
    + simpl. split; [tauto|]. lia.
Qed.

(** The loop visits the strides in increasing order; the fuel it is given
    is never used up. *)
Lemma midi_offsets_seq (actual : Z) (fuel k : nat) :
  actual - 4 * Z.of_nat k <= Z.of_nat fuel ->
  midi_offsets fuel actual (4 * Z.of_nat k)
  = map (fun j => 4 * Z.of_nat j)
      (seq k (Z.to_nat ((actual + 3) / 4) - k)).
Proof.
  revert k. induction fuel as [|fuel IH]; intros k Hfuel.
  - assert (Hn : (Z.to_nat ((actual + 3) / 4) - k = 0)%nat).
    { assert ((actual + 3) / 4 < Z.of_nat k + 1)
        by (apply Z.div_lt_upper_bound; lia).
      lia. }
    rewrite Hn. reflexivity.
  - cbn [midi_offsets].
    destruct (Z.ltb_spec (4 * Z.of_nat k) actual) as [Hlt|Hge].
    + assert (Hq : Z.of_nat k + 1 <= (actual + 3) / 4)
        by (apply Z.div_le_lower_bound; lia).
      replace (Z.to_nat ((actual + 3) / 4) - k)%nat
        with (S (Z.to_nat ((actual + 3) / 4) - S k)) by lia.
      cbn [seq map]. f_equal.
      replace (4 * Z.of_nat k + OB_MIDI_EVENT_SIZE) with (4 * Z.of_nat (S k))
        by (unfold OB_MIDI_EVENT_SIZE; lia).
      apply IH. lia.
    + assert (Hn : (Z.to_nat ((actual + 3) / 4) - k = 0)%nat).
      { assert ((actual + 3) / 4 < Z.of_nat k + 1)
          by (apply Z.div_lt_upper_bound; lia).
        lia. }
      rewrite Hn. reflexivity.
Qed.

Lemma midi_offsets_are_strides (actual : Z) :
  midi_offsets (Z.to_nat actual) actual 0 = midi_strides actual.
Proof.
  pose proof (midi_offsets_seq actual (Z.to_nat actual) 0 ltac:(lia)) as Hs.
  change (4 * Z.of_nat 0) with 0 in Hs. rewrite Nat.sub_0_r in Hs.
  exact Hs.
Qed.

Variables (ctx : ow_context H) (e : ow_engine).
Variables (ws : Z -> H -> Z * H) (wr : Z -> payload -> Z -> H -> Z * H).
Hypothesis Hws : ctx_write_space ctx = Some ws.
Hypothesis Hwr : ctx_write ctx = Some wr.

Lemma midi_in_event_spec (t : spec_float) (length : Z) (w : world H) :
  exists w' new,
    midi_in_event ctx e t length w = Some (tt, w')
    /\ log w' = log w ++ new
    /\ get_times new = []
    /\ (writes new = [] \/
        accepted_at e length = true /\ writes new = [enqueue_call ctx e t length])
    /\ ((forall r h, sizeof_midi_event <= fst (ws r h)) ->
        writes new = if accepted_at e length then [enqueue_call ctx e t length]
                     else []).
Proof.
  unfold midi_in_event, accepted_at. cbn [bytes].
  destruct (midi_event_accepted (midi_chunk e length)) eqn:Hacc.
  - unfold bind, write_space, write. rewrite Hws, Hwr.
    destruct (ws (ctx_o2p_midi ctx) (host w)) as [space h1] eqn:Ews.
    destruct (Z.leb_spec sizeof_midi_event space) as [Hroom|Hfull].
    + cbn [host emit]. destruct (wr _ _ _ h1) as [n h2].
      eexists _, [_; _]. split; [reflexivity|]. split.
      { cbn [log emit]. rewrite <- app_assoc. reflexivity. }
      split; [reflexivity|]. split; [right; split; reflexivity|].
      intros _. reflexivity.
    + eexists _, [_]. split; [reflexivity|]. split; [reflexivity|].
      split; [reflexivity|]. split; [left; reflexivity|].
      intros Hroom. specialize (Hroom (ctx_o2p_midi ctx) (host w)).
      rewrite Ews in Hroom. simpl in Hroom. lia.
  - exists w, []. rewrite app_nil_r. repeat split; auto.
Qed.

Lemma midi_in_loop_spec (t : spec_float) (actual : Z) (fuel : nat) :
  forall (length : Z) (w : world H),
  exists w' new,
    midi_in_loop fuel ctx e t actual length w = Some (tt, w')
    /\ log w' = log w ++ new
    /\ get_times new = []
    /\ Forall (fun c => exists off,
                   In off (midi_offsets fuel actual length)
                   /\ accepted_at e off = true
                   /\ c = enqueue_call ctx e t off) (writes new)
    /\ ((forall r h, sizeof_midi_event <= fst (ws r h)) ->
        writes new =
        map (enqueue_call ctx e t)
          (List.filter (accepted_at e) (midi_offsets fuel actual length))).
Proof.
  induction fuel as [|fuel IH]; intros length w.
  - exists w, []. rewrite app_nil_r. simpl. repeat split; auto.
  - simpl. destruct (Z.ltb_spec length actual) as [Hlt|Hge].
    + destruct (midi_in_event_spec t length w)
        as (w1 & new1 & Hrun1 & Hlog1 & Hgt1 & Hw1 & Hroom1).
      destruct (IH (length + OB_MIDI_EVENT_SIZE) w1)
        as (w2 & new2 & Hrun2 & Hlog2 & Hgt2 & Hw2 & Hroom2).
      exists w2, (new1 ++ new2). unfold bind at 1. rewrite Hrun1.
      split; [assumption|]. split; [rewrite Hlog2, Hlog1, app_assoc; reflexivity|].
      split; [rewrite get_times_app, Hgt1, Hgt2; reflexivity|]. split.
      * rewrite writes_app. apply Forall_app. split.
        -- destruct Hw1 as [->|[Hacc ->]]; [constructor|].
           constructor; [|constructor]. exists length. simpl. auto.
        -- eapply Forall_impl; [exact Hw2|]. simpl.
           intros c (off & Hin & Hacc & ->). exists off. auto.
      * intros Hroom. rewrite writes_app, Hroom1, Hroom2 by assumption.
        simpl. destruct (accepted_at e length); reflexivity.
    + exists w, []. rewrite app_nil_r. simpl. repeat split; auto.
Qed.

Lemma midi_in_callback_runs (xfr : libusb_transfer) (g : H -> spec_float * H)
    (w : world H) :
  ctx_get_time ctx = Some g ->
  status_val OW_ENGINE_STATUS_RUN <= status_val (status e) ->
  xfr_status xfr = LIBUSB_TRANSFER_COMPLETED ->
  exists e' w' rest,
    cb_xfr_in_midi env ctx xfr e w = Some (e', w')
    /\ log w' = log w ++ call_get_time (fst (g (host w))) :: rest
    /\ get_times rest = []
    /\ Forall (fun c => exists off,
                   In off (midi_offsets (Z.to_nat (actual_length xfr))
                             (actual_length xfr) 0)
                   /\ accepted_at e off = true
                   /\ c = enqueue_call ctx e (fst (g (host w))) off)
         (writes rest)
    /\ ((forall r h, sizeof_midi_event <= fst (ws r h)) ->
        writes rest =
        map (enqueue_call ctx e (fst (g (host w))))
          (List.filter (accepted_at e)
             (midi_offsets (Z.to_nat (actual_length xfr)) (actual_length xfr) 0))).
Proof.
  intros Hgt Hst Hdone. unfold cb_xfr_in_midi, ow_engine_get_status.
  destruct (Z.ltb_spec (status_val (status e)) (status_val OW_ENGINE_STATUS_RUN));
    [lia|].
  rewrite Hdone. unfold bind at 1 2, get_time. rewrite Hgt.
  destruct (g (host w)) as [t h1] eqn:Eg. cbn [fst].
  destruct (midi_in_loop_spec t (actual_length xfr) (Z.to_nat (actual_length xfr))
              0 (emit (call_get_time t) h1 w))
    as (w2 & new & Hrun & Hlog & Hgts & Hall & Hroom).
  rewrite Hrun. unfold prepare_cycle_in_midi, prepare_cycle, bind, submit_transfer.
  destruct (libusb_submit_transfer env MIDI_IN_EP (host w2)) as [r h3].
  assert (Hlog' : log (emit (call_submit_transfer MIDI_IN_EP r) h3 w2)
                  = log w ++ call_get_time t
                      :: new ++ [call_submit_transfer MIDI_IN_EP r]).
  { cbn [log emit]. rewrite Hlog. cbn [log emit].
    rewrite <- !app_assoc. reflexivity. }
  assert (Hgts' : get_times (new ++ [call_submit_transfer MIDI_IN_EP r]) = []).
  { rewrite get_times_app, Hgts. reflexivity. }
  assert (Hwrs : writes (new ++ [call_submit_transfer MIDI_IN_EP r]) = writes new).
  { rewrite writes_app. simpl. apply app_nil_r. }
  destruct (r =? 0);
    eexists _, _, (new ++ [call_submit_transfer MIDI_IN_EP r]);
    (split; [reflexivity|]); rewrite Hwrs; auto.
Qed.

(** What one event adds to the log, whatever the ring answers. *)
Lemma midi_in_event_calls (t : spec_float) (off : Z) (w : world H) :
  exists w' space,
    midi_in_event ctx e t off w = Some (tt, w')
    /\ log w' = log w ++ event_calls ctx e t off space.
Proof.
  unfold midi_in_event, event_calls, midi_event_accepted. cbn [bytes].
  cbv zeta.
  destruct ((8 <=? midi_chunk e off !!! 0%nat)
            && (midi_chunk e off !!! 0%nat <=? 15)).
  - unfold bind, write_space, write. rewrite Hws, Hwr.
    destruct (ws (ctx_o2p_midi ctx) (host w)) as [space h1].
    destruct (Z.leb_spec sizeof_midi_event space) as [Hroom|Hfull].
    + cbn [host emit]. destruct (wr _ _ _ h1) as [n h2].
      eexists _, space. split; [reflexivity|].
      destruct (Z.leb_spec sizeof_midi_event space); [|lia].
      cbn [log emit]. rewrite <- app_assoc. reflexivity.
    + eexists _, space. split; [reflexivity|].
      destruct (Z.leb_spec sizeof_midi_event space); [lia|]. reflexivity.
  - exists w, 0. rewrite app_nil_r. split; reflexivity.
Qed.

(** The loop goes on to the next event whatever becomes of the current
    one. *)
Lemma midi_in_loop_calls (t : spec_float) (actual : Z) (fuel : nat) :
  forall (off : Z) (w : world H),
  exists w' spaces,
    midi_in_loop fuel ctx e t actual off w = Some (tt, w')
    /\ length spaces = length (midi_offsets fuel actual off)
    /\ log w' = log w ++
         concat (zip_with (event_calls ctx e t)
                   (midi_offsets fuel actual off) spaces).
Proof.
  induction fuel as [|fuel IH]; intros off w.
  - exists w, []. cbn. rewrite app_nil_r. auto.
  - cbn [midi_in_loop midi_offsets].
    destruct (Z.ltb_spec off actual) as [Hlt|Hge].
    + destruct (midi_in_event_calls t off w) as (w1 & space & Hrun1 & Hlog1).
      destruct (IH (off + OB_MIDI_EVENT_SIZE) w1)
        as (w2 & spaces & Hrun2 & Hlen & Hlog2).
      exists w2, (space :: spaces). unfold bind at 1. rewrite Hrun1.
      split; [exact Hrun2|]. split; [cbn [length]; rewrite Hlen; reflexivity|].
      rewrite Hlog2, Hlog1. cbn [zip_with concat].
      rewrite <- app_assoc. reflexivity.
    + exists w, []. cbn. rewrite app_nil_r. auto.
Qed.

Lemma midi_in_callback_calls (xfr : libusb_transfer) (g : H -> spec_float * H)
    (w : world H) :
  ctx_get_time ctx = Some g ->
  status_val OW_ENGINE_STATUS_RUN <= status_val (status e) ->
  xfr_status xfr = LIBUSB_TRANSFER_COMPLETED ->
  exists e' w' spaces r,
    cb_xfr_in_midi env ctx xfr e w = Some (e', w')
    /\ length spaces = length (midi_strides (actual_length xfr))
    /\ log w' = log w ++
         call_get_time (fst (g (host w)))
         :: concat (zip_with (event_calls ctx e (fst (g (host w))))
                      (midi_strides (actual_length xfr)) spaces)
         ++ [call_submit_transfer MIDI_IN_EP r].
Proof.
  intros Hgt Hst Hdone. unfold cb_xfr_in_midi, ow_engine_get_status.
  destruct (Z.ltb_spec (status_val (status e)) (status_val OW_ENGINE_STATUS_RUN));
    [lia|].
  rewrite Hdone. unfold bind at 1 2, get_time. rewrite Hgt.
  destruct (g (host w)) as [t h1] eqn:Eg. cbn [fst].
  destruct (midi_in_loop_calls t (actual_length xfr) (Z.to_nat (actual_length xfr))
              0 (emit (call_get_time t) h1 w))
    as (w2 & spaces & Hrun & Hlen & Hlog).
  rewrite midi_offsets_are_strides in Hlen, Hlog.
  rewrite Hrun. unfold prepare_cycle_in_midi, prepare_cycle, bind, submit_transfer.
  destruct (libusb_submit_transfer env MIDI_IN_EP (host w2)) as [r h3].
  destruct (r =? 0); eexists _, _, spaces, r;
    (split; [reflexivity|]); (split; [exact Hlen|]);
    cbn [log emit]; rewrite Hlog; cbn [log emit];
    rewrite <- !app_assoc; reflexivity.
Qed.

End MidiIn.

Section MidiInCallback.

Context {H : Type}.
Variable env : environment H.

(** Below RUN, or on a transfer that did not complete, the callback
    only submits the next transfer. *)
Lemma midi_in_callback_idle (ctx : ow_context H) (e : ow_engine)
    (xfr : libusb_transfer) (w : world H) :
  status_val (status e) < status_val OW_ENGINE_STATUS_RUN
  \/ xfr_status xfr <> LIBUSB_TRANSFER_COMPLETED ->
  exists e' w' r,
    cb_xfr_in_midi env ctx xfr e w = Some (e', w')
    /\ log w' = log w ++ [call_submit_transfer MIDI_IN_EP r].
Proof.
  intros Hidle. unfold cb_xfr_in_midi, ow_engine_get_status.
  assert (Hskip :
    (if status_val (status e) <? status_val OW_ENGINE_STATUS_RUN
     then ret tt
     else match xfr_status xfr with
          | LIBUSB_TRANSFER_COMPLETED =>
              bind (get_time ctx)
                (fun t => midi_in_loop (Z.to_nat (actual_length xfr)) ctx e t
                            (actual_length xfr) 0)
          | _ => ret tt
          end) w = Some (tt, w)).
  { destruct (Z.ltb_spec (status_val (status e))
                (status_val OW_ENGINE_STATUS_RUN)); [reflexivity|].
    destruct Hidle as [|Hnot]; [lia|].
    destruct (xfr_status xfr); try reflexivity. congruence. }
  unfold bind at 1. rewrite Hskip.
  unfold prepare_cycle_in_midi, prepare_cycle, bind, submit_transfer.
  destruct (libusb_submit_transfer env MIDI_IN_EP (host w)) as [r h].
  destruct (r =? 0); eexists _, _, r; split; reflexivity.
Qed.

(** The events of a buffer are those of any prefix that covers them. *)
Lemma midi_chunk_prefix (e : ow_engine) (n : nat) (off : Z) :
  0 <= off -> (Z.to_nat off + 4 <= n)%nat ->
  midi_chunk e off = take 4 (drop (Z.to_nat off) (take n (o2p_midi_data e))).
Proof.
  intros Hoff Hn. unfold midi_chunk.
  change (Z.to_nat OB_MIDI_EVENT_SIZE) with 4%nat.
  rewrite !take_drop_commute, take_take. f_equal. f_equal. lia.
Qed.

End MidiInCallback.

(** C8: the events a MIDI input callback enqueues all carry the one
    value that [get_time] returned, read once before the first of them;
    and on the buffer 09 90 40 7F 05 00 00 00 08 80 40 00 with the clock
    at [T], a ring with room receives exactly two events, both stamped
    [T]. *)
Theorem midi_events_carry_completion_time :
  (forall (H : Type) (env : environment H) (ctx : ow_context H)
          (e : ow_engine) (xfr : libusb_transfer) (w : world H),
      ctx_get_time ctx <> None ->
      ctx_write_space ctx <> None ->
      ctx_write ctx <> None ->
      exists e' w' new,
        cb_xfr_in_midi env ctx xfr e w = Some (e', w')
        /\ log w' = log w ++ new
        /\ ((get_times new = [] /\ writes new = [])
            \/ exists t rest,
                new = call_get_time t :: rest
                /\ get_times rest = []
                /\ Forall (fun c => exists off, c = enqueue_call ctx e t off)
                     (writes rest)))
  /\
  (forall (H : Type) (env : environment H) (ctx : ow_context H)
          (e : ow_engine) (w : world H) (T : spec_float)
          (g : H -> spec_float * H) (ws : Z -> H -> Z * H)
          (wr : Z -> payload -> Z -> H -> Z * H),
      status_val OW_ENGINE_STATUS_RUN <= status_val (status e) ->
      take 12 (o2p_midi_data e) = scenario_midi_buffer ->
      ctx_get_time ctx = Some g ->
      fst (g (host w)) = T ->
      ctx_write_space ctx = Some ws ->
      (forall r h, sizeof_midi_event <= fst (ws r h)) ->
      ctx_write ctx = Some wr ->
      exists e' w' new,
        cb_xfr_in_midi env ctx
          {| xfr_status := LIBUSB_TRANSFER_COMPLETED; actual_length := 12 |} e w
        = Some (e', w')
        /\ log w' = log w ++ new
        /\ writes new =
           [call_write (ctx_o2p_midi ctx)
              (Midi {| time := T; bytes := [9; 144; 64; 127] |}) sizeof_midi_event;
            call_write (ctx_o2p_midi ctx)
              (Midi {| time := T; bytes := [8; 128; 64; 0] |}) sizeof_midi_event]).
Proof.
  split.
  - intros H env ctx e xfr w Hgt Hws Hwr.
    destruct (ctx_get_time ctx) as [g|] eqn:Eg; [clear Hgt|congruence].
    destruct (ctx_write_space ctx) as [ws|] eqn:Ews; [clear Hws|congruence].
    destruct (ctx_write ctx) as [wr|] eqn:Ewr; [clear Hwr|congruence].
    destruct (Z.lt_ge_cases (status_val (status e))
                (status_val OW_ENGINE_STATUS_RUN)) as [Hlow|Hrun].
    { destruct (midi_in_callback_idle env ctx e xfr w (or_introl Hlow))
        as (e' & w' & r & Hcb & Hlog).
      exists e', w', [call_submit_transfer MIDI_IN_EP r]. auto. }
    destruct (xfr_status xfr) eqn:Ex.
    1: { destruct (midi_in_callback_runs env ctx e ws wr Ews Ewr xfr g w Eg Hrun Ex)
           as (e' & w' & rest & Hcb & Hlog & Hgts & Hall & _).
         exists e', w', (call_get_time (fst (g (host w))) :: rest).
         split; [assumption|]. split; [assumption|]. right.
         exists (fst (g (host w))), rest. split; [reflexivity|].
         split; [assumption|].
         eapply Forall_impl; [exact Hall|]. simpl.
         intros c (off & _ & _ & ->). exists off. reflexivity. }
    all: destruct (midi_in_callback_idle env ctx e xfr w) as (e' & w' & r & Hcb & Hlog);
      [right; congruence|];
      exists e', w', [call_submit_transfer MIDI_IN_EP r]; auto.
  - intros H env ctx e w T g ws wr Hrun Hbuf Hgt HT Hws Hroom Hwr.
    destruct (midi_in_callback_runs env ctx e ws wr Hws Hwr
                {| xfr_status := LIBUSB_TRANSFER_COMPLETED; actual_length := 12 |}
                g w Hgt Hrun eq_refl)
      as (e' & w' & rest & Hcb & Hlog & _ & _ & Hexact).
    exists e', w', (call_get_time (fst (g (host w))) :: rest).
    split; [assumption|]. split; [assumption|].
    change (writes (call_get_time (fst (g (host w))) :: rest)) with (writes rest).
    rewrite (Hexact Hroom), HT. cbn [actual_length].
    change (midi_offsets (Z.to_nat 12) 12 0) with [0; 4; 8].
    assert (C0 : midi_chunk e 0 = [9; 144; 64; 127])
      by (rewrite (midi_chunk_prefix e 12 0), Hbuf by lia; reflexivity).
    assert (C4 : midi_chunk e 4 = [5; 0; 0; 0])
      by (rewrite (midi_chunk_prefix e 12 4), Hbuf by lia; reflexivity).
    assert (C8 : midi_chunk e 8 = [8; 128; 64; 0])
      by (rewrite (midi_chunk_prefix e 12 8), Hbuf by lia; reflexivity).
    unfold accepted_at. cbn [List.filter]. rewrite C0, C4, C8.
    cbv [midi_event_accepted]. cbn. unfold enqueue_call. rewrite C0, C8.
    reflexivity.
Qed.

(** The code's test reads the whole first byte: it accepts the byte when
    its high nibble (the cable number) is 0 and its low nibble (the code
    index) is 8 or more. *)
Lemma midi_event_accepted_nibbles (chunk : list Z) :
  0 <= chunk !!! 0%nat < 256 ->
  (midi_event_accepted chunk = true <->
   Z.shiftr (chunk !!! 0%nat) 4 = 0 /\ 8 <= Z.land (chunk !!! 0%nat) 15).
Proof.
  intros Hb. unfold midi_event_accepted. set (b := chunk !!! 0%nat) in *.
  rewrite andb_true_iff, !Z.leb_le, Z.shiftr_div_pow2 by lia.
  change 15 with (Z.ones 4) at 2. rewrite Z.land_ones by lia.
  change (2 ^ 4) with 16. split.
  - intros [Hlo Hhi]. rewrite Z.div_small, Z.mod_small by lia. lia.
  - intros [Hq Hr]. pose proof (Z.div_mod b 16 ltac:(lia)) as Hdm.
    pose proof (Z.mod_pos_bound b 16 ltac:(lia)). lia.
Qed.

Lemma midi_offsets_strides (actual off : Z) :
  In off (midi_offsets (Z.to_nat actual) actual 0)
  <-> 0 <= off < actual /\ off mod 4 = 0.
Proof.
  rewrite (midi_offsets_complete actual (Z.to_nat actual) 0) by lia.
  rewrite Z.sub_0_r. reflexivity.
Qed.

(** C2, amended: with the status at RUN or above, a completed MIDI input
    transfer is walked in strides of four bytes, and after the one
    [get_time] the callback does, stride by stride and whatever the ring
    answers: nothing for an event whose first byte lies outside 0x08..0x0F;
    for any other event it asks the ring for its room and hands the event
    to the ring's write if and only if the room reported is that of an
    event (16 bytes) or more.  An event that is dropped, for its first byte
    or for lack of room, does not end the walk. *)
Theorem midi_in_enqueues_by_first_byte (H : Type) (env : environment H)
    (ctx : ow_context H) (e : ow_engine) (xfr : libusb_transfer) (w : world H)
    (g : H -> spec_float * H) (ws : Z -> H -> Z * H)
    (wr : Z -> payload -> Z -> H -> Z * H) :
  status_val OW_ENGINE_STATUS_RUN <= status_val (status e) ->
  xfr_status xfr = LIBUSB_TRANSFER_COMPLETED ->
  ctx_get_time ctx = Some g ->
  ctx_write_space ctx = Some ws ->
  ctx_write ctx = Some wr ->
  let t := fst (g (host w)) in
  let offs := midi_strides (actual_length xfr) in
  exists e' w' spaces r,
    cb_xfr_in_midi env ctx xfr e w = Some (e', w')
    /\ length spaces = length offs
    /\ log w' = log w ++
         call_get_time t
         :: concat (zip_with (event_calls ctx e t) offs spaces)
         ++ [call_submit_transfer MIDI_IN_EP r]
    /\ (forall off, In off offs <-> 0 <= off < actual_length xfr /\ off mod 4 = 0)
    /\ (forall off space,
          In (enqueue_call ctx e t off) (event_calls ctx e t off space)
          <-> 8 <= midi_chunk e off !!! 0%nat <= 15
              /\ sizeof_midi_event <= space).
Proof.
  intros Hrun Hdone Hgt Hws Hwr t offs. subst t offs.
  destruct (midi_in_callback_calls env ctx e ws wr Hws Hwr xfr g w Hgt Hrun Hdone)
    as (e' & w' & spaces & r & Hcb & Hlen & Hlog).
  exists e', w', spaces, r.
  split; [exact Hcb|]. split; [exact Hlen|]. split; [exact Hlog|]. split.
  - intros off. rewrite <- midi_offsets_are_strides. apply midi_offsets_strides.
  - intros off space. unfold event_calls. cbv zeta.
    destruct (Z.leb_spec 8 (midi_chunk e off !!! 0%nat)) as [Hlo|Hlo];
      destruct (Z.leb_spec (midi_chunk e off !!! 0%nat) 15) as [Hhi|Hhi];
      cbn [andb];
      try (split; [intros []|intros [? _]; lia]).
    destruct (Z.leb_spec sizeof_midi_event space) as [Hroom|Hfull].
    + split; [intros _; lia|]. intros _. right. left. reflexivity.
    + split; [|intros [_ ?]; lia].
      intros [Hin|[]]. discriminate Hin.
Qed.

(** C2 as stated fails: the first event of the scenario buffer starts with
    0x09, whose high nibble is 0, and it is enqueued all the same. *)
Lemma midi_filter_high_nibble_counterexample :
  ~ (forall off, 0 <= off < 12 -> off mod 4 = 0 ->
       (In (enqueue_call (roomy_context 4 0) sim_midi_engine F32.one off)
          (calls_of (cb_xfr_in_midi sim_env (roomy_context 4 0) scenario_transfer
                       sim_midi_engine) (sim_world F32.one 4096))
        <-> high_nibble_filter (midi_chunk sim_midi_engine off) = true)).
Proof.
  intros Hclaim. specialize (Hclaim 0 ltac:(lia) eq_refl).
  destruct Hclaim as [Hdir _].
  assert (Hfalse : high_nibble_filter (midi_chunk sim_midi_engine 0) = false)
    by reflexivity.
  rewrite Hfalse in Hdir. enough (false = true) by discriminate.
  apply Hdir. vm_compute. right. right. left. reflexivity.
Qed.

(** A ring with room for one event only: the first event of the scenario
    buffer is enqueued, the second is dropped for its first byte, and the
    third, for which the ring reports no room, is dropped while the
    callback goes on to submit the next transfer. *)
Lemma midi_in_full_ring_drops_and_goes_on :
  calls_of (cb_xfr_in_midi sim_env (sim_context 4 0) scenario_transfer
              sim_midi_engine) (sim_world F32.one 16)
  = [call_get_time F32.one;
     call_write_space 16384 16;
     call_write 16384 (Midi {| time := F32.one; bytes := [9; 144; 64; 127] |}) 16;
     call_write_space 16384 0;
     call_submit_transfer MIDI_IN_EP 0].
Proof. vm_compute. reflexivity. Qed.

Lemma midi_in_enqueues_by_first_byte_witness :
  let ctx := sim_context 4 0 in
  let e := sim_midi_engine in
  let w := sim_world F32.one 16 in
  let t := fst (sim_get_time (host w)) in
  let offs := midi_strides (actual_length scenario_transfer) in
  exists e' w' spaces r,
    cb_xfr_in_midi sim_env ctx scenario_transfer e w = Some (e', w')
    /\ length spaces = length offs
    /\ log w' = log w ++
         call_get_time t
         :: concat (zip_with (event_calls ctx e t) offs spaces)
         ++ [call_submit_transfer MIDI_IN_EP r]
    /\ (forall off, In off offs
                    <-> 0 <= off < actual_length scenario_transfer
                        /\ off mod 4 = 0)
    /\ (forall off space,
          In (enqueue_call ctx e t off) (event_calls ctx e t off space)
          <-> 8 <= midi_chunk e off !!! 0%nat <= 15
              /\ sizeof_midi_event <= space).
Proof.
  apply (midi_in_enqueues_by_first_byte sim_host sim_env (sim_context 4 0)
           sim_midi_engine scenario_transfer (sim_world F32.one 16)
           sim_get_time sim_write_space sim_write).
  - simpl. lia.
  - reflexivity.
  - reflexivity.
  - reflexivity.
  - reflexivity.
Defined.

Lemma midi_events_carry_completion_time_witness :
  exists e' w' new,
    cb_xfr_in_midi sim_env (roomy_context 4 0) scenario_transfer sim_midi_engine
      (sim_world F32.one 4096) = Some (e', w')
    /\ log w' = log (sim_world F32.one 4096) ++ new
    /\ writes new =
       [call_write (ctx_o2p_midi (roomy_context 4 0))
          (Midi {| time := F32.one; bytes := [9; 144; 64; 127] |})
          sizeof_midi_event;
        call_write (ctx_o2p_midi (roomy_context 4 0))
          (Midi {| time := F32.one; bytes := [8; 128; 64; 0] |})
          sizeof_midi_event].
Proof.
  apply (proj2 midi_events_carry_completion_time sim_host sim_env
           (roomy_context 4 0) sim_midi_engine (sim_world F32.one 4096)
           F32.one sim_get_time roomy_write_space sim_write).
  - simpl. lia.
  - reflexivity.
  - reflexivity.
  - reflexivity.
  - reflexivity.
  - intros r h. simpl. unfold sizeof_midi_event. lia.
  - reflexivity.
Defined.

Lemma input_handler_gated_below_run_witness :
  exists w' new,
    set_usb_input_data_blks sim_env (sim_context 1 0) sim_waiting
      (sim_world F32.one 4096)
    = Some (ow_engine_read_usb_input_blocks sim_waiting, w')
    /\ log w' = log (sim_world F32.one 4096) ++ new
    /\ writes new = []
    /\ o2p_latency (ow_engine_read_usb_input_blocks sim_waiting)
       = o2p_latency sim_waiting
    /\ o2p_max_latency (ow_engine_read_usb_input_blocks sim_waiting)
       = o2p_max_latency sim_waiting.
Proof.
  apply (input_handler_gated_below_run sim_env (sim_context 1 0) sim_waiting
           (sim_world F32.one 4096)).
  - simpl. lia.
  - intros _. discriminate.
Defined.

Lemma input_handler_writes_whole_transfer_or_nothing_witness :
  exists e' w' new,
    set_usb_input_data_blks sim_env (sim_context 1 0) sim_running
      (sim_world F32.one 4096) = Some (e', w')
    /\ log w' = log (sim_world F32.one 4096) ++ new
    /\ ((exists space,
            In (call_write_space (ctx_o2p_audio (sim_context 1 0)) space) new
            /\ o2p_transfer_size sim_running <= space
            /\ writes new =
               [call_write (ctx_o2p_audio (sim_context 1 0))
                  (Audio (o2p_transfer_buf e')) (o2p_transfer_size sim_running)])
        \/ writes new = []).
Proof.
  apply (input_handler_writes_whole_transfer_or_nothing sim_env
           (sim_context 1 0) sim_running (sim_world F32.one 4096)).
  - discriminate.
  - discriminate.
  - discriminate.
  - intros _. discriminate.
Defined.

(** ** Activation and the join *)

Section Activation.

Context {H : Type}.
Variable env : environment H.

Lemma and_then_ok (a b : activation_step) (e : ow_engine) :
  fst (and_then a b e) = OW_OK
  <-> fst (a e) = OW_OK /\ fst (b (snd (a e))) = OW_OK.
Proof.
  unfold and_then. destruct (a e) as [err e']. cbn [fst snd].
  destruct err; split; try tauto; try (intros [? _]; congruence);
    cbn [fst]; congruence.
Qed.

Ltac step_ok :=
  intros; unfold option_enabled;
  cbn [options set_options o2p_audio p2o_audio o2p_midi p2o_midi dll];
  repeat match goal with
         | |- context [if ?b then _ else _] =>
             destruct b eqn:?; cbn [negb andb orb fst]
         end;
  split; congruence.

(** The outcome of each check depends on the context only. *)
Lemma activate_o2p_audio_ok (ctx : ow_context H) (e : ow_engine) :
  fst (activate_o2p_audio ctx e) = OW_OK <-> o2p_audio_missing ctx = false.
Proof.
  unfold activate_o2p_audio, o2p_audio_missing, is_null.
  destruct (ctx_write_space ctx), (ctx_write ctx); step_ok.
Qed.

Lemma activate_p2o_audio_ok (ctx : ow_context H) (e : ow_engine) :
  fst (activate_p2o_audio ctx e) = OW_OK <-> p2o_audio_missing ctx = false.
Proof.
  unfold activate_p2o_audio, p2o_audio_missing, is_null.
  destruct (ctx_read_space ctx), (ctx_read ctx); step_ok.
Qed.

Lemma activate_o2p_midi_ok (ctx : ow_context H) (e : ow_engine) :
  fst (activate_o2p_midi ctx e) = OW_OK <-> o2p_midi_missing ctx = false.
Proof.
  unfold activate_o2p_midi, o2p_midi_missing, is_null.
  destruct (ctx_get_time ctx); step_ok.
Qed.

Lemma activate_p2o_midi_ok (ctx : ow_context H) (e : ow_engine) :
  fst (activate_p2o_midi ctx e) = OW_OK <-> p2o_midi_missing ctx = false.
Proof.
  unfold activate_p2o_midi, p2o_midi_missing, is_null.
  destruct (ctx_get_time ctx); step_ok.
Qed.

Lemma activate_dll_ok (ctx : ow_context H) (e : ow_engine) :
  fst (activate_dll ctx e) = OW_OK <-> dll_missing ctx = false.
Proof.
  unfold activate_dll, dll_missing, is_null.
  destruct (ctx_get_time ctx); step_ok.
Qed.

Lemma activate_checks_ok_iff (ctx : ow_context H) (e : ow_engine) :
  fst (activate_checks ctx e) = OW_OK <-> missing_per_code ctx = false.
Proof.
  unfold activate_checks, missing_per_code.
  destruct (ctx_options ctx =? 0); cbn [orb fst]; [split; congruence|].
  rewrite !and_then_ok, activate_o2p_audio_ok, activate_p2o_audio_ok,
    activate_o2p_midi_ok, activate_p2o_midi_ok, activate_dll_ok.
  rewrite !orb_false_iff. tauto.
Qed.

(** A failed check returns before any thread is started. *)
Lemma activate_checks_fail_returns (ctx : ow_context H) (e : ow_engine)
    (w : world H) :
  fst (activate_checks ctx e) <> OW_OK ->
  ow_engine_activate env ctx e w
  = Some (activate_checks ctx e, ctx, w).
Proof.
  intros Herr. unfold ow_engine_activate.
  destruct (activate_checks ctx e) as [err e']. simpl in Herr.
  destruct err; try reflexivity. congruence.
Qed.

(** The checks that activation makes: it returns an error, and starts no
    thread, when the options are empty or an enabled option lacks an
    element that its check asks for: the ring, [write_space] and [write]
    for audio from the device; the ring, [read_space] and [read] for audio
    to the device; [get_time] and the ring for each MIDI direction;
    [get_time] and the DLL object for the DLL. *)
Lemma activation_rejects_missing_requirements (ctx : ow_context H)
    (e : ow_engine) (w : world H) :
  missing_per_code ctx = true ->
  exists err e',
    ow_engine_activate env ctx e w = Some (err, e', ctx, w)
    /\ err <> OW_OK.
Proof.
  intros Hmiss.
  assert (Herr : fst (activate_checks ctx e) <> OW_OK).
  { rewrite activate_checks_ok_iff. congruence. }
  rewrite (activate_checks_fail_returns ctx e w Herr).
  destruct (activate_checks ctx e) as [err e']. eauto.
Qed.

(** A worker starts whenever the thread library lets it: the priority
    setter is never NULL after the default has been installed. *)
Lemma start_thread_runs (ctx : ow_context H) (t : thread_id) (w : world H) :
  (forall t h, fst (pthread_create env t h) = 0) ->
  exists w', start_thread env (default_rt_priority env ctx) t w = Some (true, w').
Proof.
  intros Hcreate. unfold start_thread, bind, create_thread.
  specialize (Hcreate t (host w)).
  destruct (pthread_create env t (host w)) as [r h]. cbn [fst] in Hcreate.
  subst r. cbn [Z.eqb]. unfold set_rt_priority, default_rt_priority.
  destruct (ctx_set_rt_priority ctx) as [g|] eqn:Eg.
  - rewrite Eg. eexists. reflexivity.
  - cbn [ctx_set_rt_priority]. eexists. reflexivity.
Qed.

(** The checks are also all that activation asks for: a context that
    passes them is activated when the workers can be created. *)
Lemma activation_accepts (ctx : ow_context H) (e : ow_engine) (w : world H) :
  missing_per_code ctx = false ->
  (forall t h, fst (pthread_create env t h) = 0) ->
  activation_error (ow_engine_activate env ctx e w) = Some OW_OK.
Proof.
  intros Hok Hcreate. apply (activate_checks_ok_iff ctx e) in Hok.
  unfold ow_engine_activate. destruct (activate_checks ctx e) as [err e'].
  cbn [fst] in Hok. subst err. unfold bind at 1.
  destruct (p2o_midi (options e') =? 0).
  - cbn [ret negb]. unfold bind.
    destruct ((o2p_midi (options e') =? 0) && (o2p_audio (options e') =? 0)
              && (p2o_audio (options e') =? 0)); [reflexivity|].
    destruct (start_thread_runs ctx audio_o2p_midi_thread w Hcreate) as [w' ->].
    reflexivity.
  - destruct (start_thread_runs ctx p2o_midi_thread w Hcreate) as [w1 ->].
    cbn [negb]. unfold bind.
    destruct ((o2p_midi (options e') =? 0) && (o2p_audio (options e') =? 0)
              && (p2o_audio (options e') =? 0)); [reflexivity|].
    destruct (start_thread_runs ctx audio_o2p_midi_thread w1 Hcreate) as [w' ->].
    reflexivity.
Qed.

(** The join of the p2o-MIDI worker is decided by the o2p flag. *)
Lemma wait_joins (e : ow_engine) (w : world H) :
  exists w',
    ow_engine_wait env e w = Some (tt, w')
    /\ log w' = log w ++
         call_pthread_join audio_o2p_midi_thread
         :: (if o2p_midi (options e) =? 0 then []
             else [call_pthread_join p2o_midi_thread]).
Proof.
  unfold ow_engine_wait, bind, join_thread.
  destruct (o2p_midi (options e) =? 0); eexists; (split; [reflexivity|]);
    cbn [log emit]; rewrite <- ?app_assoc; reflexivity.
Qed.

End Activation.

(** The audio input handler asks the ring of the device-to-host audio for
    its fill whenever the status is RUN or above, on every context: without
    [read_space] the call goes through NULL.  No check of the activation
    covers it when only the audio from the device is enabled. *)
Lemma input_handler_needs_read_space (H : Type) (env : environment H)
    (ctx : ow_context H) (e : ow_engine) (w : world H) :
  ctx_read_space ctx = None ->
  status_val OW_ENGINE_STATUS_RUN <= status_val (status e) ->
  set_usb_input_data_blks env ctx e w = None.
Proof.
  intros Hrs Hst. unfold set_usb_input_data_blks, bind at 1.
  destruct ((if ctx_dll ctx =? 0 then ret tt
             else bind (get_time ctx)
                    (fun t => dll_inc env (ctx_dll ctx) (frames_per_transfer e) t))
              w) as [[[] w1]|]; [|reflexivity].
  cbv zeta.
  destruct (Z.ltb_spec (status_val (status e))
              (status_val OW_ENGINE_STATUS_RUN)); [lia|].
  unfold bind, read_space. rewrite Hrs. reflexivity.
Qed.

(** C4, the defect: with only the audio from the device enabled, a context
    that provides the ring, [write_space] and [write] but neither [read] nor
    [read_space] lacks ring operations that the specification requires, and
    activation accepts it all the same: it returns OW_OK and starts the
    audio worker.  The worker reaches its inner loop at RUN, and the first
    completed audio input transfer makes the input handler call
    [read_space] through the NULL pointer; so does the worker itself where
    it empties the host-to-device ring before it starts over. *)
Lemma activation_accepts_context_without_read_space :
  let w := sim_world F32.one 4096 in
  let session := activate_then_run sim_env o2p_only_context (sim_engine 2) in
  missing_per_spec o2p_only_context = true
  /\ activation_error
       (ow_engine_activate sim_env o2p_only_context (sim_engine 2) w)
     = Some OW_OK
  /\ creates (calls_of (ow_engine_activate sim_env o2p_only_context
                          (sim_engine 2)) w)
     = [call_pthread_create audio_o2p_midi_thread 0]
  /\ session_state (session worker_start w)
     = Some (at_inner_loop, OW_ENGINE_STATUS_RUN)
  /\ session (worker_start ++ [first_audio_in]) w = None
  /\ run_audio_o2p_midi_step sim_env o2p_only_context [] at_drain
       (sim_engine 2) w = None.
Proof. vm_compute. auto 7. Qed.

(** C3, the defect: activated with audio from the device and MIDI to the
    device, the engine starts both workers, and [ow_engine_wait] joins the
    audio worker only. *)
Lemma wait_leaves_p2o_midi_worker_unjoined :
  let session := activate_then_wait sim_env
                   (sim_context o2p_audio_and_p2o_midi 0) (sim_engine 2) in
  activation_error
    (ow_engine_activate sim_env (sim_context o2p_audio_and_p2o_midi 0)
       (sim_engine 2) (sim_world F32.one 4096)) = Some OW_OK
  /\ creates (calls_of session (sim_world F32.one 4096))
     = [call_pthread_create p2o_midi_thread 0;
        call_pthread_create audio_o2p_midi_thread 0]
  /\ joins (calls_of session (sim_world F32.one 4096))
     = [call_pthread_join audio_o2p_midi_thread].
Proof. vm_compute. auto. Qed.

(** The converse defect: with MIDI from the device only, the p2o-MIDI
    worker is never started and is joined all the same. *)
Lemma wait_joins_p2o_midi_worker_never_started :
  let session := activate_then_wait sim_env
                   (sim_context OW_ENGINE_OPTION_O2P_MIDI 0) (sim_engine 2) in
  creates (calls_of session (sim_world F32.one 4096))
  = [call_pthread_create audio_o2p_midi_thread 0]
  /\ joins (calls_of session (sim_world F32.one 4096))
     = [call_pthread_join audio_o2p_midi_thread;
        call_pthread_join p2o_midi_thread].
Proof. vm_compute. auto. Qed.

(** ** Loops *)

Lemma for_loop_invariant {St : Type} (P : nat -> St -> Prop)
    (body : nat -> St -> St) (n i : nat) (st : St) :
  P i st ->
  (forall k s, (i <= k < i + n)%nat -> P k s -> P (S k) (body k s)) ->
  P (i + n)%nat (for_loop n i body st).
Proof.
  revert i st. induction n as [|n IH]; intros i st Hinit Hstep.
  - rewrite Nat.add_0_r. exact Hinit.
  - simpl. replace (i + S n)%nat with (S i + n)%nat by lia. apply IH.
    + apply Hstep; [lia|exact Hinit].
    + intros k s Hk. apply Hstep. lia.
Qed.

(** ** The outgoing block counter *)

Lemma to_uint16_idem (x : Z) : to_uint16 (to_uint16 x) = to_uint16 x.
Proof. unfold to_uint16. apply Z.mod_mod. lia. Qed.

Lemma to_uint16_add (x y : Z) : to_uint16 (to_uint16 x + y) = to_uint16 (x + y).
Proof. unfold to_uint16. apply Zplus_mod_idemp_l. Qed.

Lemma htobe16_to_uint16 (x : Z) : htobe16 (to_uint16 x) = htobe16 x.
Proof. unfold htobe16. rewrite to_uint16_idem. reflexivity. Qed.

Lemma write_block_counter (e : ow_engine) (k : nat) (st : nat * ow_engine) :
  counter_invariant e k st -> counter_invariant e (S k) (write_block k st).
Proof.
  destruct st as [f e']. unfold counter_invariant, write_block.
  cbn [snd fst usb set_usb device_desc blocks_per_transfer p2o_transfer_buf
         data_out set_data_out set_usb_frames usb_frames].
  intros (Hdesc & Hbpt & Hbuf & Hlen & Hfr & Hhd & Hprev).
  repeat split; try assumption.
  - rewrite length_insert. assumption.
  - rewrite Hfr, to_uint16_add. f_equal. lia.
  - intros n. rewrite list_lookup_total_insert.
    destruct (decide (k = n /\ (k < length (data_out (usb e')))%nat))
      as [[-> _]|_]; [|apply Hhd].
    cbn [header set_blk_data set_blk_frames]. apply Hhd.
  - intros n Hn Hin. rewrite list_lookup_total_insert.
    destruct (decide (k = n /\ (k < length (data_out (usb e')))%nat))
      as [[-> _]|Hne].
    + cbn [frames set_blk_data set_blk_frames]. rewrite Hfr, htobe16_to_uint16.
      f_equal. lia.
    + apply Hprev; [|assumption].
      destruct (decide (k = n)) as [->|]; [|lia].
      exfalso. apply Hne. split; [reflexivity|]. rewrite Hlen. assumption.
Qed.

Lemma write_blocks_counter (e : ow_engine) :
  0 <= usb_frames (usb e) < 2 ^ 16 ->
  counter_invariant e (Z.to_nat (blocks_per_transfer e))
    (for_loop (Z.to_nat (blocks_per_transfer e)) 0 write_block (0%nat, e)).
Proof.
  intros Hrange.
  apply (for_loop_invariant (counter_invariant e) write_block
           (Z.to_nat (blocks_per_transfer e)) 0 (0%nat, e)).
  - unfold counter_invariant. cbn [snd]. repeat split; try reflexivity.
    + rewrite Z.mul_0_r, Z.add_0_r. unfold to_uint16.
      symmetry. apply Z.mod_small. assumption.
    + intros n Hn. lia.
  - intros k st _. apply write_block_counter.
Qed.

Lemma init_mem_output_ready (e : ow_engine) (blocks : Z) :
  0 <= blocks -> output_ready (ow_engine_init_mem e blocks).
Proof.
  intros Hblocks. unfold output_ready, ow_engine_init_mem.
  cbn [usb data_out usb_frames blocks_per_transfer].
  set (d0 := zero_blocks blocks _).
  assert (Hinv : length (for_loop (Z.to_nat blocks) 0 stamp_header d0)
                 = length d0
                 /\ forall n, (n < 0 + Z.to_nat blocks)%nat ->
                      (n < length d0)%nat ->
                      header (for_loop (Z.to_nat blocks) 0 stamp_header d0 !!! n)
                      = htobe16 2047).
  { apply (for_loop_invariant
             (fun k d => length d = length d0
                         /\ forall n, (n < k)%nat -> (n < length d0)%nat ->
                                      header (d !!! n) = htobe16 2047)).
    - split; [reflexivity|]. intros n Hn. lia.
    - intros k d _ [Hlen Hprev]. unfold stamp_header. split.
      + rewrite length_insert. assumption.
      + intros n Hn Hin. rewrite list_lookup_total_insert.
        destruct (decide (k = n /\ (k < length d)%nat)) as [_|Hne];
          [reflexivity|].
        apply Hprev; [|assumption].
        destruct (decide (k = n)) as [->|]; [|lia].
        exfalso. apply Hne. split; [reflexivity|]. rewrite Hlen. assumption. }
  destruct Hinv as [Hlen Hhd].
  assert (Hd0 : length d0 = Z.to_nat blocks)
    by (unfold d0, zero_blocks; apply length_replicate).
  split; [exact Hblocks|].
  split; [rewrite Hlen; exact Hd0|]. split; [lia|].
  apply (Forall_lookup_total_2 _ (Inhabited0 := usb_blk_inhabited)). intros n Hn.
  apply Hhd; rewrite ?Hd0; rewrite Hlen, Hd0 in Hn; lia.
Qed.

(** C7, amended: on an engine whose output side is ready, one call of
    [ow_engine_write_usb_output_blocks] leaves [blocks_per_transfer]
    blocks; block [n] carries [htobe16 (base + n * OB_FRAMES_PER_BLOCK)]
    in [frames], [base] being the counter at entry, and still has the
    header [htobe16 (0x07ff)]; the 16-bit counter becomes
    [(base + OB_FRAMES_PER_BLOCK * blocks_per_transfer) mod 2^16], which
    is larger than [base] whenever the sum does not wrap; and the output
    side is ready for the next call. *)
Theorem output_blocks_counter (e : ow_engine) :
  output_ready e ->
  let e' := ow_engine_write_usb_output_blocks e in
  let base := usb_frames (usb e) in
  length (data_out (usb e')) = Z.to_nat (blocks_per_transfer e)
  /\ (forall n, (n < Z.to_nat (blocks_per_transfer e))%nat ->
        frames (data_out (usb e') !!! n)
        = htobe16 (base + Z.of_nat n * OB_FRAMES_PER_BLOCK)
        /\ header (data_out (usb e') !!! n) = htobe16 2047)
  /\ usb_frames (usb e')
     = (base + OB_FRAMES_PER_BLOCK * blocks_per_transfer e) mod 2 ^ 16
  /\ (0 < blocks_per_transfer e ->
      base + OB_FRAMES_PER_BLOCK * blocks_per_transfer e < 2 ^ 16 ->
      usb_frames (usb e') = base + OB_FRAMES_PER_BLOCK * blocks_per_transfer e
      /\ base < usb_frames (usb e'))
  /\ output_ready e'.
Proof.
  intros (Hpos & Hlen & Hrange & Hhdr) e' base.
  destruct (write_blocks_counter e Hrange)
    as (Hdesc & Hbpt & Hbuf & Hlen' & Hfr & Hhd & Hframes).
  fold (ow_engine_write_usb_output_blocks e) in *. fold e' in Hdesc, Hbpt, Hbuf, Hlen', Hfr, Hhd, Hframes.
  fold base in Hfr, Hframes.
  assert (Hheaders : forall n, (n < Z.to_nat (blocks_per_transfer e))%nat ->
                       header (data_out (usb e') !!! n) = htobe16 2047).
  { intros n Hn. rewrite Hhd.
    apply (Forall_lookup_total_1 (fun b => header b = htobe16 2047) _ n Hhdr).
    lia. }
  assert (Hcount : usb_frames (usb e')
                   = (base + OB_FRAMES_PER_BLOCK * blocks_per_transfer e) mod 2 ^ 16).
  { rewrite Hfr. unfold to_uint16. rewrite Z2Nat.id by assumption. reflexivity. }
  split; [rewrite Hlen'; exact Hlen|].
  split; [intros n Hn; split; [apply Hframes; lia|apply Hheaders; exact Hn]|].
  split; [exact Hcount|]. split.
  - intros Hsome Hfit.
    rewrite Hcount, Z.mod_small by (unfold OB_FRAMES_PER_BLOCK in *; lia).
    unfold OB_FRAMES_PER_BLOCK. lia.
  - unfold output_ready. rewrite Hbpt, Hlen'. split; [exact Hpos|].
    split; [exact Hlen|]. split.
    + rewrite Hcount. apply Z.mod_pos_bound. lia.
    + apply (Forall_lookup_total_2 _ (Inhabited0 := usb_blk_inhabited)). intros n Hn. apply Hheaders. lia.
Qed.

(** The counter after [n] transfers, from the single-transfer facts. *)
Lemma write_blocks_ready (e : ow_engine) :
  output_ready e ->
  output_ready (ow_engine_write_usb_output_blocks e)
  /\ blocks_per_transfer (ow_engine_write_usb_output_blocks e)
     = blocks_per_transfer e
  /\ usb_frames (usb (ow_engine_write_usb_output_blocks e))
     = (usb_frames (usb e) + OB_FRAMES_PER_BLOCK * blocks_per_transfer e)
       mod 2 ^ 16.
Proof.
  intros (Hpos & Hlen & Hrange & Hhdr).
  destruct (write_blocks_counter e Hrange)
    as (_ & Hbpt & _ & Hlen' & Hfr & Hhd & _).
  fold (ow_engine_write_usb_output_blocks e) in Hbpt, Hlen', Hfr, Hhd.
  assert (Hcount : usb_frames (usb (ow_engine_write_usb_output_blocks e))
                   = (usb_frames (usb e)
                      + OB_FRAMES_PER_BLOCK * blocks_per_transfer e) mod 2 ^ 16).
  { rewrite Hfr. unfold to_uint16. rewrite Z2Nat.id by assumption. reflexivity. }
  split; [|split; assumption].
  unfold output_ready. rewrite Hbpt, Hlen'. split; [exact Hpos|].
  split; [exact Hlen|]. split.
  - rewrite Hcount. apply Z.mod_pos_bound. lia.
  - apply (Forall_lookup_total_2 _ (Inhabited0 := usb_blk_inhabited)).
    intros n Hn. rewrite Hhd.
    apply (Forall_lookup_total_1 (fun b => header b = htobe16 2047) _ n Hhdr).
    lia.
Qed.

Lemma after_transfers_counter (e : ow_engine) (n : nat) :
  output_ready e ->
  output_ready (after_transfers n e)
  /\ blocks_per_transfer (after_transfers n e) = blocks_per_transfer e
  /\ usb_frames (usb (after_transfers n e))
     = (usb_frames (usb e)
        + Z.of_nat n * (OB_FRAMES_PER_BLOCK * blocks_per_transfer e)) mod 2 ^ 16.
Proof.
  intros Hready. induction n as [|n (IHr & IHb & IHc)].
  - split; [exact Hready|]. split; [reflexivity|].
    destruct Hready as (_ & _ & Hrange & _). simpl.
    rewrite Z.add_0_r, Z.mod_small by assumption. reflexivity.
  - change (after_transfers (S n) e)
      with (ow_engine_write_usb_output_blocks (after_transfers n e)).
    destruct (write_blocks_ready _ IHr) as (Hr & Hb & Hc).
    split; [exact Hr|]. split; [rewrite Hb; exact IHb|].
    rewrite Hc, IHc, IHb, Zplus_mod_idemp_l. f_equal. lia.
Qed.

(** C7 as stated fails: the counter is a 16-bit value.  With four blocks
    per transfer it stands at 65520 after 2340 transfers, and the next
    transfer takes it to 12. *)
Lemma output_counter_wraps_counterexample :
  ~ (forall n : nat,
       let before := usb_frames (usb (after_transfers n (sim_engine 4))) in
       let after := usb_frames (usb (after_transfers (S n) (sim_engine 4))) in
       after = before + OB_FRAMES_PER_BLOCK * blocks_per_transfer (sim_engine 4)
       /\ before < after).
Proof.
  intros Hclaim. specialize (Hclaim 2340%nat). cbv zeta in Hclaim.
  assert (Hready : output_ready (sim_engine 4))
    by (apply init_mem_output_ready; lia).
  destruct (after_transfers_counter (sim_engine 4) 2340 Hready) as (_ & _ & H0).
  destruct (after_transfers_counter (sim_engine 4) 2341 Hready) as (_ & _ & H1).
  rewrite H0, H1 in Hclaim. destruct Hclaim as [_ Hlt].
  vm_compute in Hlt. discriminate Hlt.
Qed.

Lemma output_blocks_counter_witness :
  let e := sim_engine 2 in
  let e' := ow_engine_write_usb_output_blocks e in
  let base := usb_frames (usb e) in
  length (data_out (usb e')) = Z.to_nat (blocks_per_transfer e)
  /\ (forall n, (n < Z.to_nat (blocks_per_transfer e))%nat ->
        frames (data_out (usb e') !!! n)
        = htobe16 (base + Z.of_nat n * OB_FRAMES_PER_BLOCK)
        /\ header (data_out (usb e') !!! n) = htobe16 2047)
  /\ usb_frames (usb e')
     = (base + OB_FRAMES_PER_BLOCK * blocks_per_transfer e) mod 2 ^ 16
  /\ (0 < blocks_per_transfer e ->
      base + OB_FRAMES_PER_BLOCK * blocks_per_transfer e < 2 ^ 16 ->
      usb_frames (usb e') = base + OB_FRAMES_PER_BLOCK * blocks_per_transfer e
      /\ base < usb_frames (usb e'))
  /\ output_ready e'.
Proof.
  apply (output_blocks_counter (sim_engine 2)).
  unfold output_ready. split; [simpl; lia|]. split; [reflexivity|].
  split; [simpl; lia|]. repeat constructor.
Defined.

(** ** The status after a stop *)

(** C9, the defect: the engine is activated with the DLL, so the status is
    READY and the audio worker spins; [ow_engine_stop] sets STOP; the
    worker leaves the spin, submits the first transfers and, at the head
    of its outer loop, overwrites STOP with WAIT.  It then stays in its
    inner loop for as many steps as one cares to run. *)
Lemma stop_while_ready_is_overwritten :
  session_outcome sim_env dll_context (sim_engine 2) [] (sim_world F32.one 4096)
  = Some (at_spin_ready, OW_ENGINE_STATUS_READY)
  /\ session_outcome sim_env dll_context (sim_engine 2) [api_stop]
       (sim_world F32.one 4096)
     = Some (at_spin_ready, OW_ENGINE_STATUS_STOP)
  /\ session_outcome sim_env dll_context (sim_engine 2) (stop_then_steps 4)
       (sim_world F32.one 4096)
     = Some (at_inner_loop, OW_ENGINE_STATUS_WAIT)
  /\ session_outcome sim_env dll_context (sim_engine 2) (stop_then_steps 100)
       (sim_world F32.one 4096)
     = Some (at_inner_loop, OW_ENGINE_STATUS_WAIT).
Proof. vm_compute. auto. Qed.

Section Worker.

Context {H : Type}.
Variables (env : environment H) (ctx : ow_context H).

(** The spin on READY ends on any other status, STOP included, and the
    head of the outer loop writes the status without reading it. *)
Lemma spin_ends_on_stop (e : ow_engine) (w : world H) :
  run_audio_o2p_midi_step env ctx [] at_spin_ready (ow_engine_stop e) w
  = Some ((at_first_submit, ow_engine_stop e), w).
Proof. reflexivity. Qed.

Lemma outer_loop_head_overwrites_stop (e : ow_engine) (w : world H) :
  ctx_dll ctx = 0 ->
  run_audio_o2p_midi_step env ctx [] at_set_status (ow_engine_stop e) w
  = Some ((at_inner_loop, set_status OW_ENGINE_STATUS_RUN (ow_engine_stop e)), w).
Proof.
  intros Hdll. cbn [run_audio_o2p_midi_step]. rewrite Hdll. reflexivity.
Qed.

(** Once in the inner loop with the status at WAIT or above, the worker
    stays there for as long as no completion changes the status. *)
Lemma inner_loop_spins (e : ow_engine) (n : nat) (w : world H) :
  status_val OW_ENGINE_STATUS_WAIT <= status_val (status e) ->
  run_schedule env ctx (replicate n (worker_step [])) (at_inner_loop, e) w
  = Some ((at_inner_loop, e), w).
Proof.
  intros Hst. induction n as [|n IH]; [reflexivity|].
  cbn [replicate run_schedule perform fst snd run_audio_o2p_midi_step].
  unfold ow_engine_get_status.
  destruct (Z.leb_spec (status_val OW_ENGINE_STATUS_WAIT) (status_val (status e)));
    [|lia].
  cbn [handle_events]. unfold bind at 1 2. cbn [ret]. exact IH.
Qed.

(** What the worker does itself is sound: when its check after the
    inner loop reads STOP or ERROR, it returns and writes nothing more. *)
Lemma worker_returns_on_stop (e : ow_engine) (n : nat) (w : world H) :
  status_val (status e) <= status_val OW_ENGINE_STATUS_STOP ->
  run_schedule env ctx (replicate (S n) (worker_step [])) (at_stop_check, e) w
  = Some ((at_return, e), w).
Proof.
  intros Hst. cbn [replicate run_schedule perform fst snd run_audio_o2p_midi_step].
  unfold ow_engine_get_status.
  destruct (Z.leb_spec (status_val (status e)) (status_val OW_ENGINE_STATUS_STOP));
    [|lia].
  unfold bind at 1. cbn [ret].
  induction n as [|n IH]; [reflexivity|].
  cbn [replicate run_schedule perform fst snd run_audio_o2p_midi_step].
  unfold bind at 1. cbn [ret]. exact IH.
Qed.

End Worker.

(** ** The codec *)

(** *** Byte order *)

Lemma testbit_byte_of (k x n : Z) :
  0 <= k ->
  Z.testbit (byte_of k x) n = Z.testbit x (n + 8 * k) && (0 <=? n) && (n <? 8).
Proof.
  intros Hk. unfold byte_of. change 255 with (Z.ones 8).
  destruct (Z.leb_spec 0 n) as [Hn|Hn].
  - rewrite Z.land_spec, Z.shiftr_spec, Z.testbit_ones_nonneg by lia.
    destruct (Z.testbit x (n + 8 * k)), (Z.ltb_spec n 8); simpl;
      try reflexivity; lia.
  - rewrite Z.testbit_neg_r by lia. rewrite andb_false_r. reflexivity.
Qed.

Ltac split_ltb :=
  repeat match goal with
         | |- context [?a <? ?b] => destruct (Z.ltb_spec a b); try lia
         | |- context [?a <=? ?b] => destruct (Z.leb_spec a b); try lia
         end.

Lemma testbit_bswap_32 (x n : Z) :
  Z.testbit (bswap_32 x) n =
  if n <? 0 then false
  else if n <? 8 then Z.testbit x (n + 24)
  else if n <? 16 then Z.testbit x (n + 8)
  else if n <? 24 then Z.testbit x (n - 8)
  else if n <? 32 then Z.testbit x (n - 24)
  else false.
Proof.
  destruct (Z.ltb_spec n 0) as [Hneg|Hn]; [apply Z.testbit_neg_r; assumption|].
  unfold bswap_32. rewrite !Z.lor_spec, !Z.shiftl_spec, !testbit_byte_of by lia.
  split_ltb;
    rewrite ?andb_false_r, ?andb_true_r, ?orb_false_r, ?orb_false_l;
    try reflexivity; f_equal; lia.
Qed.

Lemma bswap_32_involutive (x : Z) : 0 <= x < 2 ^ 32 -> bswap_32 (bswap_32 x) = x.
Proof.
  intros Hx. apply Z.bits_inj'. intros n Hn.
  rewrite testbit_bswap_32. split_ltb;
    try (rewrite testbit_bswap_32; split_ltb; f_equal; lia).
  symmetry. apply Z.bits_above_log2; [lia|].
  destruct (Z.eq_dec x 0) as [->|]; [simpl; lia|].
  assert (Z.log2 x < 32) by (apply Z.log2_lt_pow2; lia). lia.
Qed.

Lemma bswap_32_range (x : Z) : 0 <= bswap_32 x < 2 ^ 32.
Proof.
  assert (Hnn : 0 <= bswap_32 x).
  { apply Z.bits_iff_nonneg_ex. exists 32. intros m Hm.
    rewrite testbit_bswap_32. split_ltb; reflexivity. }
  split; [assumption|].
  destruct (Z.eq_dec (bswap_32 x) 0) as [->|Hnz]; [lia|].
  apply Z.log2_lt_pow2; [lia|].
  destruct (Z.lt_ge_cases (Z.log2 (bswap_32 x)) 32) as [|Hge]; [assumption|].
  exfalso. pose proof (Z.bit_log2 (bswap_32 x) ltac:(lia)) as Hbit.
  rewrite testbit_bswap_32 in Hbit.
  repeat match type of Hbit with
         | context [?a <? ?b] => destruct (Z.ltb_spec a b); try lia
         end; discriminate.
Qed.

Lemma to_uint32_to_int32 (u : Z) : 0 <= u < 2 ^ 32 -> to_uint32 (to_int32 u) = u.
Proof.
  intros Hu. unfold to_int32, to_uint32. rewrite (Z.mod_small u) by lia.
  destruct (Z.ltb_spec u (2 ^ 31)).
  - apply Z.mod_small. lia.
  - symmetry. apply (Z.mod_unique (u - 2 ^ 32) (2 ^ 32) (-1)); lia.
Qed.

Lemma to_int32_to_uint32 (z : Z) : int32_range z -> to_int32 (to_uint32 z) = z.
Proof.
  unfold int32_range, INT_MIN, INT_MAX, to_int32, to_uint32. intros Hz.
  rewrite Z.mod_mod by lia.
  destruct (Z.le_gt_cases 0 z).
  - rewrite Z.mod_small by lia. destruct (Z.ltb_spec z (2 ^ 31)); lia.
  - assert (Hm : z mod 2 ^ 32 = z + 2 ^ 32).
    { symmetry. apply (Z.mod_unique z (2 ^ 32) (-1)); lia. }
    rewrite Hm. destruct (Z.ltb_spec (z + 2 ^ 32) (2 ^ 31)); lia.
Qed.

(** A sample written big-endian and read back is the same integer. *)
Lemma be32_round_trip (z : Z) :
  int32_range z -> to_int32 (be32toh (to_int32 (htobe32 z))) = z.
Proof.
  intros Hz. unfold be32toh, htobe32.
  rewrite to_uint32_to_int32 by apply bswap_32_range.
  rewrite bswap_32_involutive by (unfold to_uint32; apply Z.mod_pos_bound; lia).
  apply to_int32_to_uint32. exact Hz.
Qed.

Lemma f32_to_int32_range (x : spec_float) : int32_range (F32.to_int32 x).
Proof.
  unfold F32.to_int32, int32_range.
  destruct (F32.trunc x) as [z|]; [|unfold INT_MIN, INT_MAX; lia].
  destruct (Z.leb_spec INT_MIN z), (Z.leb_spec z INT_MAX); simpl;
    unfold INT_MIN, INT_MAX in *; lia.
Qed.

(** One sample through the codec: the cast to [int32_t], the conversion
    back to [float] and the product with the scale. *)
Lemma decode_encode_sample (scale x : spec_float) :
  decode_sample scale (encode_sample x)
  = F32.mul (F32.of_int (F32.to_int32 (F32.mul x (F32.of_int INT_MAX)))) scale.
Proof.
  unfold decode_sample, encode_sample.
  rewrite be32_round_trip by apply f32_to_int32_range. reflexivity.
Qed.

(** *** The encoder's loops *)

Lemma wrote_refl (buf : list spec_float) (c : cursor (list Z)) :
  wrote buf 0 c c.
Proof.
  unfold wrote. rewrite !Nat.add_0_r. repeat split.
  intros p. destruct (decide _) as [[? _]|_]; [lia|reflexivity].
Qed.

Lemma wrote_trans (buf : list spec_float) (n m : nat)
    (c c' c'' : cursor (list Z)) :
  wrote buf n c c' -> wrote buf m c' c'' -> wrote buf (n + m) c c''.
Proof.
  intros (Hs & Hf & Hl & Hm) (Hs' & Hf' & Hl' & Hm').
  unfold wrote. split; [lia|]. split; [lia|]. split; [congruence|].
  intros p. rewrite Hm', Hm, Hs, Hf, Hl.
  repeat destruct (decide _); try reflexivity; try lia.
  do 3 f_equal. lia.
Qed.

Lemma wrote_one (buf : list spec_float) (k : nat) (c : cursor (list Z)) :
  wrote buf 1 c (write_sample buf k c).
Proof.
  unfold wrote, write_sample. cbn [cur_s cur_f cur_mem].
  split; [lia|]. split; [lia|]. split; [apply length_insert|].
  intros p. rewrite list_lookup_insert. fold (encode_sample (buf !!! cur_f c)).
  repeat destruct (decide _); try reflexivity; try lia.
  do 3 f_equal. lia.
Qed.

Lemma wrote_loop (buf : list spec_float) (m : nat)
    (body : nat -> cursor (list Z) -> cursor (list Z)) :
  (forall k c, wrote buf m c (body k c)) ->
  forall n i c, wrote buf (n * m) c (for_loop n i body c).
Proof.
  intros Hbody. induction n as [|n IH]; intros i c.
  - apply wrote_refl.
  - simpl. eapply wrote_trans; [apply Hbody|apply IH].
Qed.

(** The samples of one block: [OB_FRAMES_PER_BLOCK] frames of [inputs]
    samples, taken in order from the float buffer. *)
Lemma wrote_block (desc : ow_device_desc) (buf : list spec_float)
    (c : cursor (list Z)) :
  wrote buf (7 * (Z.to_nat (inputs desc) * 1))
    c (for_loop (Z.to_nat OB_FRAMES_PER_BLOCK) 0 (write_frame desc buf) c).
Proof.
  apply (wrote_loop buf (Z.to_nat (inputs desc) * 1) (write_frame desc buf)).
  intros j c'. unfold write_frame. apply wrote_loop. apply wrote_one.
Qed.

Lemma write_block_encodes (e : ow_engine) (k : nat) (st : nat * ow_engine) :
  encoded_blocks e k st -> encoded_blocks e (S k) (write_block k st).
Proof.
  destruct st as [f e']. unfold encoded_blocks, write_block.
  cbn [snd fst usb set_usb device_desc p2o_transfer_buf data_out set_data_out
         set_usb_frames data set_blk_frames blocks_per_transfer
         o2p_transfer_buf].
  intros (Hf & Hdesc & Hbuf & Hkeep & Hlen & Hrest & Hdone).
  pose proof (wrote_block (device_desc e') (p2o_transfer_buf e')
                {| cur_s := 0; cur_f := f;
                   cur_mem := data (set_blk_frames
                                      (htobe16 (usb_frames (usb e')))
                                      (data_out (usb e') !!! k)) |})
    as (Hs & Hf' & Hl & Hm).
  cbn [cur_s cur_f cur_mem data set_blk_frames] in Hs, Hf', Hl, Hm.
  rewrite Hdesc in Hs, Hf', Hm. fold (out_block_samples e) in Hs, Hf', Hm.
  rewrite Hdesc, Hbuf in *.
  split; [rewrite Hf'; lia|]. split; [reflexivity|]. split; [reflexivity|].
  split; [exact Hkeep|].
  split; [rewrite length_insert; assumption|]. split.
  - intros i Hi. rewrite list_lookup_total_insert_ne by lia. apply Hrest. lia.
  - intros i Hi Hin. rewrite list_lookup_total_insert.
    destruct (decide (k = i /\ (k < length (data_out (usb e')))%nat))
      as [[-> _]|Hne].
    + cbn [data set_blk_data set_blk_frames]. split.
      * rewrite Hl, (Hrest i) by lia. reflexivity.
      * intros q Hq Hql. rewrite Hm, (Hrest i) by lia.
        destruct (decide _) as [_|Hno]; [|lia].
        do 3 f_equal. lia.
    + apply Hdone; [|assumption].
      destruct (decide (k = i)) as [->|]; [|lia].
      exfalso. apply Hne. split; [reflexivity|]. rewrite Hlen. assumption.
Qed.

Lemma write_blocks_encode (e : ow_engine) :
  encoded_blocks e (Z.to_nat (blocks_per_transfer e))
    (for_loop (Z.to_nat (blocks_per_transfer e)) 0 write_block (0%nat, e)).
Proof.
  apply (for_loop_invariant (encoded_blocks e) write_block
           (Z.to_nat (blocks_per_transfer e)) 0 (0%nat, e)).
  - unfold encoded_blocks. cbn [fst snd]. repeat split; try reflexivity; lia.
  - intros k st _. apply write_block_encodes.
Qed.

(** *** The decoder's loops *)

Section Decoder.

Local Open Scope nat_scope.

Lemma filled_refl (val : nat -> spec_float) (c : cursor (list spec_float)) :
  filled val 0 c c.
Proof.
  unfold filled. rewrite !Nat.add_0_r. repeat split.
  intros p. destruct (decide _) as [[? _]|_]; [lia|reflexivity].
Qed.

Lemma filled_trans (val val1 val2 : nat -> spec_float) (n m : nat)
    (c c' c'' : cursor (list spec_float)) :
  filled val1 n c c' -> filled val2 m c' c'' ->
  (forall r, r < n -> val1 r = val r) ->
  (forall r, r < m -> val2 r = val (n + r)) ->
  filled val (n + m) c c''.
Proof.
  intros (Hs & Hf & Hl & Hm) (Hs' & Hf' & Hl' & Hm') H1 H2.
  unfold filled. split; [lia|]. split; [lia|]. split; [congruence|].
  intros p. rewrite Hm', Hm, Hf, Hl.
  repeat destruct (decide _); try reflexivity; try lia.
  - rewrite H2 by lia. do 2 f_equal. lia.
  - rewrite H1 by lia. reflexivity.
Qed.

Lemma filled_one (scales : list spec_float) (d : list Z) (k : nat)
    (c : cursor (list spec_float)) :
  filled (fun _ => decode_sample (scales !!! k) (d !!! cur_s c)) 1 c
    (read_sample scales d k c).
Proof.
  unfold filled, read_sample. cbn [cur_s cur_f cur_mem].
  split; [lia|]. split; [lia|]. split; [apply length_insert|].
  intros p. rewrite list_lookup_insert.
  fold (decode_sample (scales !!! k) (d !!! cur_s c)).
  repeat destruct (decide _); try reflexivity; lia.
Qed.

(** One frame: the sample of channel [r] is scaled by [scales[r]]. *)
Lemma filled_frame (desc : ow_device_desc) (d : list Z) (j : nat)
    (c : cursor (list spec_float)) :
  filled (fun r => decode_sample (output_track_scales desc !!! r)
                     (d !!! (cur_s c + r)))
    (Z.to_nat (outputs desc)) c (read_frame desc d j c).
Proof.
  unfold read_frame.
  apply (for_loop_invariant
           (fun k ck => filled (fun r => decode_sample
                                           (output_track_scales desc !!! r)
                                           (d !!! (cur_s c + r))) k c ck)
           (read_sample (output_track_scales desc) d)
           (Z.to_nat (outputs desc)) 0 c).
  - apply filled_refl.
  - intros k ck _ Hk. replace (S k) with (k + 1) by lia.
    eapply filled_trans; [exact Hk|apply filled_one| |].
    + reflexivity.
    + intros r Hr. destruct Hk as (Hs & _). rewrite Hs.
      replace r with 0 by lia. rewrite Nat.add_0_r. reflexivity.
Qed.

Lemma mod_offset (j o r : nat) : r < o -> (j * o + r) mod o = r.
Proof.
  intros Hr. rewrite Nat.add_comm, Nat.Div0.mod_add. apply Nat.mod_small. exact Hr.
Qed.

(** One block: seven frames. *)
Lemma filled_block (desc : ow_device_desc) (d : list Z) (f : nat)
    (mem : list spec_float) :
  filled (fun r => decode_sample
                     (output_track_scales desc !!! (r mod Z.to_nat (outputs desc)))
                     (d !!! r))
    (7 * Z.to_nat (outputs desc))
    {| cur_s := 0; cur_f := f; cur_mem := mem |}
    (for_loop (Z.to_nat OB_FRAMES_PER_BLOCK) 0 (read_frame desc d)
       {| cur_s := 0; cur_f := f; cur_mem := mem |}).
Proof.
  set (o := Z.to_nat (outputs desc)).
  set (c0 := {| cur_s := 0; cur_f := f; cur_mem := mem |}).
  set (val := fun r => decode_sample (output_track_scales desc !!! (r mod o))
                         (d !!! r)).
  change (Z.to_nat OB_FRAMES_PER_BLOCK) with 7.
  apply (for_loop_invariant
           (fun j cj => filled val (j * o) c0 cj)
           (read_frame desc d) 7 0 c0).
  - apply filled_refl.
  - intros j cj _ Hj. replace (S j * o) with (j * o + o) by lia.
    eapply filled_trans; [exact Hj|apply filled_frame| |].
    + reflexivity.
    + intros r Hr. destruct Hj as (Hs & _). rewrite Hs. cbn [cur_s c0].
      unfold val. fold o. rewrite mod_offset by exact Hr. reflexivity.
Qed.

Lemma div_offset (i n r : nat) : r < n -> (i * n + r) / n = i.
Proof.
  intros Hr. symmetry. apply (Nat.div_unique _ _ _ r); lia.
Qed.

Lemma mod_block (e : ow_engine) (i r : nat) :
  (i * in_block_samples e + r) mod Z.to_nat (outputs (device_desc e))
  = r mod Z.to_nat (outputs (device_desc e)).
Proof.
  unfold in_block_samples.
  replace (i * (7 * Z.to_nat (outputs (device_desc e))) + r)
    with (r + (i * 7) * Z.to_nat (outputs (device_desc e))) by lia.
  apply Nat.Div0.mod_add.
Qed.

Lemma read_block_decodes (e : ow_engine) (i : nat)
    (c : cursor (list spec_float)) :
  decoded_blocks e i c -> decoded_blocks e (S i) (read_block e i c).
Proof.
  unfold decoded_blocks, read_block. intros (Hf & Hlen & Hmem).
  pose proof (filled_block (device_desc e) (data (data_in (usb e) !!! i))
                (cur_f c) (cur_mem c)) as (_ & Hf' & Hl & Hm).
  cbn [cur_s cur_f cur_mem] in Hf', Hl, Hm.
  fold (in_block_samples e) in Hf', Hm.
  split; [rewrite Hf', Hf; lia|]. split; [congruence|].
  intros p. rewrite Hm, Hmem, Hf, Hlen.
  repeat destruct (decide _); try reflexivity; try lia.
  f_equal. unfold decoded_at.
  remember (p - i * in_block_samples e) as r eqn:Hr.
  replace p with (i * in_block_samples e + r) by lia.
  rewrite mod_block, div_offset, mod_offset by lia. reflexivity.
Qed.

Lemma read_blocks_decode (e : ow_engine) :
  decoded_blocks e (Z.to_nat (blocks_per_transfer e))
    (for_loop (Z.to_nat (blocks_per_transfer e)) 0 (read_block e)
       {| cur_s := 0; cur_f := 0; cur_mem := o2p_transfer_buf e |}).
Proof.
  apply (for_loop_invariant (decoded_blocks e) (read_block e)
           (Z.to_nat (blocks_per_transfer e)) 0).
  - unfold decoded_blocks. cbn [cur_f cur_mem]. repeat split.
  - intros k c _. apply read_block_decodes.
Qed.

End Decoder.

(** *** The shape of the buffers after initialisation *)

Lemma stamp_headers_keep_data (n : nat) (d0 : list ow_engine_usb_blk) :
  length (for_loop n 0 stamp_header d0) = length d0
  /\ forall i, data (for_loop n 0 stamp_header d0 !!! i) = data (d0 !!! i).
Proof.
  apply (for_loop_invariant
           (fun (k : nat) d => length d = length d0
                               /\ forall i, data (d !!! i) = data (d0 !!! i))
           stamp_header n 0 d0).
  - split; reflexivity.
  - intros k d _ [Hlen Hdata]. unfold stamp_header. split.
    + rewrite length_insert. exact Hlen.
    + intros i. rewrite list_lookup_total_insert.
      destruct (decide _) as [[-> _]|_]; [|apply Hdata].
      cbn [data set_blk_header]. apply Hdata.
Qed.

Lemma init_mem_shape (e : ow_engine) (blocks : Z) :
  0 <= blocks -> 0 <= inputs (device_desc e) -> 0 <= outputs (device_desc e) ->
  let e' := ow_engine_init_mem e blocks in
  length (data_out (usb e')) = Z.to_nat blocks
  /\ (forall i, (i < Z.to_nat blocks)%nat ->
        length (data (data_out (usb e') !!! i))
        = (7 * Z.to_nat (inputs (device_desc e)))%nat)
  /\ length (o2p_transfer_buf e')
     = (Z.to_nat blocks * (7 * Z.to_nat (outputs (device_desc e))))%nat.
Proof.
  intros Hb Hi Ho. unfold ow_engine_init_mem.
  cbn [usb data_out o2p_transfer_buf].
  destruct (stamp_headers_keep_data (Z.to_nat blocks)
              (zero_blocks blocks
                 ((sizeof_usb_blk
                   + sizeof_int32 * OB_FRAMES_PER_BLOCK * inputs (device_desc e)
                   - sizeof_usb_blk) / sizeof_int32)))
    as [Hlen Hdata].
  split; [rewrite Hlen; apply length_replicate|]. split.
  - intros i Hlt. rewrite Hdata. unfold zero_blocks.
    rewrite lookup_total_replicate_2 by exact Hlt. cbn [data].
    rewrite length_replicate.
    unfold sizeof_usb_blk, sizeof_int32, OB_FRAMES_PER_BLOCK.
    replace (4 + 4 * 7 * inputs (device_desc e) - 4)
      with (7 * inputs (device_desc e) * 4) by lia.
    rewrite Z.div_mul by lia. lia.
  - unfold zero_floats. rewrite length_replicate.
    unfold OB_FRAMES_PER_BLOCK, OB_BYTES_PER_SAMPLE.
    replace (7 * blocks * (4 * outputs (device_desc e)))
      with (7 * blocks * outputs (device_desc e) * 4) by lia.
    rewrite Z.div_mul by lia. lia.
Qed.

(** *** Encoding followed by decoding *)

(** Every sample goes through the cast to [int32_t] and back, and is then
    multiplied by the scale of its channel. *)
Lemma round_trip_samples (desc : ow_device_desc) (blocks : Z)
    (v : list spec_float) :
  0 <= blocks -> 0 <= inputs desc -> outputs desc = inputs desc ->
  length v = (Z.to_nat blocks * (7 * Z.to_nat (inputs desc)))%nat ->
  length (round_trip desc blocks v) = length v
  /\ forall p x, v !! p = Some x ->
       round_trip desc blocks v !! p
       = Some (F32.mul
                 (F32.of_int (F32.to_int32 (F32.mul x (F32.of_int INT_MAX))))
                 (output_track_scales desc
                    !!! (p mod Z.to_nat (inputs desc))%nat)).
Proof.
  intros Hb Hi Hio Hv. unfold round_trip.
  set (e0 := set_p2o_transfer_buf v (ow_engine_init_mem (blank_engine desc) blocks)).
  destruct (init_mem_shape (blank_engine desc) blocks Hb)
    as (Hlen0 & Hdata0 & Hbuf0); [exact Hi|simpl; lia|].
  cbn [device_desc blank_engine] in Hdata0, Hbuf0.
  destruct (write_blocks_encode e0)
    as (_ & Hdesc & _ & (Hbpt & Ho2p) & Hlen1 & _ & Henc).
  fold (ow_engine_write_usb_output_blocks e0) in Hdesc, Hbpt, Ho2p, Hlen1, Henc.
  set (e1 := ow_engine_write_usb_output_blocks e0) in *.
  destruct (read_blocks_decode (loop_back e1)) as (_ & Hlen2 & Hdec).
  unfold ow_engine_read_usb_input_blocks. cbn [o2p_transfer_buf set_o2p_transfer_buf].
  change (blocks_per_transfer (loop_back e1)) with (blocks_per_transfer e1) in *.
  change (o2p_transfer_buf (loop_back e1)) with (o2p_transfer_buf e1) in *.
  rewrite Hbpt, Ho2p in *.
  change (blocks_per_transfer e0) with blocks in *.
  change (o2p_transfer_buf e0)
    with (o2p_transfer_buf (ow_engine_init_mem (blank_engine desc) blocks)) in *.
  assert (Hn : in_block_samples (loop_back e1) = (7 * Z.to_nat (inputs desc))%nat).
  { unfold in_block_samples. change (device_desc (loop_back e1)) with (device_desc e1).
    rewrite Hdesc. change (device_desc e0) with desc. rewrite Hio. reflexivity. }
  assert (Hm : out_block_samples e0 = (7 * Z.to_nat (inputs desc))%nat).
  { unfold out_block_samples. change (device_desc e0) with desc. lia. }
  rewrite Hn in Hdec. rewrite Hm in Henc.
  split; [rewrite Hlen2, Hbuf0, Hio, Hv; reflexivity|].
  intros p x Hp. pose proof (lookup_lt_Some _ _ _ Hp) as Hlt. rewrite Hv in Hlt.
  rewrite Hdec, Hbuf0, Hio.
  destruct (decide _) as [_|Hno]; [|lia].
  f_equal. rewrite <- decode_encode_sample. unfold decoded_at.
  change (device_desc (loop_back e1)) with (device_desc e1).
  rewrite Hn, Hdesc. change (device_desc e0) with desc. rewrite Hio.
  change (data_in (usb (loop_back e1))) with (data_out (usb e1)).
  f_equal.
  set (n := (7 * Z.to_nat (inputs desc))%nat) in *.
  assert (Hnpos : (0 < n)%nat) by lia.
  assert (Hq : (p mod n < n)%nat) by (apply Nat.mod_upper_bound; lia).
  assert (Hblk : (p / n < Z.to_nat blocks)%nat)
    by (apply Nat.Div0.div_lt_upper_bound; lia).
  change (data_out (usb e0))
    with (data_out (usb (ow_engine_init_mem (blank_engine desc) blocks))) in Henc.
  destruct (Henc (p / n)%nat Hblk ltac:(rewrite Hlen0; exact Hblk)) as [_ Hsample].
  specialize (Hsample (p mod n)%nat Hq ltac:(rewrite Hdata0 by exact Hblk; exact Hq)).
  apply list_lookup_total_correct in Hsample. rewrite Hsample.
  f_equal. change (p2o_transfer_buf e0) with v.
  replace (p / n * n + p mod n)%nat with p
    by (rewrite (Nat.div_mod_eq p n) at 1; lia).
  apply list_lookup_total_correct. exact Hp.
Qed.

(** *** Exact binary32 operations *)

Lemma digits2_pos_size (p : positive) : digits2_pos p = Pos.size p.
Proof. induction p; simpl; congruence. Qed.

Lemma digits2_log2 (p : positive) : Z.pos (digits2_pos p) = Z.log2 (Z.pos p) + 1.
Proof.
  rewrite digits2_pos_size. destruct p; simpl; try reflexivity; lia.
Qed.

Lemma iter_pos_nat {A} (f : A -> A) (p : positive) (x : A) :
  iter_pos f p x = Nat.iter (Pos.to_nat p) f x.
Proof.
  revert x. induction p as [p IH|p IH|]; intros x; cbn [iter_pos].
  - rewrite !IH, Pos2Nat.inj_xI.
    replace (S (2 * Pos.to_nat p)) with (Pos.to_nat p + (Pos.to_nat p + 1))%nat by lia.
    rewrite !Nat.iter_add. reflexivity.
  - rewrite !IH, Pos2Nat.inj_xO.
    replace (2 * Pos.to_nat p)%nat with (Pos.to_nat p + Pos.to_nat p)%nat by lia.
    rewrite Nat.iter_add. reflexivity.
  - reflexivity.
Qed.

Lemma shr_1_even (a : Z) : 0 < a -> shr_1 (exact_record (2 * a)) = exact_record a.
Proof. destruct a; try lia. intros _. reflexivity. Qed.

Lemma shr_iter_exact (n : nat) (a : Z) :
  0 < a -> Nat.iter n shr_1 (exact_record (a * 2 ^ Z.of_nat n)) = exact_record a.
Proof.
  intros Ha. induction n as [|n IH].
  - simpl. rewrite Z.mul_1_r. reflexivity.
  - rewrite Nat.iter_succ_r.
    replace (a * 2 ^ Z.of_nat (S n)) with (2 * (a * 2 ^ Z.of_nat n))
      by (rewrite Nat2Z.inj_succ, Z.pow_succ_r by lia; lia).
    rewrite shr_1_even by (apply Z.mul_pos_pos; [assumption|apply Z.pow_pos_nonneg; lia]).
    exact IH.
Qed.

Lemma shr_exact (a ex sh : Z) :
  0 < a -> 0 <= sh ->
  shr (exact_record (a * 2 ^ sh)) ex sh = (exact_record a, ex + sh).
Proof.
  intros Ha Hsh. unfold shr. destruct sh as [|p|p]; try lia.
  - rewrite Z.mul_1_r, Z.add_0_r. reflexivity.
  - rewrite iter_pos_nat. f_equal.
    rewrite <- (positive_nat_Z p) at 1. apply shr_iter_exact. assumption.
Qed.

Lemma binary_round_aux_exact (s : bool) (a : positive) (ex sh : Z) :
  0 <= sh ->
  canonical32 a (ex + sh) ->
  ex + sh <= 104 ->
  binary_round_aux F32.prec F32.emax s (Z.pos a * 2 ^ sh) ex loc_Exact
  = S754_finite s a (ex + sh).
Proof.
  unfold canonical32.
  intros Hsh Hfexp Hmax. unfold binary_round_aux, shr_fexp.
  assert (Hpos : 0 < Z.pos a * 2 ^ sh).
  { apply Z.mul_pos_pos; [lia|apply Z.pow_pos_nonneg; lia]. }
  assert (Hd : Zdigits2 (Z.pos a * 2 ^ sh) = Z.log2 (Z.pos a) + 1 + sh).
  { destruct (Z.pos a * 2 ^ sh) as [|p|p] eqn:E; try lia.
    cbn [Zdigits2]. rewrite digits2_log2, <- E, Z.log2_mul_pow2 by lia. lia. }
  rewrite Hd.
  change (fexp F32.prec F32.emax) with fexp32.
  replace (Z.log2 (Z.pos a) + 1 + sh + ex) with (Z.log2 (Z.pos a) + 1 + (ex + sh)) by lia.
  rewrite Hfexp.
  replace (ex + sh - ex) with sh by lia.
  change (shr_record_of_loc (Z.pos a * 2 ^ sh) loc_Exact)
    with (exact_record (Z.pos a * 2 ^ sh)).
  rewrite shr_exact by lia.
  cbn [shr_m exact_record loc_of_shr_record round_nearest_even Zdigits2].
  rewrite digits2_log2, Hfexp, Z.sub_diag. cbn [shr shr_record_of_loc shr_m].
  destruct (Z.leb_spec (ex + sh) (F32.emax - F32.prec)) as [_|Hbad]; [reflexivity|].
  unfold F32.emax, F32.prec in Hbad. lia.
Qed.

(** Validity of a finite number, spelled out. *)
Lemma valid_finite (s : bool) (m : positive) (e : Z) :
  F32.valid (S754_finite s m e) = true <-> canonical32 m e /\ e <= 104.
Proof.
  unfold F32.valid, valid_binary, bounded, canonical_mantissa, canonical32.
  rewrite andb_true_iff, Z.eqb_eq, Z.leb_le, digits2_log2. reflexivity.
Qed.

Lemma canonical32_bounds (m : positive) (e : Z) :
  canonical32 m e ->
  -149 <= e /\ Z.log2 (Z.pos m) + 1 <= 24
  /\ (Z.log2 (Z.pos m) + 1 = 24 \/ e = -149).
Proof. unfold canonical32, fexp32. lia. Qed.

(** The product with 1.0 is exact. *)
Lemma mul_one (x : spec_float) :
  F32.valid x = true -> F32.mul x F32.one = x.
Proof.
  destruct x as [s|s| |s m e]; intros Hv; try (destruct s; reflexivity); try reflexivity.
  apply valid_finite in Hv as [Hc Hmax].
  unfold F32.mul, F32.one, SFmul. rewrite xorb_false_r.
  change (Z.pos (m * 8388608)) with (Z.pos m * 2 ^ 23).
  rewrite binary_round_aux_exact; replace (e + -23 + 23) with e by lia;
    try assumption; try lia. reflexivity.
Qed.

Lemma of_int_int_max : F32.of_int INT_MAX = S754_finite false 8388608 8.
Proof. reflexivity. Qed.

Lemma trunc_mag_shiftl (m : positive) (e : Z) :
  F32.trunc_mag m e = Z.shiftl (Z.pos m) e.
Proof.
  unfold F32.trunc_mag. destruct (Z.leb_spec 0 e).
  - rewrite Z.shiftl_mul_pow2 by assumption. reflexivity.
  - rewrite Z.shiftl_div_pow2 by lia. reflexivity.
Qed.

(** The product with [(float) INT_MAX], that is 2^31, is exact: the result
    is the normalised form of [m * 2^(e + 31)]. *)
Lemma mul_int_max (s : bool) (m : positive) (e : Z) :
  F32.valid (S754_finite s m e) = true -> e <= 73 ->
  exists a,
    F32.mul (S754_finite s m e) (F32.of_int INT_MAX)
    = S754_finite s a (e + 8 + Z.log2 (Z.pos m))
    /\ Z.pos a = Z.pos m * 2 ^ (23 - Z.log2 (Z.pos m))
    /\ canonical32 a (e + 8 + Z.log2 (Z.pos m)).
Proof.
  intros Hv He. apply valid_finite in Hv as [Hc _].
  destruct (canonical32_bounds m e Hc) as (Hemin & Hd & _).
  pose proof (Z.log2_nonneg (Z.pos m)) as Hlog.
  set (l := Z.log2 (Z.pos m)) in *.
  assert (Hapos : 0 < Z.pos m * 2 ^ (23 - l)).
  { apply Z.mul_pos_pos; [lia|apply Z.pow_pos_nonneg; lia]. }
  exists (Z.to_pos (Z.pos m * 2 ^ (23 - l))).
  rewrite Z2Pos.id by assumption.
  assert (Hcan : canonical32 (Z.to_pos (Z.pos m * 2 ^ (23 - l))) (e + 8 + l)).
  { unfold canonical32. rewrite Z2Pos.id by assumption.
    rewrite Z.log2_mul_pow2 by lia. fold l. unfold fexp32. lia. }
  split; [|split; [reflexivity|exact Hcan]].
  rewrite of_int_int_max. unfold F32.mul, SFmul. rewrite xorb_false_r.
  replace (Z.pos (m * 8388608))
    with (Z.pos (Z.to_pos (Z.pos m * 2 ^ (23 - l))) * 2 ^ l).
  - rewrite binary_round_aux_exact; replace (e + 8 + l) with (e + 8 + l) by lia;
      try assumption; try lia. reflexivity.
  - rewrite Z2Pos.id by assumption. rewrite <- Z.mul_assoc, <- Z.pow_add_r by lia.
    replace (23 - l + l) with 23 by lia. reflexivity.
Qed.

(** The integer part of the product is [m * 2^(e + 31)] rounded toward
    zero. *)
Lemma trunc_mul_int_max (s : bool) (m : positive) (e : Z) :
  F32.valid (S754_finite s m e) = true -> e <= 73 ->
  F32.trunc (F32.mul (S754_finite s m e) (F32.of_int INT_MAX))
  = Some (cond_Zopp s (Z.shiftl (Z.pos m) (e + 31))).
Proof.
  intros Hv He. destruct (mul_int_max s m e Hv He) as (a & -> & Ha & _).
  apply valid_finite in Hv as [Hc _].
  destruct (canonical32_bounds m e Hc) as (_ & Hd & _).
  pose proof (Z.log2_nonneg (Z.pos m)).
  cbn [F32.trunc]. rewrite trunc_mag_shiftl, Ha.
  rewrite <- Z.shiftl_mul_pow2, Z.shiftl_shiftl by lia.
  do 3 f_equal. lia.
Qed.

Lemma iter_xO_pow2 (p d : positive) :
  Z.pos (Pos.iter xO p d) = Z.pos p * 2 ^ Z.pos d.
Proof.
  rewrite (Pos.iter_swap_gen _ _ Z.pos xO (Z.mul 2)) by reflexivity.
  change (Pos.iter (Z.mul 2) (Z.pos p) d) with (Z.shiftl (Z.pos p) (Z.pos d)).
  apply Z.shiftl_mul_pow2. lia.
Qed.

(** The conversion of a representable positive integer: a normalised
    mantissa of 24 bits and the exponent that goes with it. *)
Lemma binary_round_exact (s : bool) (p : positive) :
  representable (Z.pos p) ->
  exists a er,
    binary_round F32.prec F32.emax s p 0 = S754_finite s a er
    /\ Z.log2 (Z.pos a) = 23
    /\ er = Z.log2 (Z.pos p) - 23
    /\ er <= 104
    /\ int_value (S754_finite s a er) (cond_Zopp s (Z.pos p)).
Proof.
  intros (k & Hk & Hdiv & Hlt & Hk104). rewrite Z.abs_eq in Hlt by lia.
  pose proof (Z.log2_nonneg (Z.pos p)) as Hlog.
  assert (Hl : Z.log2 (Z.pos p) < 24 + k) by (apply Z.log2_lt_pow2; lia).
  unfold binary_round. rewrite digits2_log2, Z.add_0_r.
  change (fexp F32.prec F32.emax) with fexp32.
  set (l := Z.log2 (Z.pos p)) in *.
  assert (Hf : fexp32 (l + 1) = l - 23) by (unfold fexp32; lia).
  rewrite Hf. unfold shl_align. rewrite Z.sub_0_r.
  destruct (l - 23) as [|sh|d] eqn:Esh.
  - (* 24 digits *)
    assert (Hcan : canonical32 p (0 + 0)).
    { unfold canonical32. fold l. unfold fexp32. lia. }
    pose proof (binary_round_aux_exact s p 0 0 ltac:(lia) Hcan ltac:(lia)) as E.
    rewrite Z.pow_0_r, Z.mul_1_r in E. rewrite E.
    exists p, (0 + 0). split; [reflexivity|]. split; [fold l; lia|].
    split; [lia|]. split; [lia|].
    cbn [int_value]. change (0 <=? 0 + 0) with true. cbv iota.
    rewrite Z.pow_0_r, Z.mul_1_r. reflexivity.
  - (* more than 24 digits: the low bits are zero *)
    assert (Hsh : Z.pos sh <= k) by lia.
    assert (Hdiv' : (2 ^ Z.pos sh | Z.pos p)).
    { destruct Hdiv as [c Hc]. exists (c * 2 ^ (k - Z.pos sh)).
      rewrite <- Z.mul_assoc, <- Z.pow_add_r by lia.
      replace (k - Z.pos sh + Z.pos sh) with k by lia. exact Hc. }
    destruct Hdiv' as [a Ha].
    assert (Hapos : 0 < a).
    { pose proof (Z.pow_pos_nonneg 2 (Z.pos sh) ltac:(lia) ltac:(lia)). nia. }
    assert (Hla : Z.log2 a = 23).
    { assert (Hmul : Z.log2 (a * 2 ^ Z.pos sh) = Z.log2 a + Z.pos sh)
        by (rewrite Z.log2_mul_pow2 by lia; lia).
      rewrite <- Ha in Hmul. fold l in Hmul. lia. }
    assert (Hcan : canonical32 (Z.to_pos a) (0 + Z.pos sh)).
    { unfold canonical32. rewrite Z2Pos.id, Hla by assumption.
      unfold fexp32. lia. }
    pose proof (binary_round_aux_exact s (Z.to_pos a) 0 (Z.pos sh)
                  ltac:(lia) Hcan ltac:(lia)) as E.
    rewrite Z2Pos.id, <- Ha in E by assumption. rewrite E.
    exists (Z.to_pos a), (0 + Z.pos sh). split; [reflexivity|].
    split; [rewrite Z2Pos.id by assumption; exact Hla|].
    split; [lia|]. split; [lia|].
    cbn [int_value]. destruct (Z.leb_spec 0 (0 + Z.pos sh)); [|lia].
    rewrite Z2Pos.id, Z.add_0_l, <- Ha by assumption. reflexivity.
  - (* fewer than 24 digits: the mantissa is shifted left *)
    assert (Hlm : Z.log2 (Z.pos (Pos.iter xO p d)) = 23).
    { rewrite iter_xO_pow2, Z.log2_mul_pow2 by lia. fold l. lia. }
    assert (Hcan : canonical32 (Pos.iter xO p d) (Z.neg d + 0)).
    { unfold canonical32. rewrite Hlm. unfold fexp32. lia. }
    pose proof (binary_round_aux_exact s (Pos.iter xO p d) (Z.neg d) 0
                  ltac:(lia) Hcan ltac:(lia)) as E.
    rewrite Z.pow_0_r, Z.mul_1_r in E. rewrite E.
    exists (Pos.iter xO p d), (Z.neg d + 0). split; [reflexivity|].
    split; [exact Hlm|]. split; [lia|]. split; [lia|].
    cbn [int_value]. destruct (Z.leb_spec 0 (Z.neg d + 0)); [lia|].
    rewrite iter_xO_pow2. replace (- (Z.neg d + 0)) with (Z.pos d) by lia.
    destruct s; cbn [cond_Zopp]; lia.
Qed.

Lemma representable_opp (z : Z) : representable z -> representable (- z).
Proof.
  intros (k & Hk & Hdiv & Hlt & Hk'). exists k. split; [assumption|].
  split; [apply Z.divide_opp_r; assumption|]. rewrite Z.abs_opp. auto.
Qed.

(** The conversion of a representable integer other than 0. *)
Lemma of_int_shape (z : Z) :
  z <> 0 -> representable z ->
  exists s a er,
    F32.of_int z = S754_finite s a er
    /\ Z.log2 (Z.pos a) = 23
    /\ er = Z.log2 (Z.abs z) - 23
    /\ er <= 104
    /\ int_value (S754_finite s a er) z.
Proof.
  intros Hnz Hrep. unfold F32.of_int, binary_normalize.
  destruct z as [|p|p]; [congruence| |].
  - exists false. apply (binary_round_exact false p Hrep).
  - exists true. apply representable_opp in Hrep.
    apply (binary_round_exact true p Hrep).
Qed.

(** The conversion of a representable integer is exact. *)
Lemma of_int_exact (z : Z) :
  z = 0 \/ representable z ->
  F32.valid (F32.of_int z) = true /\ int_value (F32.of_int z) z.
Proof.
  intros Hz. destruct (Z.eq_dec z 0) as [->|Hnz]; [split; reflexivity|].
  destruct Hz as [|Hrep]; [congruence|].
  destruct (of_int_shape z Hnz Hrep) as (s & a & er & -> & Hla & Her & Hmax & Hiv).
  split; [|exact Hiv]. apply valid_finite. split; [|exact Hmax].
  unfold canonical32, fexp32. pose proof (Z.log2_nonneg (Z.abs z)). lia.
Qed.

Lemma shiftl_as_quotient (m e : Z) :
  e <= 0 -> Z.shiftl m (e + 31) = (m * 2 ^ 31) / 2 ^ (- e).
Proof.
  intros He. destruct (Z.le_gt_cases 0 (e + 31)).
  - rewrite Z.shiftl_mul_pow2 by assumption.
    replace (2 ^ 31) with (2 ^ (e + 31) * 2 ^ (- e))
      by (rewrite <- Z.pow_add_r by lia; f_equal; lia).
    rewrite Z.mul_assoc, Z.div_mul; [reflexivity|].
    apply Z.pow_nonzero; lia.
  - rewrite Z.shiftl_div_pow2 by lia.
    replace (2 ^ (- e)) with (2 ^ (- (e + 31)) * 2 ^ 31)
      by (rewrite <- Z.pow_add_r by lia; f_equal; lia).
    rewrite Z.div_mul_cancel_r; [reflexivity| |lia].
    apply Z.pow_nonzero; lia.
Qed.

Lemma shiftl_representable (m : positive) (e : Z) :
  Z.log2 (Z.pos m) + 1 <= 24 -> e <= 73 ->
  Z.shiftl (Z.pos m) (e + 31) = 0 \/ representable (Z.shiftl (Z.pos m) (e + 31)).
Proof.
  intros Hd He.
  assert (Hm : Z.pos m < 2 ^ 24) by (apply Z.log2_lt_pow2; lia).
  destruct (Z.le_gt_cases 0 (e + 31)) as [Hpos|Hneg].
  - right. exists (e + 31). rewrite Z.shiftl_mul_pow2 by assumption.
    pose proof (Z.pow_pos_nonneg 2 (e + 31) ltac:(lia) Hpos) as Hp.
    split; [assumption|]. split; [apply Z.divide_factor_r|].
    split; [|lia]. rewrite Z.abs_eq by nia.
    rewrite (Z.pow_add_r 2 24 (e + 31)) by lia. nia.
  - rewrite Z.shiftl_div_pow2 by lia.
    pose proof (Z.pow_pos_nonneg 2 (- (e + 31)) ltac:(lia) ltac:(lia)) as Hp.
    assert (Hq : 0 <= Z.pos m / 2 ^ (- (e + 31)) <= Z.pos m).
    { split; [apply Z.div_pos; lia|]. apply Z.div_le_upper_bound; [lia|]. nia. }
    destruct (Z.eq_dec (Z.pos m / 2 ^ (- (e + 31))) 0) as [|Hnz]; [left; assumption|].
    right. exists 0. split; [lia|]. split; [apply Z.divide_1_l|].
    split; [|lia]. rewrite Z.abs_eq by lia. simpl. lia.
Qed.

Lemma int_value_to_Q (y : spec_float) (z : Z) :
  int_value y z -> exists q, F32.to_Q y = Some q /\ (q == inject_Z z)%Q.
Proof.
  destruct y as [s|s| |s a e]; cbn [int_value F32.to_Q]; try contradiction.
  - intros ->. exists 0%Q. split; reflexivity.
  - destruct (Z.leb_spec 0 e) as [Hpos|Hneg].
    + intros ->. eexists. split; reflexivity.
    + intros Hz. eexists. split; [reflexivity|].
      unfold Qeq, inject_Z. cbn [Qnum Qden].
      rewrite Z2Pos.id by (apply Z.pow_pos_nonneg; lia). lia.
Qed.

(** The numbers of [-1, 1) have a negative exponent. *)
Lemma unit_interval_exponent (s : bool) (m : positive) (e : Z) (q : Q) :
  F32.valid (S754_finite s m e) = true ->
  F32.to_Q (S754_finite s m e) = Some q ->
  (-1 <= q < 1)%Q ->
  e < 0 /\ (if s then Z.pos m <= 2 ^ (- e) else Z.pos m < 2 ^ (- e))
  /\ q = Qmake (cond_Zopp s (Z.pos m)) (Z.to_pos (2 ^ (- e))).
Proof.
  intros Hv Hq [Hlo Hhi]. apply valid_finite in Hv as [Hc _].
  destruct (canonical32_bounds m e Hc) as (Hemin & Hd & Hnorm).
  cbn [F32.to_Q] in Hq. destruct (Z.leb_spec 0 e) as [Hpos|Hneg].
  - exfalso.
    assert (Hm : 2 ^ 23 <= Z.pos m).
    { destruct Hnorm as [Hn|]; [|lia]. apply Z.log2_le_pow2; lia. }
    pose proof (Z.pow_pos_nonneg 2 e ltac:(lia) Hpos) as Hp.
    remember (Z.pos m * 2 ^ e) as V eqn:HV.
    assert (Hq' : q = inject_Z (cond_Zopp s V)) by congruence. subst q.
    unfold Qle, Qlt, inject_Z, Qnum, Qden in Hlo, Hhi.
    cbv beta iota zeta in Hlo, Hhi.
    assert (HV' : 2 ^ 23 <= V) by nia.
    destruct s; unfold cond_Zopp in Hlo, Hhi; lia.
  - pose proof (Z.pow_pos_nonneg 2 (- e) ltac:(lia) ltac:(lia)) as Hp.
    assert (Hq' : q = Qmake (cond_Zopp s (Z.pos m)) (Z.to_pos (2 ^ (- e))))
      by congruence.
    split; [assumption|]. split; [|exact Hq']. subst q.
    unfold Qle, Qlt, Qnum, Qden in Hlo, Hhi. cbv beta iota zeta in Hlo, Hhi.
    rewrite Z2Pos.id in Hlo, Hhi by assumption.
    destruct s; unfold cond_Zopp in Hlo, Hhi; lia.
Qed.

(** The integer sample that the encoder stores for a number of [-1, 1):
    [x * 2^31] rounded toward zero. *)
Lemma encode_cast (x : spec_float) (q : Q) :
  F32.valid x = true -> F32.to_Q x = Some q -> (-1 <= q < 1)%Q ->
  exists z,
    F32.to_int32 (F32.mul x (F32.of_int INT_MAX)) = z
    /\ int32_range z
    /\ (z = 0 \/ representable z)
    /\ (Qabs (inject_Z z - q * inject_Z (2 ^ 31)) < 1)%Q.
Proof.
  intros Hv Hq Hunit. destruct x as [s|s| |s m e]; try discriminate.
  - (* zero *)
    exists 0. injection Hq as <-.
    split; [destruct s; reflexivity|].
    split; [unfold int32_range, INT_MIN, INT_MAX; lia|].
    split; [left; reflexivity|]. reflexivity.
  - destruct (unit_interval_exponent s m e q Hv Hq Hunit) as (He & Hm & ->).
    pose proof Hv as Hv'. apply valid_finite in Hv' as [Hc _].
    destruct (canonical32_bounds m e Hc) as (Hemin & Hd & _).
    pose proof (Z.pow_pos_nonneg 2 (- e) ltac:(lia) ltac:(lia)) as HD.
    set (D := 2 ^ (- e)) in *.
    set (N := Z.pos m * 2 ^ 31).
    assert (Hz : Z.shiftl (Z.pos m) (e + 31) = N / D)
      by (apply shiftl_as_quotient; lia).
    assert (Hquot : 0 <= N / D /\ (if s then N / D <= 2 ^ 31 else N / D < 2 ^ 31)).
    { split; [apply Z.div_pos; unfold N; lia|].
      destruct s.
      - apply Z.div_le_upper_bound; [lia|]. unfold N. nia.
      - apply Z.div_lt_upper_bound; [lia|]. unfold N. nia. }
    set (z := cond_Zopp s (N / D)).
    assert (Hrange : int32_range z).
    { unfold int32_range, INT_MIN, INT_MAX, z.
      destruct s; cbn [cond_Zopp]; change (2 ^ 31) with 2147483648 in Hquot; lia. }
    exists z. split.
    { unfold F32.to_int32. rewrite trunc_mul_int_max, Hz by (assumption || lia).
      fold z. unfold int32_range in Hrange.
      destruct (Z.leb_spec INT_MIN z), (Z.leb_spec z INT_MAX); simpl; lia. }
    split; [exact Hrange|]. split.
    { unfold z. rewrite <- Hz.
      destruct (shiftl_representable m e Hd ltac:(lia)) as [H0|Hrep].
      - left. rewrite H0. destruct s; reflexivity.
      - right. destruct s; cbn [cond_Zopp]; [apply representable_opp|]; exact Hrep. }
    apply Qabs_Qlt_condition.
    unfold Qlt, Qminus, Qplus, Qopp, Qmult, inject_Z. cbn [Qnum Qden].
    rewrite ?Pos.mul_1_r, ?Pos.mul_1_l, ?Z.mul_1_r, ?Z.mul_1_l.
    rewrite Z2Pos.id by assumption. fold D.
    pose proof (Z.mod_pos_bound N D HD) as Hmod.
    pose proof (Z.div_mod N D ltac:(lia)) as Hdm.
    unfold z, N in *. destruct s; cbn [cond_Zopp]; nia.
Qed.

(** One sample through the codec with the scale 1.0: the result is the
    integer sample itself, which is within 1 of [x * 2^31]. *)
Lemma sample_round_trip (x : spec_float) (q : Q) :
  F32.valid x = true -> F32.to_Q x = Some q -> (-1 <= q < 1)%Q ->
  exists z y qy,
    F32.mul (F32.of_int (F32.to_int32 (F32.mul x (F32.of_int INT_MAX)))) F32.one = y
    /\ F32.to_Q y = Some qy
    /\ (qy == inject_Z z)%Q
    /\ int32_range z
    /\ (Qabs (inject_Z z - q * inject_Z (2 ^ 31)) < 1)%Q.
Proof.
  intros Hv Hq Hunit.
  destruct (encode_cast x q Hv Hq Hunit) as (z & Hcast & Hrange & Hrep & Hclose).
  destruct (of_int_exact z Hrep) as [Hvz Hiz].
  destruct (int_value_to_Q _ _ Hiz) as (qy & Hqy & Heq).
  exists z, (F32.of_int z), qy. rewrite Hcast, mul_one by exact Hvz. auto.
Qed.

(** The product of a converted integer with 2^-31 is exact. *)
Lemma mul_pow2_m31 (s : bool) (a : positive) (er : Z) :
  Z.log2 (Z.pos a) = 23 -> -118 <= er <= 104 ->
  F32.mul (S754_finite s a er) pow2_m31 = S754_finite s a (er - 31).
Proof.
  intros Hla Her. unfold F32.mul, pow2_m31, SFmul. rewrite xorb_false_r.
  change (Z.pos (a * 8388608)) with (Z.pos a * 2 ^ 23).
  rewrite binary_round_aux_exact; replace (er + -54 + 23) with (er - 31) by lia;
    try lia; [reflexivity|].
  unfold canonical32, fexp32. lia.
Qed.

(** One sample through the codec with the scale 2^-31: the result is
    within 2^-31 of the sample. *)
Lemma sample_round_trip_normalised (x : spec_float) (q : Q) :
  F32.valid x = true -> F32.to_Q x = Some q -> (-1 <= q < 1)%Q ->
  exists y qy,
    F32.mul (F32.of_int (F32.to_int32 (F32.mul x (F32.of_int INT_MAX)))) pow2_m31 = y
    /\ F32.to_Q y = Some qy
    /\ (Qabs (qy - q) < 1 # 2147483648)%Q.
Proof.
  intros Hv Hq Hunit.
  destruct (encode_cast x q Hv Hq Hunit) as (z & -> & Hrange & Hrep & Hclose).
  assert (Hscaled : forall qy, (qy == z # 2147483648)%Q ->
                      (Qabs (qy - q) < 1 # 2147483648)%Q).
  { intros qy Heq. rewrite Heq.
    apply Qabs_Qlt_condition in Hclose. apply Qabs_Qlt_condition.
    revert Hclose. unfold Qlt, Qminus, Qplus, Qopp, Qmult, inject_Z.
    cbn [Qnum Qden]. rewrite ?Pos.mul_1_r, ?Pos.mul_1_l, ?Z.mul_1_r, ?Z.mul_1_l.
    change (2 ^ 31) with 2147483648.
    rewrite !Pos2Z.inj_mul. nia. }
  destruct (Z.eq_dec z 0) as [->|Hnz].
  - exists (S754_zero false), 0%Q. split; [reflexivity|]. split; [reflexivity|].
    apply Hscaled. reflexivity.
  - destruct Hrep as [|Hrep]; [congruence|].
    destruct (of_int_shape z Hnz Hrep) as (s & a & er & -> & Hla & Her & Hmax & Hiv).
    assert (Hlz : 0 <= Z.log2 (Z.abs z) <= 31).
    { split; [apply Z.log2_nonneg|].
      unfold int32_range, INT_MIN, INT_MAX in Hrange.
      destruct (Z.eq_dec (Z.abs z) 2147483648) as [->|]; [reflexivity|].
      assert (Z.log2 (Z.abs z) < 31) by (apply Z.log2_lt_pow2; lia). lia. }
    rewrite mul_pow2_m31 by lia.
    eexists _, _. split; [reflexivity|]. split; [reflexivity|].
    destruct (Z.leb_spec 0 (er - 31)) as [|Hneg]; [lia|].
    apply Hscaled. cbn [int_value] in Hiv.
    pose proof (Z.pow_pos_nonneg 2 (- (er - 31)) ltac:(lia) ltac:(lia)) as Hp.
    unfold Qeq. cbn [Qnum Qden]. rewrite Z2Pos.id by assumption.
    destruct (Z.leb_spec 0 er) as [Hpos|Hneg'].
    + subst z. replace (- (er - 31)) with (31 - er) by lia.
      assert (Hsplit : 2 ^ 31 = 2 ^ er * 2 ^ (31 - er))
        by (rewrite <- Z.pow_add_r by lia; f_equal; lia).
      change (Z.pos 2147483648) with (2 ^ 31). rewrite Hsplit.
      destruct s; cbn [cond_Zopp]; nia.
    + replace (- (er - 31)) with (31 + - er) by lia.
      rewrite Z.pow_add_r by lia. change (Z.pos 2147483648) with (2 ^ 31).
      rewrite Hiv. nia.
Qed.

(** At 1.0 the product with [(float) INT_MAX] is 2^31, which no
    [int32_t] holds: the cast is undefined there, and the value that the
    model takes for it decodes to -2^31. *)
Lemma cast_of_one_undefined :
  ~ F32.cast_defined (F32.mul F32.one (F32.of_int INT_MAX))
  /\ decode_sample F32.one (encode_sample F32.one)
     = S754_finite true 8388608 8.
Proof.
  split; [|reflexivity].
  intros (z & Hz & Hrange). vm_compute in Hz. injection Hz as <-.
  unfold int32_range, INT_MAX in Hrange. lia.
Qed.

(** *** The round trip *)

(** C1, amended: with equal channel counts and samples in [-1, 1),
    decoding the encoding of [v] yields, sample by sample, the scale of the
    channel times the 32-bit integer sample.  Where the scale is 1.0 that
    is the integer sample itself, an integer [z] of the [int32_t] range
    within 1 of [v * 2^31], and not a value close to [v]; where the scale is
    2^-31 it is within 2^-31 of [v]. *)
Theorem codec_round_trip (desc : ow_device_desc) (blocks : Z)
    (v : list spec_float) :
  0 <= blocks -> 0 <= inputs desc -> outputs desc = inputs desc ->
  length v = (Z.to_nat blocks * (7 * Z.to_nat (inputs desc)))%nat ->
  Forall (fun x => F32.valid x = true
                   /\ exists q, F32.to_Q x = Some q /\ (-1 <= q < 1)%Q) v ->
  length (round_trip desc blocks v) = length v
  /\ forall p x q,
       v !! p = Some x -> F32.to_Q x = Some q ->
       exists y,
         round_trip desc blocks v !! p = Some y
         /\ (scale_at desc p = F32.one ->
             exists z qy,
               F32.to_Q y = Some qy
               /\ (qy == inject_Z z)%Q
               /\ int32_range z
               /\ (Qabs (inject_Z z - q * inject_Z (2 ^ 31)) < 1)%Q)
         /\ (scale_at desc p = pow2_m31 ->
             exists qy,
               F32.to_Q y = Some qy
               /\ (Qabs (qy - q) < 1 # 2147483648)%Q).
Proof.
  intros Hb Hi Hio Hlen Hv.
  destruct (round_trip_samples desc blocks v Hb Hi Hio Hlen) as [Hl Hsamples].
  split; [exact Hl|]. intros p x q Hp Hq.
  rewrite (Hsamples p x Hp). fold (scale_at desc p).
  rewrite Forall_lookup in Hv. destruct (Hv p x Hp) as (Hvalid & q' & Hq' & Hunit).
  assert (q' = q) by congruence. subst q'.
  eexists. split; [reflexivity|]. split; intros ->.
  - destruct (sample_round_trip x q Hvalid Hq Hunit)
      as (z & y & qy & -> & Hqy & Heq & Hrange & Hclose).
    exists z, qy. auto.
  - destruct (sample_round_trip_normalised x q Hvalid Hq Hunit)
      as (y & qy & -> & Hqy & Hclose).
    exists qy. auto.
Qed.

(** C1 as stated fails: with all scales 1.0 the sample 0.5 comes back as
    2^30, which is not within 2^-31 of 0.5. *)
Lemma codec_round_trip_counterexample :
  ~ Forall2 (close_enough (1 # 2147483648))
      (round_trip sim_desc 2 (replicate 28 F32.half))
      (replicate 28 F32.half).
Proof.
  assert (Hout : round_trip sim_desc 2 (replicate 28 F32.half)
                 = replicate 28 (S754_finite false 8388608 7))
    by (vm_compute; reflexivity).
  rewrite Hout. cbn [replicate]. intros Hall.
  apply Forall2_cons_1 in Hall as [(qa & qb & Ha & Hb & Hclose) _].
  cbn in Ha, Hb. injection Ha as <-. injection Hb as <-.
  vm_compute in Hclose. apply Hclose. reflexivity.
Qed.

Lemma codec_round_trip_witness :
  length (round_trip normalised_desc 2 (replicate 28 F32.half))
  = length (replicate 28 F32.half)
  /\ forall p x q,
       replicate 28 F32.half !! p = Some x -> F32.to_Q x = Some q ->
       exists y,
         round_trip normalised_desc 2 (replicate 28 F32.half) !! p = Some y
         /\ (scale_at normalised_desc p = F32.one ->
             exists z qy,
               F32.to_Q y = Some qy
               /\ (qy == inject_Z z)%Q
               /\ int32_range z
               /\ (Qabs (inject_Z z - q * inject_Z (2 ^ 31)) < 1)%Q)
         /\ (scale_at normalised_desc p = pow2_m31 ->
             exists qy,
               F32.to_Q y = Some qy
               /\ (Qabs (qy - q) < 1 # 2147483648)%Q).
Proof.
  apply (codec_round_trip normalised_desc 2 (replicate 28 F32.half)).
  - lia.
  - simpl. lia.
  - reflexivity.
  - reflexivity.
  - apply Forall_replicate. split; [reflexivity|].
    exists (8388608 # 16777216)%Q. split; [reflexivity|].
    unfold Qle, Qlt. simpl. lia.
Defined.

(** * Further properties of the engine *)

(** ** Whole frames *)

(** X1: for a non-negative byte count and a positive frame size,
    [ow_bytes_to_frame_bytes] rounds the count down to a whole number of
    frames: the result is a multiple of the frame size, it does not exceed
    the count and it is less than one frame below it. *)
Theorem bytes_to_frame_bytes_whole_frames (nbytes bytes_per_frame : Z) :
  0 <= nbytes -> 0 < bytes_per_frame ->
  let r := ow_bytes_to_frame_bytes nbytes bytes_per_frame in
  (bytes_per_frame | r)
  /\ nbytes - bytes_per_frame < r <= nbytes
  /\ r = nbytes - nbytes mod bytes_per_frame.
Proof.
  intros Hn Hf r. subst r. unfold ow_bytes_to_frame_bytes.
  rewrite Z.quot_div_nonneg by lia.
  pose proof (Z.div_mod nbytes bytes_per_frame ltac:(lia)) as Hdm.
  pose proof (Z.mod_pos_bound nbytes bytes_per_frame Hf) as Hm.
  split; [apply Z.divide_factor_r|]. split; lia.
Qed.

Lemma bytes_to_frame_bytes_whole_frames_witness :
  let r := ow_bytes_to_frame_bytes 450 16 in
  (16 | r) /\ 450 - 16 < r <= 450 /\ r = 450 - 450 mod 16.
Proof.
  apply (bytes_to_frame_bytes_whole_frames 450 16); lia.
Defined.

(** A [size_t] value up to INT_MAX is unchanged by its conversion to
    [int]. *)
Lemma to_int32_of_int (x : Z) : 0 <= x <= INT_MAX -> to_int32 x = x.
Proof.
  unfold INT_MAX, to_int32, to_uint32. intros Hx.
  change (2 ^ 32) with 4294967296. change (2 ^ 31) with 2147483648.
  rewrite Z.mod_small by lia.
  destruct (Z.ltb_spec x 2147483648); lia.
Qed.

(** At the callers of [ow_bytes_to_frame_bytes], a fill and a frame size
    that fit an [int] pass the conversions unchanged: the length is the
    fill less its remainder modulo the frame size. *)
Lemma frame_bytes_of_int_fill (rsp2o frame_size : Z) :
  0 <= rsp2o <= INT_MAX -> 0 < frame_size <= INT_MAX ->
  to_size_t (ow_bytes_to_frame_bytes (to_int32 rsp2o) (to_int32 frame_size))
  = rsp2o - rsp2o mod frame_size.
Proof.
  intros Hr Hf. rewrite !to_int32_of_int by lia.
  unfold ow_bytes_to_frame_bytes. rewrite Z.quot_div_nonneg by lia.
  pose proof (Z.div_mod rsp2o frame_size ltac:(lia)) as Hdm.
  pose proof (Z.mod_pos_bound rsp2o frame_size ltac:(lia)) as Hm.
  pose proof (Z.mod_le rsp2o frame_size ltac:(lia) ltac:(lia)) as Hle.
  replace (rsp2o / frame_size * frame_size)
    with (rsp2o - rsp2o mod frame_size) by lia.
  unfold to_size_t, INT_MAX in *. change (2 ^ 64) with 18446744073709551616.
  apply Z.mod_small. lia.
Qed.

(** The frame size that [ow_engine_init_mem] sets is a positive [int] for
    every device with at least one input (and fewer than 2^29). *)
Lemma init_mem_frame_size (e : ow_engine) (blocks : Z) :
  0 < inputs (device_desc e) < 2 ^ 29 ->
  0 < p2o_frame_size (ow_engine_init_mem e blocks) <= INT_MAX.
Proof.
  intros Hin. change (2 ^ 29) with 536870912 in Hin.
  unfold ow_engine_init_mem. cbn [p2o_frame_size].
  unfold OB_BYTES_PER_SAMPLE, INT_MAX. lia.
Qed.

(** A fill beyond INT_MAX does not pass unchanged: 2^31 bytes become
    INT_MIN, and with frames of 8 bytes the length handed to [read] is
    2^64 - 2^31. *)
Lemma frame_bytes_of_large_fill :
  to_size_t (ow_bytes_to_frame_bytes (to_int32 (2 ^ 31)) (to_int32 8))
  = 2 ^ 64 - 2 ^ 31.
Proof. reflexivity. Qed.

(** ** The buffers after initialisation *)




(** ** The layout of a transfer *)

(** The samples of the blocks that the encoder has written. *)
Lemma encoder_blocks_samples (e : ow_engine) :
  forall i : nat, (i < Z.to_nat (blocks_per_transfer e))%nat ->
    (i < length (data_out (usb e)))%nat ->
    length (data (data_out (usb (ow_engine_write_usb_output_blocks e)) !!! i))
    = length (data (data_out (usb e) !!! i))
    /\ forall q : nat, (q < out_block_samples e)%nat ->
         (q < length (data (data_out (usb e) !!! i)))%nat ->
         data (data_out (usb (ow_engine_write_usb_output_blocks e)) !!! i) !! q
         = Some (encode_sample
                   (p2o_transfer_buf e !!! (i * out_block_samples e + q)%nat)).
Proof.
  destruct (write_blocks_encode e) as (_ & _ & _ & _ & _ & _ & Hdone).
  exact Hdone.
Qed.

(** What else the encoder keeps. *)
Lemma encoder_keeps (e : ow_engine) :
  device_desc (ow_engine_write_usb_output_blocks e) = device_desc e
  /\ blocks_per_transfer (ow_engine_write_usb_output_blocks e)
     = blocks_per_transfer e
  /\ p2o_transfer_buf (ow_engine_write_usb_output_blocks e) = p2o_transfer_buf e
  /\ o2p_transfer_buf (ow_engine_write_usb_output_blocks e) = o2p_transfer_buf e
  /\ length (data_out (usb (ow_engine_write_usb_output_blocks e)))
     = length (data_out (usb e))
  /\ forall i : nat, (Z.to_nat (blocks_per_transfer e) <= i)%nat ->
       data_out (usb (ow_engine_write_usb_output_blocks e)) !!! i
       = data_out (usb e) !!! i.
Proof.
  destruct (write_blocks_encode e)
    as (_ & Hdesc & Hbuf & (Hbpt & Hobuf) & Hlen & Hrest & _).
  repeat split; assumption.
Qed.


(** X3: [ow_engine_read_usb_input_blocks] changes the float buffer of the
    device-to-host direction only and keeps its length.  With [m] samples
    per block (seven frames of [outputs] samples), the entry at position
    [p] below [blocks_per_transfer * m] becomes the sample [p mod m] of
    block [p / m], read as a big-endian [int32_t], converted to [float] and
    multiplied by the scale of channel [p mod outputs]; the entries from
    there on keep their values. *)
Theorem decoder_layout (e : ow_engine) :
  let e' := ow_engine_read_usb_input_blocks e in
  let m := in_block_samples e in
  e' = set_o2p_transfer_buf (o2p_transfer_buf e') e
  /\ m = (7 * Z.to_nat (outputs (device_desc e)))%nat
  /\ length (o2p_transfer_buf e') = length (o2p_transfer_buf e)
  /\ forall p : nat,
       o2p_transfer_buf e' !! p =
       if decide ((p < Z.to_nat (blocks_per_transfer e) * m)%nat
                  /\ (p < length (o2p_transfer_buf e))%nat)
       then Some (F32.mul
                    (F32.of_int
                       (to_int32
                          (be32toh (data (data_in (usb e) !!! (p / m)%nat)
                                      !!! (p mod m)%nat))))
                    (output_track_scales (device_desc e)
                       !!! (p mod Z.to_nat (outputs (device_desc e)))%nat))
       else o2p_transfer_buf e !! p.
Proof.
  intros e' m. subst e' m.
  destruct (read_blocks_decode e) as (_ & Hlen & Hat).
  split; [reflexivity|]. split; [reflexivity|]. split; [exact Hlen|].
  intros p. exact (Hat p).
Qed.

(** X4: [ow_engine_write_usb_output_blocks] leaves the device descriptor,
    the number of blocks and both float buffers alone and keeps the number
    of blocks of [usb.data_out] and the length of their sample arrays.
    With [n] samples per block (seven frames of [inputs] samples), sample
    [q] of block [i] becomes the float at position [i * n + q] of the
    host-to-device buffer, multiplied by [INT_MAX] as a [float], cast to
    [int32_t] and stored big-endian; blocks from [blocks_per_transfer] on
    are not touched. *)
Theorem encoder_layout (e : ow_engine) :
  let e' := ow_engine_write_usb_output_blocks e in
  let n := out_block_samples e in
  n = (7 * Z.to_nat (inputs (device_desc e)))%nat
  /\ device_desc e' = device_desc e
  /\ blocks_per_transfer e' = blocks_per_transfer e
  /\ p2o_transfer_buf e' = p2o_transfer_buf e
  /\ o2p_transfer_buf e' = o2p_transfer_buf e
  /\ length (data_out (usb e')) = length (data_out (usb e))
  /\ (forall i : nat, (Z.to_nat (blocks_per_transfer e) <= i)%nat ->
        data_out (usb e') !!! i = data_out (usb e) !!! i)
  /\ (forall i : nat, (i < Z.to_nat (blocks_per_transfer e))%nat ->
        (i < length (data_out (usb e)))%nat ->
        length (data (data_out (usb e') !!! i))
        = length (data (data_out (usb e) !!! i))
        /\ forall q : nat, (q < n)%nat ->
             (q < length (data (data_out (usb e) !!! i)))%nat ->
             data (data_out (usb e') !!! i) !! q
             = Some (to_int32
                       (htobe32
                          (F32.to_int32
                             (F32.mul (p2o_transfer_buf e !!! (i * n + q)%nat)
                                (F32.of_int INT_MAX)))))).
Proof.
  intros e' n. subst e' n.
  destruct (write_blocks_encode e)
    as (_ & Hdesc & Hbuf & (Hbpt & Hobuf) & Hlen & Hrest & Hdone).
  fold (ow_engine_write_usb_output_blocks e)
    in Hdesc, Hbuf, Hbpt, Hobuf, Hlen, Hrest, Hdone.
  split; [unfold out_block_samples; lia|].
  split; [exact Hdesc|]. split; [exact Hbpt|]. split; [exact Hbuf|].
  split; [exact Hobuf|]. split; [exact Hlen|].
  split; [exact Hrest|exact Hdone].
Qed.

(** ** The input callbacks *)

Section InputCallbacks.

Context {H : Type}.
Variable env : environment H.

Lemma submits_app (l1 l2 : list call) :
  submits (l1 ++ l2) = submits l1 ++ submits l2.
Proof. apply List.filter_app. Qed.

(** X5: at RUN, with the host's ring operations in place, the audio input
    handler returns, stores the value that [read_space (o2p_audio)] gave it
    in [o2p_latency] and raises [o2p_max_latency] to it if it is larger: the
    maximum never decreases and bounds the latency.  The status and the
    decoded buffer are those of the decoder. *)
Theorem input_handler_tracks_latency (ctx : ow_context H) (e : ow_engine)
    (w : world H) :
  ctx_read_space ctx <> None ->
  ctx_write_space ctx <> None ->
  ctx_write ctx <> None ->
  (ctx_dll ctx <> 0 -> ctx_get_time ctx <> None) ->
  status_val OW_ENGINE_STATUS_RUN <= status_val (status e) ->
  exists e' w' new l,
    set_usb_input_data_blks env ctx e w = Some (e', w')
    /\ log w' = log w ++ new
    /\ In (call_read_space (ctx_o2p_audio ctx) l) new
    /\ o2p_latency e' = l
    /\ o2p_max_latency e' = Z.max (o2p_max_latency e) l
    /\ o2p_latency e' <= o2p_max_latency e'
    /\ o2p_max_latency e <= o2p_max_latency e'
    /\ status e' = status e
    /\ o2p_transfer_buf e'
       = o2p_transfer_buf (ow_engine_read_usb_input_blocks e).
Proof.
  intros Hrs Hws Hwr Hdll Hst.
  destruct (dll_tick_runs env ctx (frames_per_transfer e) w Hdll)
    as (w1 & new1 & Hrun & Hlog1 & Hw1).
  unfold set_usb_input_data_blks, bind at 1. rewrite Hrun.
  destruct (Z.ltb_spec (status_val (status e)) (status_val OW_ENGINE_STATUS_RUN));
    [lia|].
  unfold bind, read_space, write_space, write.
  destruct (ctx_read_space ctx) as [rs|]; [|congruence].
  destruct (ctx_write_space ctx) as [ws|]; [|congruence].
  destruct (ctx_write ctx) as [wr|]; [|congruence].
  destruct (rs (ctx_o2p_audio ctx) (host w1)) as [l h2] eqn:Ers.
  cbn [host emit log].
  destruct (ws (ctx_o2p_audio ctx) h2) as [space h3] eqn:Ews.
  cbn [o2p_transfer_size set_o2p_latencies o2p_transfer_buf].
  change (o2p_max_latency (ow_engine_read_usb_input_blocks e))
    with (o2p_max_latency e).
  assert (Hmax : (if o2p_max_latency e <? l then l else o2p_max_latency e)
                 = Z.max (o2p_max_latency e) l).
  { destruct (Z.ltb_spec (o2p_max_latency e) l); lia. }
  destruct (o2p_transfer_size (ow_engine_read_usb_input_blocks e) <=? space).
  - cbn [host emit log]. destruct (wr _ _ _ h3) as [n h4].
    eexists _, _, (new1 ++ [_; _; _]), l. split; [reflexivity|].
    cbn [log emit o2p_latency o2p_max_latency status o2p_transfer_buf
         set_o2p_latencies].
    rewrite Hmax, Hlog1, <- !app_assoc.
    split; [reflexivity|]. split; [apply in_or_app; right; left; reflexivity|].
    repeat split; try reflexivity; lia.
  - eexists _, _, (new1 ++ [_; _]), l. split; [reflexivity|].
    cbn [log emit o2p_latency o2p_max_latency status o2p_transfer_buf
         set_o2p_latencies].
    rewrite Hmax, Hlog1, <- !app_assoc.
    split; [reflexivity|]. split; [apply in_or_app; right; left; reflexivity|].
    repeat split; try reflexivity; lia.
Qed.

(** The handler submits nothing and keeps the status. *)
Lemma input_handler_keeps_status (ctx : ow_context H) (e : ow_engine)
    (w : world H) :
  ctx_read_space ctx <> None ->
  ctx_write_space ctx <> None ->
  ctx_write ctx <> None ->
  (ctx_dll ctx <> 0 -> ctx_get_time ctx <> None) ->
  exists e' w' new,
    set_usb_input_data_blks env ctx e w = Some (e', w')
    /\ log w' = log w ++ new
    /\ submits new = []
    /\ status e' = status e.
Proof.
  intros Hrs Hws Hwr Hdll.
  assert (Htick : exists w1 new1,
    (if ctx_dll ctx =? 0 then ret tt
     else bind (get_time ctx)
            (fun t => dll_inc env (ctx_dll ctx) (frames_per_transfer e) t)) w
    = Some (tt, w1) /\ log w1 = log w ++ new1 /\ submits new1 = []).
  { destruct (Z.eqb_spec (ctx_dll ctx) 0) as [|Hnz].
    - exists w, []. rewrite app_nil_r. auto.
    - specialize (Hdll Hnz). unfold bind, get_time, dll_inc.
      destruct (ctx_get_time ctx) as [g|]; [|congruence].
      destruct (g (host w)) as [t h].
      eexists _, [_; _]. split; [reflexivity|].
      split; [simpl; rewrite <- app_assoc; reflexivity|reflexivity]. }
  destruct Htick as (w1 & new1 & Hrun & Hlog1 & Hs1).
  unfold set_usb_input_data_blks, bind at 1. rewrite Hrun.
  destruct (status_val (status e) <? status_val OW_ENGINE_STATUS_RUN).
  { exists (ow_engine_read_usb_input_blocks e), w1, new1. auto. }
  unfold bind, read_space, write_space, write.
  destruct (ctx_read_space ctx) as [rs|]; [|congruence].
  destruct (ctx_write_space ctx) as [ws|]; [|congruence].
  destruct (ctx_write ctx) as [wr|]; [|congruence].
  destruct (rs (ctx_o2p_audio ctx) (host w1)) as [l h2] eqn:Ers.
  cbn [host emit log].
  destruct (ws (ctx_o2p_audio ctx) h2) as [space h3] eqn:Ews.
  destruct (o2p_transfer_size _ <=? space).
  - cbn [host emit log]. destruct (wr _ _ _ h3) as [n h4].
    eexists _, _, (new1 ++ [_; _; _]). split; [reflexivity|].
    cbn [log emit]. rewrite Hlog1, <- !app_assoc, submits_app, Hs1.
    repeat split.
  - eexists _, _, (new1 ++ [_; _]). split; [reflexivity|].
    cbn [log emit]. rewrite Hlog1, <- !app_assoc, submits_app, Hs1.
    repeat split.
Qed.

Lemma prepare_cycle_runs (endpoint : Z) (e : ow_engine) (w : world H) :
  exists r h,
    prepare_cycle env endpoint e w
    = Some (if r =? 0 then e else ow_engine_set_status e OW_ENGINE_STATUS_ERROR,
            emit (call_submit_transfer endpoint r) h w).
Proof.
  unfold prepare_cycle, bind, submit_transfer.
  destruct (libusb_submit_transfer env endpoint (host w)) as [r h].
  exists r, h. destruct (r =? 0); reflexivity.
Qed.

(** X6: whatever the status of the finished transfer, [cb_xfr_in] ends by
    submitting the next audio input transfer, exactly once and as its last
    call.  The status of the engine afterwards is the one before when the
    submission is accepted and ERROR when it is refused.  A transfer that
    did not complete leads to no other call and leaves the float buffer
    as it was. *)
Theorem audio_in_callback_resubmits (ctx : ow_context H)
    (xfr : libusb_transfer) (e : ow_engine) (w : world H) :
  ctx_read_space ctx <> None ->
  ctx_write_space ctx <> None ->
  ctx_write ctx <> None ->
  (ctx_dll ctx <> 0 -> ctx_get_time ctx <> None) ->
  exists e' w' new r,
    cb_xfr_in env ctx xfr e w = Some (e', w')
    /\ log w' = log w ++ new ++ [call_submit_transfer AUDIO_IN_EP r]
    /\ submits new = []
    /\ status e' = (if r =? 0 then status e else OW_ENGINE_STATUS_ERROR)
    /\ (xfr_status xfr <> LIBUSB_TRANSFER_COMPLETED ->
        new = [] /\ o2p_transfer_buf e' = o2p_transfer_buf e).
Proof.
  intros Hrs Hws Hwr Hdll. unfold cb_xfr_in.
  assert (Hh : exists e1 w1 new,
    match xfr_status xfr with
    | LIBUSB_TRANSFER_COMPLETED => set_usb_input_data_blks env ctx e
    | _ => ret e
    end w = Some (e1, w1)
    /\ log w1 = log w ++ new /\ submits new = [] /\ status e1 = status e
    /\ (xfr_status xfr <> LIBUSB_TRANSFER_COMPLETED -> new = [] /\ e1 = e)).
  { destruct (xfr_status xfr) eqn:Est;
      try (exists e, w, []; rewrite app_nil_r; repeat split; reflexivity).
    destruct (input_handler_keeps_status ctx e w Hrs Hws Hwr Hdll)
      as (e1 & w1 & new & Hrun & Hlog & Hsub & Hst).
    exists e1, w1, new. repeat split; try assumption; congruence. }
  destruct Hh as (e1 & w1 & new & Hrun & Hlog & Hsub & Hst & Hidle).
  unfold bind at 1. rewrite Hrun.
  destruct (prepare_cycle_runs AUDIO_IN_EP e1 w1) as (r & h & Hsubmit).
  unfold prepare_cycle_in_audio. rewrite Hsubmit.
  eexists _, _, new, r. split; [reflexivity|].
  split; [cbn [log emit]; rewrite Hlog, <- app_assoc; reflexivity|].
  split; [exact Hsub|]. split.
  - destruct (r =? 0); [exact Hst|reflexivity].
  - intros Hnot. destruct (Hidle Hnot) as [-> ->].
    split; [reflexivity|]. destruct (r =? 0); reflexivity.
Qed.

Section MidiQuiet.

Variables (ctx : ow_context H) (e : ow_engine).
Variable ws : Z -> H -> Z * H.
Hypothesis Hws : ctx_write_space ctx = Some ws.

Lemma midi_in_event_quiet (t : spec_float) (length : Z) (w : world H) :
  ctx_write ctx <> None \/ (forall ring h, fst (ws ring h) < sizeof_midi_event) ->
  exists w' new,
    midi_in_event ctx e t length w = Some (tt, w')
    /\ log w' = log w ++ new
    /\ submits new = []
    /\ ((forall ring h, fst (ws ring h) < sizeof_midi_event) -> writes new = []).
Proof.
  intros Hsafe. unfold midi_in_event. cbn [bytes].
  destruct (midi_event_accepted (midi_chunk e length)).
  - unfold bind, write_space, write. rewrite Hws.
    destruct (ws (ctx_o2p_midi ctx) (host w)) as [space h1] eqn:Ews.
    destruct (Z.leb_spec sizeof_midi_event space) as [Hroom|Hfull].
    + destruct Hsafe as [Hwr|Hnone].
      * destruct (ctx_write ctx) as [wr|]; [|congruence].
        cbn [host emit]. destruct (wr _ _ _ h1) as [n h2].
        eexists _, [_; _]. split; [reflexivity|].
        split; [cbn [log emit]; rewrite <- app_assoc; reflexivity|].
        split; [reflexivity|]. intros Hnone.
        specialize (Hnone (ctx_o2p_midi ctx) (host w)). rewrite Ews in Hnone.
        simpl in Hnone. lia.
      * specialize (Hnone (ctx_o2p_midi ctx) (host w)). rewrite Ews in Hnone.
        simpl in Hnone. lia.
    + eexists _, [_]. repeat split; reflexivity.
  - exists w, []. rewrite app_nil_r. repeat split; reflexivity.
Qed.

Lemma midi_in_loop_quiet (t : spec_float) (actual : Z) (fuel : nat) :
  ctx_write ctx <> None \/ (forall ring h, fst (ws ring h) < sizeof_midi_event) ->
  forall (length : Z) (w : world H),
  exists w' new,
    midi_in_loop fuel ctx e t actual length w = Some (tt, w')
    /\ log w' = log w ++ new
    /\ submits new = []
    /\ ((forall ring h, fst (ws ring h) < sizeof_midi_event) -> writes new = []).
Proof.
  intros Hsafe. induction fuel as [|fuel IH]; intros length w.
  - exists w, []. rewrite app_nil_r. simpl. repeat split; reflexivity.
  - simpl. destruct (length <? actual).
    + destruct (midi_in_event_quiet t length w Hsafe)
        as (w1 & new1 & Hrun1 & Hlog1 & Hs1 & Hw1).
      destruct (IH (length + OB_MIDI_EVENT_SIZE) w1)
        as (w2 & new2 & Hrun2 & Hlog2 & Hs2 & Hw2).
      exists w2, (new1 ++ new2). unfold bind at 1. rewrite Hrun1.
      split; [assumption|].
      split; [rewrite Hlog2, Hlog1, app_assoc; reflexivity|].
      split; [rewrite submits_app, Hs1, Hs2; reflexivity|].
      intros Hnone. rewrite writes_app, Hw1, Hw2 by assumption. reflexivity.
    + exists w, []. rewrite app_nil_r. simpl. repeat split; reflexivity.
Qed.

Lemma midi_in_callback_quiet (xfr : libusb_transfer) (w : world H) :
  ctx_get_time ctx <> None ->
  ctx_write ctx <> None \/ (forall ring h, fst (ws ring h) < sizeof_midi_event) ->
  exists w' new r,
    cb_xfr_in_midi env ctx xfr e w
    = Some (if r =? 0 then e else ow_engine_set_status e OW_ENGINE_STATUS_ERROR,
            w')
    /\ log w' = log w ++ new ++ [call_submit_transfer MIDI_IN_EP r]
    /\ submits new = []
    /\ ((forall ring h, fst (ws ring h) < sizeof_midi_event) -> writes new = [])
    /\ (status_val (status e) < status_val OW_ENGINE_STATUS_RUN
        \/ xfr_status xfr <> LIBUSB_TRANSFER_COMPLETED -> new = []).
Proof.
  intros Hgt Hsafe. unfold cb_xfr_in_midi, ow_engine_get_status.
  assert (Hbody : exists w1 new,
    (if status_val (status e) <? status_val OW_ENGINE_STATUS_RUN
     then ret tt
     else match xfr_status xfr with
          | LIBUSB_TRANSFER_COMPLETED =>
              bind (get_time ctx)
                (fun t => midi_in_loop (Z.to_nat (actual_length xfr)) ctx e t
                            (actual_length xfr) 0)
          | _ => ret tt
          end) w = Some (tt, w1)
    /\ log w1 = log w ++ new /\ submits new = []
    /\ ((forall ring h, fst (ws ring h) < sizeof_midi_event) -> writes new = [])
    /\ (status_val (status e) < status_val OW_ENGINE_STATUS_RUN
        \/ xfr_status xfr <> LIBUSB_TRANSFER_COMPLETED -> new = [])).
  { destruct (Z.ltb_spec (status_val (status e))
                (status_val OW_ENGINE_STATUS_RUN)) as [Hlow|Hrun].
    { exists w, []. rewrite app_nil_r. repeat split; reflexivity. }
    destruct (xfr_status xfr) eqn:Est;
      try (exists w, []; rewrite app_nil_r; repeat split; reflexivity).
    unfold bind at 1, get_time.
    destruct (ctx_get_time ctx) as [g|]; [|congruence].
    destruct (g (host w)) as [t h1].
    destruct (midi_in_loop_quiet t (actual_length xfr)
                (Z.to_nat (actual_length xfr)) Hsafe 0
                (emit (call_get_time t) h1 w))
      as (w2 & new & Hrun2 & Hlog & Hs & Hw).
    exists w2, (call_get_time t :: new). split; [exact Hrun2|].
    split; [rewrite Hlog; cbn [log emit]; rewrite <- app_assoc; reflexivity|].
    split; [exact Hs|]. split; [intros Hnone; simpl; auto|].
    intros [Hlow|Hnot]; [lia|congruence]. }
  destruct Hbody as (w1 & new & Hrun1 & Hlog & Hs & Hw & Hidle).
  unfold bind at 1. rewrite Hrun1.
  destruct (prepare_cycle_runs MIDI_IN_EP e w1) as (r & h & Hsubmit).
  unfold prepare_cycle_in_midi. rewrite Hsubmit.
  exists (emit (call_submit_transfer MIDI_IN_EP r) h w1), new, r.
  split; [reflexivity|].
  split; [cbn [log emit]; rewrite Hlog, <- app_assoc; reflexivity|].
  auto.
Qed.

End MidiQuiet.

(** X7: [cb_xfr_in_midi] never changes the engine except for the status:
    it ends by submitting the next MIDI input transfer, exactly once and as
    its last call, and returns the engine unchanged when the submission is
    accepted and with the status ERROR when it is refused.  Below RUN, or
    after a transfer that did not complete, the submission is its only
    call. *)
Theorem midi_in_callback_resubmits (ctx : ow_context H)
    (xfr : libusb_transfer) (e : ow_engine) (w : world H) :
  ctx_get_time ctx <> None ->
  ctx_write_space ctx <> None ->
  ctx_write ctx <> None ->
  exists w' new r,
    cb_xfr_in_midi env ctx xfr e w
    = Some (if r =? 0 then e else ow_engine_set_status e OW_ENGINE_STATUS_ERROR,
            w')
    /\ log w' = log w ++ new ++ [call_submit_transfer MIDI_IN_EP r]
    /\ submits new = []
    /\ (status_val (status e) < status_val OW_ENGINE_STATUS_RUN
        \/ xfr_status xfr <> LIBUSB_TRANSFER_COMPLETED -> new = []).
Proof.
  intros Hgt Hws Hwr.
  destruct (ctx_write_space ctx) as [ws|] eqn:Ews; [|congruence].
  destruct (midi_in_callback_quiet ctx e ws Ews xfr w Hgt (or_introl Hwr))
    as (w' & new & r & Hrun & Hlog & Hs & _ & Hidle).
  exists w', new, r. auto.
Qed.

(** X8: when the MIDI ring never reports room for an event, the callback
    enqueues nothing, whatever the buffer holds: every event is dropped,
    the ring's write is not called (it may even be missing) and the next
    transfer is submitted all the same. *)
Theorem midi_in_overflow_drops (ctx : ow_context H) (xfr : libusb_transfer)
    (e : ow_engine) (w : world H) (ws : Z -> H -> Z * H) :
  ctx_get_time ctx <> None ->
  ctx_write_space ctx = Some ws ->
  (forall ring h, fst (ws ring h) < sizeof_midi_event) ->
  exists e' w' new r,
    cb_xfr_in_midi env ctx xfr e w = Some (e', w')
    /\ log w' = log w ++ new ++ [call_submit_transfer MIDI_IN_EP r]
    /\ writes new = []
    /\ submits new = [].
Proof.
  intros Hgt Hws Hfull.
  destruct (midi_in_callback_quiet ctx e ws Hws xfr w Hgt (or_intror Hfull))
    as (w' & new & r & Hrun & Hlog & Hs & Hw & _).
  eexists _, w', new, r. split; [exact Hrun|]. auto.
Qed.

End InputCallbacks.

Lemma input_handler_tracks_latency_witness :
  exists e' w' new l,
    set_usb_input_data_blks sim_env (sim_context 1 0) sim_running
      (sim_world F32.one 4096) = Some (e', w')
    /\ log w' = log (sim_world F32.one 4096) ++ new
    /\ In (call_read_space (ctx_o2p_audio (sim_context 1 0)) l) new
    /\ o2p_latency e' = l
    /\ o2p_max_latency e' = Z.max (o2p_max_latency sim_running) l
    /\ o2p_latency e' <= o2p_max_latency e'
    /\ o2p_max_latency sim_running <= o2p_max_latency e'
    /\ status e' = status sim_running
    /\ o2p_transfer_buf e'
       = o2p_transfer_buf (ow_engine_read_usb_input_blocks sim_running).
Proof.
  apply (input_handler_tracks_latency sim_env (sim_context 1 0) sim_running
           (sim_world F32.one 4096)); discriminate.
Defined.

Lemma audio_in_callback_resubmits_witness :
  exists e' w' new r,
    cb_xfr_in refusing_env (sim_context 1 0) scenario_transfer sim_running
      (sim_world F32.one 4096) = Some (e', w')
    /\ log w' = log (sim_world F32.one 4096) ++ new
                ++ [call_submit_transfer AUDIO_IN_EP r]
    /\ submits new = []
    /\ status e' = (if r =? 0 then status sim_running
                    else OW_ENGINE_STATUS_ERROR)
    /\ (xfr_status scenario_transfer <> LIBUSB_TRANSFER_COMPLETED ->
        new = [] /\ o2p_transfer_buf e' = o2p_transfer_buf sim_running).
Proof.
  apply (audio_in_callback_resubmits refusing_env (sim_context 1 0)
           scenario_transfer sim_running (sim_world F32.one 4096));
    discriminate.
Defined.

Lemma midi_in_callback_resubmits_witness :
  exists w' new r,
    cb_xfr_in_midi sim_env (sim_context 4 0) scenario_transfer sim_midi_engine
      (sim_world F32.one 4096)
    = Some (if r =? 0 then sim_midi_engine
            else ow_engine_set_status sim_midi_engine OW_ENGINE_STATUS_ERROR,
            w')
    /\ log w' = log (sim_world F32.one 4096) ++ new
                ++ [call_submit_transfer MIDI_IN_EP r]
    /\ submits new = []
    /\ (status_val (status sim_midi_engine) < status_val OW_ENGINE_STATUS_RUN
        \/ xfr_status scenario_transfer <> LIBUSB_TRANSFER_COMPLETED ->
        new = []).
Proof.
  apply (midi_in_callback_resubmits sim_env (sim_context 4 0) scenario_transfer
           sim_midi_engine (sim_world F32.one 4096)); discriminate.
Defined.

Lemma midi_in_overflow_drops_witness :
  exists e' w' new r,
    cb_xfr_in_midi sim_env (full_context 4 0) scenario_transfer sim_midi_engine
      (sim_world F32.one 0) = Some (e', w')
    /\ log w' = log (sim_world F32.one 0) ++ new
                ++ [call_submit_transfer MIDI_IN_EP r]
    /\ writes new = []
    /\ submits new = [].
Proof.
  apply (midi_in_overflow_drops sim_env (full_context 4 0) scenario_transfer
           sim_midi_engine (sim_world F32.one 0) full_write_space).
  - discriminate.
  - reflexivity.
  - intros ring h. simpl. unfold sizeof_midi_event. lia.
Defined.

(** ** The audio output handler *)

(** The encoder writes to the member [usb] only. *)
Lemma write_blocks_only_usb (e : ow_engine) :
  ow_engine_write_usb_output_blocks e
  = set_usb (usb (ow_engine_write_usb_output_blocks e)) e.
Proof.
  assert (Hinv : exists u,
    snd (for_loop (Z.to_nat (blocks_per_transfer e)) 0 write_block (0%nat, e))
    = set_usb u e).
  { apply (for_loop_invariant
             (fun (_ : nat) (st : nat * ow_engine) => exists u, snd st = set_usb u e)
             write_block (Z.to_nat (blocks_per_transfer e)) 0 (0%nat, e)).
    - exists (usb e). destruct e. reflexivity.
    - intros k [f e1] _ [u Hu]. cbn [snd] in Hu. subst e1.
      unfold write_block. eexists. cbn [snd]. reflexivity. }
  destruct Hinv as [u Hu]. unfold ow_engine_write_usb_output_blocks.
  rewrite Hu. reflexivity.
Qed.

Lemma zero_floats_lookup (size : Z) (k : nat) :
  zero_floats size !!! k = F32.zero.
Proof.
  unfold zero_floats.
  destruct (decide (k < Z.to_nat (size / 4))%nat) as [Hlt|Hge].
  - apply lookup_total_replicate_2. exact Hlt.
  - rewrite list_lookup_total_alt, lookup_ge_None_2; [reflexivity|].
    rewrite length_replicate. lia.
Qed.

Lemma encode_sample_zero (s : bool) : encode_sample (S754_zero s) = 0.
Proof. destruct s; vm_compute; reflexivity. Qed.

Section OutputHandler.

Context {H : Type}.
Variable env : environment H.
Variable rd : ring_data H.
Variable src_simple : SRC_DATA -> Z -> Z -> Z * SRC_DATA.

(** X9: once the host has switched the host-to-device audio off with
    [ow_engine_set_p2o_audio_enabled (engine, 0)], the output handler calls
    nothing of the host (the rings are not even looked at), clears the
    latch [reading_at_p2o_end], zeroes the float buffer and encodes it:
    every sample of the outgoing transfer is 0.  The latency counters keep
    their values. *)
Theorem output_handler_disabled_sends_silence (ctx : ow_context H)
    (e0 : ow_engine) (w : world H) :
  let e := ow_engine_set_p2o_audio_enabled e0 0 in
  ow_engine_is_p2o_audio_enabled e = 0
  /\ exists e',
      set_usb_output_data_blks rd src_simple ctx e w = Some (e', w)
      /\ reading_at_p2o_end e' = 0
      /\ p2o_transfer_buf e' = zero_floats (p2o_transfer_size e0)
      /\ p2o_latency e' = p2o_latency e0
      /\ p2o_max_latency e' = p2o_max_latency e0
      /\ forall i q : nat,
           (i < Z.to_nat (blocks_per_transfer e0))%nat ->
           (i < length (data_out (usb e0)))%nat ->
           (q < 7 * Z.to_nat (inputs (device_desc e0)))%nat ->
           (q < length (data (data_out (usb e0) !!! i)))%nat ->
           data (data_out (usb e') !!! i) !! q = Some 0.
Proof.
  intros e.
  assert (Hoff : ow_engine_is_p2o_audio_enabled e = 0).
  { subst e. unfold ow_engine_set_p2o_audio_enabled.
    destruct (Z.eqb_spec (ow_engine_is_p2o_audio_enabled e0) 0) as [Heq|Hne];
      [exact Heq|reflexivity]. }
  assert (Hsame : usb e = usb e0 /\ device_desc e = device_desc e0
                  /\ blocks_per_transfer e = blocks_per_transfer e0
                  /\ p2o_transfer_size e = p2o_transfer_size e0
                  /\ p2o_latency e = p2o_latency e0
                  /\ p2o_max_latency e = p2o_max_latency e0).
  { subst e. unfold ow_engine_set_p2o_audio_enabled.
    destruct (_ =? 0); repeat split; reflexivity. }
  destruct Hsame as (Husb & Hdesc & Hbpt & Hsize & Hlat & Hmax).
  split; [exact Hoff|].
  unfold set_usb_output_data_blks. rewrite Hoff. cbn [Z.eqb].
  set (e1 := set_p2o_transfer_buf _ (set_reading_at_p2o_end 0 e)).
  exists (ow_engine_write_usb_output_blocks e1).
  split; [reflexivity|].
  rewrite (write_blocks_only_usb e1).
  cbn [reading_at_p2o_end p2o_transfer_buf p2o_latency p2o_max_latency
       set_usb usb].
  subst e1.
  cbn [reading_at_p2o_end p2o_transfer_buf p2o_latency p2o_max_latency
       set_p2o_transfer_buf set_reading_at_p2o_end p2o_transfer_size].
  rewrite Hsize, Hlat, Hmax. repeat (split; [reflexivity|]).
  intros i q Hi Hlen Hq Hqlen.
  set (e1 := set_p2o_transfer_buf _ (set_reading_at_p2o_end 0 e)).
  pose proof (encoder_blocks_samples e1) as Hdone.
  assert (Hu1 : usb e1 = usb e0) by exact Husb.
  assert (Hd1 : device_desc e1 = device_desc e0) by exact Hdesc.
  assert (Hb1 : blocks_per_transfer e1 = blocks_per_transfer e0) by exact Hbpt.
  rewrite Hb1, Hu1 in Hdone. destruct (Hdone i Hi Hlen) as [_ Hq'].
  unfold out_block_samples in Hq'. rewrite Hd1 in Hq'.
  rewrite (Hq' q ltac:(lia) Hqlen). f_equal.
  change (p2o_transfer_buf e1) with (zero_floats (p2o_transfer_size e0)).
  rewrite zero_floats_lookup. apply (encode_sample_zero false).
Qed.

(** X10: with the host-to-device audio enabled and the latch
    [reading_at_p2o_end] clear, the handler does not take audio from the
    ring: the float buffer and the latency counters keep their values and
    the buffer is encoded as it is.  While the ring holds less than one
    transfer, only [read_space] is called and the latch stays clear; as
    soon as it holds a transfer or more, the handler sets the latch and
    discards ring content with one [read].  For a frame size that is a
    positive [int], the length of that read is the fill converted to
    [int], rounded down to whole frames and converted to [size_t]; for a
    fill of at most INT_MAX this is the fill less its remainder modulo the
    frame size. *)
Theorem output_handler_waits_for_full_transfer (ctx : ow_context H)
    (e : ow_engine) (w : world H) (rs : Z -> H -> Z * H) :
  ow_engine_is_p2o_audio_enabled e <> 0 ->
  reading_at_p2o_end e = 0 ->
  ctx_read_space ctx = Some rs ->
  ctx_read ctx <> None ->
  0 < p2o_frame_size e <= INT_MAX ->
  let ring := ctx_p2o_audio ctx in
  let rsp2o := fst (rs ring (host w)) in
  exists e1 w',
    set_usb_output_data_blks rd src_simple ctx e w
    = Some (ow_engine_write_usb_output_blocks e1, w')
    /\ p2o_transfer_buf e1 = p2o_transfer_buf e
    /\ usb e1 = usb e
    /\ p2o_latency e1 = p2o_latency e
    /\ p2o_max_latency e1 = p2o_max_latency e
    /\ (rsp2o < p2o_transfer_size e ->
        reading_at_p2o_end e1 = 0
        /\ log w' = log w ++ [call_read_space ring rsp2o])
    /\ (p2o_transfer_size e <= rsp2o ->
        reading_at_p2o_end e1 = 1
        /\ exists len,
             log w' = log w ++ [call_read_space ring rsp2o; call_read ring len]
             /\ len = to_size_t
                        (ow_bytes_to_frame_bytes (to_int32 rsp2o)
                           (p2o_frame_size e))
             /\ (0 <= rsp2o <= INT_MAX ->
                 len = rsp2o - rsp2o mod p2o_frame_size e)).
Proof.
  intros Hon Hlatch Hrs Hrd Hfs ring rsp2o. subst ring rsp2o.
  unfold set_usb_output_data_blks.
  destruct (Z.eqb_spec (ow_engine_is_p2o_audio_enabled e) 0) as [|_];
    [contradiction|].
  unfold bind at 1, read_space. rewrite Hrs.
  destruct (rs (ctx_p2o_audio ctx) (host w)) as [n h1]. cbn [fst].
  rewrite Hlatch. cbn [Z.eqb].
  destruct (Z.leb_spec (p2o_transfer_size e) n) as [Hfull|Hless].
  - unfold bind, read_discard.
    destruct (ctx_read ctx) as [rf|]; [|congruence].
    cbn [host emit]. destruct (rf _ _ h1) as [k h2].
    eexists (set_reading_at_p2o_end 1 e), _. split; [reflexivity|].
    repeat (split; [reflexivity|]). split; [lia|]. intros _.
    split; [reflexivity|]. eexists. split.
    { cbn [log emit]. rewrite <- app_assoc. reflexivity. }
    split.
    { rewrite (to_int32_of_int (p2o_frame_size e)) by lia. reflexivity. }
    intros Hn. apply frame_bytes_of_int_fill; assumption.
  - eexists e, _. split; [reflexivity|].
    repeat (split; [reflexivity|]). split; [|lia]. intros _.
    split; [exact Hlatch|reflexivity].
Qed.

(** X11: with the host-to-device audio enabled and the latch set, the
    handler records what [read_space] reported as [p2o_latency], raises
    [p2o_max_latency] to it if it is larger, and reads from the ring exactly
    once.  When a whole transfer is available it reads [p2o_transfer_size]
    bytes into the float buffer.  Otherwise (underrun) it reads the whole
    frames that are available into the resampler buffer and lets the
    resampler stretch them: [input_frames] is that number of frames, the
    ratio is [frames_per_transfer] divided by it, the channels are the
    device's inputs, and the float buffer is what the resampler leaves in
    [data_out]. *)
Theorem output_handler_reads_at_the_latch (ctx : ow_context H)
    (e : ow_engine) (w : world H) (rs : Z -> H -> Z * H) :
  ow_engine_is_p2o_audio_enabled e <> 0 ->
  reading_at_p2o_end e <> 0 ->
  ctx_read_space ctx = Some rs ->
  ctx_read ctx <> None ->
  let ring := ctx_p2o_audio ctx in
  let rsp2o := fst (rs ring (host w)) in
  let h1 := snd (rs ring (host w)) in
  let frames_n := Z.quot rsp2o (p2o_frame_size e) in
  exists e1 w' len,
    set_usb_output_data_blks rd src_simple ctx e w
    = Some (ow_engine_write_usb_output_blocks e1, w')
    /\ log w' = log w ++ [call_read_space ring rsp2o; call_read ring len]
    /\ usb e1 = usb e
    /\ reading_at_p2o_end e1 = reading_at_p2o_end e
    /\ p2o_latency e1 = rsp2o
    /\ p2o_max_latency e1 = Z.max (p2o_max_latency e) rsp2o
    /\ (p2o_transfer_size e <= rsp2o ->
        len = p2o_transfer_size e
        /\ p2o_transfer_buf e1
           = read_floats rd ring len h1 (p2o_transfer_buf e)
        /\ p2o_resampler_buf e1 = p2o_resampler_buf e)
    /\ (rsp2o < p2o_transfer_size e ->
        len = frames_n * p2o_frame_size e
        /\ p2o_resampler_buf e1
           = read_floats rd ring len h1 (p2o_resampler_buf e)
        /\ p2o_transfer_buf e1
           = src_data_out
               (snd (src_simple
                       {| src_data_in := p2o_resampler_buf e1;
                          src_data_out := p2o_transfer_buf e;
                          input_frames := frames_n;
                          output_frames := frames_per_transfer e;
                          input_frames_used := 0;
                          output_frames_gen := 0;
                          end_of_input := 1;
                          src_ratio :=
                            F64.div (F64.of_int (frames_per_transfer e))
                              (F64.of_int frames_n) |}
                       SRC_SINC_FASTEST (inputs (device_desc e))))).
Proof.
  intros Hon Hlatch Hrs Hrd ring rsp2o h1 frames_n.
  subst ring rsp2o h1 frames_n.
  unfold set_usb_output_data_blks.
  destruct (Z.eqb_spec (ow_engine_is_p2o_audio_enabled e) 0) as [|_];
    [contradiction|].
  unfold bind at 1, read_space. rewrite Hrs.
  destruct (rs (ctx_p2o_audio ctx) (host w)) as [n h1]. cbn [fst snd].
  destruct (Z.eqb_spec (reading_at_p2o_end e) 0) as [|_]; [contradiction|].
  assert (Hmax : (if p2o_max_latency e <? n then n else p2o_max_latency e)
                 = Z.max (p2o_max_latency e) n).
  { destruct (Z.ltb_spec (p2o_max_latency e) n); lia. }
  rewrite Hmax.
  cbn [p2o_transfer_size p2o_transfer_buf p2o_resampler_buf p2o_frame_size
       set_p2o_latencies].
  unfold bind, read_into.
  destruct (ctx_read ctx) as [rf|]; [|congruence].
  cbn [host emit].
  destruct (Z.leb_spec (p2o_transfer_size e) n) as [Hfull|Hless].
  - cbn [host emit]. destruct (rf _ _ h1) as [k h2].
    eexists _, _, _. split; [reflexivity|].
    split; [cbn [log emit]; rewrite <- app_assoc; reflexivity|].
    repeat (split; [reflexivity|]). split; [|lia]. intros _.
    repeat split.
  - cbn [host emit]. destruct (rf _ _ h1) as [k h2].
    cbn [frames_per_transfer device_desc set_p2o_resampler_buf
         set_p2o_latencies].
    destruct (src_simple _ _ _) as [res d] eqn:Esrc.
    eexists _, _, _. split; [reflexivity|].
    split; [cbn [log emit]; rewrite <- app_assoc; reflexivity|].
    repeat (split; [reflexivity|]). split; [lia|]. intros _.
    split; [reflexivity|]. split; [reflexivity|].
    cbn [p2o_transfer_buf p2o_resampler_buf set_p2o_transfer_buf
         set_p2o_resampler_buf set_p2o_latencies].
    unfold p2o_data in Esrc.
    cbn [p2o_transfer_buf p2o_resampler_buf frames_per_transfer
         set_p2o_resampler_buf set_p2o_latencies] in Esrc.
    rewrite Esrc. reflexivity.
Qed.

(** Every path of the handler ends in the encoder; what it calls on the
    way is at most one [read_space] followed by at most one [read]. *)
Lemma output_handler_paths (ctx : ow_context H) (e : ow_engine) (w : world H)
    (rs : Z -> H -> Z * H) :
  ctx_read_space ctx = Some rs ->
  ctx_read ctx <> None ->
  let ring := ctx_p2o_audio ctx in
  let rsp2o := fst (rs ring (host w)) in
  exists e1 w1 new,
    set_usb_output_data_blks rd src_simple ctx e w
    = Some (ow_engine_write_usb_output_blocks e1, w1)
    /\ log w1 = log w ++ new
    /\ usb e1 = usb e
    /\ device_desc e1 = device_desc e
    /\ blocks_per_transfer e1 = blocks_per_transfer e
    /\ status e1 = status e
    /\ p2o_max_latency e <= p2o_max_latency e1
    /\ p2o_latency e1 <= Z.max (p2o_latency e) (p2o_max_latency e1)
    /\ (new = [] \/ new = [call_read_space ring rsp2o]
        \/ exists len,
             new = [call_read_space ring rsp2o; call_read ring len]
             /\ (len = to_size_t
                         (ow_bytes_to_frame_bytes (to_int32 rsp2o)
                            (to_int32 (p2o_frame_size e)))
                 \/ len = Z.quot rsp2o (p2o_frame_size e) * p2o_frame_size e
                 \/ len = p2o_transfer_size e /\ p2o_transfer_size e <= rsp2o)).
Proof.
  intros Hrs Hrd ring rsp2o. subst ring rsp2o.
  unfold set_usb_output_data_blks.
  destruct (Z.eqb_spec (ow_engine_is_p2o_audio_enabled e) 0) as [Hoff|Hon].
  { eexists _, w, []. split; [reflexivity|]. rewrite app_nil_r.
    cbn [usb device_desc blocks_per_transfer status p2o_max_latency p2o_latency
         set_p2o_transfer_buf set_reading_at_p2o_end].
    repeat (split; [reflexivity || lia|]). left. reflexivity. }
  unfold bind at 1, read_space. rewrite Hrs.
  destruct (rs (ctx_p2o_audio ctx) (host w)) as [n h1]. cbn [fst].
  destruct (ctx_read ctx) as [rf|] eqn:Erd; [|congruence].
  destruct (Z.eqb_spec (reading_at_p2o_end e) 0) as [Hclear|Hset].
  - destruct (Z.leb_spec (p2o_transfer_size e) n) as [Hfull|Hless].
    + unfold bind, read_discard. rewrite Erd. cbn [host emit].
      destruct (rf _ _ h1) as [k h2].
      eexists (set_reading_at_p2o_end 1 e), _, [_; _].
      split; [reflexivity|].
      split; [cbn [log emit]; rewrite <- app_assoc; reflexivity|].
      cbn [usb device_desc blocks_per_transfer status p2o_max_latency
           p2o_latency set_reading_at_p2o_end].
      repeat (split; [reflexivity || lia|]). right. right.
      eexists. split; [reflexivity|]. left. reflexivity.
    + eexists e, _, [_]. split; [reflexivity|]. split; [reflexivity|].
      repeat (split; [reflexivity || lia|]). right. left. reflexivity.
  - assert (Hmax : (if p2o_max_latency e <? n then n else p2o_max_latency e)
                   = Z.max (p2o_max_latency e) n).
    { destruct (Z.ltb_spec (p2o_max_latency e) n); lia. }
    rewrite Hmax.
    cbn [p2o_transfer_size p2o_transfer_buf p2o_resampler_buf p2o_frame_size
         set_p2o_latencies].
    unfold bind, read_into. rewrite Erd.
    destruct (Z.leb_spec (p2o_transfer_size e) n) as [Hfull|Hless].
    + cbn [host emit]. destruct (rf _ _ h1) as [k h2].
      eexists _, _, [_; _]. split; [reflexivity|].
      split; [cbn [log emit]; rewrite <- app_assoc; reflexivity|].
      cbn [usb device_desc blocks_per_transfer status p2o_max_latency
           p2o_latency set_p2o_transfer_buf set_p2o_latencies].
      repeat (split; [reflexivity || lia|]). right. right.
      eexists. split; [reflexivity|]. right. right.
      split; [reflexivity|exact Hfull].
    + cbn [host emit]. destruct (rf _ _ h1) as [k h2].
      destruct (src_simple _ _ _) as [res d].
      eexists _, _, [_; _]. split; [reflexivity|].
      split; [cbn [log emit]; rewrite <- app_assoc; reflexivity|].
      cbn [usb device_desc blocks_per_transfer status p2o_max_latency
           p2o_latency set_p2o_transfer_buf set_p2o_resampler_buf
           set_p2o_latencies].
      repeat (split; [reflexivity || lia|]). right. right.
      eexists. split; [reflexivity|]. right. left. reflexivity.
Qed.

(** X12: the handler never tears a frame.  On a ring that reports a
    fill between 0 and INT_MAX, with a frame size that is a positive [int]
    and divides the (non-negative) transfer size, the handler calls the
    ring's [read] at most once, always after the one [read_space], and the
    length it asks for is a whole number of frames and at most what
    [read_space] reported. *)
Theorem output_handler_reads_whole_frames (ctx : ow_context H)
    (e : ow_engine) (w : world H) (rs : Z -> H -> Z * H) :
  ctx_read_space ctx = Some rs ->
  ctx_read ctx <> None ->
  0 < p2o_frame_size e <= INT_MAX ->
  0 <= p2o_transfer_size e ->
  (p2o_frame_size e | p2o_transfer_size e) ->
  0 <= fst (rs (ctx_p2o_audio ctx) (host w)) <= INT_MAX ->
  let ring := ctx_p2o_audio ctx in
  let rsp2o := fst (rs ring (host w)) in
  exists e' w' new,
    set_usb_output_data_blks rd src_simple ctx e w = Some (e', w')
    /\ log w' = log w ++ new
    /\ (reads new = []
        \/ exists len,
             new = [call_read_space ring rsp2o; call_read ring len]
             /\ (p2o_frame_size e | len) /\ 0 <= len <= rsp2o).
Proof.
  intros Hrs Hrd Hfs Hsz Hdiv Hpos ring rsp2o. subst ring rsp2o.
  destruct (output_handler_paths ctx e w rs Hrs Hrd)
    as (e1 & w1 & new & Hrun & Hlog & _ & _ & _ & _ & _ & _ & Hnew).
  eexists _, w1, new. split; [exact Hrun|]. split; [exact Hlog|].
  destruct Hnew as [->|[->|(len & -> & Hlen)]]; [left; reflexivity ..|].
  right. exists len. split; [reflexivity|].
  set (n := fst (rs (ctx_p2o_audio ctx) (host w))) in *.
  pose proof (Z.div_mod n (p2o_frame_size e) ltac:(lia)) as Hdm.
  pose proof (Z.mod_pos_bound n (p2o_frame_size e) ltac:(lia)) as Hm.
  pose proof (Z.mod_le n (p2o_frame_size e) ltac:(lia) ltac:(lia)) as Hle.
  assert (Hwhole : (p2o_frame_size e | n - n mod p2o_frame_size e)).
  { exists (n / p2o_frame_size e). lia. }
  destruct Hlen as [->|[->|[-> Hfull]]].
  - rewrite frame_bytes_of_int_fill by assumption.
    split; [exact Hwhole|]. lia.
  - rewrite Z.quot_div_nonneg by lia.
    replace (n / p2o_frame_size e * p2o_frame_size e)
      with (n - n mod p2o_frame_size e) by lia.
    split; [exact Hwhole|]. lia.
  - split; [exact Hdiv|]. lia.
Qed.

(** X13: whatever the status of the finished transfer and whichever path
    the handler takes, [cb_xfr_out] encodes one transfer and then submits
    the next audio output transfer, exactly once and as its last call.  On
    an engine whose output side is ready, the running frame counter
    advances by seven per block modulo 2^16, the blocks keep their headers,
    every sample that goes out is the encoding of the float buffer as the
    handler left it, and [p2o_max_latency] does not decrease.  The status
    afterwards is the one before when the submission is accepted and ERROR
    when it is refused. *)
Theorem audio_out_callback_encodes_and_resubmits (ctx : ow_context H)
    (xfr : libusb_transfer) (e : ow_engine) (w : world H) :
  ctx_read_space ctx <> None ->
  ctx_read ctx <> None ->
  output_ready e ->
  exists e' w' new r,
    cb_xfr_out env rd src_simple ctx xfr e w = Some (e', w')
    /\ log w' = log w ++ new ++ [call_submit_transfer AUDIO_OUT_EP r]
    /\ submits new = []
    /\ status e' = (if r =? 0 then status e else OW_ENGINE_STATUS_ERROR)
    /\ usb_frames (usb e')
       = (usb_frames (usb e) + OB_FRAMES_PER_BLOCK * blocks_per_transfer e)
         mod 2 ^ 16
    /\ output_ready e'
    /\ p2o_max_latency e <= p2o_max_latency e'
    /\ forall i q : nat,
         (i < Z.to_nat (blocks_per_transfer e))%nat ->
         (q < 7 * Z.to_nat (inputs (device_desc e)))%nat ->
         (q < length (data (data_out (usb e) !!! i)))%nat ->
         data (data_out (usb e') !!! i) !! q
         = Some (encode_sample
                   (p2o_transfer_buf e'
                      !!! (i * (7 * Z.to_nat (inputs (device_desc e))) + q)%nat)).
Proof.
  intros Hrs Hrd Hready.
  destruct (ctx_read_space ctx) as [rs|] eqn:Ers; [|congruence].
  destruct (output_handler_paths ctx e w rs Ers Hrd)
    as (e1 & w1 & new & Hrun & Hlog & Husb & Hdesc & Hbpt & Hst & Hmax & _ & Hnew).
  unfold cb_xfr_out, bind at 1. rewrite Hrun.
  destruct (prepare_cycle_runs env AUDIO_OUT_EP
              (ow_engine_write_usb_output_blocks e1) w1) as (r & h & Hsubmit).
  unfold prepare_cycle_out_audio. rewrite Hsubmit.
  assert (Hready1 : output_ready e1).
  { unfold output_ready. rewrite Hbpt, Husb. exact Hready. }
  destruct (write_blocks_ready e1 Hready1) as (Hready2 & Hbpt2 & Hcount).
  destruct (encoder_keeps e1) as (_ & _ & Hbuf & _).
  pose proof (encoder_blocks_samples e1) as Hdone.
  pose proof (write_blocks_only_usb e1) as Honly.
  set (e2 := ow_engine_write_usb_output_blocks e1) in *.
  assert (Hst2 : status e2 = status e) by (rewrite Honly; exact Hst).
  assert (Hmax2 : p2o_max_latency e2 = p2o_max_latency e1)
    by (rewrite Honly; reflexivity).
  eexists _, _, new, r. split; [reflexivity|].
  split; [cbn [log emit]; rewrite Hlog, <- app_assoc; reflexivity|].
  split.
  { destruct Hnew as [->|[->|(len & -> & _)]]; reflexivity. }
  split; [destruct (r =? 0); [exact Hst2|reflexivity]|].
  assert (Hu : usb (if r =? 0 then e2
                    else ow_engine_set_status e2 OW_ENGINE_STATUS_ERROR)
               = usb e2) by (destruct (r =? 0); reflexivity).
  assert (Hb : p2o_transfer_buf
                 (if r =? 0 then e2
                  else ow_engine_set_status e2 OW_ENGINE_STATUS_ERROR)
               = p2o_transfer_buf e1)
    by (destruct (r =? 0); exact Hbuf).
  split; [rewrite Hu, Hcount, Husb, Hbpt; reflexivity|].
  split.
  { destruct (r =? 0); [exact Hready2|]. exact Hready2. }
  split; [destruct (r =? 0); cbn [p2o_max_latency ow_engine_set_status set_status];
          lia|].
  intros i q Hi Hq Hqlen. rewrite Hu, Hb.
  destruct Hready as (_ & Hlen & _).
  rewrite Hbpt, Husb in Hdone.
  destruct (Hdone i Hi ltac:(lia)) as [_ Hat].
  unfold out_block_samples in Hat. rewrite Hdesc in Hat.
  rewrite (Hat q ltac:(lia) Hqlen). unfold encode_sample.
  replace (i * (7 * (Z.to_nat (inputs (device_desc e)) * 1)) + q)%nat
    with (i * (7 * Z.to_nat (inputs (device_desc e))) + q)%nat by lia.
  reflexivity.
Qed.

End OutputHandler.

Lemma output_handler_waits_for_full_transfer_witness :
  let ctx := p2o_context 2 in
  let w := sim_world F32.one 56 in
  let e := sim_p2o_engine in
  let ring := ctx_p2o_audio ctx in
  let rsp2o := fst (sim_read_space ring (host w)) in
  exists e1 w',
    set_usb_output_data_blks sim_ring_data sim_src_simple ctx e w
    = Some (ow_engine_write_usb_output_blocks e1, w')
    /\ p2o_transfer_buf e1 = p2o_transfer_buf e
    /\ usb e1 = usb e
    /\ p2o_latency e1 = p2o_latency e
    /\ p2o_max_latency e1 = p2o_max_latency e
    /\ (rsp2o < p2o_transfer_size e ->
        reading_at_p2o_end e1 = 0
        /\ log w' = log w ++ [call_read_space ring rsp2o])
    /\ (p2o_transfer_size e <= rsp2o ->
        reading_at_p2o_end e1 = 1
        /\ exists len,
             log w' = log w ++ [call_read_space ring rsp2o; call_read ring len]
             /\ len = to_size_t
                        (ow_bytes_to_frame_bytes (to_int32 rsp2o)
                           (p2o_frame_size e))
             /\ (0 <= rsp2o <= INT_MAX ->
                 len = rsp2o - rsp2o mod p2o_frame_size e)).
Proof.
  apply (output_handler_waits_for_full_transfer sim_ring_data sim_src_simple
           (p2o_context 2) sim_p2o_engine (sim_world F32.one 56)
           sim_read_space).
  - discriminate.
  - reflexivity.
  - reflexivity.
  - discriminate.
  - split; [vm_compute; reflexivity|vm_compute; discriminate].
Defined.

Lemma output_handler_reads_at_the_latch_witness :
  let ctx := p2o_context 2 in
  let w := sim_world F32.one 56 in
  let e := sim_latched_engine in
  let ring := ctx_p2o_audio ctx in
  let rsp2o := fst (sim_read_space ring (host w)) in
  let h1 := snd (sim_read_space ring (host w)) in
  let frames_n := Z.quot rsp2o (p2o_frame_size e) in
  exists e1 w' len,
    set_usb_output_data_blks sim_ring_data sim_src_simple ctx e w
    = Some (ow_engine_write_usb_output_blocks e1, w')
    /\ log w' = log w ++ [call_read_space ring rsp2o; call_read ring len]
    /\ usb e1 = usb e
    /\ reading_at_p2o_end e1 = reading_at_p2o_end e
    /\ p2o_latency e1 = rsp2o
    /\ p2o_max_latency e1 = Z.max (p2o_max_latency e) rsp2o
    /\ (p2o_transfer_size e <= rsp2o ->
        len = p2o_transfer_size e
        /\ p2o_transfer_buf e1
           = read_floats sim_ring_data ring len h1 (p2o_transfer_buf e)
        /\ p2o_resampler_buf e1 = p2o_resampler_buf e)
    /\ (rsp2o < p2o_transfer_size e ->
        len = frames_n * p2o_frame_size e
        /\ p2o_resampler_buf e1
           = read_floats sim_ring_data ring len h1 (p2o_resampler_buf e)
        /\ p2o_transfer_buf e1
           = src_data_out
               (snd (sim_src_simple
                       {| src_data_in := p2o_resampler_buf e1;
                          src_data_out := p2o_transfer_buf e;
                          input_frames := frames_n;
                          output_frames := frames_per_transfer e;
                          input_frames_used := 0;
                          output_frames_gen := 0;
                          end_of_input := 1;
                          src_ratio :=
                            F64.div (F64.of_int (frames_per_transfer e))
                              (F64.of_int frames_n) |}
                       SRC_SINC_FASTEST (inputs (device_desc e))))).
Proof.
  apply (output_handler_reads_at_the_latch sim_ring_data sim_src_simple
           (p2o_context 2) sim_latched_engine (sim_world F32.one 56)
           sim_read_space); try discriminate; reflexivity.
Defined.

Lemma output_handler_reads_whole_frames_witness :
  let ctx := p2o_context 2 in
  let w := sim_world F32.one 60 in
  let e := sim_latched_engine in
  let ring := ctx_p2o_audio ctx in
  let rsp2o := fst (sim_read_space ring (host w)) in
  exists e' w' new,
    set_usb_output_data_blks sim_ring_data sim_src_simple ctx e w = Some (e', w')
    /\ log w' = log w ++ new
    /\ (reads new = []
        \/ exists len,
             new = [call_read_space ring rsp2o; call_read ring len]
             /\ (p2o_frame_size e | len) /\ 0 <= len <= rsp2o).
Proof.
  apply (output_handler_reads_whole_frames sim_ring_data sim_src_simple
           (p2o_context 2) sim_latched_engine (sim_world F32.one 60)
           sim_read_space).
  - reflexivity.
  - discriminate.
  - split; [vm_compute; reflexivity|vm_compute; discriminate].
  - vm_compute. discriminate.
  - exists 14. reflexivity.
  - split; vm_compute; discriminate.
Defined.

Lemma audio_out_callback_encodes_and_resubmits_witness :
  let ctx := p2o_context 2 in
  let w := sim_world F32.one 56 in
  let e := sim_latched_engine in
  exists e' w' new r,
    cb_xfr_out sim_env sim_ring_data sim_src_simple ctx scenario_transfer e w
    = Some (e', w')
    /\ log w' = log w ++ new ++ [call_submit_transfer AUDIO_OUT_EP r]
    /\ submits new = []
    /\ status e' = (if r =? 0 then status e else OW_ENGINE_STATUS_ERROR)
    /\ usb_frames (usb e')
       = (usb_frames (usb e) + OB_FRAMES_PER_BLOCK * blocks_per_transfer e)
         mod 2 ^ 16
    /\ output_ready e'
    /\ p2o_max_latency e <= p2o_max_latency e'
    /\ forall i q : nat,
         (i < Z.to_nat (blocks_per_transfer e))%nat ->
         (q < 7 * Z.to_nat (inputs (device_desc e)))%nat ->
         (q < length (data (data_out (usb e) !!! i)))%nat ->
         data (data_out (usb e') !!! i) !! q
         = Some (encode_sample
                   (p2o_transfer_buf e'
                      !!! (i * (7 * Z.to_nat (inputs (device_desc e))) + q)%nat)).
Proof.
  apply (audio_out_callback_encodes_and_resubmits sim_env sim_ring_data
           sim_src_simple (p2o_context 2) scenario_transfer sim_latched_engine
           (sim_world F32.one 56)).
  - discriminate.
  - discriminate.
  - unfold output_ready. split; [simpl; lia|]. split; [reflexivity|].
    split; [simpl; lia|]. repeat constructor.
Defined.

(** ** Paths of the audio worker *)

Section WorkerPaths.

Context {H : Type}.
Variables (env : environment H) (ctx : ow_context H).

Lemma run_schedule_step (cs : list completion) (sched : list action)
    (st : audio_pc * ow_engine) (w : world H) :
  run_schedule env ctx (worker_step cs :: sched) st w
  = match run_audio_o2p_midi_step env ctx cs (fst st) (snd st) w with
    | Some (st', w') => run_schedule env ctx sched st' w'
    | None => None
    end.
Proof. reflexivity. Qed.

(** The head of the outer loop: the counters are reset and the status is
    written, RUN without a DLL and WAIT with one. *)
Lemma outer_loop_head (e : ow_engine) (w : world H) :
  (ctx_dll ctx <> 0 -> ctx_get_time ctx <> None) ->
  exists w' tail,
    run_schedule env ctx (replicate 2 (worker_step [])) (at_reset, e) w
    = Some ((at_inner_loop,
             set_status (if ctx_dll ctx =? 0 then OW_ENGINE_STATUS_RUN
                         else OW_ENGINE_STATUS_WAIT) (reset_counters e)), w')
    /\ log w' = log w ++ tail
    /\ (if ctx_dll ctx =? 0 then tail = []
        else exists t,
          tail = [call_get_time t;
                  call_dll_init (ctx_dll ctx) OB_SAMPLE_RATE
                    (frames_per_transfer e) t]).
Proof.
  intros Hdll.
  cbn [replicate run_schedule perform fst snd run_audio_o2p_midi_step].
  unfold bind at 1. cbn [ret fst snd run_audio_o2p_midi_step].
  destruct (Z.eqb_spec (ctx_dll ctx) 0) as [Hz|Hnz].
  - unfold bind at 1. cbn [ret]. exists w, []. rewrite app_nil_r. auto.
  - specialize (Hdll Hnz). unfold bind, get_time, dll_init.
    destruct (ctx_get_time ctx) as [g|]; [|congruence].
    destruct (g (host w)) as [t h]. cbn [ret].
    eexists _, [_; _]. split; [reflexivity|].
    split; [cbn [log emit]; rewrite <- app_assoc; reflexivity|].
    exists t. reflexivity.
Qed.

(** X14: when another thread lowers the status to READY or BOOT while the
    worker is in its inner loop, the worker starts over instead of
    returning: it leaves the inner loop, discards content of the
    host-to-device ring with one [read], zeroes the float buffer of that
    direction, resets the four latency counters and the latch, and writes
    the status RUN (WAIT with a DLL, after initialising it) before it
    handles events again.  The USB buffers and the running frame counter
    are not reset.  For a frame size that is a positive [int], the length
    of the read is the fill converted to [int], rounded down to whole
    frames and converted to [size_t]; for a fill of at most INT_MAX this
    is the fill less its remainder modulo the frame size. *)
Theorem worker_restarts_below_wait (e : ow_engine) (w : world H)
    (rs : Z -> H -> Z * H) :
  ctx_read_space ctx = Some rs ->
  ctx_read ctx <> None ->
  (ctx_dll ctx <> 0 -> ctx_get_time ctx <> None) ->
  status_val OW_ENGINE_STATUS_STOP < status_val (status e)
    < status_val OW_ENGINE_STATUS_WAIT ->
  0 < p2o_frame_size e <= INT_MAX ->
  let ring := ctx_p2o_audio ctx in
  let rsp2o := fst (rs ring (host w)) in
  exists e' w' len tail,
    run_schedule env ctx (replicate 5 (worker_step [])) (at_inner_loop, e) w
    = Some ((at_inner_loop, e'), w')
    /\ log w' = log w ++
         [call_read_space ring rsp2o; call_read ring len] ++ tail
    /\ len = to_size_t
               (ow_bytes_to_frame_bytes (to_int32 rsp2o) (p2o_frame_size e))
    /\ (0 <= rsp2o <= INT_MAX -> len = rsp2o - rsp2o mod p2o_frame_size e)
    /\ (if ctx_dll ctx =? 0 then tail = []
        else exists t,
          tail = [call_get_time t;
                  call_dll_init (ctx_dll ctx) OB_SAMPLE_RATE
                    (frames_per_transfer e) t])
    /\ status e' = (if ctx_dll ctx =? 0 then OW_ENGINE_STATUS_RUN
                    else OW_ENGINE_STATUS_WAIT)
    /\ p2o_transfer_buf e' = zero_floats (p2o_transfer_size e)
    /\ (p2o_latency e' = 0 /\ p2o_max_latency e' = 0
        /\ o2p_latency e' = 0 /\ o2p_max_latency e' = 0)
    /\ reading_at_p2o_end e' = 0
    /\ usb e' = usb e
    /\ o2p_transfer_buf e' = o2p_transfer_buf e.
Proof.
  intros Hrs Hrd Hdll Hst Hfs ring rsp2o. subst ring rsp2o.
  change (replicate 5 (worker_step []))
    with (worker_step [] :: worker_step [] :: worker_step []
            :: replicate 2 (worker_step [])).
  rewrite run_schedule_step. cbn [fst snd run_audio_o2p_midi_step].
  unfold ow_engine_get_status.
  destruct (Z.leb_spec (status_val OW_ENGINE_STATUS_WAIT) (status_val (status e)));
    [lia|].
  unfold ret at 1.
  rewrite run_schedule_step. cbn [fst snd run_audio_o2p_midi_step].
  unfold ow_engine_get_status.
  destruct (Z.leb_spec (status_val (status e)) (status_val OW_ENGINE_STATUS_STOP));
    [lia|].
  unfold ret at 1.
  rewrite run_schedule_step. cbn [fst snd run_audio_o2p_midi_step].
  unfold bind, read_space, read_discard. rewrite Hrs.
  destruct (ctx_read ctx) as [rf|]; [|congruence].
  destruct (rs (ctx_p2o_audio ctx) (host w)) as [n h1]. cbn [fst host emit].
  destruct (rf _ _ h1) as [k h2]. unfold ret at 1.
  match goal with
  | |- context [run_schedule env ctx _ (at_reset, ?e1) ?w1] =>
      destruct (outer_loop_head e1 w1 Hdll) as (w' & tail & Hrun & Hlog & Htail)
  end.
  rewrite Hrun. eexists _, w', _, tail. split; [reflexivity|].
  split; [rewrite Hlog; cbn [log emit]; rewrite <- !app_assoc; reflexivity|].
  split.
  { rewrite (to_int32_of_int (p2o_frame_size e)) by lia. reflexivity. }
  split; [intros Hn; apply frame_bytes_of_int_fill; assumption|].
  split; [exact Htail|]. repeat split.
Qed.

(** X15: a submission that libusb refuses while the worker starts is
    forgotten.  When every submission is refused, the first step out of the
    spin sets the status to ERROR, and the head of the outer loop, which
    writes the status without reading it, replaces it: the worker enters
    its inner loop at RUN (WAIT with a DLL) with no transfer submitted. *)
Theorem startup_submit_failure_is_overwritten (e : ow_engine) (w : world H) :
  (forall endpoint h, fst (libusb_submit_transfer env endpoint h) <> 0) ->
  (ctx_dll ctx <> 0 -> ctx_get_time ctx <> None) ->
  exists e1 w1 e' w',
    run_schedule env ctx [worker_step []] (at_first_submit, e) w
    = Some ((at_reset, e1), w1)
    /\ status e1 = OW_ENGINE_STATUS_ERROR
    /\ Forall (fun c => exists endpoint r,
                 c = call_submit_transfer endpoint r /\ r <> 0)
         (drop (length (log w)) (log w1))
    /\ run_schedule env ctx (replicate 3 (worker_step [])) (at_first_submit, e) w
       = Some ((at_inner_loop, e'), w')
    /\ status e' = (if ctx_dll ctx =? 0 then OW_ENGINE_STATUS_RUN
                    else OW_ENGINE_STATUS_WAIT)
    /\ submits (drop (length (log w1)) (log w')) = [].
Proof.
  intros Hrefuse Hdll.
  assert (Hfail : forall endpoint e0 w0, exists r h,
    r <> 0 /\
    prepare_cycle env endpoint e0 w0
    = Some (ow_engine_set_status e0 OW_ENGINE_STATUS_ERROR,
            emit (call_submit_transfer endpoint r) h w0)).
  { intros endpoint e0 w0. unfold prepare_cycle, bind, submit_transfer.
    pose proof (Hrefuse endpoint (host w0)) as Hr.
    destruct (libusb_submit_transfer env endpoint (host w0)) as [r h].
    cbn [fst] in Hr. exists r, h. split; [exact Hr|].
    destruct (Z.eqb_spec r 0); [contradiction|reflexivity]. }
  assert (Hfirst : exists e1 w1 new,
    run_audio_o2p_midi_step env ctx [] at_first_submit e w
    = Some ((at_reset, e1), w1)
    /\ status e1 = OW_ENGINE_STATUS_ERROR
    /\ log w1 = log w ++ new
    /\ Forall (fun c => exists endpoint r,
                 c = call_submit_transfer endpoint r /\ r <> 0) new).
  { cbn [run_audio_o2p_midi_step].
    unfold prepare_cycle_in_audio, prepare_cycle_out_audio, prepare_cycle_in_midi.
    unfold bind at 1.
    destruct (Hfail AUDIO_IN_EP e w) as (r1' & h1' & Hr1' & Hrun1).
    rewrite Hrun1.
    destruct (Hfail AUDIO_OUT_EP (ow_engine_set_status e OW_ENGINE_STATUS_ERROR)
                (emit (call_submit_transfer AUDIO_IN_EP r1') h1' w))
      as (r2 & h2 & Hr2 & Hrun2).
    unfold bind at 1. rewrite Hrun2.
    cbn [options ow_engine_set_status set_status].
    destruct (o2p_midi (options e) =? 0).
    - unfold bind, ret. eexists _, _, [_; _]. split; [reflexivity|].
      split; [reflexivity|].
      split; [cbn [log emit]; rewrite <- app_assoc; reflexivity|].
      repeat constructor; eauto.
    - unfold bind at 1.
      match goal with
      | |- context [prepare_cycle env MIDI_IN_EP ?e0 ?w0] =>
          destruct (Hfail MIDI_IN_EP e0 w0) as (r3 & h3 & Hr3 & Hrun3)
      end.
      rewrite Hrun3. unfold ret.
      eexists _, _, [_; _; _]. split; [reflexivity|].
      split; [reflexivity|].
      split; [cbn [log emit]; rewrite <- !app_assoc; reflexivity|].
      repeat constructor; eauto. }
  destruct Hfirst as (e1 & w1 & new & Hstep & Hst1 & Hlog1 & Hnew).
  destruct (outer_loop_head e1 w1 Hdll) as (w' & tail & Hrun & Hlog & Htail).
  exists e1, w1. eexists _, w'.
  split.
  { cbn [run_schedule perform fst snd]. unfold bind at 1. rewrite Hstep.
    reflexivity. }
  split; [exact Hst1|].
  split; [rewrite Hlog1, drop_app_length; exact Hnew|].
  split.
  { change (replicate 3 (worker_step []))
      with (worker_step [] :: replicate 2 (worker_step [])).
    cbn [run_schedule perform fst snd]. unfold bind at 1. rewrite Hstep.
    exact Hrun. }
  split; [reflexivity|].
  rewrite Hlog, drop_app_length.
  destruct (ctx_dll ctx =? 0); [subst tail; reflexivity|].
  destruct Htail as [t ->]. reflexivity.
Qed.

(** X16: a refused resubmission ends the worker.  When libusb refuses
    the submission of the next audio input transfer, the callback that runs
    inside [libusb_handle_events_completed] leaves the status at ERROR; the
    inner loop then ends, the check after it reads a status that is not
    above STOP, and the worker returns. *)
Theorem refused_resubmission_ends_worker (e : ow_engine) (w : world H)
    (xfr : libusb_transfer) (blks : list ow_engine_usb_blk) :
  ctx_read_space ctx <> None ->
  ctx_write_space ctx <> None ->
  ctx_write ctx <> None ->
  (ctx_dll ctx <> 0 -> ctx_get_time ctx <> None) ->
  status_val OW_ENGINE_STATUS_WAIT <= status_val (status e) ->
  (forall h, fst (libusb_submit_transfer env AUDIO_IN_EP h) <> 0) ->
  exists e' w',
    run_schedule env ctx
      [worker_step [audio_in_done xfr blks]; worker_step []; worker_step []]
      (at_inner_loop, e) w
    = Some ((at_return, e'), w')
    /\ status e' = OW_ENGINE_STATUS_ERROR.
Proof.
  intros Hrs Hws Hwr Hdll Hst Hrefuse.
  rewrite run_schedule_step. cbn [fst snd run_audio_o2p_midi_step].
  unfold ow_engine_get_status.
  destruct (Z.leb_spec (status_val OW_ENGINE_STATUS_WAIT) (status_val (status e)));
    [|lia].
  cbn [handle_events deliver]. unfold cb_xfr_in.
  set (e0 := set_usb (set_data_in blks (usb e)) e).
  assert (Hh : exists e1 w1,
    match xfr_status xfr with
    | LIBUSB_TRANSFER_COMPLETED => set_usb_input_data_blks env ctx e0
    | _ => ret e0
    end w = Some (e1, w1)).
  { destruct (xfr_status xfr); try (exists e0, w; reflexivity).
    destruct (input_handler_keeps_status env ctx e0 w Hrs Hws Hwr Hdll)
      as (e1 & w1 & new & Hrun & _). exists e1, w1. exact Hrun. }
  destruct Hh as (e1 & w1 & Hrun).
  unfold bind at 1 2 3. rewrite Hrun.
  unfold prepare_cycle_in_audio, prepare_cycle, bind at 1, submit_transfer.
  pose proof (Hrefuse (host w1)) as Hr.
  destruct (libusb_submit_transfer env AUDIO_IN_EP (host w1)) as [r h].
  cbn [fst] in Hr. destruct (Z.eqb_spec r 0); [contradiction|].
  unfold ret at 1 2 3.
  rewrite run_schedule_step. cbn [fst snd run_audio_o2p_midi_step].
  unfold ow_engine_get_status, ow_engine_set_status. cbn [status set_status].
  cbn [status_val Z.leb Z.compare]. unfold ret at 1.
  rewrite run_schedule_step. cbn [fst snd run_audio_o2p_midi_step].
  unfold ow_engine_get_status. cbn [status set_status].
  cbn [status_val Z.leb Z.compare]. unfold ret at 1.
  eexists _, _. split; reflexivity.
Qed.

End WorkerPaths.

Lemma worker_restarts_below_wait_witness :
  let ctx := p2o_context 3 in
  let e := set_status OW_ENGINE_STATUS_BOOT sim_latched_engine in
  let w := sim_world F32.one 60 in
  let ring := ctx_p2o_audio ctx in
  let rsp2o := fst (sim_read_space ring (host w)) in
  exists e' w' len tail,
    run_schedule sim_env ctx (replicate 5 (worker_step [])) (at_inner_loop, e) w
    = Some ((at_inner_loop, e'), w')
    /\ log w' = log w ++
         [call_read_space ring rsp2o; call_read ring len] ++ tail
    /\ len = to_size_t
               (ow_bytes_to_frame_bytes (to_int32 rsp2o) (p2o_frame_size e))
    /\ (0 <= rsp2o <= INT_MAX -> len = rsp2o - rsp2o mod p2o_frame_size e)
    /\ (if ctx_dll ctx =? 0 then tail = []
        else exists t,
          tail = [call_get_time t;
                  call_dll_init (ctx_dll ctx) OB_SAMPLE_RATE
                    (frames_per_transfer e) t])
    /\ status e' = (if ctx_dll ctx =? 0 then OW_ENGINE_STATUS_RUN
                    else OW_ENGINE_STATUS_WAIT)
    /\ p2o_transfer_buf e' = zero_floats (p2o_transfer_size e)
    /\ (p2o_latency e' = 0 /\ p2o_max_latency e' = 0
        /\ o2p_latency e' = 0 /\ o2p_max_latency e' = 0)
    /\ reading_at_p2o_end e' = 0
    /\ usb e' = usb e
    /\ o2p_transfer_buf e' = o2p_transfer_buf e.
Proof.
  apply (worker_restarts_below_wait sim_env (p2o_context 3)
           (set_status OW_ENGINE_STATUS_BOOT sim_latched_engine)
           (sim_world F32.one 60) sim_read_space).
  - reflexivity.
  - discriminate.
  - intros _. discriminate.
  - simpl. lia.
  - split; [vm_compute; reflexivity|vm_compute; discriminate].
Defined.

Lemma startup_submit_failure_is_overwritten_witness :
  let ctx := p2o_context 3 in
  let e := set_status OW_ENGINE_STATUS_BOOT sim_p2o_engine in
  let w := sim_world F32.one 60 in
  exists e1 w1 e' w',
    run_schedule refusing_env ctx [worker_step []] (at_first_submit, e) w
    = Some ((at_reset, e1), w1)
    /\ status e1 = OW_ENGINE_STATUS_ERROR
    /\ Forall (fun c => exists endpoint r,
                 c = call_submit_transfer endpoint r /\ r <> 0)
         (drop (length (log w)) (log w1))
    /\ run_schedule refusing_env ctx (replicate 3 (worker_step []))
         (at_first_submit, e) w
       = Some ((at_inner_loop, e'), w')
    /\ status e' = (if ctx_dll ctx =? 0 then OW_ENGINE_STATUS_RUN
                    else OW_ENGINE_STATUS_WAIT)
    /\ submits (drop (length (log w1)) (log w')) = [].
Proof.
  apply (startup_submit_failure_is_overwritten refusing_env (p2o_context 3)
           (set_status OW_ENGINE_STATUS_BOOT sim_p2o_engine)
           (sim_world F32.one 60)).
  - intros endpoint h. simpl. lia.
  - intros _. discriminate.
Defined.

Lemma refused_resubmission_ends_worker_witness :
  exists e' w',
    run_schedule refusing_env (sim_context 1 0)
      [worker_step [audio_in_done scenario_transfer (data_in (usb sim_running))];
       worker_step []; worker_step []]
      (at_inner_loop, sim_running) (sim_world F32.one 4096)
    = Some ((at_return, e'), w')
    /\ status e' = OW_ENGINE_STATUS_ERROR.
Proof.
  apply (refused_resubmission_ends_worker refusing_env (sim_context 1 0)
           sim_running (sim_world F32.one 4096) scenario_transfer
           (data_in (usb sim_running))); discriminate.
Defined.

(** ** The host-to-device MIDI worker *)

Section MidiWorker.

Context {H : Type}.
Variables (env : environment H) (rd : ring_data H) (ctx : ow_context H).

Hypothesis Hgt : ctx_get_time ctx <> None.
Hypothesis Hrs : ctx_read_space ctx <> None.
Hypothesis Hrd : ctx_read ctx <> None.

Lemma midi_out_submits_new (w : world H) (new : list call) (l : list call) :
  l = log w ++ new ->
  midi_out_submits (drop (length (log w)) l) = midi_out_submits new.
Proof. intros ->. rewrite drop_app_length. reflexivity. Qed.

(** What one step of the worker does to the engine, to [pos] and to the
    log, program point by program point. *)
Lemma p2o_midi_step_cases (pc : p2o_midi_pc) (l : p2o_midi_locals)
    (e : ow_engine) (w : world H) :
  exists pc' l' e' w' new,
    run_p2o_midi_step env rd ctx pc l e w = Some ((pc', l', e'), w')
    /\ log w' = log w ++ new
    /\ match pc with
       | pm_start =>
           pc' = pm_fill /\ pos l' = 0 /\ p2o_midi_ready e' = 1
           /\ midi_out_submits new = 0
       | pm_fill =>
           midi_out_submits new = 0
           /\ p2o_midi_ready e' = p2o_midi_ready e
           /\ (pc' = pm_flush /\ pos l' = pos l
               /\ (0 < pos l -> p2o_midi_data e' = p2o_midi_data e)
               \/ pc' = pm_fill /\ pos l < USB_BULK_MIDI_SIZE
                  /\ pos l' = pos l + OB_MIDI_EVENT_SIZE
                  /\ p2o_midi_data e'
                     = memcpy_event (pos l) (bytes (event l'))
                         (if pos l =? 0
                          then replicate (Z.to_nat USB_BULK_MIDI_SIZE) 0
                          else p2o_midi_data e))
       | pm_flush =>
           pc' = pm_sleep /\ pos l' = 0
           /\ (pos l = 0 /\ e' = e /\ new = []
               \/ pos l <> 0 /\ p2o_midi_ready e' = 0
                  /\ p2o_midi_data e' = p2o_midi_data e
                  /\ exists r,
                       new = [call_submit_transfer MIDI_OUT_EP r]
                       /\ r = fst (libusb_submit_transfer env MIDI_OUT_EP (host w))
                       /\ status e' = (if r =? 0 then status e
                                       else OW_ENGINE_STATUS_ERROR))
       | pm_sleep => pc' = pm_wait_ready /\ l' = l /\ e' = e /\ new = []
       | pm_wait_ready =>
           l' = l /\ e' = e /\ new = []
           /\ pc' = (if p2o_midi_ready e =? 0 then pm_wait_ready
                     else pm_stop_check)
       | pm_stop_check =>
           l' = l /\ e' = e /\ new = []
           /\ pc' = (if status_val (status e) <=? status_val OW_ENGINE_STATUS_STOP
                     then pm_return else pm_fill)
       | pm_return => pc' = pm_return /\ l' = l /\ e' = e /\ new = []
       end.
Proof.
  destruct (ctx_get_time ctx) as [gt|] eqn:Egt; [|congruence].
  destruct (ctx_read_space ctx) as [rs|] eqn:Ers; [|congruence].
  destruct (ctx_read ctx) as [rf|] eqn:Erf; [|congruence].
  destruct pc; cbn [run_p2o_midi_step].
  - unfold bind, get_time. rewrite Egt. destruct (gt (host w)) as [t h].
    eexists _, _, _, _, [_]. split; [reflexivity|]. split; [reflexivity|].
    repeat split.
  - unfold bind at 1, read_space. rewrite Ers.
    destruct (rs (ctx_p2o_midi ctx) (host w)) as [n h1].
    destruct ((sizeof_midi_event <=? n) && (pos l <? USB_BULK_MIDI_SIZE))
      eqn:Etest.
    + apply andb_true_iff in Etest. destruct Etest as [_ Hpos].
      apply Z.ltb_lt in Hpos.
      assert (Hkeep : 0 < pos l ->
                p2o_midi_data
                  (if pos l =? 0
                   then set_p2o_midi_data
                          (replicate (Z.to_nat USB_BULK_MIDI_SIZE) 0) e
                   else e) = p2o_midi_data e).
      { intros Hp. destruct (Z.eqb_spec (pos l) 0); [lia|reflexivity]. }
      assert (Hready : p2o_midi_ready
                  (if pos l =? 0
                   then set_p2o_midi_data
                          (replicate (Z.to_nat USB_BULK_MIDI_SIZE) 0) e
                   else e) = p2o_midi_ready e).
      { destruct (pos l =? 0); reflexivity. }
      assert (Hdata : p2o_midi_data
                  (if pos l =? 0
                   then set_p2o_midi_data
                          (replicate (Z.to_nat USB_BULK_MIDI_SIZE) 0) e
                   else e)
                = (if pos l =? 0
                   then replicate (Z.to_nat USB_BULK_MIDI_SIZE) 0
                   else p2o_midi_data e)).
      { destruct (pos l =? 0); reflexivity. }
      destruct (event_read l =? 0).
      * unfold bind, read_event_into. rewrite Erf. cbn [host emit].
        destruct (rf _ _ h1) as [k h2].
        destruct (F64.gt _ _).
        -- eexists _, _, _, _, [_; _]. split; [reflexivity|].
           split; [cbn [log emit]; rewrite <- app_assoc; reflexivity|].
           split; [reflexivity|]. split; [exact Hready|]. left.
           split; [reflexivity|]. split; [reflexivity|exact Hkeep].
        -- eexists _, _, _, _, [_; _]. split; [reflexivity|].
           split; [cbn [log emit]; rewrite <- app_assoc; reflexivity|].
           split; [reflexivity|]. split; [exact Hready|]. right.
           split; [reflexivity|]. split; [exact Hpos|]. split; [reflexivity|].
           cbn [p2o_midi_data set_p2o_midi_data event bytes].
           rewrite Hdata. reflexivity.
      * unfold bind, ret.
        destruct (F64.gt _ _).
        -- eexists _, _, _, _, [_]. split; [reflexivity|].
           split; [reflexivity|].
           split; [reflexivity|]. split; [exact Hready|]. left.
           split; [reflexivity|]. split; [reflexivity|exact Hkeep].
        -- eexists _, _, _, _, [_]. split; [reflexivity|].
           split; [reflexivity|].
           split; [reflexivity|]. split; [exact Hready|]. right.
           split; [reflexivity|]. split; [exact Hpos|]. split; [reflexivity|].
           cbn [p2o_midi_data set_p2o_midi_data event bytes].
           rewrite Hdata. reflexivity.
    + eexists _, _, _, _, [_]. split; [reflexivity|]. split; [reflexivity|].
      split; [reflexivity|]. split; [reflexivity|]. left. repeat split.
  - destruct (Z.eqb_spec (pos l) 0) as [Hz|Hnz].
    + eexists _, _, _, _, []. split; [reflexivity|].
      rewrite app_nil_r. split; [reflexivity|].
      split; [reflexivity|]. split; [exact Hz|]. left. repeat split. exact Hz.
    + unfold bind, prepare_cycle_out_midi, prepare_cycle, bind, submit_transfer.
      destruct (libusb_submit_transfer env MIDI_OUT_EP _) as [r h] eqn:Esub.
      destruct (r =? 0) eqn:Er; eexists _, _, _, _, [_];
        (split; [reflexivity|]); (split; [reflexivity|]);
        (split; [reflexivity|]); (split; [reflexivity|]); right;
        (split; [exact Hnz|]); (split; [reflexivity|]);
        (split; [reflexivity|]); exists r;
        (split; [reflexivity|]); (split; [reflexivity|]); rewrite Er; reflexivity.
  - eexists _, _, _, _, []. split; [reflexivity|]. rewrite app_nil_r.
    repeat split.
  - destruct (p2o_midi_ready e =? 0);
      eexists _, _, _, _, []; (split; [reflexivity|]); rewrite app_nil_r;
      repeat split.
  - unfold ow_engine_get_status.
    destruct (status_val (status e) <=? status_val OW_ENGINE_STATUS_STOP);
      eexists _, _, _, _, []; (split; [reflexivity|]); rewrite app_nil_r;
      repeat split.
  - eexists _, _, _, _, []. split; [reflexivity|]. rewrite app_nil_r.
    repeat split.
Qed.

Lemma p2o_run_schedule_cons (a : p2o_action) (sched : list p2o_action)
    (st : p2o_midi_state) (w : world H) :
  p2o_run_schedule env rd ctx (a :: sched) st w
  = match p2o_perform env rd ctx a st w with
    | Some (st', w') => p2o_run_schedule env rd ctx sched st' w'
    | None => None
    end.
Proof. reflexivity. Qed.

(** An invariant of the actions holds after every schedule. *)
Lemma p2o_schedule_invariant (P : p2o_midi_state -> Prop) :
  (forall a st w, P st ->
     exists st' w', p2o_perform env rd ctx a st w = Some (st', w') /\ P st') ->
  forall sched st w, P st ->
    exists st' w',
      p2o_run_schedule env rd ctx sched st w = Some (st', w') /\ P st'.
Proof.
  intros Hstep sched. induction sched as [|a sched IH]; intros st w HP.
  - exists st, w. split; [reflexivity|exact HP].
  - destruct (Hstep a st w HP) as (st1 & w1 & Hrun & HP1).
    rewrite p2o_run_schedule_cons, Hrun. apply IH. exact HP1.
Qed.

Lemma midi_out_submits_one (r : Z) :
  midi_out_submits [call_submit_transfer MIDI_OUT_EP r]
  = if r =? 0 then 1 else 0.
Proof. unfold midi_out_submits. cbn. destruct (r =? 0); reflexivity. Qed.

Lemma p2o_perform_one_in_flight (a : p2o_action) (st : p2o_midi_state)
    (w : world H) :
  one_in_flight st ->
  exists st' w',
    p2o_perform env rd ctx a st w = Some (st', w') /\ one_in_flight st'.
Proof.
  intros Hinv. destruct a as [|xfr|s]; unfold p2o_perform.
  - destruct (p2o_midi_step_cases (pm_pc st) (pm_locals st) (pm_engine st) w)
      as (pc' & l' & e' & w' & new & Hrun & Hlog & Hcase).
    rewrite Hrun. eexists _, _. split; [reflexivity|].
    rewrite (midi_out_submits_new w new _ Hlog).
    unfold one_in_flight in *. cbn [pm_in_flight pm_engine pm_pc].
    destruct (pm_pc st) eqn:Epc.
    + destruct Hcase as (_ & _ & _ & ->).
      destruct Hinv as [Hz|(_ & _ & [?|?])]; try discriminate. left. lia.
    + destruct Hcase as (-> & _).
      destruct Hinv as [Hz|(_ & _ & [?|?])]; try discriminate. left. lia.
    + destruct Hinv as [Hz|(_ & _ & [?|?])]; try discriminate.
      destruct Hcase as (-> & _ & [(_ & _ & ->)|(_ & Hready & _ & r & -> & _)]).
      * left. change (midi_out_submits []) with 0. lia.
      * rewrite midi_out_submits_one. destruct (r =? 0).
        -- right. split; [lia|]. split; [exact Hready|]. left. reflexivity.
        -- left. lia.
    + destruct Hcase as (-> & _ & -> & ->).
      change (midi_out_submits []) with 0.
      destruct Hinv as [Hz|(H1 & Hready & _)].
      * left. lia.
      * right. split; [lia|]. split; [exact Hready|]. right. reflexivity.
    + destruct Hcase as (_ & -> & -> & ->).
      change (midi_out_submits []) with 0.
      destruct Hinv as [Hz|(H1 & Hready & _)].
      * left. lia.
      * right. split; [lia|]. split; [exact Hready|]. rewrite Hready.
        right. reflexivity.
    + destruct Hcase as (_ & -> & -> & _).
      destruct Hinv as [Hz|(_ & _ & [?|?])]; try discriminate. left.
      change (midi_out_submits []) with 0. lia.
    + destruct Hcase as (_ & _ & -> & ->).
      destruct Hinv as [Hz|(_ & _ & [?|?])]; try discriminate. left.
      change (midi_out_submits []) with 0. lia.
  - destruct (Z.ltb_spec 0 (pm_in_flight st)) as [Hpos|Hnone].
    + eexists _, _. split; [reflexivity|]. left. cbn [pm_in_flight].
      destruct Hinv as [Hz|(H1 & _)]; lia.
    + eexists _, _. split; [reflexivity|]. exact Hinv.
  - eexists _, _. split; [reflexivity|]. exact Hinv.
Qed.

(** X17: the MIDI worker keeps at most one MIDI out transfer in flight.
    From its start, with no transfer pending, and for every interleaving of
    its steps with completion callbacks and with status changes made by
    other threads, the number of transfers that libusb accepted and whose
    callback has not run yet is 0 or 1; while it is 1, the worker has
    cleared [p2o_midi_ready] and does not touch the buffer: it sleeps or
    waits for the callback. *)
Theorem midi_out_one_transfer_in_flight (sched : list p2o_action)
    (l : p2o_midi_locals) (e : ow_engine) (w : world H) :
  exists st' w',
    p2o_run_schedule env rd ctx sched
      {| pm_pc := pm_start; pm_locals := l; pm_engine := e; pm_in_flight := 0 |}
      w
    = Some (st', w')
    /\ 0 <= pm_in_flight st' <= 1
    /\ (pm_in_flight st' = 1 ->
        p2o_midi_ready (pm_engine st') = 0
        /\ (pm_pc st' = pm_sleep \/ pm_pc st' = pm_wait_ready)).
Proof.
  destruct (p2o_schedule_invariant one_in_flight p2o_perform_one_in_flight
              sched
              {| pm_pc := pm_start; pm_locals := l; pm_engine := e;
                 pm_in_flight := 0 |} w)
    as (st' & w' & Hrun & Hinv).
  { left. reflexivity. }
  exists st', w'. split; [exact Hrun|].
  destruct Hinv as [Hz|(H1 & Hready & Hpc)].
  - split; [lia|]. intros Hone. lia.
  - split; [lia|]. intros _. split; assumption.
Qed.

Lemma memcpy_event_spec (p : Z) (src dst : list Z) :
  length (memcpy_event p src dst) = length dst
  /\ forall i : nat, (Z.to_nat p + 4 <= i)%nat ->
       memcpy_event p src dst !!! i = dst !!! i.
Proof.
  unfold memcpy_event. change (Z.to_nat OB_MIDI_EVENT_SIZE) with 4%nat.
  cbn [for_loop]. rewrite !length_insert. split; [reflexivity|].
  intros i Hi. rewrite !list_lookup_total_insert_ne by lia. reflexivity.
Qed.

Lemma zero_padded_after_event (p : Z) (src d : list Z) :
  0 <= p ->
  (0 < p -> zero_padded p d) ->
  zero_padded (p + OB_MIDI_EVENT_SIZE)
    (memcpy_event p src
       (if p =? 0 then replicate (Z.to_nat USB_BULK_MIDI_SIZE) 0 else d)).
Proof.
  intros Hp Hd. destruct (memcpy_event_spec p src
    (if p =? 0 then replicate (Z.to_nat USB_BULK_MIDI_SIZE) 0 else d))
    as [Hlen Hrest].
  unfold zero_padded. rewrite Hlen. unfold OB_MIDI_EVENT_SIZE.
  destruct (Z.eqb_spec p 0) as [->|Hnz].
  - split; [apply length_replicate|]. intros i Hi.
    rewrite Hrest by lia. apply lookup_total_replicate_2. lia.
  - destruct (Hd ltac:(lia)) as [Hl Hz]. split; [exact Hl|].
    intros i Hi. rewrite Hrest by lia. apply Hz. lia.
Qed.

Lemma p2o_perform_filling (a : p2o_action) (st : p2o_midi_state)
    (w : world H) :
  filling st ->
  exists st' w',
    p2o_perform env rd ctx a st w = Some (st', w') /\ filling st'.
Proof.
  intros Hinv. destruct a as [|xfr|s]; unfold p2o_perform.
  - destruct (p2o_midi_step_cases (pm_pc st) (pm_locals st) (pm_engine st) w)
      as (pc' & l' & e' & w' & new & Hrun & Hlog & Hcase).
    rewrite Hrun. eexists _, _. split; [reflexivity|].
    unfold filling in *. cbn [pm_locals pm_engine pm_pc].
    unfold OB_MIDI_EVENT_SIZE, USB_BULK_MIDI_SIZE in *.
    destruct (pm_pc st) eqn:Epc.
    + destruct Hcase as (-> & -> & _). split; [lia|]. split; [reflexivity|lia].
    + destruct Hinv as (Hb & Hm & Hpad).
      destruct Hcase as (_ & _ & [(-> & -> & Hsame)|(-> & Hlt & -> & ->)]).
      * split; [exact Hb|]. split; [exact Hm|]. intros Hp.
        rewrite (Hsame Hp). exact (Hpad Hp).
      * pose proof (Z.div_mod (pos (pm_locals st)) 4 ltac:(lia)) as Hdm.
        split; [lia|]. split.
        -- replace (pos (pm_locals st) + 4)
             with (pos (pm_locals st) + 1 * 4) by lia.
           rewrite Z.mod_add by lia. exact Hm.
        -- intros _.
           apply (zero_padded_after_event (pos (pm_locals st))
                    (bytes (event l')) (p2o_midi_data (pm_engine st)));
             [lia|exact Hpad].
    + destruct Hcase as (-> & -> & _). reflexivity.
    + destruct Hcase as (-> & -> & _). exact Hinv.
    + destruct Hcase as (-> & _ & _ & ->).
      destruct (p2o_midi_ready (pm_engine st) =? 0); exact Hinv.
    + destruct Hcase as (-> & _ & _ & ->).
      destruct (status_val (status (pm_engine st))
                <=? status_val OW_ENGINE_STATUS_STOP); [exact Hinv|].
      rewrite Hinv. split; [lia|]. split; [reflexivity|lia].
    + destruct Hcase as (-> & -> & _). exact Hinv.
  - destruct (0 <? pm_in_flight st); eexists _, _;
      (split; [reflexivity|]); exact Hinv.
  - eexists _, _. split; [reflexivity|]. exact Hinv.
Qed.

(** X18: what the MIDI worker is about to send is well formed.  From
    its start and for every interleaving of its steps with completion
    callbacks and status changes, [pos] is a multiple of the event size
    between 0 and 512 whenever the worker fills or flushes the buffer, and
    as soon as one event is in, the buffer has its 512 bytes and every byte
    from [pos] on is zero: no byte of an earlier transfer is sent again.
    At every other program point [pos] is 0. *)
Theorem midi_out_buffer_is_zero_padded (sched : list p2o_action)
    (l : p2o_midi_locals) (e : ow_engine) (n : Z) (w : world H) :
  exists st' w',
    p2o_run_schedule env rd ctx sched
      {| pm_pc := pm_start; pm_locals := l; pm_engine := e; pm_in_flight := n |}
      w
    = Some (st', w')
    /\ match pm_pc st' with
       | pm_start => True
       | pm_fill | pm_flush =>
           0 <= pos (pm_locals st') <= 512
           /\ pos (pm_locals st') mod 4 = 0
           /\ (0 < pos (pm_locals st') ->
               length (p2o_midi_data (pm_engine st')) = 512%nat
               /\ forall i : nat,
                    (Z.to_nat (pos (pm_locals st')) <= i < 512)%nat ->
                    p2o_midi_data (pm_engine st') !!! i = 0)
       | _ => pos (pm_locals st') = 0
       end.
Proof.
  destruct (p2o_schedule_invariant filling p2o_perform_filling sched
              {| pm_pc := pm_start; pm_locals := l; pm_engine := e;
                 pm_in_flight := n |} w)
    as (st' & w' & Hrun & Hinv).
  { exact I. }
  exists st', w'. split; [exact Hrun|]. exact Hinv.
Qed.

Lemma p2o_perform_waiting_in_vain (a : p2o_action) (st : p2o_midi_state)
    (w : world H) :
  waiting_in_vain st ->
  exists st' w',
    p2o_perform env rd ctx a st w = Some (st', w') /\ waiting_in_vain st'.
Proof.
  intros (Hnone & Hready & Hpc). destruct a as [|xfr|s]; unfold p2o_perform.
  - destruct (p2o_midi_step_cases (pm_pc st) (pm_locals st) (pm_engine st) w)
      as (pc' & l' & e' & w' & new & Hrun & Hlog & Hcase).
    rewrite Hrun. eexists _, _. split; [reflexivity|].
    rewrite (midi_out_submits_new w new _ Hlog).
    unfold waiting_in_vain. cbn [pm_in_flight pm_engine pm_pc].
    destruct Hpc as [Hpc|Hpc]; rewrite Hpc in Hcase.
    + destruct Hcase as (-> & _ & -> & ->).
      change (midi_out_submits []) with 0.
      split; [lia|]. split; [exact Hready|]. right. reflexivity.
    + destruct Hcase as (_ & -> & -> & ->).
      change (midi_out_submits []) with 0.
      split; [lia|]. split; [exact Hready|]. rewrite Hready.
      right. reflexivity.
  - rewrite Hnone. eexists _, _. split; [reflexivity|].
    split; [exact Hnone|]. split; assumption.
  - eexists _, _. split; [reflexivity|].
    split; [exact Hnone|]. split; assumption.
Qed.

(** X19: a refused submission of the MIDI out transfer blocks the worker
    for good.  The flush clears [p2o_midi_ready] before it submits; when
    libusb refuses the submission, the status becomes ERROR, no transfer is
    in flight, so no callback will set [p2o_midi_ready] again, and the loop
    that waits for it does not look at the status: whatever the worker and
    the other threads do from then on, [ow_engine_stop] included, the
    worker sleeps or waits and never reaches the check that would let it
    return. *)
Theorem refused_midi_out_submission_blocks_worker (l : p2o_midi_locals)
    (e : ow_engine) (w : world H) :
  (forall h, fst (libusb_submit_transfer env MIDI_OUT_EP h) <> 0) ->
  pos l <> 0 ->
  exists st1 w1,
    p2o_perform env rd ctx p2o_worker_step
      {| pm_pc := pm_flush; pm_locals := l; pm_engine := e; pm_in_flight := 0 |}
      w
    = Some (st1, w1)
    /\ status (pm_engine st1) = OW_ENGINE_STATUS_ERROR
    /\ forall sched : list p2o_action,
       exists st' w',
         p2o_run_schedule env rd ctx sched st1 w1 = Some (st', w')
         /\ pm_in_flight st' = 0
         /\ p2o_midi_ready (pm_engine st') = 0
         /\ (pm_pc st' = pm_sleep \/ pm_pc st' = pm_wait_ready).
Proof.
  intros Hrefuse Hpos. unfold p2o_perform. cbn [pm_pc pm_locals pm_engine].
  destruct (p2o_midi_step_cases pm_flush l e w)
    as (pc' & l' & e' & w' & new & Hrun & Hlog & Hcase).
  rewrite Hrun. eexists _, _. split; [reflexivity|].
  rewrite (midi_out_submits_new w new _ Hlog).
  destruct Hcase as (-> & _ & [(Hz & _)|(_ & Hready & _ & r & -> & -> & Hst)]);
    [contradiction|].
  specialize (Hrefuse (host w)).
  destruct (Z.eqb_spec (fst (libusb_submit_transfer env MIDI_OUT_EP (host w))) 0)
    as [|_]; [contradiction|].
  cbn [pm_engine pm_in_flight]. split; [exact Hst|].
  intros sched.
  apply (p2o_schedule_invariant waiting_in_vain p2o_perform_waiting_in_vain).
  unfold waiting_in_vain. cbn [pm_in_flight pm_engine pm_pc].
  rewrite midi_out_submits_one.
  destruct (Z.eqb_spec (fst (libusb_submit_transfer env MIDI_OUT_EP (host w))) 0)
    as [|_]; [contradiction|].
  split; [reflexivity|]. split; [exact Hready|]. left. reflexivity.
Qed.

Lemma reads_app (l1 l2 : list call) : reads (l1 ++ l2) = reads l1 ++ reads l2.
Proof. apply List.filter_app. Qed.

(** One round of the worker over an empty ring. *)
Lemma p2o_midi_idle_round (l : p2o_midi_locals) (e : ow_engine) (n : Z)
    (w : world H) (rs : Z -> H -> Z * H) :
  ctx_read_space ctx = Some rs ->
  (forall ring h, fst (rs ring h) < sizeof_midi_event) ->
  pos l = 0 ->
  p2o_midi_ready e <> 0 ->
  status_val OW_ENGINE_STATUS_STOP < status_val (status e) ->
  exists w' k,
    p2o_run_schedule env rd ctx (replicate 5 p2o_worker_step)
      {| pm_pc := pm_fill; pm_locals := l; pm_engine := e; pm_in_flight := n |}
      w
    = Some ({| pm_pc := pm_fill; pm_locals := l; pm_engine := e;
               pm_in_flight := n |}, w')
    /\ log w' = log w ++ [call_read_space (ctx_p2o_midi ctx) k].
Proof.
  intros Ers Hempty Hpos Hready Hst.
  cbn [replicate]. rewrite p2o_run_schedule_cons.
  unfold p2o_perform at 1. cbn [pm_pc pm_locals pm_engine pm_in_flight].
  cbn [run_p2o_midi_step]. unfold bind at 1, read_space. rewrite Ers.
  pose proof (Hempty (ctx_p2o_midi ctx) (host w)) as Hk.
  destruct (rs (ctx_p2o_midi ctx) (host w)) as [k h1]. cbn [fst] in Hk.
  destruct (Z.leb_spec sizeof_midi_event k) as [|_]; [lia|].
  cbn [andb]. unfold ret at 1. cbn [log emit].
  rewrite drop_app_length. change (midi_out_submits [_]) with 0.
  rewrite Z.add_0_r.
  rewrite p2o_run_schedule_cons.
  unfold p2o_perform at 1. cbn [pm_pc pm_locals pm_engine pm_in_flight].
  cbn [run_p2o_midi_step]. rewrite Hpos. cbn [Z.eqb]. unfold ret at 1.
  rewrite drop_all. change (midi_out_submits []) with 0. rewrite Z.add_0_r.
  rewrite p2o_run_schedule_cons.
  unfold p2o_perform at 1. cbn [pm_pc pm_locals pm_engine pm_in_flight].
  cbn [run_p2o_midi_step]. unfold ret at 1.
  rewrite drop_all. change (midi_out_submits []) with 0. rewrite Z.add_0_r.
  rewrite p2o_run_schedule_cons.
  unfold p2o_perform at 1. cbn [pm_pc pm_locals pm_engine pm_in_flight].
  cbn [run_p2o_midi_step].
  destruct (Z.eqb_spec (p2o_midi_ready e) 0) as [|_]; [contradiction|].
  unfold ret at 1.
  rewrite drop_all. change (midi_out_submits []) with 0. rewrite Z.add_0_r.
  rewrite p2o_run_schedule_cons.
  unfold p2o_perform at 1. cbn [pm_pc pm_locals pm_engine pm_in_flight].
  cbn [run_p2o_midi_step]. unfold ow_engine_get_status.
  destruct (Z.leb_spec (status_val (status e)) (status_val OW_ENGINE_STATUS_STOP))
    as [|_]; [lia|].
  unfold ret at 1.
  rewrite drop_all. change (midi_out_submits []) with 0. rewrite Z.add_0_r.
  eexists _, k. split; reflexivity.
Qed.

(** X20: the MIDI worker looks at an event only when the ring reports
    another one.  While [read_space] of the MIDI ring stays below the size
    of an event, every round of the worker (test of the ring, flush, sleep,
    wait, check of the status) leaves its variables and the engine as they
    were, calls neither the ring's [read] nor libusb and submits nothing.
    This holds whatever [event_read] is: an event that was read and held
    back because its time lay ahead stays held back until the host queues a
    further event. *)
Theorem held_back_event_waits_for_next (rounds : nat) (l : p2o_midi_locals)
    (e : ow_engine) (n : Z) (w : world H) (rs : Z -> H -> Z * H) :
  ctx_read_space ctx = Some rs ->
  (forall ring h, fst (rs ring h) < sizeof_midi_event) ->
  pos l = 0 ->
  p2o_midi_ready e <> 0 ->
  status_val OW_ENGINE_STATUS_STOP < status_val (status e) ->
  exists w' new,
    p2o_run_schedule env rd ctx (replicate (5 * rounds) p2o_worker_step)
      {| pm_pc := pm_fill; pm_locals := l; pm_engine := e; pm_in_flight := n |}
      w
    = Some ({| pm_pc := pm_fill; pm_locals := l; pm_engine := e;
               pm_in_flight := n |}, w')
    /\ log w' = log w ++ new
    /\ length new = rounds
    /\ reads new = []
    /\ submits new = [].
Proof.
  intros Ers Hempty Hpos Hready Hst. revert w.
  induction rounds as [|rounds IH]; intros w.
  - exists w, []. rewrite app_nil_r. repeat split; reflexivity.
  - replace (5 * S rounds)%nat with (5 + 5 * rounds)%nat by lia.
    destruct (p2o_midi_idle_round l e n w rs Ers Hempty Hpos Hready Hst)
      as (w1 & k & Hrun1 & Hlog1).
    destruct (IH w1) as (w2 & new & Hrun2 & Hlog2 & Hlen & Hreads & Hsub).
    exists w2, (call_read_space (ctx_p2o_midi ctx) k :: new).
    split.
    { rewrite replicate_add.
      assert (Happ : forall s1 s2 st0 w0 st1' w1',
                p2o_run_schedule env rd ctx s1 st0 w0 = Some (st1', w1') ->
                p2o_run_schedule env rd ctx (s1 ++ s2) st0 w0
                = p2o_run_schedule env rd ctx s2 st1' w1').
      { induction s1 as [|a s1 IHs]; intros s2 st0 w0 st1' w1' Hs.
        - injection Hs as <- <-. reflexivity.
        - cbn [app]. rewrite p2o_run_schedule_cons in *.
          destruct (p2o_perform env rd ctx a st0 w0) as [[sta wa]|];
            [|discriminate].
          apply IHs. exact Hs. }
      rewrite (Happ _ _ _ _ _ _ Hrun1). exact Hrun2. }
    split; [rewrite Hlog2, Hlog1, <- app_assoc; reflexivity|].
    split; [cbn [length]; lia|].
    split; [exact Hreads|exact Hsub].
Qed.

End MidiWorker.

Lemma midi_out_one_transfer_in_flight_witness :
  exists st' w',
    p2o_run_schedule sim_env sim_ring_data (p2o_context 8) sim_midi_schedule
      {| pm_pc := pm_start; pm_locals := sim_locals 0;
         pm_engine := sim_running; pm_in_flight := 0 |}
      (sim_world F32.one 64)
    = Some (st', w')
    /\ 0 <= pm_in_flight st' <= 1
    /\ (pm_in_flight st' = 1 ->
        p2o_midi_ready (pm_engine st') = 0
        /\ (pm_pc st' = pm_sleep \/ pm_pc st' = pm_wait_ready)).
Proof.
  apply (midi_out_one_transfer_in_flight sim_env sim_ring_data (p2o_context 8));
    discriminate.
Defined.

Lemma midi_out_buffer_is_zero_padded_witness :
  exists st' w',
    p2o_run_schedule sim_env sim_ring_data (p2o_context 8)
      (replicate 3 p2o_worker_step)
      {| pm_pc := pm_start; pm_locals := sim_locals 0;
         pm_engine := sim_running; pm_in_flight := 0 |}
      (sim_world F32.one 64)
    = Some (st', w')
    /\ match pm_pc st' with
       | pm_start => True
       | pm_fill | pm_flush =>
           0 <= pos (pm_locals st') <= 512
           /\ pos (pm_locals st') mod 4 = 0
           /\ (0 < pos (pm_locals st') ->
               length (p2o_midi_data (pm_engine st')) = 512%nat
               /\ forall i : nat,
                    (Z.to_nat (pos (pm_locals st')) <= i < 512)%nat ->
                    p2o_midi_data (pm_engine st') !!! i = 0)
       | _ => pos (pm_locals st') = 0
       end.
Proof.
  apply (midi_out_buffer_is_zero_padded sim_env sim_ring_data (p2o_context 8));
    discriminate.
Defined.

Lemma refused_midi_out_submission_blocks_worker_witness :
  exists st1 w1,
    p2o_perform refusing_env sim_ring_data (p2o_context 8) p2o_worker_step
      {| pm_pc := pm_flush; pm_locals := sim_locals 4;
         pm_engine := sim_running; pm_in_flight := 0 |}
      (sim_world F32.one 64)
    = Some (st1, w1)
    /\ status (pm_engine st1) = OW_ENGINE_STATUS_ERROR
    /\ forall sched : list p2o_action,
       exists st' w',
         p2o_run_schedule refusing_env sim_ring_data (p2o_context 8) sched
           st1 w1 = Some (st', w')
         /\ pm_in_flight st' = 0
         /\ p2o_midi_ready (pm_engine st') = 0
         /\ (pm_pc st' = pm_sleep \/ pm_pc st' = pm_wait_ready).
Proof.
  apply (refused_midi_out_submission_blocks_worker refusing_env sim_ring_data
           (p2o_context 8)); discriminate.
Defined.

Lemma held_back_event_waits_for_next_witness :
  exists w' new,
    p2o_run_schedule sim_env sim_ring_data (sim_context 8 0)
      (replicate (5 * 3) p2o_worker_step)
      {| pm_pc := pm_fill; pm_locals := sim_locals 0;
         pm_engine := set_p2o_midi_ready 1 sim_running; pm_in_flight := 0 |}
      (sim_world F32.one 64)
    = Some ({| pm_pc := pm_fill; pm_locals := sim_locals 0;
               pm_engine := set_p2o_midi_ready 1 sim_running;
               pm_in_flight := 0 |}, w')
    /\ log w' = log (sim_world F32.one 64) ++ new
    /\ length new = 3%nat
    /\ reads new = []
    /\ submits new = [].
Proof.
  apply (held_back_event_waits_for_next sim_env sim_ring_data (sim_context 8 0)
           3 (sim_locals 0) (set_p2o_midi_ready 1 sim_running) 0
           (sim_world F32.one 64) (fun _ h => (0, h))).
  - reflexivity.
  - intros ring h. reflexivity.
  - reflexivity.
  - discriminate.
  - reflexivity.
Defined.

(** ** Opening and configuring the device *)

Section UsbInitProperties.

Context {H : Type}.
Variable lib : usb_library H.

(** One guarded call in front of a configuration that stops at its first
    failure gives a configuration that stops at its first failure. *)
Lemma or_goto_end_stops (call : @U H Z) (mk : Z -> usb_call) (code : ow_err_t)
    (rest : @U H ow_err_t) (seq : list usb_call) :
  (forall s, exists r h, call s = (r, (h, snd s ++ [mk r]))) ->
  (forall r, call_shape (mk r) = call_shape (mk 0)) ->
  (forall r, call_succeeded (mk r) = (r =? 0)) ->
  (forall r, error_of_call (mk r) = code) ->
  code <> OW_OK ->
  (forall s, exists cfg,
      snd (snd (rest s)) = snd s ++ cfg
      /\ stops_at_first_failure seq cfg (fst (rest s))) ->
  forall s, exists cfg,
    snd (snd (or_goto_end call code rest s)) = snd s ++ cfg
    /\ stops_at_first_failure (call_shape (mk 0) :: seq) cfg
         (fst (or_goto_end call code rest s)).
Proof.
  intros Hcall Hshapes0 Hsucc Herr Hcode Hrest s.
  unfold or_goto_end, ubind. destruct (Hcall s) as (r & h & ->).
  pose proof (Hshapes0 r) as Hshape.
  unfold LIBUSB_SUCCESS. destruct (Z.eqb_spec r 0) as [->|Hnz].
  - destruct (Hrest (h, snd s ++ [mk 0])) as (cfg & Hlog & Hshapes & Hcases).
    exists (mk 0 :: cfg). cbn [snd] in Hlog. rewrite Hlog.
    split; [rewrite <- app_assoc; reflexivity|].
    unfold stops_at_first_failure. cbn [map length take].
    split; [rewrite Hshapes; reflexivity|].
    destruct Hcases as [(Hok & Hlen & Hall)|(ok & bad & -> & Hall & Hbad & Hr & Hne)].
    + left. split; [exact Hok|]. split; [lia|].
      cbn [forallb]. rewrite Hsucc, Hall. reflexivity.
    + right. exists (mk 0 :: ok), bad. split; [reflexivity|].
      split; [cbn [forallb]; rewrite Hsucc, Hall; reflexivity|].
      repeat split; assumption.
  - exists [mk r]. cbn [fst snd uret]. split; [reflexivity|].
    unfold stops_at_first_failure. cbn [map length take].
    split; [rewrite Hshape; reflexivity|].
    right. exists [], (mk r). split; [reflexivity|]. split; [reflexivity|].
    split; [rewrite Hsucc; apply Z.eqb_neq; exact Hnz|].
    rewrite Herr. split; [reflexivity|exact Hcode].
Qed.

Lemma ucall_logs {A} (f : H -> A * H) (mk : A -> usb_call) (s : H * list usb_call) :
  exists a h, ucall f mk s = (a, (h, snd s ++ [mk a])).
Proof. unfold ucall. destruct (f (fst s)) as [a h]. exists a, h. reflexivity. Qed.

Lemma prepare_transfers_stops (s : H * list usb_call) :
  exists cfg,
    snd (snd (or_goto_end (prepare_transfers lib)
                OW_USB_ERROR_CANT_PREPARE_TRANSFER (uret OW_OK) s))
    = snd s ++ cfg
    /\ stops_at_first_failure
         [usb_alloc_transfer 1; usb_alloc_transfer 1; usb_alloc_transfer 1;
          usb_alloc_transfer 1] cfg
         (fst (or_goto_end (prepare_transfers lib)
                 OW_USB_ERROR_CANT_PREPARE_TRANSFER (uret OW_OK) s)).
Proof.
  unfold or_goto_end, prepare_transfers, alloc_transfer, ubind, ucall, uret.
  destruct s as [h0 l0]. cbn [fst snd].
  destruct (libusb_alloc_transfer lib h0) as [p1 h1].
  destruct (Z.eqb_spec p1 0) as [->|H1].
  { exists [usb_alloc_transfer 0]. split; [reflexivity|].
    split; [reflexivity|]. right. exists [], (usb_alloc_transfer 0).
    repeat split; discriminate. }
  cbn [fst snd].
  destruct (libusb_alloc_transfer lib h1) as [p2 h2].
  destruct (Z.eqb_spec p2 0) as [->|H2].
  { exists [usb_alloc_transfer p1; usb_alloc_transfer 0].
    split; [cbn [snd]; rewrite <- app_assoc; reflexivity|].
    split; [reflexivity|]. right.
    exists [usb_alloc_transfer p1], (usb_alloc_transfer 0).
    split; [reflexivity|]. split.
    { cbn. destruct (Z.eqb_spec p1 0); [contradiction|reflexivity]. }
    repeat split; discriminate. }
  cbn [fst snd].
  destruct (libusb_alloc_transfer lib h2) as [p3 h3].
  destruct (Z.eqb_spec p3 0) as [->|H3].
  { exists [usb_alloc_transfer p1; usb_alloc_transfer p2; usb_alloc_transfer 0].
    split; [cbn [snd]; rewrite <- !app_assoc; reflexivity|].
    split; [reflexivity|]. right.
    exists [usb_alloc_transfer p1; usb_alloc_transfer p2], (usb_alloc_transfer 0).
    split; [reflexivity|]. split.
    { cbn. destruct (Z.eqb_spec p1 0); [contradiction|].
      destruct (Z.eqb_spec p2 0); [contradiction|reflexivity]. }
    repeat split; discriminate. }
  cbn [fst snd].
  destruct (libusb_alloc_transfer lib h3) as [p4 h4].
  destruct (Z.eqb_spec p4 0) as [->|H4].
  { exists [usb_alloc_transfer p1; usb_alloc_transfer p2; usb_alloc_transfer p3;
            usb_alloc_transfer 0].
    split; [cbn [snd]; rewrite <- !app_assoc; reflexivity|].
    split; [reflexivity|]. right.
    exists [usb_alloc_transfer p1; usb_alloc_transfer p2; usb_alloc_transfer p3],
      (usb_alloc_transfer 0).
    split; [reflexivity|]. split.
    { cbn. destruct (Z.eqb_spec p1 0); [contradiction|].
      destruct (Z.eqb_spec p2 0); [contradiction|].
      destruct (Z.eqb_spec p3 0); [contradiction|reflexivity]. }
    repeat split; discriminate. }
  exists [usb_alloc_transfer p1; usb_alloc_transfer p2; usb_alloc_transfer p3;
          usb_alloc_transfer p4].
  split; [cbn [snd]; rewrite <- !app_assoc; reflexivity|].
  split; [reflexivity|]. left. split; [reflexivity|]. split; [reflexivity|].
  cbn. destruct (Z.eqb_spec p1 0); [contradiction|].
  destruct (Z.eqb_spec p2 0); [contradiction|].
  destruct (Z.eqb_spec p3 0); [contradiction|].
  destruct (Z.eqb_spec p4 0); [contradiction|reflexivity].
Qed.

Ltac guarded mk :=
  apply (or_goto_end_stops _ mk);
  [ intros s0;
    unfold set_configuration, claim_interface, set_interface_alt_setting,
      clear_halt;
    apply ucall_logs
  | reflexivity | reflexivity | reflexivity | discriminate | ].

Lemma configure_stops (handle : Z) (s : H * list usb_call) :
  exists cfg,
    snd (snd (configure lib handle s)) = snd s ++ cfg
    /\ stops_at_first_failure init_sequence cfg (fst (configure lib handle s)).
Proof.
  revert s. unfold configure, init_sequence.
  guarded (usb_set_configuration 1).
  guarded (usb_claim_interface 1).
  guarded (usb_set_interface_alt_setting 1 3).
  guarded (usb_claim_interface 2).
  guarded (usb_set_interface_alt_setting 2 2).
  guarded (usb_claim_interface 3).
  guarded (usb_set_interface_alt_setting 3 0).
  guarded (usb_clear_halt AUDIO_IN_EP).
  guarded (usb_clear_halt AUDIO_OUT_EP).
  guarded (usb_clear_halt MIDI_IN_EP).
  guarded (usb_clear_halt MIDI_OUT_EP).
  apply prepare_transfers_stops.
Qed.

Lemma ow_engine_init_spec (handle : Z) (e : ow_engine) (blocks : Z)
    (s : H * list usb_call) :
  exists cfg tail,
    snd (snd (ow_engine_init lib handle e blocks s)) = snd s ++ cfg ++ tail
    /\ stops_at_first_failure init_sequence cfg
         (fst (fst (ow_engine_init lib handle e blocks s)))
    /\ (fst (fst (ow_engine_init lib handle e blocks s)) = OW_OK
        /\ snd (fst (ow_engine_init lib handle e blocks s))
           = Some (ow_engine_init_mem e blocks)
        /\ tail = []
        \/ fst (fst (ow_engine_init lib handle e blocks s)) <> OW_OK
           /\ snd (fst (ow_engine_init lib handle e blocks s)) = None
           /\ tail = [usb_close; usb_exit; usb_free]).
Proof.
  unfold ow_engine_init, ubind.
  destruct (configure_stops handle s) as (cfg & Hlog & Hstop).
  destruct (configure lib handle s) as [r [h l]]. cbn [fst snd] in Hlog, Hstop.
  subst l.
  destruct r;
    try (exists cfg, [usb_close; usb_exit; usb_free];
         unfold usb_shutdown, ubind, ucall_void, uret; cbn [fst snd];
         split; [rewrite <- !app_assoc; reflexivity|];
         split; [exact Hstop|]; right; repeat split; discriminate).
  exists cfg, []. cbn [fst snd uret]. rewrite app_nil_r.
  split; [reflexivity|]. split; [exact Hstop|]. left. repeat split.
Qed.

(** X21: [ow_engine_init] makes the calls of the configuration in one
    fixed order (the configuration, three interfaces with their alternate
    settings, the four endpoints, the four transfers) and stops at the
    first one that fails.  When all fifteen succeed it returns [OW_OK] and
    the engine as [ow_engine_init_mem] leaves it, and neither closes the
    device nor frees anything.  Otherwise every call before the failing one
    succeeded, no later one is made, the error is the one of the kind of
    the failing call, and the device is closed, libusb is left and the
    engine is freed, in this order. *)
Theorem ow_engine_init_stops_at_first_failure (handle : Z) (e : ow_engine)
    (blocks : Z) (s : H * list usb_call) :
  let res := ow_engine_init lib handle e blocks s in
  exists cfg tail,
    snd (snd res) = snd s ++ cfg ++ tail
    /\ map call_shape cfg = take (length cfg) init_sequence
    /\ (fst (fst res) = OW_OK
        /\ snd (fst res) = Some (ow_engine_init_mem e blocks)
        /\ length cfg = 15%nat
        /\ forallb call_succeeded cfg = true
        /\ tail = []
        \/ exists ok bad,
             cfg = ok ++ [bad]
             /\ forallb call_succeeded ok = true
             /\ call_succeeded bad = false
             /\ fst (fst res) = error_of_call bad
             /\ fst (fst res) <> OW_OK
             /\ snd (fst res) = None
             /\ tail = [usb_close; usb_exit; usb_free]).
Proof.
  intros res. subst res.
  destruct (ow_engine_init_spec handle e blocks s)
    as (cfg & tail & Hlog & [Hshape Hstop] & Hres).
  exists cfg, tail. split; [exact Hlog|]. split; [exact Hshape|].
  destruct Hstop as [(Hok & Hlen & Hall)|(ok & bad & Hcfg & Hall & Hbad & Hr & Hne)].
  - left. destruct Hres as [(_ & He & Ht)|(Hne & _)]; [|contradiction].
    repeat split; assumption.
  - right. exists ok, bad.
    destruct Hres as [(Hok & _)|(_ & He & Ht)]; [contradiction|].
    repeat split; assumption.
Qed.

Lemma filter_none {A} (f : A -> bool) (l : list A) :
  Forall (fun x => f x = false) l -> List.filter f l = [].
Proof.
  induction 1 as [|x l Hx _ IH]; [reflexivity|].
  cbn [List.filter]. rewrite Hx. exact IH.
Qed.

(** The calls of a configuration are neither allocations of the engine,
    nor frees, nor opens. *)
Lemma configuration_calls (cfg : list usb_call) :
  map call_shape cfg = take (length cfg) init_sequence ->
  frees cfg = [] /\ opens cfg = [] /\ mallocs cfg = []
  /\ List.filter is_configuring cfg = cfg.
Proof.
  intros Hshape.
  assert (Hall : Forall (fun c => is_free c = false /\ is_open c = false
                                  /\ is_malloc c = false
                                  /\ is_configuring c = true)
                   (map call_shape cfg)).
  { rewrite Hshape. apply Forall_take. unfold init_sequence.
    repeat constructor. }
  apply List.Forall_map in Hall.
  assert (Hcfg : Forall (fun c => is_free c = false /\ is_open c = false
                                  /\ is_malloc c = false
                                  /\ is_configuring c = true) cfg).
  { eapply Forall_impl; [exact Hall|]. intros c. cbn beta.
    destruct c; cbn; tauto. }
  split; [|split; [|split]].
  - apply filter_none. eapply Forall_impl; [exact Hcfg|]. cbn beta. tauto.
  - apply filter_none. eapply Forall_impl; [exact Hcfg|]. cbn beta. tauto.
  - apply filter_none. eapply Forall_impl; [exact Hcfg|]. cbn beta. tauto.
  - clear Hshape Hall. induction Hcfg as [|c l (_ & _ & _ & Hc) _ IH];
      [reflexivity|].
    cbn [List.filter]. rewrite Hc, IH. reflexivity.
Qed.

Lemma frees_app (l1 l2 : list usb_call) : frees (l1 ++ l2) = frees l1 ++ frees l2.
Proof. apply List.filter_app. Qed.

Lemma opens_app (l1 l2 : list usb_call) : opens (l1 ++ l2) = opens l1 ++ opens l2.
Proof. apply List.filter_app. Qed.

Lemma mallocs_app (l1 l2 : list usb_call) :
  mallocs (l1 ++ l2) = mallocs l1 ++ mallocs l2.
Proof. apply List.filter_app. Qed.

Lemma no_opens_forall (P : Z -> Prop) (l : list usb_call) :
  opens l = [] ->
  Forall (fun c => match c with usb_open d _ => P d | _ => True end) l.
Proof.
  induction l as [|c l IH]; intros Hnone; [constructor|].
  destruct c; cbn in Hnone; try discriminate;
    (constructor; [exact I|apply IH; exact Hnone]).
Qed.

(** The loop over the devices opens at most one of them, and only one at
    the requested bus and address; it leaves a handle exactly when that
    open succeeded and gave one. *)
Lemma find_device_spec (bus address : Z) (devices : list Z) :
  forall (e : ow_engine) (s : H * list usb_call),
  exists new,
    snd (snd (find_device lib bus address devices e s)) = snd s ++ new
    /\ frees new = [] /\ mallocs new = []
    /\ List.filter is_configuring new = []
    /\ Forall (fun c => match c with
                        | usb_open d _ =>
                            In d devices
                            /\ libusb_get_bus_number lib d = bus
                            /\ libusb_get_device_address lib d = address
                        | _ => True
                        end) new
    /\ (fst (fst (find_device lib bus address devices e s)) = 0
        /\ (length (opens new) <= 1)%nat
        \/ fst (fst (find_device lib bus address devices e s)) <> 0
           /\ exists d, opens new = [usb_open d 0]).
Proof.
  induction devices as [|device rest IH]; intros e s.
  - exists []. cbn [find_device uret fst snd]. rewrite app_nil_r.
    repeat (split; [reflexivity|]). split; [constructor|].
    left. split; [reflexivity|]. cbn. lia.
  - cbn [find_device]. unfold ubind, ucall, uret.
    destruct (libusb_get_device_descriptor lib device (fst s))
      as [[err [vid pid]] h1].
    cbn [fst snd].
    assert (Hrec : forall e1,
      exists new,
        snd (snd (find_device lib bus address rest e1
                    (h1, snd s ++ [usb_get_device_descriptor device err])))
        = snd s ++ new
        /\ frees new = [] /\ mallocs new = []
        /\ List.filter is_configuring new = []
        /\ Forall (fun c => match c with
                            | usb_open d _ =>
                                In d (device :: rest)
                                /\ libusb_get_bus_number lib d = bus
                                /\ libusb_get_device_address lib d = address
                            | _ => True
                            end) new
        /\ (fst (fst (find_device lib bus address rest e1
                        (h1, snd s ++ [usb_get_device_descriptor device err]))) = 0
            /\ (length (opens new) <= 1)%nat
            \/ fst (fst (find_device lib bus address rest e1
                           (h1, snd s ++ [usb_get_device_descriptor device err])))
               <> 0
               /\ exists d, opens new = [usb_open d 0])).
    { intros e1.
      destruct (IH e1 (h1, snd s ++ [usb_get_device_descriptor device err]))
        as (new & Hlog & Hf & Hm & Hc & Hall & Hcase).
      exists (usb_get_device_descriptor device err :: new).
      cbn [snd] in Hlog. rewrite Hlog.
      split; [rewrite <- app_assoc; reflexivity|].
      split; [exact Hf|]. split; [exact Hm|]. split; [exact Hc|].
      split; [|exact Hcase].
      constructor; [exact I|]. eapply Forall_impl; [exact Hall|].
      intros c. destruct c; try tauto. cbn [In]. tauto. }
    destruct (err =? 0); cbn [negb]; [|apply Hrec].
    destruct (ow_get_device_desc_from_vid_pid lib vid pid) as [desc|];
      [|apply Hrec].
    destruct ((libusb_get_bus_number lib device =? bus)
              && (libusb_get_device_address lib device =? address)) eqn:Ematch;
      [|apply Hrec].
    apply andb_true_iff in Ematch. destruct Ematch as [Hbus Haddr].
    apply Z.eqb_eq in Hbus, Haddr. cbn [fst snd].
    destruct (libusb_open lib device h1) as [[oerr hd] h2]. cbn [fst snd].
    exists [usb_get_device_descriptor device err; usb_open device oerr].
    split; [rewrite <- app_assoc; reflexivity|].
    repeat (split; [reflexivity|]).
    split.
    { constructor; [exact I|]. constructor; [|constructor].
      split; [left; reflexivity|]. split; assumption. }
    destruct (Z.eqb_spec oerr 0) as [->|Hne].
    + destruct (Z.eq_dec hd 0) as [->|Hhd].
      * left. split; [reflexivity|]. cbn. lia.
      * right. split; [exact Hhd|]. exists device. reflexivity.
    + left. split; [reflexivity|]. cbn. lia.
Qed.

(** X22: [ow_engine_init_from_bus_address] allocates the engine once and
    frees it exactly once on every path that returns an error and never on
    success.  It opens at most one device, and only one that libusb
    reports at the requested bus and address; on success exactly one open
    succeeded.  When no device is found, or libusb cannot be initialised,
    no call of the configuration is made. *)
Theorem init_from_bus_address_cleanup (bus address blocks : Z)
    (s : H * list usb_call) :
  let res := ow_engine_init_from_bus_address lib bus address blocks s in
  exists new,
    snd (snd res) = snd s ++ new
    /\ mallocs new = [usb_malloc]
    /\ (length (opens new) <= 1)%nat
    /\ Forall (fun c => match c with
                        | usb_open d _ =>
                            libusb_get_bus_number lib d = bus
                            /\ libusb_get_device_address lib d = address
                        | _ => True
                        end) new
    /\ (fst (fst res) = OW_OK ->
        snd (fst res) <> None /\ frees new = []
        /\ exists d, opens new = [usb_open d 0])
    /\ (fst (fst res) <> OW_OK ->
        snd (fst res) = None /\ frees new = [usb_free])
    /\ (fst (fst res) = OW_USB_ERROR_CANT_FIND_DEV
        \/ fst (fst res) = OW_USB_ERROR_LIBUSB_INIT_FAILED ->
        List.filter is_configuring new = []).
Proof.
  intros res. subst res.
  unfold ow_engine_init_from_bus_address, ubind, ucall, ucall_void, uret.
  destruct (malloc_engine lib (fst s)) as [e0 h0]. cbn [fst snd].
  destruct (libusb_init lib h0) as [r h1]. unfold LIBUSB_SUCCESS.
  destruct (Z.eqb_spec r 0) as [->|Hr]; cbn [negb fst snd].
  2:{ exists [usb_malloc; usb_init r; usb_free].
      split; [rewrite <- !app_assoc; reflexivity|].
      split; [reflexivity|]. split; [cbn; lia|].
      split; [repeat constructor|].
      split; [discriminate|]. split; [intros _; split; reflexivity|].
      intros _. reflexivity. }
  destruct (libusb_get_device_list lib h1) as [[total devs] h2]. cbn [fst snd].
  destruct (find_device_spec bus address (take (Z.to_nat total) devs) e0
              (h2, ((snd s ++ [usb_malloc]) ++ [usb_init 0])
                   ++ [usb_get_device_list total]))
    as (found & Hlog & Hf & Hm & Hc & Hall & Hcase).
  destruct (find_device lib bus address (take (Z.to_nat total) devs) e0 _)
    as [[handle e1] [h3 l3]].
  cbn [fst snd] in Hlog, Hcase |- *. subst l3.
  assert (Hmatch : Forall (fun c => match c with
                        | usb_open d _ =>
                            libusb_get_bus_number lib d = bus
                            /\ libusb_get_device_address lib d = address
                        | _ => True
                        end) found).
  { eapply Forall_impl; [exact Hall|]. intros c. destruct c; tauto. }
  destruct (Z.eqb_spec handle 0) as [->|Hh].
  - destruct Hcase as [(_ & Hopen)|(Hne & _)]; [|contradiction].
    exists ([usb_malloc; usb_init 0; usb_get_device_list total] ++ found
            ++ [usb_free_device_list; usb_free]).
    cbn [fst snd].
    split; [rewrite <- !app_assoc; reflexivity|].
    rewrite !mallocs_app, !opens_app, !frees_app, !List.filter_app,
      Hm, Hf, Hc.
    split; [reflexivity|]. split; [cbn; rewrite app_nil_r; exact Hopen|].
    split; [repeat (apply Forall_app; split); try exact Hmatch;
            repeat constructor|].
    split; [discriminate|]. split; [intros _; split; reflexivity|].
    intros _. reflexivity.
  - destruct Hcase as [(Hz & _)|(_ & d & Hopen)]; [contradiction|].
    destruct (ow_engine_init_spec handle e1 blocks
                (libusb_free_device_list lib h3,
                 ((((snd s ++ [usb_malloc]) ++ [usb_init 0])
                   ++ [usb_get_device_list total]) ++ found)
                 ++ [usb_free_device_list]))
      as (cfg & tail & Hlog & [Hshape Hstop] & Hres).
    destruct (configuration_calls cfg Hshape) as (Hcf & Hco & Hcm & _).
    pose proof (no_opens_forall
                  (fun d => libusb_get_bus_number lib d = bus
                            /\ libusb_get_device_address lib d = address)
                  cfg Hco) as Hcfgopen.
    exists ([usb_malloc; usb_init 0; usb_get_device_list total] ++ found
            ++ [usb_free_device_list] ++ cfg ++ tail).
    cbn [snd] in Hlog. rewrite Hlog.
    split; [rewrite <- !app_assoc; reflexivity|].
    rewrite !mallocs_app, !opens_app, !frees_app, Hm, Hf, Hcf, Hco, Hcm, Hopen.
    destruct Hres as [(Hok & He & ->)|(Hne & He & ->)].
    + split; [reflexivity|]. split; [cbn; lia|].
      split.
      { apply Forall_app; split; [repeat constructor|].
        apply Forall_app; split; [exact Hmatch|].
        apply Forall_app; split; [repeat constructor|].
        apply Forall_app; split; [exact Hcfgopen|repeat constructor]. }
      split; [intros _; split; [rewrite He; discriminate|];
              split; [reflexivity|exists d; reflexivity]|].
      split; [intros Hbad; contradiction|].
      intros [Hbad|Hbad]; rewrite Hok in Hbad; discriminate.
    + split; [reflexivity|]. split; [cbn; lia|].
      split.
      { apply Forall_app; split; [repeat constructor|].
        apply Forall_app; split; [exact Hmatch|].
        apply Forall_app; split; [repeat constructor|].
        apply Forall_app; split; [exact Hcfgopen|repeat constructor]. }
      split; [intros Hbad; contradiction|].
      split; [intros _; split; [exact He|reflexivity]|].
      destruct Hstop as [(Hok & _)|(ok & bad & _ & _ & _ & Hr & _)];
        [contradiction|].
      intros [Hbad|Hbad]; rewrite Hbad in Hr; destruct bad; discriminate.
Qed.

(** X23: [ow_engine_init_from_libusb_device_descriptor] frees the engine
    twice when the configuration of the device fails.  On success the
    engine is allocated once and not freed.  When libusb cannot be set up
    (the result is [OW_USB_ERROR_LIBUSB_INIT_FAILED]) the engine is either
    not allocated at all or allocated and freed once.  With any other
    error, which then comes from [ow_engine_init], the engine that was
    allocated once is freed by [ow_engine_init] and freed again at the
    label [error] of the caller. *)
Theorem init_from_descriptor_frees_twice (libusb_device_descriptor blocks : Z)
    (s : H * list usb_call) :
  let res :=
    ow_engine_init_from_libusb_device_descriptor lib libusb_device_descriptor
      blocks s in
  exists new,
    snd (snd res) = snd s ++ new
    /\ match fst (fst res) with
       | OW_OK =>
           snd (fst res) <> None
           /\ mallocs new = [usb_malloc] /\ frees new = []
       | OW_USB_ERROR_LIBUSB_INIT_FAILED =>
           snd (fst res) = None
           /\ (mallocs new = [] /\ frees new = []
               \/ mallocs new = [usb_malloc] /\ frees new = [usb_free])
       | _ =>
           snd (fst res) = None
           /\ mallocs new = [usb_malloc]
           /\ frees new = [usb_free; usb_free]
       end.
Proof.
  intros res. subst res.
  unfold ow_engine_init_from_libusb_device_descriptor, ubind, ucall,
    ucall_void, uret.
  destruct (libusb_set_option lib (fst s)) as [r0 h0]. unfold LIBUSB_SUCCESS.
  destruct (Z.eqb_spec r0 0) as [->|Hr0]; cbn [negb fst snd].
  2:{ exists [usb_set_option r0]. split; [reflexivity|].
      split; [reflexivity|]. left. split; reflexivity. }
  destruct (malloc_engine lib h0) as [e0 h1]. cbn [fst snd].
  destruct (libusb_init lib h1) as [r1 h2].
  destruct (Z.eqb_spec r1 0) as [->|Hr1]; cbn [negb fst snd].
  2:{ exists [usb_set_option 0; usb_malloc; usb_init r1; usb_free].
      split; [rewrite <- !app_assoc; reflexivity|].
      split; [reflexivity|]. right. split; reflexivity. }
  destruct (libusb_wrap_sys_device lib libusb_device_descriptor h2)
    as [[r2 handle] h3]. cbn [fst snd].
  destruct (Z.eqb_spec r2 0) as [->|Hr2]; cbn [negb fst snd].
  2:{ exists [usb_set_option 0; usb_malloc; usb_init 0;
              usb_wrap_sys_device libusb_device_descriptor r2; usb_free].
      split; [rewrite <- !app_assoc; reflexivity|].
      split; [reflexivity|]. right. split; reflexivity. }
  destruct (libusb_get_device_descriptor lib (libusb_get_device lib handle) h3)
    as [[r3 [vid pid]] h4]. cbn [fst snd].
  match goal with
  | |- context [ow_engine_init lib handle ?e1 blocks ?s1] =>
      destruct (ow_engine_init_spec handle e1 blocks s1)
        as (cfg & tail & Hlog & [Hshape Hstop] & Hres);
      destruct (ow_engine_init lib handle e1 blocks s1) as [[r eo] [h5 l5]]
  end.
  cbn [fst snd] in Hlog, Hstop, Hres |- *. subst l5.
  destruct (configuration_calls cfg Hshape) as (Hcf & _ & Hcm & _).
  destruct Hres as [(-> & -> & ->)|(Hne & -> & ->)].
  - exists ([usb_set_option 0; usb_malloc; usb_init 0;
             usb_wrap_sys_device libusb_device_descriptor 0;
             usb_get_device_descriptor (libusb_get_device lib handle) r3]
            ++ cfg ++ []).
    cbn [fst snd]. split; [rewrite <- !app_assoc; reflexivity|].
    rewrite !mallocs_app, !frees_app, Hcf, Hcm.
    split; [discriminate|]. split; reflexivity.
  - destruct Hstop as [(Hok & _)|(ok & bad & _ & _ & _ & Hr & _)];
      [contradiction|].
    assert (Hlog5 :
      exists new,
        ((((((snd s ++ [usb_set_option 0]) ++ [usb_malloc]) ++ [usb_init 0])
            ++ [usb_wrap_sys_device libusb_device_descriptor 0])
           ++ [usb_get_device_descriptor (libusb_get_device lib handle) r3])
          ++ cfg ++ [usb_close; usb_exit; usb_free]) ++ [usb_free]
        = snd s ++ new
        /\ mallocs new = [usb_malloc]
        /\ frees new = [usb_free; usb_free]).
    { exists ([usb_set_option 0; usb_malloc; usb_init 0;
               usb_wrap_sys_device libusb_device_descriptor 0;
               usb_get_device_descriptor (libusb_get_device lib handle) r3]
              ++ cfg ++ [usb_close; usb_exit; usb_free; usb_free]).
      split; [rewrite <- !app_assoc; reflexivity|].
      rewrite !mallocs_app, !frees_app, Hcf, Hcm. split; reflexivity. }
    destruct Hlog5 as (new & Hnew & Hmal & Hfree).
    destruct r; try contradiction; cbn [fst snd];
      try (exists new; split; [exact Hnew|];
           split; [reflexivity|]; split; assumption);
      destruct bad; discriminate.
Qed.

End UsbInitProperties.

(** ** The start of the workers *)

Section ActivationThreads.

Context {H : Type}.
Variable env : environment H.

(** The engine that the checks leave when they all pass. *)
Lemma activate_checks_engine (ctx : ow_context H) (e : ow_engine) :
  fst (activate_checks ctx e) = OW_OK ->
  snd (activate_checks ctx e)
  = (if option_enabled ctx OW_ENGINE_OPTION_DLL
     then set_status OW_ENGINE_STATUS_READY (set_options (masked_options ctx) e)
     else set_options (masked_options ctx) e).
Proof.
  unfold activate_checks. destruct (ctx_options ctx =? 0); [discriminate|].
  unfold and_then, activate_o2p_audio, activate_p2o_audio, activate_o2p_midi,
    activate_p2o_midi, activate_dll, option_enabled, masked_options.
  cbn [options set_options o2p_audio p2o_audio o2p_midi p2o_midi dll].
  repeat match goal with
         | |- context [if ?b then _ else _] =>
             destruct b eqn:?; cbn [negb fst snd]; try discriminate
         end;
    intros _; reflexivity.
Qed.

Lemma start_thread_logs (ctx : ow_context H) (t : thread_id) (w : world H) :
  exists r w',
    start_thread env (default_rt_priority env ctx) t w = Some (r =? 0, w')
    /\ r = fst (pthread_create env t (host w))
    /\ log w' = log w
                ++ (if r =? 0
                    then start_calls t
                           (ctx_priority (default_rt_priority env ctx))
                    else [call_pthread_create t r]).
Proof.
  unfold start_thread, bind, create_thread.
  destruct (pthread_create env t (host w)) as [r h]. cbn [fst].
  destruct (Z.eqb_spec r 0) as [->|Hr].
  - unfold set_rt_priority, default_rt_priority.
    destruct (ctx_set_rt_priority ctx) as [g|] eqn:Eg.
    + rewrite Eg. eexists 0, _. split; [reflexivity|]. split; [reflexivity|].
      cbn [log emit Z.eqb]. rewrite <- app_assoc. reflexivity.
    + cbn [ctx_set_rt_priority]. eexists 0, _.
      split; [reflexivity|]. split; [reflexivity|].
      cbn [log emit Z.eqb ctx_priority]. rewrite <- app_assoc. reflexivity.
  - exists r. destruct (Z.eqb_spec r 0); [contradiction|].
    eexists. split; [reflexivity|]. split; reflexivity.
Qed.

(** What activation does after the checks have passed: the two starts,
    in order, the second only if the first did not fail. *)
Lemma activation_starts (ctx : ow_context H) (e : ow_engine) (w : world H) :
  missing_per_code ctx = false ->
  let ctx' := default_rt_priority env ctx in
  let e' := if option_enabled ctx OW_ENGINE_OPTION_DLL
            then set_status OW_ENGINE_STATUS_READY
                   (set_options (masked_options ctx) e)
            else set_options (masked_options ctx) e in
  exists r1 r2 w1 w2,
    ow_engine_activate env ctx e w
    = Some (if (r1 =? 0) && (r2 =? 0) then OW_OK else OW_GENERIC_ERROR,
            e', ctx', w2)
    /\ (if option_enabled ctx OW_ENGINE_OPTION_P2O_MIDI
        then r1 = fst (pthread_create env p2o_midi_thread (host w))
             /\ log w1 = log w
                  ++ (if r1 =? 0
                      then start_calls p2o_midi_thread (ctx_priority ctx')
                      else [call_pthread_create p2o_midi_thread r1])
        else r1 = 0 /\ w1 = w)
    /\ (if (r1 =? 0) && audio_worker_wanted ctx
        then r2 = fst (pthread_create env audio_o2p_midi_thread (host w1))
             /\ log w2 = log w1
                  ++ (if r2 =? 0
                      then start_calls audio_o2p_midi_thread (ctx_priority ctx')
                      else [call_pthread_create audio_o2p_midi_thread r2])
        else r2 = 0 /\ w2 = w1).
Proof.
  intros Hok ctx' e'. apply (activate_checks_ok_iff ctx e) in Hok.
  pose proof (activate_checks_engine ctx e Hok) as He.
  unfold ow_engine_activate.
  destruct (activate_checks ctx e) as [err e1]. cbn [fst snd] in Hok, He.
  subst err. fold e' in He. subst e1. fold ctx'.
  assert (Hopts : options e' = masked_options ctx).
  { subst e'. destruct (option_enabled ctx OW_ENGINE_OPTION_DLL); reflexivity. }
  rewrite Hopts. cbn [p2o_midi o2p_midi o2p_audio p2o_audio masked_options].
  unfold audio_worker_wanted, option_enabled.
  unfold bind at 1.
  destruct (Z.land (ctx_options ctx) OW_ENGINE_OPTION_P2O_MIDI =? 0) eqn:Ep.
  - cbn [negb ret].
    destruct ((Z.land (ctx_options ctx) OW_ENGINE_OPTION_O2P_MIDI =? 0)
              && (Z.land (ctx_options ctx) OW_ENGINE_OPTION_O2P_AUDIO =? 0)
              && (Z.land (ctx_options ctx) OW_ENGINE_OPTION_P2O_AUDIO =? 0))
      eqn:Ea.
    + exists 0, 0, w, w. unfold bind, ret. cbn [negb andb Z.eqb].
      split; [reflexivity|]. split; [split; reflexivity|].
      apply andb_true_iff in Ea. destruct Ea as [Ea Ea3].
      apply andb_true_iff in Ea. destruct Ea as [Ea1 Ea2].
      rewrite Ea1, Ea2, Ea3. cbn [negb orb]. split; reflexivity.
    + destruct (start_thread_logs ctx audio_o2p_midi_thread w)
        as (r2 & w2 & Hrun & Hr2 & Hlog).
      exists 0, r2, w, w2. unfold bind at 1. fold ctx' in Hrun. rewrite Hrun.
      cbn [andb Z.eqb]. split.
      { destruct (r2 =? 0); reflexivity. }
      split; [split; reflexivity|].
      assert (Hw : negb (Z.land (ctx_options ctx) OW_ENGINE_OPTION_O2P_MIDI =? 0)
                   || negb (Z.land (ctx_options ctx) OW_ENGINE_OPTION_O2P_AUDIO =? 0)
                   || negb (Z.land (ctx_options ctx) OW_ENGINE_OPTION_P2O_AUDIO =? 0)
                   = true).
      { destruct (Z.land (ctx_options ctx) OW_ENGINE_OPTION_O2P_MIDI =? 0),
          (Z.land (ctx_options ctx) OW_ENGINE_OPTION_O2P_AUDIO =? 0),
          (Z.land (ctx_options ctx) OW_ENGINE_OPTION_P2O_AUDIO =? 0);
          cbn in *; congruence. }
      rewrite Hw. split; [exact Hr2|exact Hlog].
  - cbn [negb].
    destruct (start_thread_logs ctx p2o_midi_thread w)
      as (r1 & w1 & Hrun1 & Hr1 & Hlog1).
    fold ctx' in Hrun1. rewrite Hrun1.
    destruct (Z.eqb_spec r1 0) as [Hz|Hnz]; cbn [negb andb].
    + destruct ((Z.land (ctx_options ctx) OW_ENGINE_OPTION_O2P_MIDI =? 0)
                && (Z.land (ctx_options ctx) OW_ENGINE_OPTION_O2P_AUDIO =? 0)
                && (Z.land (ctx_options ctx) OW_ENGINE_OPTION_P2O_AUDIO =? 0))
        eqn:Ea.
      * exists r1, 0, w1, w1. unfold bind, ret. cbn [negb].
        destruct (Z.eqb_spec r1 0) as [_|]; [|contradiction]. cbn [andb Z.eqb].
        split; [reflexivity|]. split; [split; [exact Hr1|exact Hlog1]|].
        apply andb_true_iff in Ea. destruct Ea as [Ea Ea3].
        apply andb_true_iff in Ea. destruct Ea as [Ea1 Ea2].
        rewrite Ea1, Ea2, Ea3. cbn [negb orb]. split; reflexivity.
      * destruct (start_thread_logs ctx audio_o2p_midi_thread w1)
          as (r2 & w2 & Hrun2 & Hr2 & Hlog2).
        exists r1, r2, w1, w2. unfold bind at 1. fold ctx' in Hrun2.
        rewrite Hrun2.
        destruct (Z.eqb_spec r1 0) as [_|]; [|contradiction]. cbn [andb].
        split.
        { destruct (r2 =? 0); reflexivity. }
        split; [split; [exact Hr1|exact Hlog1]|].
        assert (Hw : negb (Z.land (ctx_options ctx) OW_ENGINE_OPTION_O2P_MIDI =? 0)
                     || negb (Z.land (ctx_options ctx) OW_ENGINE_OPTION_O2P_AUDIO =? 0)
                     || negb (Z.land (ctx_options ctx) OW_ENGINE_OPTION_P2O_AUDIO =? 0)
                     = true).
        { destruct (Z.land (ctx_options ctx) OW_ENGINE_OPTION_O2P_MIDI =? 0),
            (Z.land (ctx_options ctx) OW_ENGINE_OPTION_O2P_AUDIO =? 0),
            (Z.land (ctx_options ctx) OW_ENGINE_OPTION_P2O_AUDIO =? 0);
            cbn in *; congruence. }
        rewrite Hw. split; [exact Hr2|exact Hlog2].
    + exists r1, 0, w1, w1. cbn [ret].
      destruct (Z.eqb_spec r1 0) as [|_]; [contradiction|]. cbn [andb].
      split; [reflexivity|]. split; [split; [exact Hr1|exact Hlog1]|].
      split; reflexivity.
Qed.

(** X24: when the checks pass and the thread library creates every
    thread, activation returns [OW_OK] and starts exactly the workers that
    the options ask for: first the MIDI worker if P2O_MIDI is set, then the
    audio worker if O2P_MIDI, O2P_AUDIO or P2O_AUDIO is set, each followed by
    one call of the priority setter.  The setter and the priority are those
    of the context, or [ow_set_thread_rt_priority] with the default
    priority when the context gives no setter.  The engine gets the five
    option bits, each masked on its own, and the status READY if the DLL is
    enabled; otherwise the status is not touched. *)
Theorem activation_starts_the_workers_asked_for (ctx : ow_context H)
    (e : ow_engine) (w : world H) :
  missing_per_code ctx = false ->
  (forall t h, fst (pthread_create env t h) = 0) ->
  let ctx' := default_rt_priority env ctx in
  let prio := if is_null (ctx_set_rt_priority ctx) then OW_DEFAULT_RT_PROPERTY
              else ctx_priority ctx in
  exists e' w',
    ow_engine_activate env ctx e w = Some (OW_OK, e', ctx', w')
    /\ options e' = masked_options ctx
    /\ status e' = (if option_enabled ctx OW_ENGINE_OPTION_DLL
                    then OW_ENGINE_STATUS_READY else status e)
    /\ ctx_priority ctx' = prio
    /\ log w' = log w
         ++ (if option_enabled ctx OW_ENGINE_OPTION_P2O_MIDI
             then start_calls p2o_midi_thread prio else [])
         ++ (if audio_worker_wanted ctx
             then start_calls audio_o2p_midi_thread prio else []).
Proof.
  intros Hok Hcreate ctx' prio.
  destruct (activation_starts ctx e w Hok)
    as (r1 & r2 & w1 & w2 & Hrun & Hfirst & Hsecond).
  assert (Hprio : ctx_priority ctx' = prio).
  { subst ctx' prio. unfold default_rt_priority, is_null.
    destruct (ctx_set_rt_priority ctx); reflexivity. }
  fold ctx' in Hrun, Hfirst, Hsecond. rewrite Hprio in Hfirst, Hsecond.
  assert (H1 : r1 = 0).
  { destruct (option_enabled ctx OW_ENGINE_OPTION_P2O_MIDI);
      destruct Hfirst as [-> _]; [apply Hcreate|reflexivity]. }
  subst r1. cbn [Z.eqb andb] in Hrun, Hfirst, Hsecond.
  assert (H2 : r2 = 0).
  { destruct (audio_worker_wanted ctx);
      destruct Hsecond as [-> _]; [apply Hcreate|reflexivity]. }
  subst r2. cbn [Z.eqb] in Hrun, Hsecond.
  eexists _, w2. split; [exact Hrun|].
  split; [destruct (option_enabled ctx OW_ENGINE_OPTION_DLL); reflexivity|].
  split; [destruct (option_enabled ctx OW_ENGINE_OPTION_DLL); reflexivity|].
  split; [exact Hprio|].
  destruct (option_enabled ctx OW_ENGINE_OPTION_P2O_MIDI),
    (audio_worker_wanted ctx);
    destruct Hfirst as [_ Hw1], Hsecond as [_ Hw2]; subst;
    rewrite ?Hw2, ?Hw1, ?app_nil_r, <- ?app_assoc; reflexivity.
Qed.

(** X25: when the checks pass, activation fails only through
    [pthread_create], returns [OW_GENERIC_ERROR] right after the creation
    that failed and undoes nothing.  If it is the MIDI worker that cannot
    be created, no other call is made.  If it is the audio worker, the MIDI
    worker, when the options asked for it, has been created and given its
    priority before and is left running: nothing is joined and the status
    is not changed. *)
Theorem activation_stops_at_failed_create (ctx : ow_context H)
    (e : ow_engine) (w : world H) :
  missing_per_code ctx = false ->
  let ctx' := default_rt_priority env ctx in
  exists err e' w' new,
    ow_engine_activate env ctx e w = Some (err, e', ctx', w')
    /\ log w' = log w ++ new
    /\ joins new = []
    /\ status e' = (if option_enabled ctx OW_ENGINE_OPTION_DLL
                    then OW_ENGINE_STATUS_READY else status e)
    /\ (err = OW_OK
        /\ Forall (fun c => forall t r, c = call_pthread_create t r -> r = 0) new
        \/ err = OW_GENERIC_ERROR
           /\ exists before t r,
                new = before ++ [call_pthread_create t r]
                /\ r <> 0
                /\ (t = p2o_midi_thread /\ before = []
                    \/ t = audio_o2p_midi_thread
                       /\ before
                          = if option_enabled ctx OW_ENGINE_OPTION_P2O_MIDI
                            then start_calls p2o_midi_thread (ctx_priority ctx')
                            else [])).
Proof.
  intros Hok ctx'.
  destruct (activation_starts ctx e w Hok)
    as (r1 & r2 & w1 & w2 & Hrun & Hfirst & Hsecond).
  fold ctx' in Hrun, Hfirst, Hsecond.
  assert (Hst : status (if option_enabled ctx OW_ENGINE_OPTION_DLL
                        then set_status OW_ENGINE_STATUS_READY
                               (set_options (masked_options ctx) e)
                        else set_options (masked_options ctx) e)
                = (if option_enabled ctx OW_ENGINE_OPTION_DLL
                   then OW_ENGINE_STATUS_READY else status e)).
  { destruct (option_enabled ctx OW_ENGINE_OPTION_DLL); reflexivity. }
  assert (Hcalls : forall t p,
            Forall (fun c => forall t0 r, c = call_pthread_create t0 r -> r = 0)
              (start_calls t p)).
  { intros t p. unfold start_calls. constructor; [|constructor; [|constructor]].
    - intros t0 r Heq. injection Heq as _ <-. reflexivity.
    - intros t0 r Heq. discriminate. }
  destruct (option_enabled ctx OW_ENGINE_OPTION_P2O_MIDI) eqn:Emidi.
  - destruct Hfirst as [Hr1 Hlog1].
    destruct (Z.eqb_spec r1 0) as [Hz1|Hnz1]; cbn [andb] in Hrun, Hsecond.
    + destruct (audio_worker_wanted ctx).
      * destruct Hsecond as [Hr2 Hlog2].
        destruct (Z.eqb_spec r2 0) as [Hz2|Hnz2].
        -- eexists _, _, _, _. split; [exact Hrun|].
           split; [rewrite Hlog2, Hlog1, <- app_assoc; reflexivity|].
           split; [reflexivity|]. split; [exact Hst|]. left.
           split; [reflexivity|]. apply Forall_app. split; apply Hcalls.
        -- eexists _, _, _, _. split; [exact Hrun|].
           split; [rewrite Hlog2, Hlog1, <- app_assoc; reflexivity|].
           split; [reflexivity|]. split; [exact Hst|]. right.
           split; [reflexivity|]. eexists _, _, r2.
           split; [reflexivity|]. split; [exact Hnz2|]. right.
           split; reflexivity.
      * destruct Hsecond as [-> ->]. eexists _, _, _, _. split; [exact Hrun|].
        split; [exact Hlog1|]. split; [reflexivity|]. split; [exact Hst|].
        left. split; [reflexivity|]. apply Hcalls.
    + destruct Hsecond as [-> ->]. eexists _, _, _, _. split; [exact Hrun|].
      split; [exact Hlog1|]. split; [reflexivity|]. split; [exact Hst|].
      right. split; [reflexivity|]. exists [], p2o_midi_thread, r1.
      split; [reflexivity|]. split; [exact Hnz1|]. left. split; reflexivity.
  - destruct Hfirst as [-> ->]. cbn [Z.eqb andb] in Hrun, Hsecond.
    destruct (audio_worker_wanted ctx).
    + destruct Hsecond as [Hr2 Hlog2].
      destruct (Z.eqb_spec r2 0) as [Hz2|Hnz2].
      * eexists _, _, _, _. split; [exact Hrun|]. split; [exact Hlog2|].
        split; [reflexivity|]. split; [exact Hst|]. left.
        split; [reflexivity|]. apply Hcalls.
      * eexists _, _, _, _. split; [exact Hrun|]. split; [exact Hlog2|].
        split; [reflexivity|]. split; [exact Hst|]. right.
        split; [reflexivity|]. exists [], audio_o2p_midi_thread, r2.
        split; [reflexivity|]. split; [exact Hnz2|]. right. split; reflexivity.
    + destruct Hsecond as [-> ->]. eexists _, _, _, []. split; [exact Hrun|].
      split; [rewrite app_nil_r; reflexivity|]. split; [reflexivity|].
      split; [exact Hst|]. left. split; [reflexivity|]. constructor.
Qed.

End ActivationThreads.

Lemma activation_starts_the_workers_asked_for_witness :
  let ctx := sim_context o2p_audio_and_p2o_midi 0 in
  let e := sim_engine 2 in
  let w := sim_world F32.one 4096 in
  let ctx' := default_rt_priority sim_env ctx in
  let prio := if is_null (ctx_set_rt_priority ctx) then OW_DEFAULT_RT_PROPERTY
              else ctx_priority ctx in
  exists e' w',
    ow_engine_activate sim_env ctx e w = Some (OW_OK, e', ctx', w')
    /\ options e' = masked_options ctx
    /\ status e' = (if option_enabled ctx OW_ENGINE_OPTION_DLL
                    then OW_ENGINE_STATUS_READY else status e)
    /\ ctx_priority ctx' = prio
    /\ log w' = log w
         ++ (if option_enabled ctx OW_ENGINE_OPTION_P2O_MIDI
             then start_calls p2o_midi_thread prio else [])
         ++ (if audio_worker_wanted ctx
             then start_calls audio_o2p_midi_thread prio else []).
Proof.
  apply (activation_starts_the_workers_asked_for sim_env
           (sim_context o2p_audio_and_p2o_midi 0) (sim_engine 2)
           (sim_world F32.one 4096)).
  - reflexivity.
  - intros t h. reflexivity.
Defined.

Lemma activation_stops_at_failed_create_witness :
  let ctx := sim_context o2p_audio_and_p2o_midi 0 in
  let e := sim_engine 2 in
  let w := sim_world F32.one 4096 in
  let ctx' := default_rt_priority half_started_env ctx in
  exists err e' w' new,
    ow_engine_activate half_started_env ctx e w = Some (err, e', ctx', w')
    /\ log w' = log w ++ new
    /\ joins new = []
    /\ status e' = (if option_enabled ctx OW_ENGINE_OPTION_DLL
                    then OW_ENGINE_STATUS_READY else status e)
    /\ (err = OW_OK
        /\ Forall (fun c => forall t r, c = call_pthread_create t r -> r = 0) new
        \/ err = OW_GENERIC_ERROR
           /\ exists before t r,
                new = before ++ [call_pthread_create t r]
                /\ r <> 0
                /\ (t = p2o_midi_thread /\ before = []
                    \/ t = audio_o2p_midi_thread
                       /\ before
                          = if option_enabled ctx OW_ENGINE_OPTION_P2O_MIDI
                            then start_calls p2o_midi_thread (ctx_priority ctx')
                            else [])).
Proof.
  apply (activation_stops_at_failed_create half_started_env
           (sim_context o2p_audio_and_p2o_midi 0) (sim_engine 2)
           (sim_world F32.one 4096)).
  reflexivity.
Defined.

(** ** The tick of the DLL *)

Section DllTick.

Context {H : Type}.
Variable env : environment H.

(** X26: every call of the audio input handler ticks the DLL exactly
    once when the context has one, whatever the status: its first two
    calls are [get_time] and [ow_dll_overwitch_inc] with the DLL of the
    context, [frames_per_transfer] and the time just read, and neither is
    called again.  Without a DLL neither is called at all. *)
Theorem input_handler_ticks_dll (ctx : ow_context H) (e : ow_engine)
    (w : world H) :
  ctx_read_space ctx <> None ->
  ctx_write_space ctx <> None ->
  ctx_write ctx <> None ->
  (ctx_dll ctx <> 0 -> ctx_get_time ctx <> None) ->
  exists e' w' new,
    set_usb_input_data_blks env ctx e w = Some (e', w')
    /\ log w' = log w ++ new
    /\ (if ctx_dll ctx =? 0 then get_times new = [] /\ dll_incs new = []
        else exists t rest,
          new = call_get_time t
                :: call_dll_inc (ctx_dll ctx) (frames_per_transfer e) t :: rest
          /\ get_times rest = [] /\ dll_incs rest = []).
Proof.
  intros Hrs Hws Hwr Hdll.
  assert (Hrest : forall w1, exists e' w' rest,
    (let st := status e in
     let e0 := ow_engine_read_usb_input_blocks e in
     if status_val st <? status_val OW_ENGINE_STATUS_RUN then ret e0
     else
       bind (read_space ctx (ctx_o2p_audio ctx)) (fun l =>
       let e1 := set_o2p_latencies l
                   (if o2p_max_latency e0 <? l then l else o2p_max_latency e0)
                   e0 in
       bind (write_space ctx (ctx_o2p_audio ctx)) (fun wso2p =>
       if o2p_transfer_size e1 <=? wso2p
       then bind (write ctx (ctx_o2p_audio ctx) (Audio (o2p_transfer_buf e1))
                    (o2p_transfer_size e1)) (fun _ => ret e1)
       else ret e1))) w1 = Some (e', w')
    /\ log w' = log w1 ++ rest
    /\ get_times rest = [] /\ dll_incs rest = []).
  { intros w1. cbv zeta.
    destruct (status_val (status e) <? status_val OW_ENGINE_STATUS_RUN).
    { eexists _, w1, []. rewrite app_nil_r. repeat split; reflexivity. }
    unfold bind, read_space, write_space, write.
    destruct (ctx_read_space ctx) as [rs|]; [|congruence].
    destruct (ctx_write_space ctx) as [ws|]; [|congruence].
    destruct (ctx_write ctx) as [wr|]; [|congruence].
    destruct (rs (ctx_o2p_audio ctx) (host w1)) as [l h2].
    cbn [host emit log].
    destruct (ws (ctx_o2p_audio ctx) h2) as [space h3].
    destruct (o2p_transfer_size _ <=? space).
    - cbn [host emit log]. destruct (wr _ _ _ h3) as [n h4].
      eexists _, _, [_; _; _]. split; [reflexivity|].
      split; [cbn [log emit]; rewrite <- !app_assoc; reflexivity|].
      split; reflexivity.
    - eexists _, _, [_; _]. split; [reflexivity|].
      split; [cbn [log emit]; rewrite <- !app_assoc; reflexivity|].
      split; reflexivity. }
  unfold set_usb_input_data_blks.
  destruct (Z.eqb_spec (ctx_dll ctx) 0) as [Hz|Hnz].
  - unfold bind at 1. cbn [ret].
    destruct (Hrest w) as (e' & w' & rest & Hrun & Hlog & Hgt & Hinc).
    exists e', w', rest. cbv zeta in Hrun. split; [exact Hrun|].
    split; [exact Hlog|]. split; assumption.
  - specialize (Hdll Hnz). unfold bind at 1 2, get_time, dll_inc.
    destruct (ctx_get_time ctx) as [g|]; [|congruence].
    destruct (g (host w)) as [t h1].
    destruct (Hrest (emit (call_dll_inc (ctx_dll ctx) (frames_per_transfer e) t)
                       (ow_dll_overwitch_inc env (ctx_dll ctx)
                          (frames_per_transfer e) t
                          (host (emit (call_get_time t) h1 w)))
                       (emit (call_get_time t) h1 w)))
      as (e' & w' & rest & Hrun & Hlog & Hgt & Hinc).
    exists e', w', (call_get_time t
                    :: call_dll_inc (ctx_dll ctx) (frames_per_transfer e) t
                    :: rest).
    cbv zeta in Hrun. split; [exact Hrun|].
    split; [rewrite Hlog; cbn [log emit]; rewrite <- !app_assoc; reflexivity|].
    exists t, rest. repeat split; assumption.
Qed.

End DllTick.

Lemma input_handler_ticks_dll_witness :
  exists e' w' new,
    set_usb_input_data_blks sim_env dll_context sim_waiting
      (sim_world F32.one 4096) = Some (e', w')
    /\ log w' = log (sim_world F32.one 4096) ++ new
    /\ (if ctx_dll dll_context =? 0 then get_times new = [] /\ dll_incs new = []
        else exists t rest,
          new = call_get_time t
                :: call_dll_inc (ctx_dll dll_context)
                     (frames_per_transfer sim_waiting) t :: rest
          /\ get_times rest = [] /\ dll_incs rest = []).
Proof.
  apply (input_handler_ticks_dll sim_env dll_context sim_waiting
           (sim_world F32.one 4096)); discriminate.
Defined.

(** ** The transfer as the device reads it *)

Lemma testbit_bswap_16 (x n : Z) :
  Z.testbit (bswap_16 x) n =
  if n <? 0 then false
  else if n <? 8 then Z.testbit x (n + 8)
  else if n <? 16 then Z.testbit x (n - 8)
  else false.
Proof.
  destruct (Z.ltb_spec n 0) as [Hneg|Hn]; [apply Z.testbit_neg_r; assumption|].
  unfold bswap_16. rewrite !Z.lor_spec, !Z.shiftl_spec, !testbit_byte_of by lia.
  split_ltb;
    rewrite ?andb_false_r, ?andb_true_r, ?orb_false_r, ?orb_false_l;
    try reflexivity; f_equal; lia.
Qed.

Lemma bswap_16_involutive (x : Z) : 0 <= x < 2 ^ 16 -> bswap_16 (bswap_16 x) = x.
Proof.
  intros Hx. apply Z.bits_inj'. intros n Hn.
  rewrite testbit_bswap_16. split_ltb;
    try (rewrite testbit_bswap_16; split_ltb; f_equal; lia).
  symmetry. apply Z.bits_above_log2; [lia|].
  destruct (Z.eq_dec x 0) as [->|]; [simpl; lia|].
  assert (Z.log2 x < 16) by (apply Z.log2_lt_pow2; lia). lia.
Qed.

Lemma bswap_16_range (x : Z) : 0 <= bswap_16 x < 2 ^ 16.
Proof.
  assert (Hnn : 0 <= bswap_16 x).
  { apply Z.bits_iff_nonneg_ex. exists 16. intros m Hm.
    rewrite testbit_bswap_16. split_ltb; reflexivity. }
  split; [assumption|].
  destruct (Z.eq_dec (bswap_16 x) 0) as [->|Hnz]; [lia|].
  apply Z.log2_lt_pow2; [lia|].
  destruct (Z.lt_ge_cases (Z.log2 (bswap_16 x)) 16) as [|Hge]; [assumption|].
  exfalso. pose proof (Z.bit_log2 (bswap_16 x) ltac:(lia)) as Hbit.
  rewrite testbit_bswap_16 in Hbit.
  repeat match type of Hbit with
         | context [?a <? ?b] => destruct (Z.ltb_spec a b); try lia
         end; discriminate.
Qed.

Lemma be16_round_trip (x : Z) : be16toh (htobe16 x) = to_uint16 x.
Proof.
  unfold be16toh, htobe16.
  assert (Hr : to_uint16 (bswap_16 (to_uint16 x)) = bswap_16 (to_uint16 x)).
  { unfold to_uint16 at 1. apply Z.mod_small. apply bswap_16_range. }
  rewrite Hr. apply bswap_16_involutive. unfold to_uint16.
  apply Z.mod_pos_bound. lia.
Qed.

(** X27: the device, which reads the words of a block as big-endian,
    finds in block [n] of an outgoing transfer the header 0x07FF, the frame
    counter of the block (the counter before the transfer plus seven per
    block, modulo 2^16) and, as sample [q], the integer that the encoder
    computed from the float at position [n * m + q], [m] being the
    samples per block. *)
Theorem device_reads_what_the_encoder_meant (e : ow_engine) :
  output_ready e ->
  let e' := ow_engine_write_usb_output_blocks e in
  let m := (7 * Z.to_nat (inputs (device_desc e)))%nat in
  forall n : nat, (n < Z.to_nat (blocks_per_transfer e))%nat ->
    be16toh (header (data_out (usb e') !!! n)) = 2047
    /\ be16toh (frames (data_out (usb e') !!! n))
       = (usb_frames (usb e) + OB_FRAMES_PER_BLOCK * Z.of_nat n) mod 2 ^ 16
    /\ forall q : nat, (q < m)%nat ->
         (q < length (data (data_out (usb e) !!! n)))%nat ->
         exists s,
           data (data_out (usb e') !!! n) !! q = Some s
           /\ to_int32 (be32toh s)
              = F32.to_int32
                  (F32.mul (p2o_transfer_buf e !!! (n * m + q)%nat)
                     (F32.of_int INT_MAX)).
Proof.
  intros (Hpos & Hlen & Hrange & Hhdr) e' m n Hn. subst e' m.
  destruct (write_blocks_counter e Hrange)
    as (_ & _ & _ & _ & _ & Hhd & Hframes).
  fold (ow_engine_write_usb_output_blocks e) in Hhd, Hframes.
  pose proof (encoder_blocks_samples e) as Hdone.
  split.
  { rewrite Hhd.
    rewrite (Forall_lookup_total_1 (fun b => header b = htobe16 2047) _ n Hhdr)
      by lia.
    rewrite be16_round_trip. reflexivity. }
  split.
  { rewrite (Hframes n Hn ltac:(lia)), be16_round_trip. unfold to_uint16.
    f_equal. lia. }
  intros q Hq Hqlen.
  destruct (Hdone n Hn ltac:(lia)) as [_ Hat].
  eexists. split; [apply (Hat q); [unfold out_block_samples; lia|exact Hqlen]|].
  fold (encode_sample
          (p2o_transfer_buf e !!! (n * out_block_samples e + q)%nat)).
  unfold encode_sample.
  rewrite be32_round_trip by apply f32_to_int32_range.
  unfold out_block_samples.
  replace (n * (7 * (Z.to_nat (inputs (device_desc e)) * 1)) + q)%nat
    with (n * (7 * Z.to_nat (inputs (device_desc e))) + q)%nat by lia.
  reflexivity.
Qed.

Lemma device_reads_what_the_encoder_meant_witness :
  let e := sim_engine 2 in
  let e' := ow_engine_write_usb_output_blocks e in
  let m := (7 * Z.to_nat (inputs (device_desc e)))%nat in
  output_ready e
  /\ (1 < Z.to_nat (blocks_per_transfer e))%nat
  /\ be16toh (header (data_out (usb e') !!! 1%nat)) = 2047
  /\ be16toh (frames (data_out (usb e') !!! 1%nat))
     = (usb_frames (usb e) + OB_FRAMES_PER_BLOCK * Z.of_nat 1) mod 2 ^ 16
  /\ forall q : nat, (q < m)%nat ->
       (q < length (data (data_out (usb e) !!! 1%nat)))%nat ->
       exists s,
         data (data_out (usb e') !!! 1%nat) !! q = Some s
         /\ to_int32 (be32toh s)
            = F32.to_int32
                (F32.mul (p2o_transfer_buf e !!! (1 * m + q)%nat)
                   (F32.of_int INT_MAX)).
Proof.
  assert (Hready : output_ready (sim_engine 2)).
  { unfold output_ready. split; [simpl; lia|]. split; [reflexivity|].
    split; [simpl; lia|]. repeat constructor. }
  assert (Hn : (1 < Z.to_nat (blocks_per_transfer (sim_engine 2)))%nat).
  { simpl. lia. }
  split; [exact Hready|]. split; [exact Hn|].
  exact (device_reads_what_the_encoder_meant (sim_engine 2) Hready 1%nat Hn).
Defined.
